(** * A copy-on-write B+tree over fixed-size pages

    Shallow embedding of [database/btree/btree.go] and of the in-memory page
    table that backs it in the tests, together with the properties of the
    page codec and of the tree engine.

    A node is a Go byte slice.  It is modelled by its backing array from the
    first byte of the slice up to the capacity, and by its length: Go checks
    [node[p:]] against the length, and [node[lo:hi]] and [s[:n]] against the
    capacity.  All index arithmetic of the source is on [uint16]; the
    wrap-around is written out with [u16]. *)

From Stdlib Require Import ZArith List Lia String.
From coqutil Require Import Byte Word.LittleEndianList.
From stdpp Require Import base option list strings gmap.

Local Open Scope Z_scope.

(** ** Outcomes *)

(** A Go call either returns, or stops the program: a failed [utils.Assert],
    a run-time bounds error, or [panic("bad node!")]. *)
Inductive fatal : Type :=
| AssertionFailed (msg : string)
| SliceBounds
| IndexRange
| BadNode.

(** [OutOfFuel] is not a Go outcome: it says that the loop or recursion
    budget given to the model was too small to decide what Go does. *)
Inductive result (A : Type) : Type :=
| Ok (a : A)
| Fatal (e : fatal)
| OutOfFuel.

Arguments Ok {A} a.
Arguments Fatal {A} e.
Arguments OutOfFuel {A}.

#[global] Instance result_ret : MRet result := fun A a => Ok a.
#[global] Instance result_bind : MBind result := fun A B f m =>
  match m with
  | Ok a => f a
  | Fatal e => Fatal e
  | OutOfFuel => OutOfFuel
  end.

(** Modelled from the spec: [utils.Assert] is called throughout but
    [utils/utils.go] does not define it.  The spec describes it as a fatal
    assertion that terminates the operation when the condition is false. *)
Definition Assert (cond : bool) (msg : string) : result unit :=
  if cond then Ok tt else Fatal (AssertionFailed msg).

(** ** Constants *)

Definition HEADER : Z := 4.
Definition BTREE_PAGE_SIZE : Z := 4096.
Definition BTREE_MAX_KEY_SIZE : Z := 1000.
Definition BTREE_MAX_VALUE_SIZE : Z := 3000.
Definition BNODE_NODE : Z := 1.
Definition BNODE_LEAF : Z := 2.

(** Arithmetic on [uint16] wraps around. *)
Definition u16 (z : Z) : Z := z mod 65536.

(** ** Byte slices *)

Record BNode : Type := mkBNode {
  arr : list byte;   (* backing array, from the slice start to the capacity *)
  len : Z            (* length of the slice *)
}.

Definition cap (node : BNode) : Z := Z.of_nat (length (arr node)).

(** [make([]byte, n)] *)
Definition make (n : Z) : BNode := mkBNode (replicate (Z.to_nat n) Byte.x00) n.

(** [BNode{}] *)
Definition empty_node : BNode := mkBNode [] 0.

(** [overwrite p src dst]: [dst] with the bytes of [src] written from
    position [p] on; bytes that would fall behind the end are dropped. *)
Fixpoint overwrite (p : nat) (src dst : list byte) : list byte :=
  match dst with
  | [] => []
  | d :: dst' =>
      match p with
      | S p' => d :: overwrite p' src dst'
      | O => match src with
             | [] => dst
             | s :: src' => s :: overwrite O src' dst'
             end
      end
  end.

(** [binary.LittleEndian.Uint16(node[pos:])] and its 64-bit sibling: the
    slice expression needs [pos <= len], the read needs [w] bytes. *)
Definition read_at (w : nat) (node : BNode) (pos : Z) : result Z :=
  if len node <? pos then Fatal SliceBounds
  else if len node - pos <? Z.of_nat w then Fatal IndexRange
  else Ok (le_combine (take w (drop (Z.to_nat pos) (arr node)))).

(** [binary.LittleEndian.PutUint16(node[pos:], v)] and its 64-bit sibling. *)
Definition write_at (w : nat) (node : BNode) (pos : Z) (v : Z) : result BNode :=
  if len node <? pos then Fatal SliceBounds
  else if len node - pos <? Z.of_nat w then Fatal IndexRange
  else Ok (mkBNode (overwrite (Z.to_nat pos) (le_split w v) (arr node)) (len node)).

(** [copy(node[pos:], src)]: copies [min(len(node) - pos, len(src))] bytes. *)
Definition copy_at (node : BNode) (pos : Z) (src : list byte) : result BNode :=
  if len node <? pos then Fatal SliceBounds
  else Ok (mkBNode (overwrite (Z.to_nat pos)
                      (take (Z.to_nat (len node - pos)) src) (arr node))
             (len node)).

(** [node[lo:hi]], read only. *)
Definition slice (node : BNode) (lo hi : Z) : result (list byte) :=
  if (hi <? lo) || (cap node <? hi) then Fatal SliceBounds
  else Ok (take (Z.to_nat (hi - lo)) (drop (Z.to_nat lo) (arr node))).

(** [node[pos:][:n]], read only: the first bound is checked against the
    length, the second against what is left of the capacity. *)
Definition slice_from_len (node : BNode) (pos n : Z) : result (list byte) :=
  if len node <? pos then Fatal SliceBounds
  else if cap node - pos <? n then Fatal SliceBounds
  else Ok (take (Z.to_nat n) (drop (Z.to_nat pos) (arr node))).

(** [node[:n]] *)
Definition reslice (node : BNode) (n : Z) : result BNode :=
  if cap node <? n then Fatal SliceBounds else Ok (mkBNode (arr node) n).

Definition blen (b : list byte) : Z := Z.of_nat (length b).

(** [bytes.Compare] and [bytes.Equal] *)
Fixpoint bytes_Compare (a b : list byte) : Z :=
  match a, b with
  | [], [] => 0
  | [], _ :: _ => -1
  | _ :: _, [] => 1
  | x :: a', y :: b' =>
      if byte.unsigned x <? byte.unsigned y then -1
      else if byte.unsigned y <? byte.unsigned x then 1
      else bytes_Compare a' b'
  end.

Fixpoint bytes_Equal (a b : list byte) : bool :=
  match a, b with
  | [], [] => true
  | x :: a', y :: b' => Byte.eqb x y && bytes_Equal a' b'
  | _, _ => false
  end.

(** ** The page codec *)

Definition btype (node : BNode) : result Z :=
  if cap node <? 2 then Fatal SliceBounds
  else Ok (le_combine (take 2 (arr node))).

Definition nkeys (node : BNode) : result Z :=
  if cap node <? 4 then Fatal SliceBounds
  else Ok (le_combine (take 2 (drop 2 (arr node)))).

Definition setHeader (node : BNode) (bt nk : Z) : result BNode :=
  if cap node <? 2 then Fatal SliceBounds
  else
    let node1 := mkBNode (overwrite 0 (le_split 2 bt) (arr node)) (len node) in
    if cap node1 <? 4 then Fatal SliceBounds
    else Ok (mkBNode (overwrite 2 (le_split 2 nk) (arr node1)) (len node1)).

Definition getPtr (node : BNode) (idx : Z) : result Z :=
  n ← nkeys node;
  _ ← Assert (idx <? n) "Try to read a out of bound pointer";
  read_at 8 node (u16 (HEADER + 8 * idx)).

Definition setPtr (node : BNode) (idx val : Z) : result BNode :=
  n ← nkeys node;
  _ ← Assert (idx <? n) "Try to write a out of bound pointer";
  write_at 8 node (u16 (HEADER + 8 * idx)) val.

(** [1 <= idx && idx <= node.nkeys()] reads the header only when [1 <= idx]. *)
Definition offsetPos (node : BNode) (idx : Z) : result Z :=
  inside ← (if 1 <=? idx then n ← nkeys node; Ok (idx <=? n) else Ok false);
  _ ← Assert inside "Try to read a out of bound offset position";
  n ← nkeys node;
  Ok (u16 (HEADER + 8 * n + 2 * (idx - 1))).

Definition getOffset (node : BNode) (idx : Z) : result Z :=
  if idx =? 0 then Ok 0
  else p ← offsetPos node idx; read_at 2 node p.

Definition setOffset (node : BNode) (idx offset : Z) : result BNode :=
  if idx =? 0 then Ok node
  else p ← offsetPos node idx; write_at 2 node p offset.

Definition kvPos (node : BNode) (idx : Z) : result Z :=
  n ← nkeys node;
  _ ← Assert (idx <=? n) "Try to read a out of bound key position";
  off ← getOffset node idx;
  Ok (u16 (HEADER + 8 * n + 2 * n + off)).

Definition getKey (node : BNode) (idx : Z) : result (list byte) :=
  n ← nkeys node;
  _ ← Assert (idx <? n) "Try to read a out of bound key";
  pos ← kvPos node idx;
  klen ← read_at 2 node pos;
  slice_from_len node (u16 (pos + 4)) klen.

Definition getVal (node : BNode) (idx : Z) : result (list byte) :=
  n ← nkeys node;
  _ ← Assert (idx <? n) "Try to read a out of bound val";
  pos ← kvPos node idx;
  klen ← read_at 2 node pos;
  vlen ← read_at 2 node (u16 (pos + 2));
  slice_from_len node (u16 (pos + 4 + klen)) vlen.

Definition nbytes (node : BNode) : result Z :=
  n ← nkeys node;
  kvPos node n.

(** ** Lookup *)

(** The loop of [nodeLookupLE].  On a node whose header claims more keys
    than a page can hold the 16-bit midpoint can wrap around, so the loop
    carries a budget. *)
Fixpoint nodeLookupLE_loop (fuel : nat) (node : BNode) (key : list byte)
    (left right found : Z) : result Z :=
  match fuel with
  | O => OutOfFuel
  | S fuel' =>
      if left <=? right then
        let mid := u16 (left + right) / 2 in
        k ← getKey node mid;
        if bytes_Compare k key <=? 0
        then nodeLookupLE_loop fuel' node key (u16 (mid + 1)) right mid
        else nodeLookupLE_loop fuel' node key left (u16 (mid - 1)) found
      else Ok found
  end.

Definition nodeLookupLE (fuel : nat) (node : BNode) (key : list byte) : result Z :=
  n ← nkeys node;
  nodeLookupLE_loop fuel node key 1 (u16 (n - 1)) 0.

(** ** Building nodes *)

(** [for i := uint16(0); i < n; i++ { new.setPtr(dstNew+i, old.getPtr(srcOld+i)) }] *)
Fixpoint copy_ptrs (fuel : nat) (new old : BNode) (dstNew srcOld n i : Z)
    : result BNode :=
  match fuel with
  | O => OutOfFuel
  | S fuel' =>
      if i <? n then
        v ← getPtr old (u16 (srcOld + i));
        new' ← setPtr new (u16 (dstNew + i)) v;
        copy_ptrs fuel' new' old dstNew srcOld n (u16 (i + 1))
      else Ok new
  end.

(** [for i := uint16(1); i <= n; i++ { ... new.setOffset(dstNew+i, offset) }] *)
Fixpoint copy_offsets (fuel : nat) (new old : BNode)
    (dstNew srcOld n dstBegin srcBegin i : Z) : result BNode :=
  match fuel with
  | O => OutOfFuel
  | S fuel' =>
      if i <=? n then
        o ← getOffset old (u16 (srcOld + i));
        new' ← setOffset new (u16 (dstNew + i)) (u16 (dstBegin + o - srcBegin));
        copy_offsets fuel' new' old dstNew srcOld n dstBegin srcBegin (u16 (i + 1))
      else Ok new
  end.

Definition nodeAppendRange (new old : BNode) (dstNew srcOld n : Z) : result BNode :=
  on ← nkeys old;
  _ ← Assert (u16 (srcOld + n) <=? on)
        "Try to append out of bound kids from older node";
  nn ← nkeys new;
  _ ← Assert (u16 (dstNew + n) <=? nn)
        "Try to append out of bound kids to new node";
  if n =? 0 then Ok new
  else
    new ← copy_ptrs (S (Z.to_nat n)) new old dstNew srcOld n 0;
    dstBegin ← getOffset new dstNew;
    srcBegin ← getOffset old srcOld;
    new ← copy_offsets (S (Z.to_nat n)) new old dstNew srcOld n dstBegin srcBegin 1;
    begin ← kvPos old srcOld;
    end_ ← kvPos old (u16 (srcOld + n));
    p ← kvPos new dstNew;
    _ ← (if len new <? p then Fatal SliceBounds else Ok tt);
    src ← slice old begin end_;
    copy_at new p src.

Definition nodeAppendKV (new : BNode) (idx ptr : Z) (key val : list byte)
    : result BNode :=
  new ← setPtr new idx ptr;
  pos ← kvPos new idx;
  new ← write_at 2 new (u16 (pos + 0)) (u16 (blen key));
  new ← write_at 2 new (u16 (pos + 2)) (u16 (blen val));
  new ← copy_at new (u16 (pos + 4)) key;
  new ← copy_at new (u16 (pos + 4 + u16 (blen key))) val;
  o ← getOffset new idx;
  setOffset new (u16 (idx + 1)) (u16 (o + 4 + u16 (blen key + blen val))).

Definition leafInsert (new old : BNode) (idx : Z) (key val : list byte)
    : result BNode :=
  n ← nkeys old;
  new ← setHeader new BNODE_LEAF (u16 (n + 1));
  new ← nodeAppendRange new old 0 0 idx;
  new ← nodeAppendKV new idx 0 key val;
  n ← nkeys old;
  nodeAppendRange new old (u16 (idx + 1)) idx (u16 (n - idx)).

Definition leafUpdate (new old : BNode) (idx : Z) (key val : list byte)
    : result BNode :=
  n ← nkeys old;
  new ← setHeader new BNODE_LEAF n;
  new ← nodeAppendRange new old 0 0 (u16 (idx - 1));
  new ← nodeAppendKV new idx 0 key val;
  n ← nkeys old;
  nodeAppendRange new old idx idx (u16 (n - idx)).

Definition leafDelete (new old : BNode) (idx : Z) : result BNode :=
  n ← nkeys old;
  new ← setHeader new BNODE_LEAF (u16 (n - 1));
  new ← nodeAppendRange new old 0 0 idx;
  n ← nkeys old;
  nodeAppendRange new old idx (u16 (idx + 1)) (u16 (u16 (n - idx) - 1)).

Definition nodeMerge (new left right : BNode) : result BNode :=
  ln ← nkeys left;
  rn ← nkeys right;
  new ← setHeader new BNODE_NODE (u16 (ln + rn));
  ln ← nkeys left;
  new ← nodeAppendRange new left 0 0 ln;
  ln ← nkeys left;
  rn ← nkeys right;
  nodeAppendRange new right ln 0 rn.

Definition nodeReplace2Kid (new old : BNode) (idx ptr : Z) (key : list byte)
    : result BNode :=
  n ← nkeys old;
  new ← setHeader new BNODE_NODE (u16 (n - 1));
  new ← nodeAppendRange new old 0 0 idx;
  new ← nodeAppendKV new idx ptr key [];
  n ← nkeys old;
  nodeAppendRange new old (u16 (idx + 1)) (u16 (idx + 2)) (u16 (u16 (n - idx) - 1)).

(** ** Splitting *)

Definition nodeSplit2 (left right old : BNode) : result (BNode * BNode) :=
  sz ← nbytes old;
  _ ← Assert (BTREE_PAGE_SIZE <? sz) "Try to split a node that is not oversize";
  nKey ← nkeys old;
  let rightNKey := nKey / 2 in
  let leftNKey := u16 (nKey - rightNKey) in
  bt ← btype old;
  left ← setHeader left bt leftNKey;
  bt ← btype old;
  right ← setHeader right bt rightNKey;
  left ← nodeAppendRange left old 0 0 leftNKey;
  right ← nodeAppendRange right old 0 leftNKey rightNKey;
  Ok (left, right).

(** The [[3]BNode] result keeps its unused entries at the zero value. *)
Definition nodeSplit3 (old : BNode) : result (Z * (BNode * BNode * BNode)) :=
  sz ← nbytes old;
  if sz <=? BTREE_PAGE_SIZE then
    old ← reslice old BTREE_PAGE_SIZE;
    Ok (1, (old, empty_node, empty_node))
  else
    let left := make (2 * BTREE_PAGE_SIZE) in
    let right := make BTREE_PAGE_SIZE in
    '(left, right) ← nodeSplit2 left right old;
    lsz ← nbytes left;
    if lsz <=? BTREE_PAGE_SIZE then
      left ← reslice left BTREE_PAGE_SIZE;
      Ok (2, (left, right, empty_node))
    else
      let leftleft := make BTREE_PAGE_SIZE in
      let middle := make BTREE_PAGE_SIZE in
      '(leftleft, middle) ← nodeSplit2 leftleft middle left;
      llsz ← nbytes leftleft;
      _ ← Assert (llsz <=? BTREE_PAGE_SIZE)
            "Last splitted node shouldn't be oversize";
      Ok (3, (leftleft, middle, right)).

(** [split[:nsplit]] *)
Definition split_prefix (nsplit : Z) (split : BNode * BNode * BNode) : list BNode :=
  let '(a, b, c) := split in take (Z.to_nat nsplit) [a; b; c].

(** The start-up check of [init]. *)
Definition init : result unit :=
  let node1max :=
    HEADER + 8 + 2 + 4 + BTREE_MAX_KEY_SIZE + BTREE_MAX_VALUE_SIZE in
  Assert (node1max <? BTREE_PAGE_SIZE) "max node size larger than BTREE_PAGE_SIZE".

(** ** The tree engine *)

(** The engine reaches its pages through the three callbacks of the [BTree]
    struct.  [St] is whatever state the callbacks close over. *)
Section Engine.
Context {St : Type}.
Variable Get : St → Z → result BNode.          (* dereference a pointer *)
Variable New : St → BNode → result (Z * St).    (* allocate a new page *)
Variable Del : St → Z → result St.              (* deallocate a page *)

Record BTree : Type := mkBTree {
  root : Z;     (* pointer (a nonzero page number) *)
  store : St
}.

Fixpoint treeRead (fuel : nat) (s : St) (node : BNode) (key : list byte)
    : result (list byte * bool) :=
  match fuel with
  | O => OutOfFuel
  | S fuel' =>
      idx ← nodeLookupLE fuel node key;
      bt ← btype node;
      if bt =? BNODE_LEAF then
        k ← getKey node idx;
        if bytes_Equal key k then
          v ← getVal node idx;
          Ok (v, true)
        else Ok ([], false)
      else if bt =? BNODE_NODE then
        p ← getPtr node idx;
        kid ← Get s p;
        treeRead fuel' s kid key
      else Fatal BadNode
  end.

Definition Read (fuel : nat) (tree : BTree) (key : list byte)
    : result (list byte * bool) :=
  if root tree =? 0 then Ok ([], false)
  else
    node ← Get (store tree) (root tree);
    treeRead fuel (store tree) node key.

(** [for i, node := range kids { nodeAppendKV(new, idx+uint16(i),
    tree.New(node), node.getKey(0), nil) }] *)
Fixpoint append_kids (s : St) (new : BNode) (idx : Z) (kids : list BNode) (i : Z)
    : result (BNode * St) :=
  match kids with
  | [] => Ok (new, s)
  | node :: kids' =>
      '(ptr, s) ← New s node;
      k ← getKey node 0;
      new ← nodeAppendKV new (u16 (idx + u16 i)) ptr k [];
      append_kids s new idx kids' (i + 1)
  end.

Definition nodeReplaceKidN (s : St) (new old : BNode) (idx : Z)
    (kids : list BNode) : result (BNode * St) :=
  let inc := u16 (Z.of_nat (length kids)) in
  n ← nkeys old;
  new ← setHeader new BNODE_NODE (u16 (u16 (n + inc) - 1));
  new ← nodeAppendRange new old 0 0 idx;
  '(new, s) ← append_kids s new idx kids 0;
  n ← nkeys old;
  new ← nodeAppendRange new old (u16 (idx + inc)) (u16 (idx + 1))
          (u16 (n - u16 (idx + 1)));
  Ok (new, s).

(** [nodeInsert] and [treeInsert] call each other; [rec] is [treeInsert]. *)
Definition nodeInsert
    (rec : St → BNode → list byte → list byte → result (BNode * St))
    (s : St) (new node : BNode) (idx : Z) (key val : list byte)
    : result (BNode * St) :=
  kptr ← getPtr node idx;
  kid ← Get s kptr;
  '(knode, s) ← rec s kid key val;
  '(nsplit, split) ← nodeSplit3 knode;
  s ← Del s kptr;
  nodeReplaceKidN s new node idx (split_prefix nsplit split).

Fixpoint treeInsert (fuel : nat) (s : St) (node : BNode) (key val : list byte)
    : result (BNode * St) :=
  match fuel with
  | O => OutOfFuel
  | S fuel' =>
      let newNode := make (2 * BTREE_PAGE_SIZE) in
      idx ← nodeLookupLE fuel node key;
      bt ← btype node;
      if bt =? BNODE_LEAF then
        k ← getKey node idx;
        if bytes_Equal key k then
          new ← leafUpdate newNode node idx key val;
          Ok (new, s)
        else
          new ← leafInsert newNode node (u16 (idx + 1)) key val;
          Ok (new, s)
      else if bt =? BNODE_NODE then
        nodeInsert (treeInsert fuel') s newNode node idx key val
      else Fatal BadNode
  end.

Definition Insert (fuel : nat) (tree : BTree) (key val : list byte)
    : result BTree :=
  if root tree =? 0 then
    let rt := make BTREE_PAGE_SIZE in
    rt ← setHeader rt BNODE_LEAF 2;
    rt ← nodeAppendKV rt 0 0 [] [];
    rt ← nodeAppendKV rt 1 0 key val;
    '(p, s) ← New (store tree) rt;
    Ok (mkBTree p s)
  else
    old ← Get (store tree) (root tree);
    '(node, s) ← treeInsert fuel (store tree) old key val;
    '(nsplit, split) ← nodeSplit3 node;
    s ← Del s (root tree);
    if 1 <? nsplit then
      let rt := make BTREE_PAGE_SIZE in
      rt ← setHeader rt BNODE_NODE nsplit;
      '(rt, s) ← append_kids s rt 0 (split_prefix nsplit split) 0;
      '(p, s) ← New s rt;
      Ok (mkBTree p s)
    else
      '(p, s) ← New s (split.1.1);
      Ok (mkBTree p s).

Definition shouldMerge (s : St) (node : BNode) (idx : Z) (updated : BNode)
    : result (Z * BNode) :=
  usz ← nbytes updated;
  if BTREE_PAGE_SIZE / 4 <? usz then Ok (0, empty_node)
  else
    lft ← (if 0 <? idx then
             p ← getPtr node (u16 (idx - 1));
             sibling ← Get s p;
             ssz ← nbytes sibling;
             usz ← nbytes updated;
             let merged := u16 (u16 (ssz + usz) - HEADER) in
             if merged <=? BTREE_PAGE_SIZE then Ok (Some sibling) else Ok None
           else Ok None);
    match lft with
    | Some sibling => Ok (-1, sibling)
    | None =>
        n ← nkeys node;
        if u16 (idx + 1) <? n then
          p ← getPtr node (u16 (idx + 1));
          sibling ← Get s p;
          ssz ← nbytes sibling;
          usz ← nbytes updated;
          let merged := u16 (u16 (ssz + usz) - HEADER) in
          if merged <=? BTREE_PAGE_SIZE then Ok (1, sibling)
          else Ok (0, empty_node)
        else Ok (0, empty_node)
    end.

(** [nodeDelete] and [treeDelete] call each other; [rec] is [treeDelete]. *)
Definition nodeDelete
    (rec : St → BNode → list byte → result (BNode * St))
    (s : St) (node : BNode) (idx : Z) (key : list byte) : result (BNode * St) :=
  kptr ← getPtr node idx;
  kid ← Get s kptr;
  '(updated, s) ← rec s kid key;
  if len updated =? 0 then Ok (empty_node, s)
  else
    s ← Del s kptr;
    let newNode := make BTREE_PAGE_SIZE in
    '(mergeDir, sibling) ← shouldMerge s node idx updated;
    if mergeDir <? 0 then
      let merged := make BTREE_PAGE_SIZE in
      merged ← nodeMerge merged sibling updated;
      p ← getPtr node (u16 (idx - 1));
      s ← Del s p;
      '(mp, s) ← New s merged;
      k ← getKey merged 0;
      new ← nodeReplace2Kid newNode node (u16 (idx - 1)) mp k;
      Ok (new, s)
    else if 0 <? mergeDir then
      let merged := make BTREE_PAGE_SIZE in
      merged ← nodeMerge merged updated sibling;
      p ← getPtr node (u16 (idx + 1));
      s ← Del s p;
      '(mp, s) ← New s merged;
      k ← getKey merged 0;
      new ← nodeReplace2Kid newNode node idx mp k;
      Ok (new, s)
    else
      un ← nkeys updated;
      if un =? 0 then
        n ← nkeys node;
        _ ← Assert ((n =? 1) && (idx =? 0)) "bad node when merging";
        new ← setHeader newNode BNODE_NODE 0;
        Ok (new, s)
      else
        nodeReplaceKidN s newNode node idx [updated].

Fixpoint treeDelete (fuel : nat) (s : St) (node : BNode) (key : list byte)
    : result (BNode * St) :=
  match fuel with
  | O => OutOfFuel
  | S fuel' =>
      idx ← nodeLookupLE fuel node key;
      bt ← btype node;
      if bt =? BNODE_LEAF then
        k ← getKey node idx;
        if bytes_Equal key k then
          new ← leafDelete (make BTREE_PAGE_SIZE) node idx;
          Ok (new, s)
        else Ok (empty_node, s)
      else if bt =? BNODE_NODE then
        nodeDelete (treeDelete fuel') s node idx key
      else Fatal BadNode
  end.

Definition Delete (fuel : nat) (tree : BTree) (key : list byte)
    : result (bool * BTree) :=
  old ← Get (store tree) (root tree);
  '(node, s) ← treeDelete fuel (store tree) old key;
  if len node =? 0 then Ok (false, mkBTree (root tree) s)
  else
    s ← Del s (root tree);
    bt ← btype node;
    n ← (if bt =? BNODE_NODE then nkeys node else Ok 0);
    if (bt =? BNODE_NODE) && (n =? 1) then
      p ← getPtr node 0;
      Ok (true, mkBTree p s)
    else
      '(p, s) ← New s node;
      Ok (true, mkBTree p s).
End Engine.

Arguments BTree : clear implicits.
Arguments mkBTree {St} root store.
Arguments root {St} b.
Arguments store {St} b.

(** ** The in-memory page table of the tests *)

(** [NewC] keeps the pages in a Go map keyed by the address of each buffer's
    first byte.  Buffers that are alive together have different, nonzero
    addresses; the model numbers the buffers in allocation order. *)
Record PageTable : Type := mkPageTable {
  pages : gmap Z BNode;
  next_addr : Z
}.

Definition pt_get (c : PageTable) (ptr : Z) : result BNode :=
  match pages c !! ptr with
  | Some node => Ok node
  | None => Fatal (AssertionFailed "Can't read allocated data")
  end.

Definition pt_new (c : PageTable) (node : BNode) : result (Z * PageTable) :=
  sz ← nbytes node;
  _ ← Assert (sz <=? BTREE_PAGE_SIZE) "new node exceed max size";
  _ ← (if len node <? 1 then Fatal IndexRange else Ok tt);
  let ptr := next_addr c in
  _ ← Assert (bool_decide (pages c !! ptr = None)) "pointer already been assigned";
  Ok (ptr, mkPageTable (<[ptr := node]> (pages c)) (ptr + 1)).

Definition pt_del (c : PageTable) (ptr : Z) : result PageTable :=
  _ ← Assert (bool_decide (pages c !! ptr ≠ None))
        "try to de-allocate a pointer that is not occupied";
  Ok (mkPageTable (delete ptr (pages c)) (next_addr c)).

(** [NewC()]: an empty tree over an empty page table. *)
Definition NewC : BTree PageTable := mkBTree 0 (mkPageTable ∅ 1).

Definition C_Read := Read pt_get.
Definition C_Insert := Insert pt_get pt_new pt_del.
Definition C_Delete := Delete pt_get pt_new pt_del.

(** ** Vocabulary of the statements *)

(** [agree_outside a b lo hi]: the two slices have the same shape and the
    same bytes everywhere except, possibly, in [[lo, hi)]. *)
Definition agree_outside (a b : BNode) (lo hi : Z) : Prop :=
  len a = len b ∧ length (arr a) = length (arr b) ∧
  ∀ (q : Z) (w : nat), 0 ≤ q → q + Z.of_nat w ≤ lo ∨ hi ≤ q →
    take w (drop (Z.to_nat q) (arr a)) = take w (drop (Z.to_nat q) (arr b)).

(** The sibling behind link [i] of [node]: a page of the store, of encoded
    size [ssz]; a page of the store never exceeds one page. *)
Definition stored_sibling {St} (Get : St → Z → result BNode) (s : St)
    (node : BNode) (i : Z) (sib : BNode) (ssz : Z) : Prop :=
  ∃ p, getPtr node i = Ok p ∧ Get s p = Ok sib ∧ nbytes sib = Ok ssz ∧
       ssz ≤ BTREE_PAGE_SIZE.

(** The size test of [shouldMerge]. *)
Definition fits (ssz usz : Z) : bool := ssz + usz - HEADER <=? BTREE_PAGE_SIZE.

(** Keys and values of the examples. *)
Definition bytes_of (s : string) : list byte := list_byte_of_string s.
Definition filler (n : Z) : list byte := replicate (Z.to_nat n) Byte.x78.

(** A leaf with one entry, and an internal node with two links. *)
Definition leaf1 (key val : list byte) : result BNode :=
  rt ← setHeader (make BTREE_PAGE_SIZE) BNODE_LEAF 1;
  nodeAppendKV rt 0 0 key val.

Definition node2 (p0 p1 : Z) (k1 : list byte) : result BNode :=
  rt ← setHeader (make BTREE_PAGE_SIZE) BNODE_NODE 2;
  rt ← nodeAppendKV rt 0 p0 [] [];
  nodeAppendKV rt 1 p1 k1 [].

(** ** What a node holds *)

(** The statements about whole nodes read a node as the list of its
    entries. *)

(** One entry of a node: child pointer, key, value. *)
Record entry : Type := mkEntry {
  e_ptr : Z;
  e_key : list byte;
  e_val : list byte
}.

(** Its bytes in the key-value region, and their number. *)
Definition kv_bytes (e : entry) : list byte :=
  le_split 2 (blen (e_key e)) ++ le_split 2 (blen (e_val e)) ++ e_key e ++ e_val e.

Definition esize (e : entry) : Z := 4 + blen (e_key e) + blen (e_val e).

(** The offset behind the entries [es]. *)
Fixpoint offs (es : list entry) : Z :=
  match es with
  | [] => 0
  | e :: es' => esize e + offs es'
  end.

Definition kv_region (es : list entry) : list byte := concat (kv_bytes <$> es).

(** [filled node N es]: the header of [node] announces [N] keys, and its
    first entries are [es], each one in place: pointer, running offset,
    bytes. *)
Definition filled (node : BNode) (N : Z) (es : list entry) : Prop :=
  len node ≤ cap node ∧ len node < 65536 ∧
  nkeys node = Ok N ∧ Z.of_nat (length es) ≤ N ∧
  HEADER + 10 * N + offs es ≤ len node ∧
  (∀ (i : nat) e, es !! i = Some e →
     0 ≤ e_ptr e < 2 ^ 64 ∧ getPtr node (Z.of_nat i) = Ok (e_ptr e)) ∧
  (∀ i : nat, (i ≤ length es)%nat →
     getOffset node (Z.of_nat i) = Ok (offs (take i es))) ∧
  take (Z.to_nat (offs es)) (drop (Z.to_nat (HEADER + 10 * N)) (arr node))
    = kv_region es.

(** [repr node bt es]: [node] is a finished node of kind [bt] with exactly
    the entries [es]. *)
Definition repr (node : BNode) (bt : Z) (es : list entry) : Prop :=
  btype node = Ok bt ∧ filled node (Z.of_nat (length es)) es.

(** The three places an append writes to. *)
Definition appended (a : list byte) (N : Z) (idx : Z) (off : Z) (e : entry)
    : list byte :=
  overwrite (Z.to_nat (HEADER + 8 * N + 2 * idx)) (le_split 2 (off + esize e))
    (overwrite (Z.to_nat (HEADER + 10 * N + off)) (kv_bytes e)
       (overwrite (Z.to_nat (HEADER + 8 * idx)) (le_split 8 (e_ptr e)) a)).

(** The keys from index 1 on are in non-decreasing order (index 0 is never
    compared by the lookup). *)
Definition sorted_keys (es : list entry) : Prop :=
  ∀ (i j : nat) ei ej, (1 ≤ i)%nat → (i ≤ j)%nat →
    es !! i = Some ei → es !! j = Some ej →
    bytes_Compare (e_key ei) (e_key ej) ≤ 0.

Definition key_lt (a b : list byte) : Prop := bytes_Compare a b < 0.

Definition strictly_sorted (es : list entry) : Prop :=
  ∀ (i j : nat) ei ej, (i < j)%nat →
    es !! i = Some ei → es !! j = Some ej → key_lt (e_key ei) (e_key ej).

(** A tree over the test page table whose root page is a leaf holding
    [es]; the addresses from [next_addr] on are free. *)
Definition leaf_tree (t : BTree PageTable) (es : list entry) : Prop :=
  root t ≠ 0 ∧ 0 < next_addr (store t) ∧
  (∃ node, pages (store t) !! root t = Some node ∧ repr node BNODE_LEAF es) ∧
  (∀ p, next_addr (store t) ≤ p → pages (store t) !! p = None).

(** The entry of the empty key that [Insert] puts first in the first leaf. *)
Definition sentinel : entry := mkEntry 0 [] [].

(** A run of [Insert]s. *)
Fixpoint insert_all (fuel : nat) (t : BTree PageTable)
    (kvs : list (list byte * list byte)) : result (BTree PageTable) :=
  match kvs with
  | [] => Ok t
  | (k, v) :: kvs' => t' ← C_Insert fuel t k v; insert_all fuel t' kvs'
  end.

Definition entry_of (kv : list byte * list byte) : entry := mkEntry 0 kv.1 kv.2.

(** The bytes that the entries of [kvs] take in a leaf. *)
Definition kv_size (kvs : list (list byte * list byte)) : Z := offs (entry_of <$> kvs).

(** ** The test wrapper *)

(** The struct [C] of the tests: the tree and the reference map [Ref].
    Its third field, [pages], is the very map the three callbacks close
    over, that is the page table in the tree's store. *)
Record C : Type := mkC {
  tree : BTree PageTable;
  Ref : gmap string string
}.

(** What [NewC()] returns. *)
Definition c_new : C := mkC NewC ∅.

(** [(c *C) Read]: [[]byte(key)] going in, [string(val)] coming out. *)
Definition c_Read (fuel : nat) (c : C) (key : string) : result (string * bool) :=
  '(val, ok) ← C_Read fuel (tree c) (bytes_of key);
  Ok (string_of_list_byte val, ok).

(** [(c *C) Add] *)
Definition c_Add (fuel : nat) (c : C) (key val : string) : result C :=
  t ← C_Insert fuel (tree c) (bytes_of key) (bytes_of val);
  Ok (mkC t (<[key := val]> (Ref c))).

(** [(c *C) Del] *)
Definition c_Del (fuel : nat) (c : C) (key : string) : result C :=
  '(_, t) ← C_Delete fuel (tree c) (bytes_of key);
  Ok (mkC t (delete key (Ref c))).

(** A run of calls on the wrapper. *)
Inductive op : Type :=
  | OpAdd (key val : string)
  | OpDel (key : string).

(** One call of a run. *)
Definition c_step (fuel : nat) (c : C) (o : op) : result C :=
  match o with
  | OpAdd key val => c_Add fuel c key val
  | OpDel key => c_Del fuel c key
  end.

(** The calls of a run, one after the other. *)
Fixpoint c_run (fuel : nat) (c : C) (ops : list op) : result C :=
  match ops with
  | [] => Ok c
  | o :: ops' => c' ← c_step fuel c o; c_run fuel c' ops'
  end.

(** The runs that the statement on the wrapper speaks about, told on the reference
    map alone: every [Add] brings a new, non-empty key, and no [Del] names
    the empty key. *)
Fixpoint fresh_adds (m : gmap string string) (ops : list op) : Prop :=
  match ops with
  | [] => True
  | OpAdd key val :: ops' =>
      key ≠ EmptyString ∧ m !! key = None ∧ fresh_adds (<[key := val]> m) ops'
  | OpDel key :: ops' => key ≠ EmptyString ∧ fresh_adds (delete key m) ops'
  end.

(** The bytes that the entries added by a run take in a leaf, pointer and
    offset included. *)
Fixpoint adds_size (ops : list op) : Z :=
  match ops with
  | [] => 0
  | OpAdd key val :: ops' =>
      10 + 4 + blen (bytes_of key) + blen (bytes_of val) + adds_size ops'
  | OpDel _ :: ops' => adds_size ops'
  end.

(** The wrapper's tree is one leaf that holds the sentinel and, for every
    pair of the reference map, one entry. *)
Definition agrees (c : C) (es : list entry) : Prop :=
  leaf_tree (tree c) es ∧ strictly_sorted es ∧ es !! 0%nat = Some sentinel ∧
  (∀ k v, Ref c !! k = Some v → k ≠ EmptyString) ∧
  (∀ e, e ∈ es ↔
     e = sentinel ∨ ∃ k v, Ref c !! k = Some v ∧ e = mkEntry 0 (bytes_of k) (bytes_of v)).

(** ** Trees of any height *)

(** The encoded size of a node that holds the entries [es]. *)
Definition node_size (es : list entry) : Z :=
  HEADER + 10 * Z.of_nat (length es) + offs es.

(** An entry that takes at most 128 bytes of a node, pointer and offset
    included. *)
Definition small (e : entry) : Prop := 10 + esize e ≤ 128.

(** The key of the first entry. *)
Definition first_key (es : list entry) : option (list byte) := e_key <$> head es.

(** The kids of an internal node, left to right: the entries [ks] of the
    node, the entries [es] of all leaves below, and the pages [m] of all
    nodes below.  The entry of a kid carries the kid's page number, the
    first key below the kid and no value; [T] is what holds of a kid; no
    page is used twice. *)
Inductive kids_at (T : BNode → list entry → gmap Z BNode → Prop) :
    list entry → list entry → gmap Z BNode → Prop :=
  | kids_nil : kids_at T [] [] ∅
  | kids_cons k ks kid part es m1 m2 :
      e_val k = [] → first_key part = Some (e_key k) →
      T kid part m1 → kids_at T ks es m2 →
      m1 !! e_ptr k = None → m2 !! e_ptr k = None → m1 ##ₘ m2 →
      kids_at T (k :: ks) (part ++ es) (<[e_ptr k := kid]> (m1 ∪ m2)).

(** [tree_at h lim node es m]: [node] is the root of a tree of height [h]
    whose leaves hold, left to right, the entries [es], and whose other
    nodes are the pages [m]; [node] takes at most [lim] bytes and every
    page below at most one page. *)
Fixpoint tree_at (h : nat) (lim : Z) (node : BNode) (es : list entry)
    (m : gmap Z BNode) : Prop :=
  match h with
  | O => repr node BNODE_LEAF es ∧ node_size es ≤ lim ∧ m = ∅
  | S h' =>
      ∃ ks, repr node BNODE_NODE ks ∧ node_size ks ≤ lim ∧
            kids_at (tree_at h' BTREE_PAGE_SIZE) ks es m
  end.

(** A tree over the test page table: the root page is the root of a tree
    of height [h] with the entries [es], all its pages are in the table,
    and the addresses from [next_addr] on are free. *)
Definition btree_at (t : BTree PageTable) (h : nat) (es : list entry) : Prop :=
  root t ≠ 0 ∧ 0 < next_addr (store t) ∧
  (∀ p, next_addr (store t) ≤ p → pages (store t) !! p = None) ∧
  ∃ node m, pages (store t) !! root t = Some node ∧ m !! root t = None ∧
            tree_at h BTREE_PAGE_SIZE node es m ∧ m ⊆ pages (store t).

(** The entries that [append_kids] writes for kids given with their first
    keys, when the first of them gets the page number [a]. *)
Fixpoint kid_entries (a : Z) (kids : list (BNode * list byte)) : list entry :=
  match kids with
  | [] => []
  | (_, k) :: kids' => mkEntry a k [] :: kid_entries (a + 1) kids'
  end.

(** The page table after these kids got their pages. *)
Fixpoint kid_pages (a : Z) (kids : list (BNode * list byte)) (pg : gmap Z BNode)
    : gmap Z BNode :=
  match kids with
  | [] => pg
  | (kid, _) :: kids' => kid_pages (a + 1) kids' (<[a := kid]> pg)
  end.

(** A kid that can be stored: a well-formed node of at most one page whose
    first key is [k]. *)
Definition storable (kk : BNode * list byte) : Prop :=
  ∃ bt own, repr kk.1 bt own ∧ first_key own = Some kk.2 ∧
            node_size own ≤ BTREE_PAGE_SIZE.

(** What lies below a node of kind [bt] with the entries [own]. *)
Definition below (h : nat) (bt : Z) (own es : list entry) (m : gmap Z BNode) : Prop :=
  match h with
  | O => bt = BNODE_LEAF ∧ own = es ∧ m = ∅
  | S h' => bt = BNODE_NODE ∧ kids_at (tree_at h' BTREE_PAGE_SIZE) own es m
  end.

(** * Properties *)

Ltac run := vm_compute; reflexivity.

(** ** Byte arrays: writing and reading back *)

Lemma length_overwrite p src dst : length (overwrite p src dst) = length dst.
Proof.
  revert p src. induction dst as [|d dst IH]; intros p src; [done|].
  destruct p as [|p]; simpl; [|by rewrite IH].
  destruct src as [|s src]; simpl; [done|by rewrite IH].
Qed.

Lemma lookup_overwrite_lt p src dst (i : nat) :
  (i < p)%nat → overwrite p src dst !! i = dst !! i.
Proof.
  revert p src i. induction dst as [|d dst IH]; intros p src i Hi; [done|].
  destruct p as [|p]; [lia|]. destruct i as [|i]; simpl; [done|].
  apply IH. lia.
Qed.

Lemma lookup_overwrite_in p src dst (i : nat) :
  (p ≤ i < p + length src)%nat → (i < length dst)%nat →
  overwrite p src dst !! i = src !! (i - p)%nat.
Proof.
  revert p src i. induction dst as [|d dst IH]; intros p src i Hi Hd; simpl in *; [lia|].
  destruct p as [|p].
  - destruct src as [|s src]; simpl in *; [lia|].
    destruct i as [|i]; simpl; [done|].
    rewrite (IH 0%nat src i) by lia. by rewrite Nat.sub_0_r.
  - destruct i as [|i]; [lia|]. simpl. apply IH; lia.
Qed.

Lemma lookup_overwrite_ge p src dst (i : nat) :
  (p + length src ≤ i)%nat → overwrite p src dst !! i = dst !! i.
Proof.
  revert p src i. induction dst as [|d dst IH]; intros p src i Hi; [done|].
  destruct p as [|p].
  - destruct src as [|s src]; simpl in *; [done|].
    destruct i as [|i]; [lia|]. simpl. apply (IH 0%nat). simpl. lia.
  - destruct i as [|i]; [lia|]. simpl. apply IH. lia.
Qed.

(** Reading a window that the write did not touch. *)
Lemma window_overwrite_disjoint w q p src dst :
  (q + w ≤ p ∨ p + length src ≤ q)%nat →
  take w (drop q (overwrite p src dst)) = take w (drop q dst).
Proof.
  intros H. apply list_eq. intros i.
  destruct (decide (i < w)%nat) as [Hi|Hi].
  - rewrite !lookup_take_lt, !lookup_drop by done.
    destruct H; [apply lookup_overwrite_lt | apply lookup_overwrite_ge]; lia.
  - rewrite !lookup_take_ge by lia. done.
Qed.

(** Reading back exactly what was written. *)
Lemma window_overwrite_same p src dst :
  (p + length src ≤ length dst)%nat →
  take (length src) (drop p (overwrite p src dst)) = src.
Proof.
  intros H. apply list_eq. intros i.
  destruct (decide (i < length src)%nat) as [Hi|Hi].
  - rewrite lookup_take_lt, lookup_drop by done.
    rewrite lookup_overwrite_in by lia. f_equal. lia.
  - rewrite lookup_take_ge by lia. symmetry. apply lookup_ge_None. lia.
Qed.

Lemma take_overwrite_ge n p src dst :
  (n ≤ p)%nat → take n (overwrite p src dst) = take n dst.
Proof.
  intros H. apply (window_overwrite_disjoint n 0 p src dst). lia.
Qed.

(** ** The outcome monad *)

Lemma bind_Ok {A B} (m : result A) (f : A → result B) (b : B) :
  (m ≫= f) = Ok b → ∃ a, m = Ok a ∧ f a = Ok b.
Proof. destruct m as [a| |]; simpl; [eauto|done|done]. Qed.

Lemma Assert_Ok cond msg u : Assert cond msg = Ok u → cond = true.
Proof. unfold Assert. by destruct cond. Qed.

(** Splits a successful sequence of binds into its steps. *)
Ltac inv_bind H :=
  repeat match type of H with
  | (_ ≫= _) = Ok _ =>
      let a := fresh "a" in
      let Ha := fresh "H" a in
      apply bind_Ok in H as (a & Ha & H)
  end.

(** ** 16-bit arithmetic *)

Lemma u16_range z : 0 ≤ u16 z < 65536.
Proof. unfold u16. apply Z.mod_pos_bound. lia. Qed.

Lemma u16_small z : 0 ≤ z < 65536 → u16 z = z.
Proof. unfold u16. apply Z.mod_small. Qed.

Lemma le_combine_2_range (l : list byte) : 0 ≤ le_combine (take 2 l) < 65536.
Proof.
  pose proof (le_combine_bound (take 2 l)) as H.
  rewrite length_take in H.
  assert (2 ^ (8 * Z.of_nat (2 `min` length l)) ≤ 2 ^ 16).
  { apply Z.pow_le_mono_r; lia. }
  lia.
Qed.

Lemma nkeys_range node n : nkeys node = Ok n → 0 ≤ n < 65536.
Proof.
  unfold nkeys. case_match; [done|]. intros [= <-]. apply le_combine_2_range.
Qed.

Lemma read_at_2_range node p v : read_at 2 node p = Ok v → 0 ≤ v < 65536.
Proof.
  unfold read_at. repeat case_match; try done. intros [= <-].
  apply le_combine_2_range.
Qed.

Lemma getOffset_range node i o : getOffset node i = Ok o → 0 ≤ o < 65536.
Proof.
  unfold getOffset. destruct (i =? 0); [intros [= <-]; lia|].
  intros H. inv_bind H. eauto using read_at_2_range.
Qed.

(** ** Footprints *)

Lemma agree_outside_refl a lo hi : agree_outside a a lo hi.
Proof. done. Qed.

Lemma agree_outside_weaken a b lo hi lo' hi' :
  agree_outside a b lo hi → lo' ≤ lo → hi ≤ hi' → agree_outside a b lo' hi'.
Proof.
  intros (Hl & Hc & Hw) ??. repeat split; [done..|].
  intros q w ? ?. apply Hw; lia.
Qed.

Lemma agree_outside_trans a b c lo hi :
  agree_outside a b lo hi → agree_outside b c lo hi → agree_outside a c lo hi.
Proof.
  intros (Hl & Hc & Hw) (Hl' & Hc' & Hw'). repeat split; [congruence..|].
  intros q w ? ?. rewrite Hw, Hw' by done. done.
Qed.

Lemma write_at_footprint w node pos v node' :
  write_at w node pos v = Ok node' → 0 ≤ pos →
  agree_outside node' node pos (pos + Z.of_nat w).
Proof.
  unfold write_at. repeat case_match; try done. intros [= <-] Hpos.
  repeat split; simpl; [by rewrite length_overwrite|].
  intros q k Hq Hd. apply window_overwrite_disjoint.
  rewrite length_le_split. lia.
Qed.

Lemma copy_at_footprint node pos src node' :
  copy_at node pos src = Ok node' → 0 ≤ pos →
  agree_outside node' node pos (pos + blen src).
Proof.
  unfold copy_at, blen. case_match; [done|]. intros [= <-] Hpos.
  repeat split; simpl; [by rewrite length_overwrite|].
  intros q k Hq Hd. apply window_overwrite_disjoint.
  rewrite length_take. lia.
Qed.

(** What the header and the bounds-checked reads depend on. *)
Lemma agree_cap a b lo hi : agree_outside a b lo hi → cap a = cap b.
Proof. intros (_ & Hc & _). unfold cap. by rewrite Hc. Qed.

Lemma agree_btype a b lo hi :
  agree_outside a b lo hi → 2 ≤ lo → btype a = btype b.
Proof.
  intros H Hlo. unfold btype. rewrite (agree_cap _ _ _ _ H).
  destruct H as (_ & _ & Hw). specialize (Hw 0 2%nat).
  change (drop (Z.to_nat 0) ?l) with l in Hw. rewrite Hw by lia. done.
Qed.

Lemma agree_nkeys a b lo hi :
  agree_outside a b lo hi → 4 ≤ lo → nkeys a = nkeys b.
Proof.
  intros H Hlo. unfold nkeys. rewrite (agree_cap _ _ _ _ H).
  destruct H as (_ & _ & Hw). specialize (Hw 2 2%nat).
  change (Z.to_nat 2) with 2%nat in Hw. rewrite Hw by lia. done.
Qed.

Lemma agree_read_at a b lo hi w q :
  agree_outside a b lo hi → 0 ≤ q → q + Z.of_nat w ≤ lo ∨ hi ≤ q →
  read_at w a q = read_at w b q.
Proof.
  intros (Hl & _ & Hw) ? ?. unfold read_at. rewrite Hl, Hw by done. done.
Qed.

Lemma read_write_at_same w node pos v node' :
  write_at w node pos v = Ok node' → 0 ≤ pos → len node ≤ cap node →
  read_at w node' pos = Ok (v mod 2 ^ (Z.of_nat w * 8)).
Proof.
  unfold write_at, read_at, cap.
  destruct (len node <? pos) eqn:E1; [done|].
  destruct (len node - pos <? Z.of_nat w) eqn:E2; [done|].
  intros [= <-] Hpos Hcap. simpl. rewrite E1, E2.
  pose proof (window_overwrite_same (Z.to_nat pos) (le_split w v) (arr node)) as Hw.
  rewrite length_le_split in Hw. rewrite Hw by lia.
  by rewrite le_combine_split.
Qed.

(** Linear arithmetic with the 16-bit wrap-around unfolded. *)
Ltac wrap_lia :=
  unfold u16, HEADER, BTREE_PAGE_SIZE in *;
  Z.to_euclidean_division_equations; lia.

(** ** The codec's writes and what they leave alone *)

Section Codec.
Variable nn : Z.
Hypothesis room : HEADER + 10 * nn ≤ 65536.

Lemma setPtr_footprint node idx v node' :
  setPtr node idx v = Ok node' → nkeys node = Ok nn → 0 ≤ idx →
  agree_outside node' node (HEADER + 8 * idx) (HEADER + 8 * idx + 8).
Proof using room.
  unfold setPtr. intros H Hn Hidx. rewrite Hn in H. simpl in H.
  inv_bind H. apply Assert_Ok, Z.ltb_lt in Ha.
  apply write_at_footprint in H; [|wrap_lia].
  replace (u16 (HEADER + 8 * idx)) with (HEADER + 8 * idx) in H by wrap_lia.
  exact H.
Qed.

Lemma offsetPos_eq node j p :
  offsetPos node j = Ok p → nkeys node = Ok nn →
  p = HEADER + 8 * nn + 2 * (j - 1) ∧ 1 ≤ j ≤ nn.
Proof using room.
  unfold offsetPos. intros H Hn. rewrite Hn in H. simpl in H.
  destruct (1 <=? j) eqn:E1; simpl in H; [|done].
  apply bind_Ok in H as (? & Hin%Assert_Ok & H). injection H as <-.
  apply Z.leb_le in E1, Hin. split; [wrap_lia|lia].
Qed.

Lemma setOffset_footprint node j off node' :
  setOffset node j off = Ok node' → nkeys node = Ok nn →
  agree_outside node' node
    (HEADER + 8 * nn + 2 * (j - 1)) (HEADER + 8 * nn + 2 * j).
Proof using room.
  unfold setOffset. destruct (j =? 0) eqn:Ej.
  { intros [= <-] _. apply agree_outside_refl. }
  intros H Hn. inv_bind H.
  destruct (offsetPos_eq _ _ _ Ha Hn) as [-> Hj].
  apply write_at_footprint in H; [|unfold HEADER; lia].
  eapply agree_outside_weaken; [exact H|lia|lia].
Qed.

Lemma getOffset_agree a b lo hi j :
  agree_outside a b lo hi → nkeys a = Ok nn → nkeys b = Ok nn →
  HEADER + 8 * nn + 2 * j ≤ lo ∨ hi ≤ HEADER + 8 * nn + 2 * Z.max 0 (j - 1) →
  getOffset a j = getOffset b j.
Proof using room.
  intros Hag Ha Hb Hd. unfold getOffset. destruct (j =? 0); [done|].
  unfold offsetPos. rewrite Ha, Hb. simpl.
  destruct (1 <=? j) eqn:E1; simpl; [|done].
  destruct (j <=? nn) eqn:E2; simpl; [|done].
  apply Z.leb_le in E1, E2.
  replace (u16 (HEADER + 8 * nn + 2 * (j - 1)))
    with (HEADER + 8 * nn + 2 * (j - 1)) by wrap_lia.
  eapply agree_read_at; [exact Hag|unfold HEADER; lia|].
  change (Z.of_nat 2) with 2. lia.
Qed.

Lemma getOffset_setOffset node j off node' :
  setOffset node j off = Ok node' → nkeys node = Ok nn →
  len node ≤ cap node → j ≠ 0 →
  getOffset node' j = Ok (u16 off).
Proof using room.
  intros H Hn Hshape Hj.
  pose proof (setOffset_footprint _ _ _ _ H Hn) as Hag.
  assert (nkeys node' = Ok nn) as Hn'.
  { rewrite <- Hn. eapply agree_nkeys; [exact Hag|].
    apply Z.eqb_neq in Hj. unfold setOffset in H. rewrite Hj in H.
    inv_bind H. destruct (offsetPos_eq _ _ _ Ha Hn). unfold HEADER. lia. }
  unfold setOffset in H. unfold getOffset.
  apply Z.eqb_neq in Hj. rewrite Hj in *.
  apply bind_Ok in H as (p & Hp & H).
  destruct (offsetPos_eq _ _ _ Hp Hn) as [-> Hj'].
  assert (offsetPos node' j = Ok (HEADER + 8 * nn + 2 * (j - 1))) as ->.
  { unfold offsetPos. rewrite Hn'. simpl.
    replace (1 <=? j) with true by lia. simpl.
    replace (j <=? nn) with true by lia. simpl. f_equal. wrap_lia. }
  simpl. erewrite read_write_at_same; [|exact H|unfold HEADER; lia|done].
  done.
Qed.

(** The pointer loop stays inside the pointer array. *)
Lemma copy_ptrs_footprint fuel new old d s n i new' :
  copy_ptrs fuel new old d s n i = Ok new' → nkeys new = Ok nn →
  0 ≤ d → 0 ≤ i → d + n ≤ nn →
  agree_outside new' new HEADER (HEADER + 8 * nn).
Proof using room.
  revert new i. induction fuel as [|fuel IH]; intros new i H Hn Hd Hi Hdn; [done|].
  simpl in H. destruct (i <? n) eqn:Ei.
  - apply Z.ltb_lt in Ei. inv_bind H.
    replace (u16 (d + i)) with (d + i) in Ha0 by wrap_lia.
    replace (u16 (i + 1)) with (i + 1) in H by wrap_lia.
    pose proof (setPtr_footprint _ _ _ _ Ha0 Hn ltac:(lia)) as Hag.
    assert (nkeys a0 = Ok nn) as Hn0.
    { rewrite <- Hn. eapply agree_nkeys; [exact Hag|unfold HEADER; lia]. }
    apply IH in H; [|done|done|lia|done].
    eapply agree_outside_trans; [exact H|].
    eapply agree_outside_weaken; [exact Hag|lia|lia].
  - injection H as <-. apply agree_outside_refl.
Qed.

(** The offset loop writes the slots [dstNew+i .. dstNew+n]. *)
Lemma copy_offsets_footprint fuel new old d s n dB sB i new' :
  copy_offsets fuel new old d s n dB sB i = Ok new' → nkeys new = Ok nn →
  0 ≤ d → 1 ≤ i → d + n ≤ nn →
  agree_outside new' new
    (HEADER + 8 * nn + 2 * (d + i - 1)) (HEADER + 8 * nn + 2 * (d + n)).
Proof using room.
  revert new i. induction fuel as [|fuel IH]; intros new i H Hn Hd Hi Hdn; [done|].
  simpl in H. destruct (i <=? n) eqn:Ei.
  - apply Z.leb_le in Ei. inv_bind H.
    replace (u16 (d + i)) with (d + i) in Ha0 by wrap_lia.
    replace (u16 (i + 1)) with (i + 1) in H by wrap_lia.
    pose proof (setOffset_footprint _ _ _ _ Ha0 Hn) as Hag.
    assert (nkeys a0 = Ok nn) as Hn0.
    { rewrite <- Hn. eapply agree_nkeys; [exact Hag|unfold HEADER; lia]. }
    apply IH in H; [|done|done|lia|done].
    eapply agree_outside_trans.
    + eapply agree_outside_weaken; [exact H|lia|lia].
    + eapply agree_outside_weaken; [exact Hag|lia|lia].
  - injection H as <-. apply agree_outside_refl.
Qed.

(** Its last iteration leaves the running offset of the next entry. *)
Lemma copy_offsets_last fuel new old d s n dB sB i new' :
  copy_offsets fuel new old d s n dB sB i = Ok new' → nkeys new = Ok nn →
  len new ≤ cap new → 0 ≤ d → 0 ≤ s → s + n < 65536 → 1 ≤ i ≤ n → d + n ≤ nn →
  ∃ o, getOffset old (s + n) = Ok o ∧
       getOffset new' (d + n) = Ok (u16 (dB + o - sB)).
Proof using room.
  revert new i. induction fuel as [|fuel IH];
    intros new i H Hn Hshape Hd Hs Hsn Hi Hdn; [done|].
  simpl in H. destruct (i <=? n) eqn:Ei; [|apply Z.leb_gt in Ei; lia].
  inv_bind H.
  replace (u16 (d + i)) with (d + i) in Ha0 by wrap_lia.
  replace (u16 (s + i)) with (s + i) in Ha by wrap_lia.
  replace (u16 (i + 1)) with (i + 1) in H by wrap_lia.
  pose proof (setOffset_footprint _ _ _ _ Ha0 Hn) as Hag.
  assert (nkeys a0 = Ok nn) as Hn0.
  { rewrite <- Hn. eapply agree_nkeys; [exact Hag|unfold HEADER; lia]. }
  assert (len a0 ≤ cap a0) as Hshape0.
  { rewrite (agree_cap _ _ _ _ Hag). destruct Hag as (-> & _). done. }
  destruct (decide (i = n)) as [->|Hne].
  - destruct fuel as [|fuel]; [done|]. simpl in H.
    replace (n + 1 <=? n) with false in H by lia. injection H as <-.
    exists a. split; [done|].
    rewrite (getOffset_setOffset _ _ _ _ Ha0 Hn Hshape) by lia.
    by rewrite (u16_small _ (u16_range _)).
  - eapply IH; [exact H|done|done|done|done|done|lia|done].
Qed.
End Codec.

Lemma agree_shape a b lo hi :
  agree_outside a b lo hi → len b ≤ cap b → len a ≤ cap a.
Proof. intros Hag. rewrite (agree_cap _ _ _ _ Hag). destruct Hag as (-> & _). done. Qed.

(** What a range copy leaves in the destination: the header is untouched,
    and the running offset behind the copied entries is in place for the
    next append. *)
Lemma nodeAppendRange_post new old d s n new' nn offd :
  nodeAppendRange new old d s n = Ok new' →
  nkeys new = Ok nn → len new ≤ cap new →
  0 ≤ d → 0 ≤ s → 0 ≤ n → d + n < 65536 → s + n < 65536 →
  getOffset new d = Ok offd → HEADER + 10 * nn + offd < 65536 →
  (n = 0 ∧ new' = new) ∨
  (0 < n ∧ nkeys new' = Ok nn ∧ btype new' = btype new ∧ len new' ≤ cap new' ∧
   ∃ o1 o2, getOffset old s = Ok o1 ∧ getOffset old (s + n) = Ok o2 ∧
            getOffset new' (d + n) = Ok (u16 (offd + o2 - o1))).
Proof.
  intros H Hn Hshape Hd Hs Hn0 Hdn Hsn Hoff Hroom.
  pose proof (getOffset_range _ _ _ Hoff) as Hoffr.
  assert (HEADER + 10 * nn ≤ 65536) as room by lia.
  unfold nodeAppendRange in H.
  apply bind_Ok in H as (on & Hon & H). apply bind_Ok in H as (? & _ & H).
  apply bind_Ok in H as (nn' & Hnn' & H). apply bind_Ok in H as (? & Hdst & H).
  rewrite Hn in Hnn'. injection Hnn' as <-.
  apply Assert_Ok, Z.leb_le in Hdst. rewrite (u16_small (d + n)) in Hdst by lia.
  destruct (n =? 0) eqn:En.
  { left. apply Z.eqb_eq in En. by injection H as <-. }
  right. apply Z.eqb_neq in En. split; [lia|].
  apply bind_Ok in H as (new1 & Hptrs & H).
  apply bind_Ok in H as (dstBegin & HdstBegin & H).
  apply bind_Ok in H as (srcBegin & HsrcBegin & H).
  apply bind_Ok in H as (new2 & Hoffs & H).
  apply bind_Ok in H as (begin & _ & H). apply bind_Ok in H as (end_ & _ & H).
  apply bind_Ok in H as (p & Hp & H). apply bind_Ok in H as (? & _ & H).
  apply bind_Ok in H as (src & _ & H).
  (* the pointer loop *)
  pose proof (copy_ptrs_footprint nn room _ _ _ _ _ _ _ _ Hptrs Hn Hd ltac:(lia) Hdst) as Hag1.
  assert (nkeys new1 = Ok nn) as Hn1.
  { rewrite <- Hn. eapply agree_nkeys; [exact Hag1|done]. }
  assert (len new1 ≤ cap new1) as Hshape1 by eauto using agree_shape.
  assert (dstBegin = offd) as ->.
  { assert (getOffset new1 d = getOffset new d) as Heq.
    { eapply (getOffset_agree nn room); [exact Hag1|done|done|]. right. lia. }
    congruence. }
  (* the offset loop *)
  pose proof (copy_offsets_footprint nn room _ _ _ _ _ _ _ _ _ _ Hoffs Hn1 Hd ltac:(lia) Hdst)
    as Hag2.
  assert (nkeys new2 = Ok nn) as Hn2.
  { rewrite <- Hn1. eapply agree_nkeys; [exact Hag2|unfold HEADER; lia]. }
  assert (len new2 ≤ cap new2) as Hshape2 by eauto using agree_shape.
  destruct (copy_offsets_last nn room _ _ _ _ _ _ _ _ _ _ Hoffs Hn1 Hshape1 Hd Hs Hsn
              ltac:(lia) Hdst) as (o2 & Ho2 & Hlast).
  assert (getOffset new2 d = Ok offd) as Hoff2.
  { rewrite <- Hoff. transitivity (getOffset new1 d).
    - eapply (getOffset_agree nn room); [exact Hag2|done|done|]. left. lia.
    - eapply (getOffset_agree nn room); [exact Hag1|done|done|]. right. lia. }
  (* the key-value bytes *)
  unfold kvPos in Hp. rewrite Hn2 in Hp. simpl in Hp.
  apply bind_Ok in Hp as (? & _ & Hp). rewrite Hoff2 in Hp. simpl in Hp.
  injection Hp as <-.
  replace (u16 (HEADER + 8 * nn + 2 * nn + offd))
    with (HEADER + 10 * nn + offd) in H by wrap_lia.
  apply copy_at_footprint in H; [|unfold HEADER; lia].
  assert (agree_outside new' new2 (HEADER + 10 * nn) (HEADER + 10 * nn + 65536 + blen src))
    as Hag3.
  { eapply agree_outside_weaken; [exact H|lia|lia]. }
  assert (nkeys new' = Ok nn) as Hn'.
  { rewrite <- Hn2. eapply agree_nkeys; [exact Hag3|unfold HEADER; lia]. }
  split; [done|]. split.
  { transitivity (btype new2); [eapply agree_btype; [exact Hag3|unfold HEADER; lia]|].
    transitivity (btype new1); [eapply agree_btype; [exact Hag2|unfold HEADER; lia]|].
    eapply agree_btype; [exact Hag1|unfold HEADER; lia]. }
  split; [eauto using agree_shape|].
  exists srcBegin, o2. split; [done|]. split; [done|].
  rewrite <- Hlast.
  eapply (getOffset_agree nn room); [exact Hag3|done|done|]. left. lia.
Qed.

Lemma setHeader_post node bt nk node' :
  setHeader node bt nk = Ok node' → 0 ≤ bt < 65536 → 0 ≤ nk < 65536 →
  btype node' = Ok bt ∧ nkeys node' = Ok nk ∧
  len node' = len node ∧ cap node' = cap node.
Proof.
  unfold setHeader, btype, nkeys, cap. simpl. rewrite !length_overwrite.
  destruct (Z.of_nat (length (arr node)) <? 2) eqn:E2; [done|].
  destruct (Z.of_nat (length (arr node)) <? 4) eqn:E4; [done|].
  intros [= <-] Hbt Hnk. simpl. rewrite !length_overwrite, E2, E4.
  split; [|split; [|done]].
  - rewrite take_overwrite_ge by lia.
    pose proof (window_overwrite_same 0 (le_split 2 bt) (arr node)) as Hw.
    rewrite length_le_split in Hw. rewrite drop_0 in Hw. rewrite Hw by lia.
    rewrite le_combine_split. f_equal. apply Z.mod_small. simpl. lia.
  - pose proof (window_overwrite_same 2 (le_split 2 nk)
                  (overwrite 0 (le_split 2 bt) (arr node))) as Hw.
    rewrite length_le_split, length_overwrite in Hw. rewrite Hw by lia.
    rewrite le_combine_split. f_equal. apply Z.mod_small. simpl. lia.
Qed.

(** C10. Whatever the kinds of [left] and [right], the node that
    [nodeMerge] returns is marked [BNODE_NODE].  The sizes are those of
    nodes whose positions fit 16 bits. *)
Theorem nodeMerge_kind new left right merged ln rn offL :
  nkeys left = Ok ln → nkeys right = Ok rn → getOffset left ln = Ok offL →
  HEADER + 10 * (ln + rn) + offL < 65536 →
  len new ≤ cap new →
  nodeMerge new left right = Ok merged →
  btype merged = Ok BNODE_NODE.
Proof.
  intros Hln Hrn HoffL Hroom Hshape H.
  pose proof (nkeys_range _ _ Hln). pose proof (nkeys_range _ _ Hrn).
  pose proof (getOffset_range _ _ _ HoffL).
  assert (10 * (ln + rn) + offL < 65532) by (unfold HEADER in Hroom; lia).
  unfold nodeMerge in H. rewrite Hln, Hrn in H. simpl in H.
  apply bind_Ok in H as (new0 & Hhdr & H). apply bind_Ok in H as (new1 & Hleft & H).
  rewrite (u16_small (ln + rn)) in Hhdr by lia.
  apply setHeader_post in Hhdr as (Hbt & Hnk & Hlen & Hcap);
    [|unfold BNODE_NODE; lia|lia].
  assert (len new0 ≤ cap new0) as Hshape0 by lia.
  apply (nodeAppendRange_post _ _ _ _ _ _ (ln + rn) 0) in Hleft;
    [|done|done|lia..|done|lia].
  assert (nkeys new1 = Ok (ln + rn) ∧ btype new1 = Ok BNODE_NODE ∧
          len new1 ≤ cap new1 ∧ getOffset new1 ln = Ok offL) as (Hnk0 & Hbt0 & Hshape1 & Hoff0).
  { destruct Hleft as [[-> ->]|(? & ? & ? & ? & o1 & o2 & Ho1 & Ho2 & Ho)].
    - repeat split; [done..|]. exact HoffL.
    - repeat split; [done|congruence|done|].
      rewrite Z.add_0_l in Ho2, Ho. rewrite HoffL in Ho2. injection Ho2 as <-.
      change (Ok 0 = Ok o1) in Ho1. injection Ho1 as <-.
      rewrite Ho. replace (0 + offL - 0) with offL by lia.
      f_equal. apply u16_small. lia. }
  apply (nodeAppendRange_post _ _ _ _ _ _ (ln + rn) offL) in H;
    [|done|done|lia..|done|lia].
  destruct H as [[_ ->]|(_ & _ & Hbt' & _)]; congruence.
Qed.


Lemma nbytes_range node sz : nbytes node = Ok sz → 0 ≤ sz < 65536.
Proof.
  unfold nbytes, kvPos. intros H.
  apply bind_Ok in H as (n & _ & H). apply bind_Ok in H as (n' & _ & H).
  apply bind_Ok in H as (? & _ & H). apply bind_Ok in H as (off & _ & H).
  injection H as <-. apply u16_range.
Qed.

Section MergeRule.
Context {St : Type}.
Variable Get : St → Z → result BNode.

(** C8. The decision of [shouldMerge], for a link [idx] of [node] and an
    updated child of [usz] bytes: no merge above a quarter page; otherwise
    the left sibling when there is one and the two fit into a page; the
    right sibling is looked at only when the left one is missing or does not
    fit, under the same test; no merge when neither fits. *)
Theorem shouldMerge_rule s node idx updated n usz :
  nkeys node = Ok n → 0 ≤ idx < n → nbytes updated = Ok usz → HEADER ≤ usz →
  (BTREE_PAGE_SIZE / 4 < usz →
     shouldMerge Get s node idx updated = Ok (0, empty_node)) ∧
  (usz ≤ BTREE_PAGE_SIZE / 4 →
     (∀ sib ssz, 0 < idx → stored_sibling Get s node (idx - 1) sib ssz →
        fits ssz usz = true →
        shouldMerge Get s node idx updated = Ok (-1, sib)) ∧
     (idx = 0 ∨ (∃ sib ssz, stored_sibling Get s node (idx - 1) sib ssz ∧
                            fits ssz usz = false) →
        (∀ sib ssz, idx + 1 < n → stored_sibling Get s node (idx + 1) sib ssz →
           shouldMerge Get s node idx updated =
             Ok (if fits ssz usz then (1, sib) else (0, empty_node))) ∧
        (n ≤ idx + 1 →
           shouldMerge Get s node idx updated = Ok (0, empty_node)))).
Proof.
  intros Hn Hidx Husz Hlo.
  pose proof (nkeys_range _ _ Hn) as Hnr.
  assert (∀ ssz, ssz ≤ BTREE_PAGE_SIZE → 0 ≤ ssz → usz ≤ BTREE_PAGE_SIZE / 4 →
            (u16 (u16 (ssz + usz) - HEADER) <=? BTREE_PAGE_SIZE) = fits ssz usz)
    as Hfits.
  { intros ssz ? ? ?. unfold fits. f_equal. wrap_lia. }
  unfold shouldMerge. rewrite Husz. simpl. split.
  - intros Hbig. apply Z.ltb_lt in Hbig. by rewrite Hbig.
  - intros Hsmall. apply Z.ltb_ge in Hsmall. rewrite Hsmall.
    apply Z.ltb_ge in Hsmall. split.
    + intros sib ssz Hpos (p & Hp & Hg & Hsz & Hb) Hf.
      apply Z.ltb_lt in Hpos. rewrite Hpos.
      rewrite (u16_small (idx - 1)) by lia. rewrite Hp. simpl.
      rewrite Hg. simpl. rewrite Hsz. simpl.
      pose proof (nbytes_range _ _ Hsz). rewrite Hfits, Hf by lia. done.
    + intros Hleft.
      match goal with
      | |- context [ if 0 <? idx then ?a else ?b ] =>
          assert ((if 0 <? idx then a else b) = Ok None) as ->
      end.
      { destruct Hleft as [->|(sib & ssz & (p & Hp & Hg & Hsz & Hb) & Hf)]; [done|].
        destruct (0 <? idx) eqn:E0; [|done]. apply Z.ltb_lt in E0.
        rewrite (u16_small (idx - 1)) by lia. rewrite Hp. simpl.
        rewrite Hg. simpl. rewrite Hsz. simpl.
        pose proof (nbytes_range _ _ Hsz). rewrite Hfits, Hf by lia. done. }
      simpl. rewrite Hn. simpl. rewrite (u16_small (idx + 1)) by lia. split.
      * intros sib ssz Hlt (p & Hp & Hg & Hsz & Hb).
        apply Z.ltb_lt in Hlt. rewrite Hlt. rewrite Hp. simpl.
        rewrite Hg. simpl. rewrite Hsz. simpl.
        pose proof (nbytes_range _ _ Hsz). rewrite Hfits by lia.
        by destruct (fits ssz usz).
      * intros Hge. apply Z.ltb_ge in Hge. by rewrite Hge.
Qed.

End MergeRule.

Section DeleteAbsent.
Context {St : Type}.
Variable Get : St → Z → result BNode.
Variable New : St → BNode → result (Z * St).
Variable Del : St → Z → result St.

(** A lookup that misses and a delete of the same key walk the same
    path; the delete then hands back the empty slice and touches
    nothing. *)
Lemma treeDelete_absent fuel s node key v :
  treeRead Get fuel s node key = Ok (v, false) →
  treeDelete Get New Del fuel s node key = Ok (empty_node, s).
Proof.
  revert node. induction fuel as [|fuel IH]; intros node H; [done|].
  cbn [treeRead] in H. cbn [treeDelete].
  apply bind_Ok in H as (idx & Hidx & H). rewrite Hidx. cbn [mbind result_bind].
  apply bind_Ok in H as (bt & Hbt & H). rewrite Hbt. cbn [mbind result_bind].
  destruct (bt =? BNODE_LEAF).
  - apply bind_Ok in H as (k & Hk & H). rewrite Hk. cbn [mbind result_bind].
    destruct (bytes_Equal key k); [|done].
    apply bind_Ok in H as (? & _ & H). done.
  - destruct (bt =? BNODE_NODE); [|done].
    unfold nodeDelete.
    apply bind_Ok in H as (p & Hp & H). rewrite Hp. cbn [mbind result_bind].
    apply bind_Ok in H as (kid & Hkid & H). rewrite Hkid. cbn [mbind result_bind].
    rewrite (IH _ H). done.
Qed.

(** Whenever [Read] reports a key as not found in a tree with a root,
    [Delete] of that key returns false and hands back the same tree: same
    root, same store. *)
Lemma Delete_absent_unchanged fuel tree key v :
  root tree ≠ 0 →
  Read Get fuel tree key = Ok (v, false) →
  Delete Get New Del fuel tree key = Ok (false, tree).
Proof.
  intros Hroot H. unfold Read in H. unfold Delete.
  apply Z.eqb_neq in Hroot. rewrite Hroot in H.
  apply bind_Ok in H as (node & Hnode & H). rewrite Hnode. cbn [mbind result_bind].
  rewrite (treeDelete_absent _ _ _ _ _ H). simpl. by destruct tree.
Qed.
End DeleteAbsent.

(** The last range copy of [nodeReplace2Kid] asks for one entry more than
    the old node has. *)
Lemma nodeAppendRange_past_end new old d s n on :
  nkeys old = Ok on → on < u16 (s + n) →
  nodeAppendRange new old d s n =
    Fatal (AssertionFailed "Try to append out of bound kids from older node").
Proof.
  intros Hon Hlt. unfold nodeAppendRange. rewrite Hon. simpl.
  replace (u16 (s + n) <=? on) with false by lia. done.
Qed.

Lemma nodeReplace2Kid_never_returns new old idx ptr key n r :
  nkeys old = Ok n → n ≠ 65535 →
  nodeReplace2Kid new old idx ptr key ≠ Ok r.
Proof.
  intros Hn Hmax H. pose proof (nkeys_range _ _ Hn) as Hr.
  unfold nodeReplace2Kid in H. rewrite Hn in H. simpl in H.
  apply bind_Ok in H as (new1 & _ & H). apply bind_Ok in H as (new2 & _ & H).
  apply bind_Ok in H as (new3 & _ & H).
  rewrite (nodeAppendRange_past_end _ _ _ _ _ n) in H; [done|done|].
  wrap_lia.
Qed.

(** [leafUpdate] at index 0: the count [idx-1] of its first range copy wraps
    to 65535, and the copy stops the program. *)
Lemma leafUpdate_first_entry_fatal new old key val n :
  nkeys old = Ok n → n ≠ 65535 →
  leafUpdate new old 0 key val =
    Fatal (AssertionFailed "Try to append out of bound kids from older node")
  ∨ ∃ e, setHeader new BNODE_LEAF n = Fatal e.
Proof.
  intros Hn Hmax. pose proof (nkeys_range _ _ Hn) as Hr.
  unfold leafUpdate. rewrite Hn. simpl.
  destruct (setHeader new BNODE_LEAF n) as [new1|e|] eqn:E; simpl.
  - left. rewrite (nodeAppendRange_past_end _ _ _ _ _ n); [done|done|]. wrap_lia.
  - right. eauto.
  - unfold setHeader in E. repeat case_match; done.
Qed.

(** No delete that decides to merge ever returns: both merge branches of
    [nodeDelete] end in [nodeReplace2Kid]. *)
Section MergeNeverReturns.
Context {St : Type}.
Variable Get : St → Z → result BNode.
Variable New : St → BNode → result (Z * St).
Variable Del : St → Z → result St.

Lemma nodeDelete_merge_never_returns rec s node idx key
    kptr kid updated s1 s2 dir sibling n r :
  getPtr node idx = Ok kptr → Get s kptr = Ok kid →
  rec s kid key = Ok (updated, s1) → len updated ≠ 0 →
  Del s1 kptr = Ok s2 →
  shouldMerge Get s2 node idx updated = Ok (dir, sibling) → dir ≠ 0 →
  nkeys node = Ok n → n ≠ 65535 →
  nodeDelete Get New Del rec s node idx key ≠ Ok r.
Proof.
  intros Hp Hkid Hrec Hlen Hdel Hmerge Hdir Hn Hmax H.
  unfold nodeDelete in H. rewrite Hp in H. cbn [mbind result_bind] in H.
  rewrite Hkid in H. cbn [mbind result_bind] in H.
  rewrite Hrec in H. cbn [mbind result_bind] in H.
  apply Z.eqb_neq in Hlen. rewrite Hlen in H.
  rewrite Hdel in H. cbn [mbind result_bind] in H.
  rewrite Hmerge in H. cbn [mbind result_bind] in H.
  destruct (dir <? 0) eqn:Eneg; [|destruct (0 <? dir) eqn:Epos; [|lia]].
  - apply bind_Ok in H as (merged & _ & H). apply bind_Ok in H as (p & _ & H).
    apply bind_Ok in H as (s3 & _ & H). apply bind_Ok in H as ([mp s4] & _ & H).
    apply bind_Ok in H as (k & _ & H). apply bind_Ok in H as (new & H & _).
    by eapply nodeReplace2Kid_never_returns.
  - apply bind_Ok in H as (merged & _ & H). apply bind_Ok in H as (p & _ & H).
    apply bind_Ok in H as (s3 & _ & H). apply bind_Ok in H as ([mp s4] & _ & H).
    apply bind_Ok in H as (k & _ & H). apply bind_Ok in H as (new & H & _).
    by eapply nodeReplace2Kid_never_returns.
Qed.
End MergeNeverReturns.

Lemma write_at_Ok w node pos v :
  0 ≤ pos → pos + Z.of_nat w ≤ len node →
  ∃ node', write_at w node pos v = Ok node'.
Proof.
  intros Hpos Hlen. unfold write_at.
  replace (len node <? pos) with false by lia.
  replace (len node - pos <? Z.of_nat w) with false by lia. eauto.
Qed.

Lemma copy_at_Ok node pos src :
  pos ≤ len node → ∃ node', copy_at node pos src = Ok node'.
Proof.
  intros Hlen. unfold copy_at. replace (len node <? pos) with false by lia. eauto.
Qed.

Lemma copy_at_past_end node pos src :
  len node < pos → copy_at node pos src = Fatal SliceBounds.
Proof. intros Hlen. unfold copy_at. by replace (len node <? pos) with true by lia. Qed.

Lemma blen_nonneg b : 0 ≤ blen b.
Proof. unfold blen. lia. Qed.

Ltac pos_lia :=
  try match goal with pos := _ |- _ => subst pos end;
  unfold HEADER in *; lia.

(** Appending one entry: when it returns, and what it leaves behind. *)
Section AppendKV.
Variables (new : BNode) (idx ptr : Z) (key val : list byte) (nn off : Z).
Hypothesis Hnn : nkeys new = Ok nn.
Hypothesis Hshape : len new ≤ cap new.
Hypothesis Hidx : 0 ≤ idx < nn.
Hypothesis Hoff : getOffset new idx = Ok off.
Hypothesis Harea : HEADER + 10 * nn ≤ len new.
Hypothesis Hroom : HEADER + 10 * nn + off + 4 + blen key + blen val < 65536.

Lemma nodeAppendKV_Ok :
  HEADER + 10 * nn + off + 4 + blen key ≤ len new →
  ∃ new', nodeAppendKV new idx ptr key val = Ok new' ∧
          nkeys new' = Ok nn ∧ btype new' = btype new ∧
          len new' = len new ∧ cap new' = cap new ∧
          getOffset new' (idx + 1) = Ok (off + 4 + blen key + blen val).
Proof using All.
  intros Hfit. set (pos := HEADER + 10 * nn + off) in *.
  pose proof (getOffset_range _ _ _ Hoff) as Hoffr.
  pose proof (blen_nonneg key). pose proof (blen_nonneg val).
  assert (HEADER + 10 * nn ≤ 65536) as room by (subst pos; unfold HEADER in *; lia).
  unfold nodeAppendKV.
  (* the pointer *)
  destruct (write_at_Ok 8 new (HEADER + 8 * idx) ptr) as [new1 H1];
    [unfold HEADER; lia|unfold HEADER in *; change (Z.of_nat 8) with 8; lia|].
  assert (setPtr new idx ptr = Ok new1) as HsetPtr.
  { unfold setPtr. rewrite Hnn. simpl. replace (idx <? nn) with true by lia. simpl.
    by replace (u16 (HEADER + 8 * idx)) with (HEADER + 8 * idx) by wrap_lia. }
  rewrite HsetPtr. cbn [mbind result_bind].
  pose proof (setPtr_footprint nn room _ _ _ _ HsetPtr Hnn ltac:(lia)) as Hag1.
  assert (nkeys new1 = Ok nn) as Hn1.
  { rewrite <- Hnn. eapply agree_nkeys; [exact Hag1|unfold HEADER; lia]. }
  assert (getOffset new1 idx = Ok off) as Hoff1.
  { rewrite <- Hoff. eapply (getOffset_agree nn room); [exact Hag1|done|done|].
    right. unfold HEADER. lia. }
  assert (len new1 = len new ∧ cap new1 = cap new) as [Hl1 Hc1].
  { split; [by destruct Hag1|by eapply agree_cap]. }
  (* the position of the entry *)
  assert (kvPos new1 idx = Ok pos) as Hpos.
  { unfold kvPos. rewrite Hn1. simpl. replace (idx <=? nn) with true by lia. simpl.
    rewrite Hoff1. simpl. f_equal. subst pos. wrap_lia. }
  rewrite Hpos. cbn [mbind result_bind].
  (* lengths, key, value *)
  replace (u16 (pos + 0)) with pos by (subst pos; wrap_lia).
  replace (u16 (pos + 2)) with (pos + 2) by (subst pos; wrap_lia).
  replace (u16 (pos + 4)) with (pos + 4) by (subst pos; wrap_lia).
  replace (u16 (pos + 4 + u16 (blen key))) with (pos + 4 + blen key)
    by (subst pos; wrap_lia).
  destruct (write_at_Ok 2 new1 pos (u16 (blen key))) as [new2 H2];
    [subst pos; unfold HEADER; lia|change (Z.of_nat 2) with 2; lia|].
  rewrite H2. cbn [mbind result_bind].
  pose proof (write_at_footprint _ _ _ _ _ H2 ltac:(subst pos; unfold HEADER; lia)) as Hag2.
  assert (len new2 = len new1) as Hl2 by (by destruct Hag2).
  destruct (write_at_Ok 2 new2 (pos + 2) (u16 (blen val))) as [new3 H3];
    [subst pos; unfold HEADER; lia|change (Z.of_nat 2) with 2; lia|].
  rewrite H3. cbn [mbind result_bind].
  pose proof (write_at_footprint _ _ _ _ _ H3 ltac:(subst pos; unfold HEADER; lia)) as Hag3.
  assert (len new3 = len new2) as Hl3 by (by destruct Hag3).
  destruct (copy_at_Ok new3 (pos + 4) key) as [new4 H4]; [lia|].
  rewrite H4. cbn [mbind result_bind].
  pose proof (copy_at_footprint _ _ _ _ H4 ltac:(subst pos; unfold HEADER; lia)) as Hag4.
  assert (len new4 = len new3) as Hl4 by (by destruct Hag4).
  destruct (copy_at_Ok new4 (pos + 4 + blen key) val) as [new5 H5]; [lia|].
  rewrite H5. cbn [mbind result_bind].
  pose proof (copy_at_footprint _ _ _ _ H5 ltac:(subst pos; unfold HEADER; lia)) as Hag5.
  assert (len new5 = len new4) as Hl5 by (by destruct Hag5).
  (* everything so far lies behind the offset array *)
  assert (agree_outside new5 new1 pos (pos + 65536)) as Hag.
  { unfold blen in *.
    eapply agree_outside_trans;
      [eapply agree_outside_weaken; [exact Hag5|pos_lia|pos_lia]|].
    eapply agree_outside_trans;
      [eapply agree_outside_weaken; [exact Hag4|pos_lia|pos_lia]|].
    eapply agree_outside_trans;
      [eapply agree_outside_weaken; [exact Hag3|pos_lia|pos_lia]|].
    eapply agree_outside_weaken; [exact Hag2|pos_lia|pos_lia]. }
  assert (nkeys new5 = Ok nn) as Hn5.
  { rewrite <- Hn1. eapply agree_nkeys; [exact Hag|subst pos; unfold HEADER; lia]. }
  assert (getOffset new5 idx = Ok off) as Hoff5.
  { rewrite <- Hoff1. eapply (getOffset_agree nn room); [exact Hag|done|done|].
    left. subst pos. lia. }
  rewrite Hoff5. cbn [mbind result_bind].
  (* the running offset *)
  replace (u16 (idx + 1)) with (idx + 1) by wrap_lia.
  replace (u16 (off + 4 + u16 (blen key + blen val)))
    with (off + 4 + blen key + blen val) by wrap_lia.
  destruct (write_at_Ok 2 new5 (HEADER + 8 * nn + 2 * idx)
              (off + 4 + blen key + blen val)) as [new6 H6];
    [unfold HEADER; lia|change (Z.of_nat 2) with 2; lia|].
  assert (setOffset new5 (idx + 1) (off + 4 + blen key + blen val) = Ok new6) as Hset.
  { unfold setOffset, offsetPos. replace (idx + 1 =? 0) with false by lia.
    rewrite Hn5. simpl.
    replace (1 <=? idx + 1) with true by lia. simpl.
    replace (idx + 1 <=? nn) with true by lia. simpl.
    replace (u16 (HEADER + 8 * nn + 2 * (idx + 1 - 1)))
      with (HEADER + 8 * nn + 2 * idx) by wrap_lia.
    done. }
  exists new6. split; [done|].
  pose proof (setOffset_footprint nn room _ _ _ _ Hset Hn5) as Hag6.
  assert (len new5 ≤ cap new5) as Hshape5.
  { rewrite (agree_cap _ _ _ _ Hag). lia. }
  split; [rewrite <- Hn5; eapply agree_nkeys; [exact Hag6|unfold HEADER; lia]|].
  split.
  { transitivity (btype new5); [eapply agree_btype; [exact Hag6|unfold HEADER; lia]|].
    transitivity (btype new1);
      [eapply agree_btype; [exact Hag|subst pos; unfold HEADER; lia]|].
    eapply agree_btype; [exact Hag1|unfold HEADER; lia]. }
  split; [destruct Hag6 as (-> & _); lia|].
  split; [rewrite (agree_cap _ _ _ _ Hag6), (agree_cap _ _ _ _ Hag); lia|].
  rewrite (getOffset_setOffset nn room _ _ _ _ Hset Hn5 Hshape5) by lia.
  f_equal. apply u16_small. unfold HEADER in *. lia.
Qed.

Lemma nodeAppendKV_too_long :
  HEADER + 10 * nn + off + 4 ≤ len new →
  len new < HEADER + 10 * nn + off + 4 + blen key →
  nodeAppendKV new idx ptr key val = Fatal SliceBounds.
Proof using All.
  intros Hhdr Hlong. set (pos := HEADER + 10 * nn + off) in *.
  pose proof (getOffset_range _ _ _ Hoff) as Hoffr.
  pose proof (blen_nonneg key). pose proof (blen_nonneg val).
  assert (HEADER + 10 * nn ≤ 65536) as room by (subst pos; unfold HEADER in *; lia).
  unfold nodeAppendKV.
  destruct (write_at_Ok 8 new (HEADER + 8 * idx) ptr) as [new1 H1];
    [unfold HEADER; lia|unfold HEADER in *; change (Z.of_nat 8) with 8; lia|].
  assert (setPtr new idx ptr = Ok new1) as HsetPtr.
  { unfold setPtr. rewrite Hnn. simpl. replace (idx <? nn) with true by lia. simpl.
    by replace (u16 (HEADER + 8 * idx)) with (HEADER + 8 * idx) by wrap_lia. }
  rewrite HsetPtr. cbn [mbind result_bind].
  pose proof (setPtr_footprint nn room _ _ _ _ HsetPtr Hnn ltac:(lia)) as Hag1.
  assert (nkeys new1 = Ok nn) as Hn1.
  { rewrite <- Hnn. eapply agree_nkeys; [exact Hag1|unfold HEADER; lia]. }
  assert (getOffset new1 idx = Ok off) as Hoff1.
  { rewrite <- Hoff. eapply (getOffset_agree nn room); [exact Hag1|done|done|].
    right. unfold HEADER. lia. }
  assert (len new1 = len new) as Hl1 by (by destruct Hag1).
  assert (kvPos new1 idx = Ok pos) as Hpos.
  { unfold kvPos. rewrite Hn1. simpl. replace (idx <=? nn) with true by lia. simpl.
    rewrite Hoff1. simpl. f_equal. subst pos. wrap_lia. }
  rewrite Hpos. cbn [mbind result_bind].
  replace (u16 (pos + 0)) with pos by (subst pos; wrap_lia).
  replace (u16 (pos + 2)) with (pos + 2) by (subst pos; wrap_lia).
  replace (u16 (pos + 4)) with (pos + 4) by (subst pos; wrap_lia).
  replace (u16 (pos + 4 + u16 (blen key))) with (pos + 4 + blen key)
    by (subst pos; wrap_lia).
  destruct (write_at_Ok 2 new1 pos (u16 (blen key))) as [new2 H2];
    [subst pos; unfold HEADER; lia|change (Z.of_nat 2) with 2; lia|].
  rewrite H2. cbn [mbind result_bind].
  pose proof (write_at_footprint _ _ _ _ _ H2 ltac:(subst pos; unfold HEADER; lia)) as Hag2.
  assert (len new2 = len new1) as Hl2 by (by destruct Hag2).
  destruct (write_at_Ok 2 new2 (pos + 2) (u16 (blen val))) as [new3 H3];
    [subst pos; unfold HEADER; lia|change (Z.of_nat 2) with 2; lia|].
  rewrite H3. cbn [mbind result_bind].
  pose proof (write_at_footprint _ _ _ _ _ H3 ltac:(subst pos; unfold HEADER; lia)) as Hag3.
  assert (len new3 = len new2) as Hl3 by (by destruct Hag3).
  destruct (copy_at_Ok new3 (pos + 4) key) as [new4 H4]; [lia|].
  rewrite H4. cbn [mbind result_bind].
  pose proof (copy_at_footprint _ _ _ _ H4 ltac:(subst pos; unfold HEADER; lia)) as Hag4.
  assert (len new4 = len new3) as Hl4 by (by destruct Hag4).
  rewrite copy_at_past_end by lia. done.
Qed.
End AppendKV.

(** ** More fuel changes no outcome

    Once the model reaches an outcome of the Go program with some budget,
    every larger budget gives the same outcome. *)

Lemma bind_decided {A B} (m : result A) (f : A → result B) :
  (m ≫= f) ≠ OutOfFuel → m ≠ OutOfFuel.
Proof. by destruct m. Qed.

Lemma bind_mono {A B} (m m' : result A) (f f' : A → result B) :
  (m ≠ OutOfFuel → m' = m) →
  (∀ a, m = Ok a → f a ≠ OutOfFuel → f' a = f a) →
  (m ≫= f) ≠ OutOfFuel → (m' ≫= f') = (m ≫= f).
Proof.
  intros Hm Hf H. rewrite Hm by eauto using bind_decided.
  destruct m as [a| |]; simpl in *; [|done..]. by apply Hf.
Qed.

Lemma nodeLookupLE_loop_mono fuel fuel' node key left right found :
  (fuel ≤ fuel')%nat →
  nodeLookupLE_loop fuel node key left right found ≠ OutOfFuel →
  nodeLookupLE_loop fuel' node key left right found =
    nodeLookupLE_loop fuel node key left right found.
Proof.
  revert fuel' left right found.
  induction fuel as [|fuel IH]; intros fuel' left right found Hle H; [done|].
  destruct fuel' as [|fuel']; [lia|]. simpl in *.
  destruct (left <=? right); [|done].
  apply bind_mono; [done| |done].
  intros k _ Hk. destruct (bytes_Compare k key <=? 0); apply IH; (lia || done).
Qed.

Lemma nodeLookupLE_mono fuel fuel' node key :
  (fuel ≤ fuel')%nat →
  nodeLookupLE fuel node key ≠ OutOfFuel →
  nodeLookupLE fuel' node key = nodeLookupLE fuel node key.
Proof.
  intros Hle H. unfold nodeLookupLE in *.
  apply bind_mono; [done| |done].
  intros n _ Hn. by apply nodeLookupLE_loop_mono.
Qed.

Section FuelMono.
Context {St : Type}.
Variable Get : St → Z → result BNode.
Variable New : St → BNode → result (Z * St).
Variable Del : St → Z → result St.

Lemma treeRead_mono fuel fuel' s node key :
  (fuel ≤ fuel')%nat →
  treeRead Get fuel s node key ≠ OutOfFuel →
  treeRead Get fuel' s node key = treeRead Get fuel s node key.
Proof.
  revert fuel' node. induction fuel as [|fuel IH]; intros fuel' node Hle H; [done|].
  destruct fuel' as [|fuel']; [lia|]. cbn [treeRead] in *.
  apply bind_mono; [by apply nodeLookupLE_mono| |done].
  intros idx _ H1. apply bind_mono; [done| |done].
  intros bt _ H2. destruct (bt =? BNODE_LEAF); [done|].
  destruct (bt =? BNODE_NODE); [|done].
  apply bind_mono; [done| |done]. intros p _ H3.
  apply bind_mono; [done| |done]. intros kid _ H4.
  apply IH; [lia|done].
Qed.

Lemma Read_mono fuel fuel' tree key :
  (fuel ≤ fuel')%nat →
  Read Get fuel tree key ≠ OutOfFuel →
  Read Get fuel' tree key = Read Get fuel tree key.
Proof.
  intros Hle H. unfold Read in *. destruct (root tree =? 0); [done|].
  apply bind_mono; [done| |done]. intros node _ H1. by apply treeRead_mono.
Qed.

Lemma nodeInsert_mono rec rec' s new node idx key val :
  (∀ s kid, rec s kid key val ≠ OutOfFuel → rec' s kid key val = rec s kid key val) →
  nodeInsert Get New Del rec s new node idx key val ≠ OutOfFuel →
  nodeInsert Get New Del rec' s new node idx key val =
    nodeInsert Get New Del rec s new node idx key val.
Proof.
  intros Hrec H. unfold nodeInsert in *.
  apply bind_mono; [done| |done]. intros kptr _ H1.
  apply bind_mono; [done| |done]. intros kid _ H2.
  apply bind_mono; [apply Hrec|done|done].
Qed.

Lemma treeInsert_mono fuel fuel' s node key val :
  (fuel ≤ fuel')%nat →
  treeInsert Get New Del fuel s node key val ≠ OutOfFuel →
  treeInsert Get New Del fuel' s node key val =
    treeInsert Get New Del fuel s node key val.
Proof.
  revert fuel' s node. induction fuel as [|fuel IH]; intros fuel' s node Hle H; [done|].
  destruct fuel' as [|fuel']; [lia|]. cbn [treeInsert] in *.
  apply bind_mono; [by apply nodeLookupLE_mono| |done].
  intros idx _ H1. apply bind_mono; [done| |done].
  intros bt _ H2. destruct (bt =? BNODE_LEAF); [done|].
  destruct (bt =? BNODE_NODE); [|done].
  apply nodeInsert_mono; [|done]. intros s' kid Hk. apply IH; [lia|done].
Qed.

Lemma Insert_mono fuel fuel' tree key val :
  (fuel ≤ fuel')%nat →
  Insert Get New Del fuel tree key val ≠ OutOfFuel →
  Insert Get New Del fuel' tree key val = Insert Get New Del fuel tree key val.
Proof.
  intros Hle H. unfold Insert in *. destruct (root tree =? 0); [done|].
  apply bind_mono; [done| |done]. intros old _ H1.
  apply bind_mono; [by apply treeInsert_mono|done|done].
Qed.

Lemma nodeDelete_mono rec rec' s node idx key :
  (∀ s kid, rec s kid key ≠ OutOfFuel → rec' s kid key = rec s kid key) →
  nodeDelete Get New Del rec s node idx key ≠ OutOfFuel →
  nodeDelete Get New Del rec' s node idx key =
    nodeDelete Get New Del rec s node idx key.
Proof.
  intros Hrec H. unfold nodeDelete in *.
  apply bind_mono; [done| |done]. intros kptr _ H1.
  apply bind_mono; [done| |done]. intros kid _ H2.
  apply bind_mono; [apply Hrec|done|done].
Qed.

Lemma treeDelete_mono fuel fuel' s node key :
  (fuel ≤ fuel')%nat →
  treeDelete Get New Del fuel s node key ≠ OutOfFuel →
  treeDelete Get New Del fuel' s node key = treeDelete Get New Del fuel s node key.
Proof.
  revert fuel' s node. induction fuel as [|fuel IH]; intros fuel' s node Hle H; [done|].
  destruct fuel' as [|fuel']; [lia|]. cbn [treeDelete] in *.
  apply bind_mono; [by apply nodeLookupLE_mono| |done].
  intros idx _ H1. apply bind_mono; [done| |done].
  intros bt _ H2. destruct (bt =? BNODE_LEAF); [done|].
  destruct (bt =? BNODE_NODE); [|done].
  apply nodeDelete_mono; [|done]. intros s' kid Hk. apply IH; [lia|done].
Qed.

Lemma Delete_mono fuel fuel' tree key :
  (fuel ≤ fuel')%nat →
  Delete Get New Del fuel tree key ≠ OutOfFuel →
  Delete Get New Del fuel' tree key = Delete Get New Del fuel tree key.
Proof.
  intros Hle H. unfold Delete in *.
  apply bind_mono; [done| |done]. intros old _ H1.
  apply bind_mono; [by apply treeDelete_mono|done|done].
Qed.
End FuelMono.

(** The same for the tree over the test page table, in the form the
    examples use: the outcome at budget [fuel] is the outcome at every
    budget [fuel + n]. *)
Lemma C_Read_fuel n fuel tree key r :
  C_Read fuel tree key = r → r ≠ OutOfFuel → C_Read (fuel + n) tree key = r.
Proof. intros <- H. apply Read_mono; [lia|done]. Qed.

Lemma C_Insert_fuel n fuel tree key val r :
  C_Insert fuel tree key val = r → r ≠ OutOfFuel →
  C_Insert (fuel + n) tree key val = r.
Proof. intros <- H. apply Insert_mono; [lia|done]. Qed.

Lemma C_Delete_fuel n fuel tree key r :
  C_Delete fuel tree key = r → r ≠ OutOfFuel → C_Delete (fuel + n) tree key = r.
Proof. intros <- H. apply Delete_mono; [lia|done]. Qed.

Lemma treeInsert_fuel n fuel s node key val r :
  treeInsert pt_get pt_new pt_del fuel s node key val = r → r ≠ OutOfFuel →
  treeInsert pt_get pt_new pt_del (fuel + n) s node key val = r.
Proof. intros <- H. apply treeInsert_mono; [lia|done]. Qed.

Lemma treeDelete_fuel n fuel s node key r :
  treeDelete pt_get pt_new pt_del fuel s node key = r → r ≠ OutOfFuel →
  treeDelete pt_get pt_new pt_del (fuel + n) s node key = r.
Proof. intros <- H. apply treeDelete_mono; [lia|done]. Qed.

(** Evaluates a call of the examples at the base budget. *)
Ltac run_fuel :=
  first [ apply C_Insert_fuel | apply C_Read_fuel | apply C_Delete_fuel
        | apply treeInsert_fuel | apply treeDelete_fuel ];
  [vm_compute; reflexivity | discriminate].

(** ** The first insert *)

Lemma setHeader_Ok node bt nk :
  4 ≤ cap node → ∃ node', setHeader node bt nk = Ok node'.
Proof.
  intros Hcap. unfold setHeader, cap in *. simpl. rewrite length_overwrite.
  replace (Z.of_nat (length (arr node)) <? 2) with false by lia.
  replace (Z.of_nat (length (arr node)) <? 4) with false by lia. eauto.
Qed.

Lemma make_shape n : 0 ≤ n → len (make n) = n ∧ cap (make n) = n.
Proof. intros Hn. unfold make, cap. simpl. rewrite length_replicate. lia. Qed.

Lemma nbytes_eq node nn off :
  nkeys node = Ok nn → getOffset node nn = Ok off →
  nbytes node = Ok (u16 (HEADER + 8 * nn + 2 * nn + off)).
Proof.
  intros Hn Hoff. unfold nbytes, kvPos. rewrite Hn. simpl.
  replace (nn <=? nn) with true by lia. simpl. by rewrite Hoff.
Qed.

(** The leaf that [Insert] builds for an empty tree, in the shape in which
    [Insert] runs it: [k] is what follows. *)
Lemma first_leaf key val :
  32 + blen key + blen val < 65536 →
  (32 + blen key ≤ BTREE_PAGE_SIZE →
     ∃ leaf, len leaf = BTREE_PAGE_SIZE ∧
             nbytes leaf = Ok (32 + blen key + blen val) ∧
             ∀ B (k : BNode → result B),
               (rt ← setHeader (make BTREE_PAGE_SIZE) BNODE_LEAF 2;
                rt ← nodeAppendKV rt 0 0 [] [];
                rt ← nodeAppendKV rt 1 0 key val;
                k rt) = k leaf) ∧
  (BTREE_PAGE_SIZE < 32 + blen key →
     ∀ B (k : BNode → result B),
       (rt ← setHeader (make BTREE_PAGE_SIZE) BNODE_LEAF 2;
        rt ← nodeAppendKV rt 0 0 [] [];
        rt ← nodeAppendKV rt 1 0 key val;
        k rt) = Fatal SliceBounds).
Proof.
  intros Hroom.
  pose proof (blen_nonneg key). pose proof (blen_nonneg val).
  destruct (make_shape BTREE_PAGE_SIZE) as [Hl0 Hc0]; [done|].
  destruct (setHeader_Ok (make BTREE_PAGE_SIZE) BNODE_LEAF 2) as [rt1 H1];
    [rewrite Hc0; done|].
  rewrite H1. cbn [mbind result_bind].
  apply setHeader_post in H1 as (Hbt1 & Hn1 & Hl1 & Hc1); [|done|done].
  destruct (nodeAppendKV_Ok rt1 0 0 [] [] 2 0) as (rt2 & H2 & Hn2 & Hbt2 & Hl2 & Hc2 & Hoff2);
    [done|lia|done|done|rewrite Hl1, Hl0; done|done|rewrite Hl1, Hl0; done|].
  rewrite H2. cbn [mbind result_bind]. change (0 + 1) with 1 in Hoff2.
  change (0 + 4 + blen [] + blen []) with 4 in Hoff2.
  split.
  - intros Hfit.
    destruct (nodeAppendKV_Ok rt2 1 0 key val 2 4) as (rt3 & H3 & Hn3 & Hbt3 & Hl3 & Hc3 & Hoff3);
      [done|lia|done|done|rewrite Hl2, Hl1, Hl0; done|unfold HEADER; lia|
       unfold HEADER, BTREE_PAGE_SIZE in *; lia|].
    exists rt3. split; [lia|]. split.
    + change (1 + 1) with 2 in Hoff3.
      rewrite (nbytes_eq _ _ _ Hn3 Hoff3). f_equal. wrap_lia.
    + intros B k. by rewrite H3.
  - intros Hlong B k.
    rewrite (nodeAppendKV_too_long rt2 1 0 key val 2 4);
      [done|done|lia|done|done|rewrite Hl2, Hl1, Hl0; done|unfold HEADER; lia|
       unfold HEADER, BTREE_PAGE_SIZE in *; lia|unfold HEADER, BTREE_PAGE_SIZE in *; lia].
Qed.

Ltac outcome_iff :=
  first [ solve [intros [? [=]]] | solve [intros; lia] | solve [intros; eauto] ].

(** What decides the first insert: [Insert] never looks at the two size
    limits.  While the lengths stay within 16 bits, the first insert into
    an empty tree stops the program exactly when the sentinel entry and the
    new entry do not fit into one page together, whatever the lengths of
    the key and of the value are. *)
Theorem first_insert_fatal_iff fuel key val :
  32 + blen key + blen val < 65536 →
  ((∃ e, C_Insert fuel NewC key val = Fatal e) ↔
     BTREE_PAGE_SIZE < 32 + blen key + blen val) ∧
  ((∃ tree, C_Insert fuel NewC key val = Ok tree) ↔
     32 + blen key + blen val ≤ BTREE_PAGE_SIZE).
Proof.
  intros Hroom.
  pose proof (blen_nonneg key). pose proof (blen_nonneg val).
  destruct (first_leaf key val Hroom) as [Hfit Hlong].
  unfold C_Insert, Insert. cbn [root store NewC Z.eqb].
  destruct (decide (32 + blen key ≤ BTREE_PAGE_SIZE)) as [Hk|Hk].
  - destruct (Hfit Hk) as (rt & Hlen & Hsz & ->).
    unfold pt_new. rewrite Hsz. cbn [mbind result_bind].
    destruct (decide (32 + blen key + blen val ≤ BTREE_PAGE_SIZE)) as [Hkv|Hkv].
    + replace (32 + blen key + blen val <=? BTREE_PAGE_SIZE) with true by lia.
      rewrite Hlen. simpl.
      rewrite bool_decide_eq_true_2 by apply lookup_empty. simpl.
      split; split; outcome_iff.
    + replace (32 + blen key + blen val <=? BTREE_PAGE_SIZE) with false by lia.
      simpl. split; split; outcome_iff.
  - rewrite Hlong by lia.
    split; split; outcome_iff.
Qed.

(** A key of 1001 bytes, one more than the limit, with an empty value. *)
Lemma first_insert_fatal_iff_witness :
  32 + blen (filler 1001) + blen [] < 65536 ∧
  BTREE_MAX_KEY_SIZE < blen (filler 1001) ∧
  ∃ tree, C_Insert 1 NewC (filler 1001) [] = Ok tree.
Proof.
  split; [vm_compute; reflexivity|]. split; [vm_compute; reflexivity|].
  apply (first_insert_fatal_iff 1 (filler 1001) []); vm_compute; congruence.
Defined.

(** Not every key over the limit stops the program: a key of 1001 bytes is
    stored. *)
Lemma oversized_key_accepted :
  ¬ (∀ fuel tree key val,
       BTREE_MAX_KEY_SIZE < blen key ∨ BTREE_MAX_VALUE_SIZE < blen val →
       ∃ e, C_Insert fuel tree key val = Fatal e).
Proof.
  intros H.
  destruct (H 1%nat NewC (filler 1001) []) as [e He].
  - left. vm_compute. reflexivity.
  - vm_compute in He. discriminate He.
Qed.

(** C4. [BTREE_MAX_KEY_SIZE] and [BTREE_MAX_VALUE_SIZE] are never compared
    with a key or a value.  From the empty tree, a key of 1001 bytes is
    stored and read back, and so is a value of 3001 bytes; a key of 1001
    bytes is stored by a later insert as well.  A key of 65536 bytes is
    taken too: its length is written as 0, so the leaf holds a second
    empty key, the key itself is not found, and its value is what [Read]
    of the empty key returns. *)
Theorem oversized_pairs_stored (n : nat) :
  (∃ t, C_Insert (8 + n) NewC (filler 1001) [] = Ok t ∧
        C_Read (8 + n) t (filler 1001) = Ok ([], true)) ∧
  (∃ t, C_Insert (8 + n) NewC (bytes_of "k") (filler 3001) = Ok t ∧
        C_Read (8 + n) t (bytes_of "k") = Ok (filler 3001, true)) ∧
  (∃ t1 t2, C_Insert (8 + n) NewC (bytes_of "a") (bytes_of "1") = Ok t1 ∧
            C_Insert (8 + n) t1 (filler 1001) [] = Ok t2 ∧
            C_Read (8 + n) t2 (filler 1001) = Ok ([], true)) ∧
  (∃ t leaf, C_Insert (8 + n) NewC (filler 65536) (bytes_of "v") = Ok t ∧
             C_Read (8 + n) t (filler 65536) = Ok ([], false) ∧
             C_Read (8 + n) t [] = Ok (bytes_of "v", true) ∧
             pt_get (store t) (root t) = Ok leaf ∧
             nkeys leaf = Ok 2 ∧ getKey leaf 1 = Ok []).
Proof.
  split; [|split; [|split]].
  - eexists. split; run_fuel.
  - eexists. split; run_fuel.
  - do 2 eexists. split; [run_fuel|]. split; run_fuel.
  - do 2 eexists. split; [run_fuel|]. split; [run_fuel|]. split; [run_fuel|].
    split; [run|]. split; run.
Qed.


(** C1. Three inserts with distinct keys and values within the limits: the
    third one splits the root leaf [sentinel, a, b, c] by key count into
    [sentinel, a] and [b, c]; the right half needs 5034 bytes, and the page
    table refuses it.  No read can follow. *)
Theorem third_insert_fatal (n : nat) :
  ∃ t1 t2,
    C_Insert (8 + n) NewC (bytes_of "a") (filler 2000) = Ok t1 ∧
    C_Insert (8 + n) t1 (bytes_of "b") (filler 2000) = Ok t2 ∧
    C_Insert (8 + n) t2 (bytes_of "c") (filler 3000) =
      Fatal (AssertionFailed "new node exceed max size").
Proof. do 2 eexists. split; [run_fuel|]. split; run_fuel. Qed.

(** C5. The node that the insert path hands to [nodeSplit3] in that run:
    7063 bytes, four entries within the limits.  Two nodes come back and
    the second one is larger than a page. *)
Theorem split_right_half_oversized (n : nat) :
  ∃ t1 t2 old node s left right,
    C_Insert (8 + n) NewC (bytes_of "a") (filler 2000) = Ok t1 ∧
    C_Insert (8 + n) t1 (bytes_of "b") (filler 2000) = Ok t2 ∧
    pt_get (store t2) (root t2) = Ok old ∧
    treeInsert pt_get pt_new pt_del (8 + n) (store t2) old
      (bytes_of "c") (filler 3000) = Ok (node, s) ∧
    nbytes node = Ok 7063 ∧ nkeys node = Ok 4 ∧
    nodeSplit3 node = Ok (2, (left, right, empty_node)) ∧
    btype right = Ok BNODE_LEAF ∧ nkeys right = Ok 2 ∧
    nbytes right = Ok 5034 ∧ BTREE_PAGE_SIZE < 5034.
Proof.
  do 7 eexists. split; [run_fuel|]. split; [run_fuel|]. split; [run|].
  split; [run_fuel|].
  split; [run|]. split; [run|]. split; [run|]. split; [run|]. split; [run|].
  split; [run|done].
Qed.

(** C3. Writing a second value for a key that is there: the read still
    returns the first value, and the sentinel entry at index 0 is gone. *)
Theorem update_keeps_old_value (n : nat) :
  ∃ t1 t2 leaf,
    C_Insert (8 + n) NewC (bytes_of "1") (bytes_of "1") = Ok t1 ∧
    C_Insert (8 + n) t1 (bytes_of "1") (bytes_of "2") = Ok t2 ∧
    C_Read (8 + n) t2 (bytes_of "1") = Ok (bytes_of "1", true) ∧
    pt_get (store t2) (root t2) = Ok leaf ∧
    getKey leaf 0 = Ok (bytes_of "1") ∧ getVal leaf 1 = Ok (bytes_of "1").
Proof.
  do 3 eexists. split; [run_fuel|]. split; [run_fuel|]. split; [run_fuel|].
  split; [run|]. split; run.
Qed.

(** C2. Two leaves under one root; deleting "a" leaves a 18-byte leaf,
    [shouldMerge] picks the right sibling, and the delete stops in
    [nodeReplace2Kid].  "b" was readable before. *)
Theorem delete_with_merge_fatal (n : nat) :
  ∃ t1 t2 node p kid updated s s' sibling,
    C_Insert (8 + n) NewC (bytes_of "a") (filler 3000) = Ok t1 ∧
    C_Insert (8 + n) t1 (bytes_of "b") (filler 3000) = Ok t2 ∧
    C_Read (8 + n) t2 (bytes_of "a") = Ok (filler 3000, true) ∧
    C_Read (8 + n) t2 (bytes_of "b") = Ok (filler 3000, true) ∧
    pt_get (store t2) (root t2) = Ok node ∧
    getPtr node 0 = Ok p ∧ pt_get (store t2) p = Ok kid ∧
    treeDelete pt_get pt_new pt_del (7 + n) (store t2) kid (bytes_of "a")
      = Ok (updated, s) ∧
    pt_del s p = Ok s' ∧
    shouldMerge pt_get s' node 0 updated = Ok (1, sibling) ∧
    C_Delete (8 + n) t2 (bytes_of "a") =
      Fatal (AssertionFailed "Try to append out of bound kids from older node").
Proof.
  do 9 eexists. split; [run_fuel|]. split; [run_fuel|]. split; [run_fuel|].
  split; [run_fuel|].
  split; [run|]. split; [run|]. split; [run|]. split; [run_fuel|]. split; [run|].
  split; [run|run_fuel].
Qed.

(** C6. Writing a second value for the key [01 00 00 00 00] rebuilds the
    leaf from the wrong ranges: index 0 then holds that key, index 1 the
    key [00], which was never inserted and is smaller.  Only inserts of
    non-empty keys are involved. *)
Theorem first_key_not_minimal (n : nat) :
  let k1 := [Byte.x01] in
  let k2 := [Byte.x01; Byte.x00; Byte.x00; Byte.x00; Byte.x00] in
  ∃ t1 t2 t3 leaf,
    C_Insert (8 + n) NewC k1 (bytes_of "x") = Ok t1 ∧
    C_Insert (8 + n) t1 k2 (bytes_of "y") = Ok t2 ∧
    C_Insert (8 + n) t2 k2 (bytes_of "z") = Ok t3 ∧
    pt_get (store t3) (root t3) = Ok leaf ∧
    btype leaf = Ok BNODE_LEAF ∧ nkeys leaf = Ok 3 ∧
    getKey leaf 0 = Ok k2 ∧ getKey leaf 1 = Ok [Byte.x00] ∧
    bytes_Compare [Byte.x00] k2 = -1.
Proof.
  do 4 eexists. split; [run_fuel|]. split; [run_fuel|]. split; [run_fuel|].
  split; [run|].
  split; [run|]. split; [run|]. split; [run|]. split; run.
Qed.

(** The sentinel is an ordinary entry to [Delete]: deleting the empty key
    removes it, and the next smaller key is then put behind a larger one. *)
Lemma sentinel_can_be_deleted (n : nat) :
  ∃ t1 t2 t3 leaf,
    C_Insert (8 + n) NewC (bytes_of "b") (bytes_of "1") = Ok t1 ∧
    C_Delete (8 + n) t1 [] = Ok (true, t2) ∧
    C_Insert (8 + n) t2 (bytes_of "a") (bytes_of "2") = Ok t3 ∧
    pt_get (store t3) (root t3) = Ok leaf ∧
    btype leaf = Ok BNODE_LEAF ∧ nkeys leaf = Ok 2 ∧
    getKey leaf 0 = Ok (bytes_of "b") ∧ getKey leaf 1 = Ok (bytes_of "a") ∧
    bytes_Compare (bytes_of "a") (bytes_of "b") = -1.
Proof.
  do 4 eexists. split; [run_fuel|]. split; [run_fuel|]. split; [run_fuel|].
  split; [run|].
  split; [run|]. split; [run|]. split; [run|]. split; run.
Qed.

(** C7. On the empty tree a read of any key misses, and a delete of the
    same key stops the program instead of returning false. *)
Theorem delete_on_new_tree_fatal (fuel : nat) :
  C_Read fuel NewC (bytes_of "a") = Ok ([], false) ∧
  C_Delete fuel NewC (bytes_of "a") =
    Fatal (AssertionFailed "Can't read allocated data").
Proof. split; reflexivity. Qed.

(** C9. [Delete] has no test for the empty tree: it asks the page table
    for pointer 0, which the table never hands out. *)
Theorem Delete_empty_tree_fatal fuel (c : PageTable) key :
  pages c !! 0 = None →
  C_Delete fuel (mkBTree 0 c) key =
    Fatal (AssertionFailed "Can't read allocated data").
Proof.
  intros H. unfold C_Delete, Delete, pt_get. cbn [root store]. by rewrite H.
Qed.

(** The tree of [NewC]. *)
Lemma Delete_empty_tree_fatal_witness :
  pages (store NewC) !! 0 = None ∧
  C_Delete 3 NewC (bytes_of "k") =
    Fatal (AssertionFailed "Can't read allocated data").
Proof.
  split; [reflexivity|].
  apply (Delete_empty_tree_fatal 3 (mkPageTable ∅ 1) (bytes_of "k")). reflexivity.
Defined.



(** Two leaves of one entry each: the merged node is marked internal. *)
Lemma nodeMerge_kind_witness :
  ∃ left right merged,
    leaf1 [] [] = Ok left ∧ leaf1 (bytes_of "b") (bytes_of "2") = Ok right ∧
    btype left = Ok BNODE_LEAF ∧ btype right = Ok BNODE_LEAF ∧
    nodeMerge (make BTREE_PAGE_SIZE) left right = Ok merged ∧
    btype merged = Ok BNODE_NODE.
Proof.
  let l := eval vm_compute in (leaf1 [] []) in
  let r := eval vm_compute in (leaf1 (bytes_of "b") (bytes_of "2")) in
  match l with
  | Ok ?left =>
      match r with
      | Ok ?right =>
          let m := eval vm_compute in (nodeMerge (make BTREE_PAGE_SIZE) left right) in
          match m with
          | Ok ?merged =>
              exists left, right, merged;
              split; [run|]; split; [run|]; split; [run|]; split; [run|];
              split; [run|];
              apply (nodeMerge_kind (make BTREE_PAGE_SIZE) left right merged 1 1 4);
              [run|run|run|vm_compute; reflexivity|vm_compute; congruence|run]
          end
      end
  end.
Defined.

(** A node with two links, an 18-byte child behind link 0 and a 3019-byte
    sibling behind link 1: the right sibling is chosen. *)
Lemma shouldMerge_rule_witness :
  ∃ node updated sibling,
    node2 4 5 (bytes_of "b") = Ok node ∧
    leaf1 [] [] = Ok updated ∧
    leaf1 (bytes_of "b") (filler 3000) = Ok sibling ∧
    nkeys node = Ok 2 ∧ nbytes updated = Ok 18 ∧ nbytes sibling = Ok 3019 ∧
    shouldMerge pt_get (mkPageTable {[ 5 := sibling ]} 6) node 0 updated
      = Ok (1, sibling).
Proof.
  assert (0 ≤ 0 < 2) as Hidx by lia.
  assert (HEADER ≤ 18) as Hlo by (unfold HEADER; lia).
  assert (18 ≤ BTREE_PAGE_SIZE / 4) as Hq by (vm_compute; congruence).
  assert (0 + 1 < 2) as Hnext by lia.
  assert (3019 ≤ BTREE_PAGE_SIZE) as Hpage by (vm_compute; congruence).
  do 3 eexists. split; [run|]. split; [run|]. split; [run|]. split; [run|].
  split; [run|]. split; [run|].
  match goal with
  | |- shouldMerge pt_get ?s ?node 0 ?upd = Ok (1, ?sib) =>
      refine (proj1 (proj2 (proj2 (shouldMerge_rule pt_get s node 0 upd 2 18
                 _ Hidx _ Hlo) Hq) (or_introl eq_refl)) sib 3019 Hnext _);
      [run|run|exists 5; split; [run|]; split; [run|]; split; [run|exact Hpage]]
  end.
Defined.

(** * Nodes as lists of entries *)








(** *** Sizes *)

Lemma esize_pos e : 4 ≤ esize e.
Proof. unfold esize, blen. lia. Qed.

Lemma offs_nonneg es : 0 ≤ offs es.
Proof. induction es as [|e es IH]; simpl; [done|]. pose proof (esize_pos e). lia. Qed.

Lemma offs_app es1 es2 : offs (es1 ++ es2) = offs es1 + offs es2.
Proof. induction es1 as [|e es1 IH]; simpl; lia. Qed.

Lemma offs_take_le es (i : nat) : offs (take i es) ≤ offs es.
Proof.
  rewrite <- (take_drop i es) at 2. rewrite offs_app.
  pose proof (offs_nonneg (drop i es)). lia.
Qed.

Lemma offs_take_S es (i : nat) e :
  es !! i = Some e → offs (take (S i) es) = offs (take i es) + esize e.
Proof.
  intros H. rewrite (take_S_r _ _ _ H), offs_app. simpl. lia.
Qed.

Lemma offs_take_mono es (i j : nat) : (i ≤ j)%nat → offs (take i es) ≤ offs (take j es).
Proof.
  intros Hij. replace (take i es) with (take i (take j es)).
  - apply offs_take_le.
  - rewrite take_take. f_equal. lia.
Qed.

Lemma length_kv_bytes e : Z.of_nat (length (kv_bytes e)) = esize e.
Proof.
  unfold kv_bytes, esize, blen. rewrite !length_app, !length_le_split. lia.
Qed.

Lemma length_kv_region es : Z.of_nat (length (kv_region es)) = offs es.
Proof.
  unfold kv_region. induction es as [|e es IH]; [done|].
  rewrite fmap_cons. cbn [concat offs]. rewrite length_app.
  pose proof (length_kv_bytes e). lia.
Qed.

Lemma kv_region_app es1 es2 : kv_region (es1 ++ es2) = kv_region es1 ++ kv_region es2.
Proof. unfold kv_region. by rewrite fmap_app, concat_app. Qed.

Lemma kv_region_cons e es : kv_region (e :: es) = kv_bytes e ++ kv_region es.
Proof. done. Qed.

(** The bytes of entry [i] inside the region. *)
Lemma kv_region_lookup es (i : nat) e :
  es !! i = Some e →
  take (Z.to_nat (esize e)) (drop (Z.to_nat (offs (take i es))) (kv_region es))
    = kv_bytes e.
Proof.
  intros H.
  replace (kv_region es)
    with (kv_region (take i es) ++ (kv_bytes e ++ kv_region (drop (S i) es))).
  - rewrite drop_app_length'; [|rewrite <- length_kv_region; lia].
    rewrite take_app_length'; [done|]. rewrite <- length_kv_bytes. lia.
  - rewrite <- kv_region_cons, <- kv_region_app. by rewrite take_drop_middle.
Qed.

(** *** Reading a node back *)

Lemma window_sub {A} (l : list A) (q o w W : nat) :
  (o + w ≤ W)%nat →
  take w (drop o (take W (drop q l))) = take w (drop (q + o) l).
Proof.
  intros H. apply list_eq. intros i.
  destruct (decide (i < w)%nat) as [Hi|Hi].
  - rewrite !lookup_take_lt, !lookup_drop by lia.
    rewrite lookup_take_lt, lookup_drop by lia. f_equal. lia.
  - by rewrite !lookup_take_ge by lia.
Qed.

Lemma le_combine_split_2 z : 0 ≤ z < 65536 → le_combine (le_split 2 z) = z.
Proof. intros H. rewrite le_combine_split. apply Z.mod_small. simpl. lia. Qed.

Lemma le_combine_split_8 z : 0 ≤ z < 2 ^ 64 → le_combine (le_split 8 z) = z.
Proof. intros H. rewrite le_combine_split. apply Z.mod_small. simpl. lia. Qed.

Section Filled.
Variables (node : BNode) (N : Z) (es : list entry).
Hypothesis Hfilled : filled node N es.

Lemma filled_nkeys : nkeys node = Ok N.
Proof using Hfilled. apply Hfilled. Qed.

Lemma filled_bounds :
  0 ≤ N ∧ Z.of_nat (length es) ≤ N ∧ HEADER + 10 * N + offs es ≤ len node ∧
  len node ≤ cap node ∧ len node < 65536.
Proof using Hfilled.
  destruct Hfilled as (? & ? & Hn & ? & ? & _). pose proof (nkeys_range _ _ Hn). lia.
Qed.

(** A window of the key-value region, read in the array. *)
Lemma filled_window (o w : Z) :
  0 ≤ o → 0 ≤ w → o + w ≤ offs es →
  take (Z.to_nat w) (drop (Z.to_nat (HEADER + 10 * N + o)) (arr node))
    = take (Z.to_nat w) (drop (Z.to_nat o) (kv_region es)).
Proof using Hfilled.
  intros Ho Hw Hle. destruct filled_bounds as (HN & _).
  destruct Hfilled as (_ & _ & _ & _ & _ & _ & _ & <-).
  rewrite window_sub by lia. f_equal. f_equal. unfold HEADER. lia.
Qed.

Lemma filled_kvPos (i : nat) :
  (i ≤ length es)%nat →
  kvPos node (Z.of_nat i) = Ok (HEADER + 10 * N + offs (take i es)).
Proof using Hfilled.
  intros Hi. destruct filled_bounds as (HN & Hlen & Hfit & _ & Hmax).
  pose proof (offs_take_le es i). pose proof (offs_nonneg (take i es)).
  destruct Hfilled as (_ & _ & Hn & _ & _ & _ & Hoff & _).
  unfold kvPos. rewrite Hn. simpl.
  replace (Z.of_nat i <=? N) with true by lia. simpl.
  rewrite (Hoff i Hi). simpl. f_equal. wrap_lia.
Qed.

Lemma filled_nbytes :
  N = Z.of_nat (length es) → nbytes node = Ok (HEADER + 10 * N + offs es).
Proof using Hfilled.
  intros HN. unfold nbytes. rewrite filled_nkeys. simpl.
  rewrite HN at 1. rewrite filled_kvPos by lia. by rewrite firstn_all.
Qed.

Section Entry.
Variables (i : nat) (e : entry).
Hypothesis He : es !! i = Some e.

Lemma filled_entry_fits :
  offs (take i es) + esize e ≤ offs es ∧ (i < length es)%nat.
Proof using He.
  pose proof (lookup_lt_Some _ _ _ He) as Hi. split; [|done].
  rewrite <- (offs_take_S _ _ _ He). apply offs_take_le.
Qed.

Lemma filled_kv_bytes :
  take (Z.to_nat (esize e))
    (drop (Z.to_nat (HEADER + 10 * N + offs (take i es))) (arr node)) = kv_bytes e.
Proof using Hfilled He.
  destruct filled_entry_fits as [Hfit Hi].
  pose proof (offs_nonneg (take i es)). pose proof (esize_pos e).
  rewrite filled_window by lia. by apply kv_region_lookup.
Qed.

Lemma filled_getPtr : getPtr node (Z.of_nat i) = Ok (e_ptr e).
Proof using Hfilled He.
  destruct Hfilled as (_ & _ & _ & _ & _ & Hptr & _). by apply Hptr.
Qed.

Lemma filled_getKey : getKey node (Z.of_nat i) = Ok (e_key e).
Proof using Hfilled He.
  destruct filled_entry_fits as [Hfit Hi].
  destruct filled_bounds as (HN & Hlen & Hsz & Hcap & Hmax).
  pose proof (offs_nonneg (take i es)) as Ho.
  pose proof (blen_nonneg (e_key e)). pose proof (blen_nonneg (e_val e)).
  unfold getKey. rewrite filled_nkeys. simpl.
  replace (Z.of_nat i <? N) with true by lia. simpl.
  rewrite filled_kvPos by lia. simpl.
  set (pos := HEADER + 10 * N + offs (take i es)).
  assert (0 ≤ pos ∧ pos + esize e ≤ len node) as [Hpos Hend].
  { subst pos. unfold HEADER in *. lia. }
  pose proof filled_kv_bytes as Hkv. fold pos in Hkv.
  assert (read_at 2 node pos = Ok (blen (e_key e))) as ->.
  { unfold read_at, esize in *.
    replace (len node <? pos) with false by lia.
    replace (len node - pos <? Z.of_nat 2) with false
      by (change (Z.of_nat 2) with 2; lia).
    f_equal.
    replace (take 2 (drop (Z.to_nat pos) (arr node)))
      with (take 2 (kv_bytes e)).
    - unfold kv_bytes. rewrite take_app_length' by (by rewrite length_le_split).
      apply le_combine_split_2. lia.
    - rewrite <- Hkv, take_take. f_equal. lia. }
  simpl. unfold slice_from_len, esize in *.
  replace (u16 (pos + 4)) with (pos + 4) by wrap_lia.
  replace (len node <? pos + 4) with false by lia.
  replace (cap node - (pos + 4) <? blen (e_key e)) with false by lia.
  f_equal.
  pose proof (window_sub (arr node) (Z.to_nat pos) 4 (length (e_key e))
                (Z.to_nat (4 + blen (e_key e) + blen (e_val e)))) as Hsub.
  rewrite Hkv in Hsub.
  replace (Z.to_nat (pos + 4)) with (Z.to_nat pos + 4)%nat by lia.
  unfold blen in *. rewrite Nat2Z.id. rewrite <- Hsub by lia.
  unfold kv_bytes. rewrite app_assoc.
  rewrite drop_app_length' by (by rewrite length_app, !length_le_split).
  by rewrite take_app_length.
Qed.

Lemma filled_getVal : getVal node (Z.of_nat i) = Ok (e_val e).
Proof using Hfilled He.
  destruct filled_entry_fits as [Hfit Hi].
  destruct filled_bounds as (HN & Hlen & Hsz & Hcap & Hmax).
  pose proof (offs_nonneg (take i es)) as Ho.
  pose proof (blen_nonneg (e_key e)). pose proof (blen_nonneg (e_val e)).
  unfold getVal. rewrite filled_nkeys. simpl.
  replace (Z.of_nat i <? N) with true by lia. simpl.
  rewrite filled_kvPos by lia. simpl.
  set (pos := HEADER + 10 * N + offs (take i es)).
  assert (0 ≤ pos ∧ pos + esize e ≤ len node) as [Hpos Hend].
  { subst pos. unfold HEADER in *. lia. }
  pose proof filled_kv_bytes as Hkv. fold pos in Hkv.
  assert (read_at 2 node pos = Ok (blen (e_key e))) as ->.
  { unfold read_at, esize in *.
    replace (len node <? pos) with false by lia.
    replace (len node - pos <? Z.of_nat 2) with false
      by (change (Z.of_nat 2) with 2; lia).
    f_equal.
    replace (take 2 (drop (Z.to_nat pos) (arr node)))
      with (take 2 (kv_bytes e)).
    - unfold kv_bytes. rewrite take_app_length' by (by rewrite length_le_split).
      apply le_combine_split_2. lia.
    - rewrite <- Hkv, take_take. f_equal. lia. }
  simpl.
  replace (u16 (pos + 2)) with (pos + 2) by (unfold esize in *; wrap_lia).
  assert (read_at 2 node (pos + 2) = Ok (blen (e_val e))) as ->.
  { unfold read_at, esize in *.
    replace (len node <? pos + 2) with false by lia.
    replace (len node - (pos + 2) <? Z.of_nat 2) with false
      by (change (Z.of_nat 2) with 2; lia).
    f_equal.
    pose proof (window_sub (arr node) (Z.to_nat pos) 2 2
                  (Z.to_nat (4 + blen (e_key e) + blen (e_val e)))) as Hsub.
    rewrite Hkv in Hsub.
    replace (Z.to_nat (pos + 2)) with (Z.to_nat pos + 2)%nat by lia.
    rewrite <- Hsub by lia.
    unfold kv_bytes. rewrite drop_app_length' by (by rewrite length_le_split).
    rewrite take_app_length' by (by rewrite length_le_split).
    apply le_combine_split_2. lia. }
  simpl. unfold slice_from_len, esize in *.
  replace (u16 (pos + 4 + blen (e_key e))) with (pos + 4 + blen (e_key e)) by wrap_lia.
  replace (len node <? pos + 4 + blen (e_key e)) with false by lia.
  replace (cap node - (pos + 4 + blen (e_key e)) <? blen (e_val e)) with false by lia.
  f_equal.
  pose proof (window_sub (arr node) (Z.to_nat pos) (4 + length (e_key e))
                (length (e_val e))
                (Z.to_nat (4 + blen (e_key e) + blen (e_val e)))) as Hsub.
  rewrite Hkv in Hsub.
  unfold blen in *.
  replace (Z.to_nat (pos + 4 + Z.of_nat (length (e_key e))))
    with (Z.to_nat pos + (4 + length (e_key e)))%nat by lia.
  rewrite Nat2Z.id. rewrite <- Hsub by lia.
  unfold kv_bytes. rewrite !app_assoc.
  rewrite drop_app_length' by (rewrite !length_app, !length_le_split; lia).
  by rewrite firstn_all.
Qed.
End Entry.
End Filled.

(** *** Appending one entry to a partly filled node *)

(** Two writes next to each other are one write. *)
Lemma overwrite_app p a b dst :
  overwrite (p + length a) b (overwrite p a dst) = overwrite p (a ++ b) dst.
Proof.
  apply list_eq. intros i.
  destruct (decide (i < length dst)%nat) as [Hd|Hd].
  - destruct (decide (i < p)%nat) as [H1|H1].
    { rewrite !lookup_overwrite_lt by lia. done. }
    destruct (decide (i < p + length a)%nat) as [H2|H2].
    { rewrite lookup_overwrite_lt by lia.
      rewrite !lookup_overwrite_in by (rewrite ?length_app; lia).
      by rewrite lookup_app_l by lia. }
    destruct (decide (i < p + length a + length b)%nat) as [H3|H3].
    { rewrite !lookup_overwrite_in by (rewrite ?length_app, ?length_overwrite; lia).
      rewrite lookup_app_r by lia. f_equal. lia. }
    rewrite !lookup_overwrite_ge by (rewrite ?length_app; lia). done.
  - rewrite !(lookup_ge_None_2 _ i) by (rewrite ?length_overwrite; lia). done.
Qed.

Lemma write_at_eq w node pos v :
  0 ≤ pos → pos + Z.of_nat w ≤ len node →
  write_at w node pos v =
    Ok (mkBNode (overwrite (Z.to_nat pos) (le_split w v) (arr node)) (len node)).
Proof.
  intros Hpos Hlen. unfold write_at.
  replace (len node <? pos) with false by lia.
  replace (len node - pos <? Z.of_nat w) with false by lia. done.
Qed.

Lemma copy_at_eq node pos src :
  0 ≤ pos → pos + blen src ≤ len node →
  copy_at node pos src =
    Ok (mkBNode (overwrite (Z.to_nat pos) src (arr node)) (len node)).
Proof.
  intros Hpos Hlen. unfold copy_at, blen in *.
  replace (len node <? pos) with false by lia.
  rewrite take_ge by lia. done.
Qed.


Lemma nodeAppendKV_run new idx e nn off :
  nkeys new = Ok nn → len new ≤ cap new → len new < 65536 →
  0 ≤ idx < nn → getOffset new idx = Ok off →
  HEADER + 10 * nn + off + esize e ≤ len new →
  nodeAppendKV new idx (e_ptr e) (e_key e) (e_val e) =
    Ok (mkBNode (appended (arr new) nn idx off e) (len new)).
Proof.
  intros Hnn Hshape Hmax Hidx Hoff Hfit. destruct e as [ptr key val].
  unfold appended, kv_bytes, esize in *. cbn [e_ptr e_key e_val] in *.
  pose proof (getOffset_range _ _ _ Hoff) as Hoffr.
  pose proof (blen_nonneg key). pose proof (blen_nonneg val).
  assert (HEADER + 10 * nn ≤ 65536) as room by (unfold HEADER in *; lia).
  set (pos := HEADER + 10 * nn + off) in *.
  assert (0 ≤ pos ∧ HEADER + 10 * nn ≤ pos) as [Hpos0 Hpos1] by (subst pos; unfold HEADER; lia).
  unfold nodeAppendKV.
  (* the pointer *)
  assert (setPtr new idx ptr =
          Ok (mkBNode (overwrite (Z.to_nat (HEADER + 8 * idx)) (le_split 8 ptr) (arr new))
                (len new))) as HsetPtr.
  { unfold setPtr. rewrite Hnn. simpl. replace (idx <? nn) with true by lia. simpl.
    replace (u16 (HEADER + 8 * idx)) with (HEADER + 8 * idx) by wrap_lia.
    apply write_at_eq; [unfold HEADER; lia|].
    change (Z.of_nat 8) with 8. unfold HEADER in *. lia. }
  rewrite HsetPtr. cbn [mbind result_bind].
  set (new1 := mkBNode _ _) in *.
  pose proof (setPtr_footprint nn room _ _ _ _ HsetPtr Hnn ltac:(lia)) as Hag1.
  assert (nkeys new1 = Ok nn) as Hn1.
  { rewrite <- Hnn. eapply agree_nkeys; [exact Hag1|unfold HEADER; lia]. }
  assert (getOffset new1 idx = Ok off) as Hoff1.
  { rewrite <- Hoff. eapply (getOffset_agree nn room); [exact Hag1|done|done|].
    right. unfold HEADER. lia. }
  assert (kvPos new1 idx = Ok pos) as Hpos.
  { unfold kvPos. rewrite Hn1. simpl. replace (idx <=? nn) with true by lia. simpl.
    rewrite Hoff1. simpl. f_equal. subst pos. wrap_lia. }
  rewrite Hpos. cbn [mbind result_bind].
  (* lengths, key, value *)
  replace (u16 (pos + 0)) with pos by wrap_lia.
  replace (u16 (pos + 2)) with (pos + 2) by wrap_lia.
  replace (u16 (pos + 4)) with (pos + 4) by wrap_lia.
  replace (u16 (pos + 4 + u16 (blen key))) with (pos + 4 + blen key) by wrap_lia.
  replace (u16 (blen key)) with (blen key) by wrap_lia.
  replace (u16 (blen val)) with (blen val) by wrap_lia.
  rewrite (write_at_eq 2 new1 pos) by (subst new1; cbn [len]; lia).
  cbn [mbind result_bind]. cbn [arr len].
  rewrite (write_at_eq 2 _ (pos + 2)) by (subst new1; cbn [len]; lia).
  cbn [mbind result_bind]. cbn [arr len].
  rewrite (copy_at_eq _ (pos + 4)) by (subst new1; cbn [len]; lia).
  cbn [mbind result_bind]. cbn [arr len].
  rewrite (copy_at_eq _ (pos + 4 + blen key)) by (subst new1; cbn [len]; lia).
  cbn [mbind result_bind]. cbn [arr len].
  (* the four writes are one *)
  replace (Z.to_nat (pos + 2)) with (Z.to_nat pos + length (le_split 2 (blen key)))%nat
    by (rewrite length_le_split; lia).
  rewrite overwrite_app.
  replace (Z.to_nat (pos + 4))
    with (Z.to_nat pos + length (le_split 2 (blen key) ++ le_split 2 (blen val)))%nat
    by (rewrite length_app, !length_le_split; lia).
  rewrite overwrite_app.
  replace (Z.to_nat (pos + 4 + blen key))
    with (Z.to_nat pos
          + length ((le_split 2 (blen key) ++ le_split 2 (blen val)) ++ key))%nat
    by (rewrite !length_app, !length_le_split; unfold blen; lia).
  rewrite overwrite_app. rewrite <- !app_assoc.
  set (new5 := mkBNode _ _).
  assert (agree_outside new5 new1 pos (pos + 65536)) as Hag.
  { subst new5. repeat split; cbn [arr len]; [by rewrite length_overwrite|].
    intros q w Hq Hd. apply window_overwrite_disjoint.
    rewrite !length_app, !length_le_split. unfold blen in *. lia. }
  assert (nkeys new5 = Ok nn) as Hn5.
  { rewrite <- Hn1. eapply agree_nkeys; [exact Hag|unfold HEADER in *; lia]. }
  assert (getOffset new5 idx = Ok off) as Hoff5.
  { rewrite <- Hoff1. eapply (getOffset_agree nn room); [exact Hag|done|done|].
    left. lia. }
  rewrite Hoff5. cbn [mbind result_bind].
  (* the running offset *)
  replace (u16 (idx + 1)) with (idx + 1) by wrap_lia.
  replace (u16 (off + 4 + u16 (blen key + blen val)))
    with (off + (4 + blen key + blen val)) by wrap_lia.
  unfold setOffset, offsetPos. replace (idx + 1 =? 0) with false by lia.
  rewrite Hn5. simpl.
  replace (1 <=? idx + 1) with true by lia. simpl.
  replace (idx + 1 <=? nn) with true by lia. simpl.
  replace (u16 (HEADER + 8 * nn + 2 * (idx + 1 - 1)))
    with (HEADER + 8 * nn + 2 * idx) by wrap_lia.
  rewrite write_at_eq; [done|unfold HEADER; lia|].
  subst new5 new1. cbn [len]. change (Z.of_nat 2) with 2. unfold HEADER in *. lia.
Qed.

Lemma take_add_drop {A} (l : list A) (q a b : nat) :
  take (a + b) (drop q l) = take a (drop q l) ++ take b (drop (q + a) l).
Proof. by rewrite <- take_take_drop, drop_drop. Qed.

Lemma le_split_length_Z w v : Z.of_nat (length (le_split w v)) = Z.of_nat w.
Proof. by rewrite length_le_split. Qed.

(** Windows of the array after an append. *)
Section Appended.
Variables (a : list byte) (N idx off : Z) (e : entry).
Hypothesis Hidx : 0 ≤ idx < N.
Hypothesis Hoff : 0 ≤ off.
Hypothesis Hfit : HEADER + 10 * N + off + esize e ≤ Z.of_nat (length a).

Lemma length_appended : length (appended a N idx off e) = length a.
Proof. unfold appended. by rewrite !length_overwrite. Qed.

Lemma appended_frame (q : Z) (w : nat) :
  0 ≤ q →
  (q + Z.of_nat w ≤ HEADER + 8 * idx ∨ HEADER + 8 * idx + 8 ≤ q) →
  (q + Z.of_nat w ≤ HEADER + 8 * N + 2 * idx ∨ HEADER + 8 * N + 2 * idx + 2 ≤ q) →
  (q + Z.of_nat w ≤ HEADER + 10 * N + off ∨ HEADER + 10 * N + off + esize e ≤ q) →
  take w (drop (Z.to_nat q) (appended a N idx off e)) = take w (drop (Z.to_nat q) a).
Proof using Hidx Hoff.
  intros Hq H1 H2 H3. unfold appended.
  pose proof (length_kv_bytes e).
  do 3 (rewrite window_overwrite_disjoint;
          [|rewrite ?length_le_split; unfold HEADER in *; lia]).
  done.
Qed.

Lemma appended_ptr :
  take 8 (drop (Z.to_nat (HEADER + 8 * idx)) (appended a N idx off e))
    = le_split 8 (e_ptr e).
Proof using Hidx Hoff Hfit.
  unfold appended. pose proof (length_kv_bytes e). pose proof (esize_pos e).
  do 2 (rewrite window_overwrite_disjoint;
          [|rewrite ?length_le_split; unfold HEADER in *; lia]).
  pose proof (window_overwrite_same (Z.to_nat (HEADER + 8 * idx))
                (le_split 8 (e_ptr e)) a) as Hw.
  rewrite length_le_split in Hw. apply Hw. unfold HEADER in *. lia.
Qed.

Lemma appended_offset :
  take 2 (drop (Z.to_nat (HEADER + 8 * N + 2 * idx)) (appended a N idx off e))
    = le_split 2 (off + esize e).
Proof using Hidx Hoff Hfit.
  unfold appended. pose proof (length_kv_bytes e). pose proof (esize_pos e).
  pose proof (window_overwrite_same (Z.to_nat (HEADER + 8 * N + 2 * idx))
                (le_split 2 (off + esize e))) as Hw.
  rewrite length_le_split in Hw. apply Hw.
  rewrite !length_overwrite. unfold HEADER in *. lia.
Qed.

Lemma appended_kv :
  take (Z.to_nat (esize e))
    (drop (Z.to_nat (HEADER + 10 * N + off)) (appended a N idx off e)) = kv_bytes e.
Proof using Hidx Hoff Hfit.
  unfold appended. pose proof (length_kv_bytes e) as Hkv. pose proof (esize_pos e).
  rewrite window_overwrite_disjoint;
    [|rewrite ?length_le_split; unfold HEADER in *; lia].
  pose proof (window_overwrite_same (Z.to_nat (HEADER + 10 * N + off)) (kv_bytes e)) as Hw.
  replace (Z.to_nat (esize e)) with (length (kv_bytes e)) by lia.
  apply Hw. rewrite !length_overwrite. unfold HEADER in *. lia.
Qed.
End Appended.

(** Reading a node whose array is given. *)
Lemma read_at_mk w a l q :
  0 ≤ q → q + Z.of_nat w ≤ l →
  read_at w (mkBNode a l) q = Ok (le_combine (take w (drop (Z.to_nat q) a))).
Proof.
  intros Hq Hl. unfold read_at. cbn [len arr].
  replace (l <? q) with false by lia.
  replace (l - q <? Z.of_nat w) with false by lia. done.
Qed.

Lemma nkeys_mk a l :
  4 ≤ Z.of_nat (length a) →
  nkeys (mkBNode a l) = Ok (le_combine (take 2 (drop 2 a))).
Proof. intros H. unfold nkeys, cap. cbn [arr]. by replace (_ <? 4) with false by lia. Qed.

Lemma nkeys_arr node n :
  nkeys node = Ok n →
  4 ≤ Z.of_nat (length (arr node)) ∧ le_combine (take 2 (drop 2 (arr node))) = n.
Proof.
  unfold nkeys, cap. destruct (_ <? 4) eqn:E; [done|]. intros [= <-]. lia.
Qed.

Lemma btype_arr_eq a a' l l' :
  length a = length a' → take 2 a = take 2 a' →
  btype (mkBNode a l) = btype (mkBNode a' l').
Proof. intros Hl Ht. unfold btype, cap. cbn [arr]. by rewrite Hl, Ht. Qed.

(** An append extends what the node holds by one entry. *)
Lemma filled_append node N es e :
  filled node N es → Z.of_nat (length es) < N → 0 ≤ e_ptr e < 2 ^ 64 →
  HEADER + 10 * N + offs es + esize e ≤ len node →
  let node' := mkBNode (appended (arr node) N (Z.of_nat (length es)) (offs es) e)
                 (len node) in
  nodeAppendKV node (Z.of_nat (length es)) (e_ptr e) (e_key e) (e_val e) = Ok node' ∧
  filled node' N (es ++ [e]) ∧ btype node' = btype node.
Proof.
  intros Hf Hidx Hptr Hfit node'.
  destruct (filled_bounds _ _ _ Hf) as (HN & Hlen & Hsz & Hcap & Hmax).
  pose proof (offs_nonneg es) as Ho. pose proof (esize_pos e) as He.
  pose proof (filled_nkeys _ _ _ Hf) as Hn.
  destruct (nkeys_arr _ _ Hn) as [Hcap4 Hnk].
  assert (HEADER + 10 * N + offs es + esize e ≤ Z.of_nat (length (arr node))) as Hfit'.
  { unfold cap in Hcap. lia. }
  assert (0 ≤ Z.of_nat (length es) < N) as Hidx' by lia.
  assert (getOffset node (Z.of_nat (length es)) = Ok (offs es)) as Hoff.
  { destruct Hf as (_ & _ & _ & _ & _ & _ & Hoff & _).
    rewrite (Hoff (length es)) by lia. by rewrite firstn_all. }
  split; [by apply nodeAppendKV_run|].
  assert (nkeys node' = Ok N) as Hn'.
  { subst node'. rewrite nkeys_mk by (rewrite length_appended; lia).
    pose proof (appended_frame (arr node) N (Z.of_nat (length es)) (offs es) e
                  Hidx' Ho 2 2%nat) as Hw.
    change (Z.to_nat 2) with 2%nat in Hw.
    rewrite Hw by (unfold HEADER; lia). by rewrite Hnk. }
  assert (∀ j : Z, getOffset node' j =
            if decide (j = Z.of_nat (length es) + 1) then Ok (offs es + esize e)
            else getOffset node j) as Hoff'.
  { intros j. unfold getOffset. destruct (j =? 0) eqn:Ej.
    { case_decide; [lia|done]. }
    unfold offsetPos. rewrite Hn, Hn'. simpl.
    destruct (1 <=? j) eqn:E1; simpl; [|case_decide; [lia|done]].
    destruct (j <=? N) eqn:E2; simpl; [|case_decide; [lia|done]].
    replace (u16 (HEADER + 8 * N + 2 * (j - 1)))
      with (HEADER + 8 * N + 2 * (j - 1)) by wrap_lia.
    subst node'. rewrite read_at_mk by (unfold HEADER in *; lia).
    case_decide as Hj.
    - subst j.
      replace (HEADER + 8 * N + 2 * (Z.of_nat (length es) + 1 - 1))
        with (HEADER + 8 * N + 2 * Z.of_nat (length es)) by lia.
      rewrite appended_offset by done. f_equal. apply le_combine_split_2.
      unfold HEADER in *. lia.
    - unfold read_at. change (Z.of_nat 2) with 2.
      replace (len node <? HEADER + 8 * N + 2 * (j - 1)) with false
        by (unfold HEADER in *; lia).
      replace (len node - (HEADER + 8 * N + 2 * (j - 1)) <? 2) with false
        by (unfold HEADER in *; lia).
      rewrite appended_frame; [done|done|done|unfold HEADER; lia|..];
        unfold HEADER in *; lia. }
  split; [|subst node'; destruct node as [a l]; apply btype_arr_eq;
           [by rewrite length_appended|]].
  2: { cbn [arr]. apply (appended_frame a N (Z.of_nat (length es)) (offs es) e
                  Hidx' Ho 0 2%nat); unfold HEADER; lia. }
  unfold filled. rewrite offs_app. cbn [offs]. rewrite Z.add_0_r.
  split; [subst node'; unfold cap in *; cbn [len arr]; rewrite length_appended; lia|].
  split; [done|]. split; [done|].
  split; [rewrite length_app; simpl; lia|]. split; [subst node'; cbn [len]; lia|].
  split; [|split].
  - (* pointers *)
    intros i e' Hi.
    assert (getPtr node' (Z.of_nat i) =
            if decide (i = length es) then Ok (e_ptr e)
            else getPtr node (Z.of_nat i)) as Hp.
    { pose proof (lookup_lt_Some _ _ _ Hi) as Hlt. rewrite length_app in Hlt.
      simpl in Hlt. unfold getPtr. rewrite Hn, Hn'. simpl.
      replace (Z.of_nat i <? N) with true by lia. simpl.
      replace (u16 (HEADER + 8 * Z.of_nat i)) with (HEADER + 8 * Z.of_nat i)
        by wrap_lia.
      subst node'. rewrite read_at_mk by (unfold HEADER in *; lia).
      case_decide as Hj.
      - subst i. rewrite appended_ptr by done. f_equal.
        by apply le_combine_split_8.
      - unfold read_at. change (Z.of_nat 8) with 8.
        replace (len node <? HEADER + 8 * Z.of_nat i) with false
          by (unfold HEADER in *; lia).
        replace (len node - (HEADER + 8 * Z.of_nat i) <? 8) with false
          by (unfold HEADER in *; lia).
        rewrite appended_frame; [done|done|unfold HEADER; lia|..];
          unfold HEADER in *; lia. }
    rewrite Hp. destruct (decide (i = length es)) as [->|Hne].
    + rewrite lookup_app_r, Nat.sub_diag in Hi by lia. by injection Hi as <-.
    + pose proof (lookup_lt_Some _ _ _ Hi) as Hlt. rewrite length_app in Hlt.
      simpl in Hlt. rewrite lookup_app_l in Hi by lia.
      destruct Hf as (_ & _ & _ & _ & _ & Hptrs & _). by apply Hptrs.
  - (* offsets *)
    intros i Hi. rewrite length_app in Hi. simpl in Hi. rewrite Hoff'.
    case_decide as Hj.
    + replace i with (length (es ++ [e])) by (rewrite length_app; simpl; lia).
      rewrite firstn_all, offs_app. simpl. f_equal. lia.
    + rewrite take_app_le by lia.
      destruct Hf as (_ & _ & _ & _ & _ & _ & Hoffs & _). apply Hoffs. lia.
  - (* bytes *)
    subst node'. cbn [arr]. rewrite kv_region_app, kv_region_cons.
    unfold kv_region at 2. simpl. rewrite app_nil_r.
    replace (Z.to_nat (offs es + esize e))
      with (Z.to_nat (offs es) + Z.to_nat (esize e))%nat by lia.
    rewrite take_add_drop. f_equal.
    + pose proof (appended_frame (arr node) N (Z.of_nat (length es)) (offs es) e
                    Hidx' Ho (HEADER + 10 * N) (Z.to_nat (offs es))) as Hw.
      rewrite Hw by (unfold HEADER; lia).
      destruct Hf as (_ & _ & _ & _ & _ & _ & _ & Hkv). exact Hkv.
    + replace (Z.to_nat (HEADER + 10 * N) + Z.to_nat (offs es))%nat
        with (Z.to_nat (HEADER + 10 * N + offs es)) by (unfold HEADER; lia).
      by apply appended_kv.
Qed.

(** *** Copying a range of entries *)

(** Decides a comparison that the code makes. *)
Ltac zbool :=
  first
    [ lia
    | symmetry; apply Z.ltb_lt; lia | symmetry; apply Z.ltb_ge; lia
    | symmetry; apply Z.leb_le; lia | symmetry; apply Z.leb_gt; lia ].

Lemma getPtr_agree nn a b lo hi j :
  HEADER + 10 * nn ≤ 65536 →
  agree_outside a b lo hi → nkeys a = Ok nn → nkeys b = Ok nn → 0 ≤ j →
  HEADER + 8 * j + 8 ≤ lo ∨ hi ≤ HEADER + 8 * j →
  getPtr a j = getPtr b j.
Proof.
  intros room Hag Ha Hb Hj Hd. unfold getPtr. rewrite Ha, Hb. simpl.
  destruct (j <? nn) eqn:E; simpl; [|done]. apply Z.ltb_lt in E.
  replace (u16 (HEADER + 8 * j)) with (HEADER + 8 * j) by wrap_lia.
  eapply agree_read_at; [exact Hag|unfold HEADER; lia|].
  change (Z.of_nat 8) with 8. lia.
Qed.

Lemma getPtr_setPtr nn node j v node' :
  HEADER + 10 * nn ≤ 65536 →
  setPtr node j v = Ok node' → nkeys node = Ok nn → len node ≤ cap node →
  0 ≤ j → 0 ≤ v < 2 ^ 64 →
  getPtr node' j = Ok v.
Proof.
  intros room H Hn Hshape Hj Hv.
  pose proof (setPtr_footprint nn room _ _ _ _ H Hn Hj) as Hag.
  assert (nkeys node' = Ok nn) as Hn'.
  { rewrite <- Hn. eapply agree_nkeys; [exact Hag|unfold HEADER; lia]. }
  unfold setPtr in H. rewrite Hn in H. simpl in H.
  apply bind_Ok in H as (? & Hlt%Assert_Ok & H). apply Z.ltb_lt in Hlt.
  unfold getPtr. rewrite Hn'. simpl. replace (j <? nn) with true by lia. simpl.
  erewrite read_write_at_same; [|exact H|apply u16_range|done].
  f_equal. apply Z.mod_small. simpl. lia.
Qed.

Lemma setPtr_Ok nn node j v :
  nkeys node = Ok nn → 0 ≤ j < nn → HEADER + 10 * nn ≤ len node →
  len node < 65536 →
  ∃ node', setPtr node j v = Ok node'.
Proof.
  intros Hn Hj Hlen Hmax. unfold setPtr. rewrite Hn. simpl.
  replace (j <? nn) with true by lia. simpl.
  replace (u16 (HEADER + 8 * j)) with (HEADER + 8 * j) by wrap_lia.
  apply write_at_Ok; [unfold HEADER; lia|].
  change (Z.of_nat 8) with 8. unfold HEADER in *. lia.
Qed.

Lemma setOffset_Ok nn node j v :
  nkeys node = Ok nn → 1 ≤ j ≤ nn → HEADER + 10 * nn ≤ len node →
  len node < 65536 →
  ∃ node', setOffset node j v = Ok node'.
Proof.
  intros Hn Hj Hlen Hmax. unfold setOffset, offsetPos.
  replace (j =? 0) with false by lia. rewrite Hn. simpl.
  replace (1 <=? j) with true by lia. simpl.
  replace (j <=? nn) with true by lia. simpl.
  replace (u16 (HEADER + 8 * nn + 2 * (j - 1))) with (HEADER + 8 * nn + 2 * (j - 1))
    by wrap_lia.
  apply write_at_Ok; [unfold HEADER; lia|].
  change (Z.of_nat 2) with 2. unfold HEADER in *. lia.
Qed.

Lemma agree_len a b lo hi : agree_outside a b lo hi → len a = len b.
Proof. by intros (? & _). Qed.

Lemma repr_small old bt eso : repr old bt eso → Z.of_nat (length eso) < 65536.
Proof. intros [_ Hf]. pose proof (nkeys_range _ _ (filled_nkeys _ _ _ Hf)). lia. Qed.

Lemma sub_lookup (eso : list entry) (s n j : nat) e :
  take n (drop s eso) !! j = Some e → eso !! (s + j)%nat = Some e.
Proof.
  intros H. apply lookup_take_Some in H as [H _]. by rewrite lookup_drop in H.
Qed.

Lemma sub_length (eso : list entry) (s n : nat) :
  (s + n ≤ length eso)%nat → length (take n (drop s eso)) = n.
Proof. intros H. rewrite length_take, length_drop. lia. Qed.

Lemma offs_sub eso (s n j : nat) :
  (j ≤ n)%nat →
  offs (take (s + j) eso) = offs (take s eso) + offs (take j (take n (drop s eso))).
Proof.
  intros Hj. rewrite take_take. replace (j `min` n)%nat with j by lia.
  rewrite <- offs_app. f_equal. by rewrite take_take_drop.
Qed.

Section Range.
Variables (old : BNode) (bt : Z) (eso : list entry).
Variables (N : Z) (d s n : nat).
Hypothesis Hold : repr old bt eso.
Hypothesis Hsn : (s + n ≤ length eso)%nat.
Hypothesis Hdn : Z.of_nat (d + n) ≤ N.
Hypothesis room : HEADER + 10 * N ≤ 65536.

Local Abbreviation sub := (take n (drop s eso)).

(** The pointer loop. *)
Lemma copy_ptrs_filled fuel cur (i : nat) :
  (i ≤ n)%nat → (n - i < fuel)%nat →
  nkeys cur = Ok N → len cur ≤ cap cur → HEADER + 10 * N ≤ len cur →
  len cur < 65536 →
  ∃ new1,
    copy_ptrs fuel cur old (Z.of_nat d) (Z.of_nat s) (Z.of_nat n) (Z.of_nat i)
      = Ok new1 ∧
    agree_outside new1 cur (HEADER + 8 * Z.of_nat (d + i)) (HEADER + 8 * Z.of_nat (d + n)) ∧
    ∀ (j : nat) e, (i ≤ j)%nat → sub !! j = Some e →
      getPtr new1 (Z.of_nat (d + j)) = Ok (e_ptr e).
Proof.
  pose proof (repr_small _ _ _ Hold) as Hsmall.
  revert cur i. induction fuel as [|fuel IH];
    intros cur i Hi Hfuel Hn Hshape Hlen Hmax; [lia|].
  cbn [copy_ptrs]. destruct (decide (i = n)) as [->|Hne].
  { replace (Z.of_nat n <? Z.of_nat n) with false by lia.
    exists cur. split; [done|]. split; [apply agree_outside_refl|].
    intros j e Hj He. apply lookup_lt_Some in He. rewrite sub_length in He by done. lia. }
  replace (Z.of_nat i <? Z.of_nat n) with true by lia.
  destruct (lookup_lt_is_Some_2 sub i) as [e He]; [rewrite sub_length by done; lia|].
  pose proof (sub_lookup _ _ _ _ _ He) as Heo.
  destruct Hold as [_ Hfo].
  destruct (proj1 (proj2 (proj2 (proj2 (proj2 (proj2 Hfo))))) _ _ Heo) as [Hpr Hp].
  replace (u16 (Z.of_nat s + Z.of_nat i)) with (Z.of_nat (s + i)) by wrap_lia.
  rewrite Hp. cbn [mbind result_bind].
  replace (u16 (Z.of_nat d + Z.of_nat i)) with (Z.of_nat (d + i)) by wrap_lia.
  destruct (setPtr_Ok N cur (Z.of_nat (d + i)) (e_ptr e)) as [cur' Hset];
    [done|lia|done|done|].
  rewrite Hset. cbn [mbind result_bind].
  replace (u16 (Z.of_nat i + 1)) with (Z.of_nat (S i)) by wrap_lia.
  pose proof (setPtr_footprint N room _ _ _ _ Hset Hn ltac:(lia)) as Hag.
  assert (nkeys cur' = Ok N) as Hn'.
  { rewrite <- Hn. eapply agree_nkeys; [exact Hag|unfold HEADER; lia]. }
  pose proof (agree_len _ _ _ _ Hag) as Hl'.
  pose proof (agree_cap _ _ _ _ Hag) as Hc'.
  destruct (IH cur' (S i)) as (new1 & Hrun & Hag1 & Hptrs);
    [lia|lia|done|lia|lia|lia|].
  exists new1. split; [done|]. split.
  - eapply agree_outside_trans.
    + eapply agree_outside_weaken; [exact Hag1|lia|lia].
    + eapply agree_outside_weaken; [exact Hag|lia|lia].
  - intros j e' Hj He'. destruct (decide (j = i)) as [->|Hji].
    + assert (e' = e) as -> by congruence.
      assert (nkeys new1 = Ok N) as Hn1.
      { rewrite <- Hn'. eapply agree_nkeys; [exact Hag1|unfold HEADER; lia]. }
      rewrite (getPtr_agree N _ _ _ _ _ room Hag1 Hn1 Hn') by lia.
      by eapply (getPtr_setPtr N); [done|exact Hset|..]; [done|done|lia|done].
    + apply Hptrs; [lia|done].
Qed.

(** The offset loop. *)
Lemma copy_offsets_filled fuel cur (i : nat) (base : Z) :
  (1 ≤ i)%nat → (i ≤ S n)%nat → (S n - i < fuel)%nat →
  nkeys cur = Ok N → len cur ≤ cap cur → HEADER + 10 * N ≤ len cur →
  len cur < 65536 → 0 ≤ base → base + offs sub < 65536 →
  ∃ new2,
    copy_offsets fuel cur old (Z.of_nat d) (Z.of_nat s) (Z.of_nat n)
      base (offs (take s eso)) (Z.of_nat i) = Ok new2 ∧
    agree_outside new2 cur
      (HEADER + 8 * N + 2 * Z.of_nat (d + i - 1)) (HEADER + 8 * N + 2 * Z.of_nat (d + n)) ∧
    ∀ j : nat, (i ≤ j ≤ n)%nat →
      getOffset new2 (Z.of_nat (d + j)) = Ok (base + offs (take j sub)).
Proof.
  pose proof (repr_small _ _ _ Hold) as Hsmall.
  revert cur i. induction fuel as [|fuel IH];
    intros cur i Hi1 Hi Hfuel Hn Hshape Hlen Hmax Hbase Hfit; [lia|].
  cbn [copy_offsets]. destruct (decide (i = S n)) as [->|Hne].
  { replace (Z.of_nat (S n) <=? Z.of_nat n) with false by zbool.
    exists cur. split; [done|]. split; [apply agree_outside_refl|]. intros j Hj. lia. }
  replace (Z.of_nat i <=? Z.of_nat n) with true by zbool.
  destruct Hold as [_ Hfo].
  pose proof (proj1 (proj2 (proj2 (proj2 (proj2 (proj2 (proj2 Hfo)))))) (s + i)%nat
                ltac:(lia)) as Ho.
  replace (u16 (Z.of_nat s + Z.of_nat i)) with (Z.of_nat (s + i)) by wrap_lia.
  rewrite Ho. cbn [mbind result_bind].
  rewrite (offs_sub eso s n i) by lia.
  replace (u16 (base + (offs (take s eso) + offs (take i sub)) - offs (take s eso)))
    with (base + offs (take i sub)).
  2:{ pose proof (offs_take_le sub i). pose proof (offs_nonneg (take i sub)). wrap_lia. }
  replace (u16 (Z.of_nat d + Z.of_nat i)) with (Z.of_nat (d + i)) by wrap_lia.
  destruct (setOffset_Ok N cur (Z.of_nat (d + i)) (base + offs (take i sub)))
    as [cur' Hset]; [done|lia|done|done|].
  rewrite Hset. cbn [mbind result_bind].
  replace (u16 (Z.of_nat i + 1)) with (Z.of_nat (S i)) by wrap_lia.
  pose proof (setOffset_footprint N room _ _ _ _ Hset Hn) as Hag.
  assert (nkeys cur' = Ok N) as Hn'.
  { rewrite <- Hn. eapply agree_nkeys; [exact Hag|unfold HEADER; lia]. }
  pose proof (agree_len _ _ _ _ Hag) as Hl'.
  pose proof (agree_cap _ _ _ _ Hag) as Hc'.
  destruct (IH cur' (S i)) as (new2 & Hrun & Hag2 & Hoffs);
    [lia|lia|lia|done|lia|lia|lia|done|done|].
  exists new2. split; [done|]. split.
  - eapply agree_outside_trans.
    + eapply agree_outside_weaken; [exact Hag2|lia|lia].
    + eapply agree_outside_weaken; [exact Hag|lia|lia].
  - intros j Hj. destruct (decide (j = i)) as [->|Hji].
    + assert (nkeys new2 = Ok N) as Hn2.
      { rewrite <- Hn'. eapply agree_nkeys; [exact Hag2|unfold HEADER; lia]. }
      rewrite (getOffset_agree N room _ _ _ _ _ Hag2 Hn2 Hn') by lia.
      rewrite (getOffset_setOffset N room _ _ _ _ Hset Hn Hshape) by lia.
      f_equal. apply u16_small.
      pose proof (offs_take_le sub i). pose proof (offs_nonneg (take i sub)). lia.
    + apply Hoffs. lia.
Qed.
End Range.

Lemma kv_region_range eso (s n : nat) :
  (s + n ≤ length eso)%nat →
  take (Z.to_nat (offs (take n (drop s eso))))
    (drop (Z.to_nat (offs (take s eso))) (kv_region eso))
  = kv_region (take n (drop s eso)).
Proof.
  intros H.
  rewrite <- (take_drop s eso) at 3. rewrite kv_region_app.
  rewrite drop_app_length'; [|rewrite <- length_kv_region; lia].
  rewrite <- (take_drop n (drop s eso)) at 2. rewrite kv_region_app.
  rewrite take_app_length'; [done|]. rewrite <- length_kv_region. lia.
Qed.

Lemma filled_getOffset node N es (i : nat) :
  filled node N es → (i ≤ length es)%nat →
  getOffset node (Z.of_nat i) = Ok (offs (take i es)).
Proof. intros (_ & _ & _ & _ & _ & _ & Hoff & _). apply Hoff. Qed.

Lemma filled_ptr_range node N es (i : nat) e :
  filled node N es → es !! i = Some e → 0 ≤ e_ptr e < 2 ^ 64.
Proof. intros (_ & _ & _ & _ & _ & Hp & _) He. by destruct (Hp _ _ He). Qed.

(** A range copy extends what the destination holds by the copied entries. *)
Lemma filled_append_range new N es old bt eso (s n : nat) :
  filled new N es → repr old bt eso →
  (s + n ≤ length eso)%nat → Z.of_nat (length es + n) ≤ N →
  HEADER + 10 * N + offs es + offs (take n (drop s eso)) ≤ len new →
  ∃ new',
    nodeAppendRange new old (Z.of_nat (length es)) (Z.of_nat s) (Z.of_nat n) = Ok new' ∧
    filled new' N (es ++ take n (drop s eso)) ∧
    btype new' = btype new ∧ len new' = len new ∧ cap new' = cap new.
Proof.
  intros Hf Hold Hsn Hdn Hfit.
  set (sub := take n (drop s eso)) in *. set (d := length es) in *.
  destruct (filled_bounds _ _ _ Hf) as (HN & Hlen & Hsz & Hcap & Hmax).
  pose proof (filled_nkeys _ _ _ Hf) as Hn.
  pose proof Hold as [Hbto Hfo].
  pose proof (filled_nkeys _ _ _ Hfo) as Hno.
  destruct (filled_bounds _ _ _ Hfo) as (_ & _ & Hszo & Hcapo & Hmaxo).
  pose proof (repr_small _ _ _ Hold) as Hsmall.
  pose proof (offs_nonneg es) as Hoes. pose proof (offs_nonneg sub) as Hosub.
  assert (HEADER + 10 * N ≤ 65536) as room by (unfold HEADER in *; lia).
  assert (length sub = n) as Hlsub by (by apply sub_length).
  unfold nodeAppendRange. rewrite Hno. cbn [mbind result_bind].
  replace (u16 (Z.of_nat s + Z.of_nat n)) with (Z.of_nat (s + n)) by wrap_lia.
  replace (Z.of_nat (s + n) <=? Z.of_nat (length eso)) with true by zbool.
  cbn [Assert mbind result_bind]. rewrite Hn. cbn [mbind result_bind].
  replace (u16 (Z.of_nat d + Z.of_nat n)) with (Z.of_nat (d + n)) by wrap_lia.
  replace (Z.of_nat (d + n) <=? N) with true by zbool.
  cbn [Assert mbind result_bind].
  destruct (decide (n = 0%nat)) as [->|Hn0].
  { exists new. cbn [Z.of_nat Z.eqb]. split; [done|].
    subst sub. rewrite take_0, app_nil_r. done. }
  replace (Z.of_nat n =? 0) with false by zbool.
  rewrite Nat2Z.id.
  (* pointers *)
  destruct (copy_ptrs_filled old bt eso N d s n Hold Hsn ltac:(lia) room (S n) new 0)
    as (new1 & Hrun1 & Hag1 & Hptrs); [lia|lia|done|done|unfold HEADER in *; lia|done|].
  change (Z.of_nat 0) with 0 in Hrun1. rewrite Hrun1. cbn [mbind result_bind].
  replace (d + 0)%nat with d in Hag1 by lia.
  assert (nkeys new1 = Ok N) as Hn1.
  { rewrite <- Hn. eapply agree_nkeys; [exact Hag1|unfold HEADER; lia]. }
  pose proof (agree_len _ _ _ _ Hag1) as Hl1. pose proof (agree_cap _ _ _ _ Hag1) as Hc1.
  assert (getOffset new1 (Z.of_nat d) = Ok (offs es)) as Hoff1.
  { rewrite (getOffset_agree N room _ _ _ _ _ Hag1 Hn1 Hn) by lia.
    rewrite (filled_getOffset _ _ _ d Hf) by lia. unfold d. by rewrite firstn_all. }
  rewrite Hoff1. cbn [mbind result_bind].
  rewrite (filled_getOffset _ _ _ s Hfo) by lia. cbn [mbind result_bind].
  (* offsets *)
  destruct (copy_offsets_filled old bt eso N d s n Hold Hsn ltac:(lia) room (S n) new1 1
              (offs es))
    as (new2 & Hrun2 & Hag2 & Hoffs);
    [lia|lia|lia|done|lia|unfold HEADER in *; lia|lia|done|fold sub; unfold HEADER in *; lia|].
  change (Z.of_nat 1) with 1 in Hrun2. rewrite Hrun2. cbn [mbind result_bind].
  replace (d + 1 - 1)%nat with d in Hag2 by lia.
  assert (nkeys new2 = Ok N) as Hn2.
  { rewrite <- Hn1. eapply agree_nkeys; [exact Hag2|unfold HEADER; lia]. }
  pose proof (agree_len _ _ _ _ Hag2) as Hl2. pose proof (agree_cap _ _ _ _ Hag2) as Hc2.
  assert (getOffset new2 (Z.of_nat d) = Ok (offs es)) as Hoff2.
  { rewrite (getOffset_agree N room _ _ _ _ _ Hag2 Hn2 Hn1) by lia. done. }
  (* bytes *)
  rewrite (filled_kvPos _ _ _ Hfo s) by lia. cbn [mbind result_bind].
  rewrite (filled_kvPos _ _ _ Hfo (s + n)) by lia. cbn [mbind result_bind].
  assert (kvPos new2 (Z.of_nat d) = Ok (HEADER + 10 * N + offs es)) as ->.
  { unfold kvPos. rewrite Hn2. cbn [mbind result_bind].
    replace (Z.of_nat d <=? N) with true by zbool. cbn [Assert mbind result_bind].
    rewrite Hoff2. cbn [mbind result_bind]. f_equal. wrap_lia. }
  cbn [mbind result_bind].
  replace (len new2 <? HEADER + 10 * N + offs es) with false by zbool.
  cbn [mbind result_bind].
  pose proof (offs_sub eso s n n ltac:(lia)) as Hos.
  fold sub in Hos. rewrite (take_ge sub n) in Hos by lia.
  pose proof (offs_take_le eso (s + n)) as Hle.
  pose proof (offs_nonneg (take s eso)) as Hos0.
  assert (slice old (HEADER + 10 * Z.of_nat (length eso) + offs (take s eso))
            (HEADER + 10 * Z.of_nat (length eso) + offs (take (s + n) eso))
          = Ok (kv_region sub)) as ->.
  { unfold slice.
    replace (_ || _) with false
      by (symmetry; apply orb_false_iff; split; [apply Z.ltb_ge|apply Z.ltb_ge]; lia).
    f_equal.
    replace (HEADER + 10 * Z.of_nat (length eso) + offs (take (s + n) eso)
             - (HEADER + 10 * Z.of_nat (length eso) + offs (take s eso)))
      with (offs sub) by lia.
    rewrite (filled_window _ _ _ Hfo) by lia. by apply kv_region_range. }
  cbn [mbind result_bind].
  pose proof (length_kv_region sub) as Hlkv.
  rewrite copy_at_eq by (unfold blen; unfold HEADER in *; lia).
  eexists. split; [done|].
  set (new3 := mkBNode _ _).
  assert (agree_outside new3 new2 (HEADER + 10 * N + offs es)
            (HEADER + 10 * N + offs es + offs sub)) as Hag3.
  { subst new3. repeat split; cbn [arr len]; [by rewrite length_overwrite|].
    intros q w Hq Hd. apply window_overwrite_disjoint. unfold HEADER in *. lia. }
  assert (nkeys new3 = Ok N) as Hn3.
  { rewrite <- Hn2. eapply agree_nkeys; [exact Hag3|unfold HEADER in *; lia]. }
  pose proof (agree_len _ _ _ _ Hag3) as Hl3. pose proof (agree_cap _ _ _ _ Hag3) as Hc3.
  split; [|split; [|split; [lia|lia]]].
  2:{ transitivity (btype new2); [eapply agree_btype; [exact Hag3|unfold HEADER in *; lia]|].
      transitivity (btype new1); [eapply agree_btype; [exact Hag2|unfold HEADER; lia]|].
      eapply agree_btype; [exact Hag1|unfold HEADER; lia]. }
  unfold filled. rewrite offs_app, length_app, Hlsub. fold d.
  split; [lia|]. split; [lia|]. split; [done|]. split; [lia|]. split; [lia|].
  split; [|split].
  - (* pointers *)
    intros i e Hi.
    assert (getPtr new3 (Z.of_nat i) = getPtr new1 (Z.of_nat i)) as ->.
    { pose proof (lookup_lt_Some _ _ _ Hi) as Hlt. rewrite length_app, Hlsub in Hlt.
      fold d in Hlt.
      rewrite (getPtr_agree N _ _ _ _ _ room Hag3 Hn3 Hn2) by lia.
      rewrite (getPtr_agree N _ _ _ _ _ room Hag2 Hn2 Hn1) by lia. done. }
    destruct (decide (i < d)%nat) as [Hlt|Hge].
    + rewrite lookup_app_l in Hi by done.
      split; [exact (filled_ptr_range _ _ _ _ _ Hf Hi)|].
      rewrite (getPtr_agree N _ _ _ _ _ room Hag1 Hn1 Hn) by lia.
      by eapply filled_getPtr.
    + rewrite lookup_app_r in Hi by (fold d; lia). fold d in Hi.
      split; [exact (filled_ptr_range _ _ _ _ _ Hfo (sub_lookup _ _ _ _ _ Hi))|].
      replace i with (d + (i - d))%nat at 1 by lia. apply Hptrs; [lia|done].
  - (* offsets *)
    intros i Hi.
    assert (getOffset new3 (Z.of_nat i) = getOffset new2 (Z.of_nat i)) as ->.
    { rewrite (getOffset_agree N room _ _ _ _ _ Hag3 Hn3 Hn2) by lia. done. }
    destruct (decide (i ≤ d)%nat) as [Hle'|Hgt].
    + rewrite take_app_le by (fold d; lia).
      rewrite (getOffset_agree N room _ _ _ _ _ Hag2 Hn2 Hn1) by lia.
      rewrite (getOffset_agree N room _ _ _ _ _ Hag1 Hn1 Hn) by lia.
      by apply (filled_getOffset _ N).
    + rewrite take_app_ge by (fold d; lia). fold d. rewrite offs_app.
      replace i with (d + (i - d))%nat at 1 by lia. apply Hoffs. lia.
  - (* bytes *)
    rewrite kv_region_app.
    replace (Z.to_nat (offs es + offs sub))
      with (Z.to_nat (offs es) + Z.to_nat (offs sub))%nat by lia.
    rewrite take_add_drop. f_equal.
    + destruct Hag3 as (_ & _ & Hw3). rewrite Hw3 by (unfold HEADER; lia).
      destruct Hag2 as (_ & _ & Hw2). rewrite Hw2 by (unfold HEADER; lia).
      destruct Hag1 as (_ & _ & Hw1). rewrite Hw1 by (unfold HEADER; lia).
      destruct Hf as (_ & _ & _ & _ & _ & _ & _ & Hkv). exact Hkv.
    + subst new3. cbn [arr].
      replace (Z.to_nat (HEADER + 10 * N) + Z.to_nat (offs es))%nat
        with (Z.to_nat (HEADER + 10 * N + offs es)) by (unfold HEADER; lia).
      replace (Z.to_nat (offs sub)) with (length (kv_region sub)) by lia.
      apply window_overwrite_same. unfold cap in *. unfold HEADER in *. lia.
Qed.

(** ** The node builders on entries *)

(** A fresh header over a large enough slice: a node of [N] entries to come. *)
Lemma filled_setHeader node bt N :
  len node ≤ cap node → len node < 65536 → 0 ≤ bt < 65536 → 0 ≤ N →
  HEADER + 10 * N ≤ len node →
  ∃ node', setHeader node bt N = Ok node' ∧ filled node' N [] ∧
           btype node' = Ok bt ∧ len node' = len node ∧ cap node' = cap node.
Proof.
  intros Hcap Hmax Hbt HN Hfit.
  destruct (setHeader_Ok node bt N) as [node' Hset]; [unfold HEADER in *; lia|].
  destruct (setHeader_post _ _ _ _ Hset) as (Hb & Hn & Hl & Hc);
    [done|unfold HEADER in *; lia|].
  exists node'. split; [done|]. split; [|done].
  unfold filled. cbn [length offs]. rewrite Hl, Hc.
  split; [done|]. split; [done|]. split; [done|]. split; [lia|]. split; [lia|].
  split; [|split].
  - intros i e Hi. by rewrite lookup_nil in Hi.
  - intros i Hi. replace i with 0%nat by lia. done.
  - done.
Qed.

(** [leafInsert]: the new leaf holds the old entries with the new one at
    [idx]. *)
Lemma leafInsert_repr new old bt es (idx : nat) key val :
  repr old bt es → (idx ≤ length es)%nat →
  len new ≤ cap new → len new < 65536 →
  HEADER + 10 * (Z.of_nat (length es) + 1) + offs es + esize (mkEntry 0 key val)
    ≤ len new →
  ∃ new', leafInsert new old (Z.of_nat idx) key val = Ok new' ∧
          repr new' BNODE_LEAF (take idx es ++ mkEntry 0 key val :: drop idx es) ∧
          len new' = len new ∧ cap new' = cap new.
Proof.
  intros Hold Hidx Hcap Hmax Hfit.
  set (e := mkEntry 0 key val) in *. set (N := Z.of_nat (length es) + 1) in *.
  pose proof Hold as [Hbto Hfo].
  pose proof (filled_nkeys _ _ _ Hfo) as Hno.
  pose proof (offs_nonneg es) as Hoes. pose proof (esize_pos e) as Hesz.
  pose proof (offs_take_le es idx) as Htk. pose proof (offs_nonneg (take idx es)) as Htk0.
  assert (offs es = offs (take idx es) + offs (drop idx es)) as Hsplit.
  { rewrite <- offs_app. by rewrite take_drop. }
  unfold leafInsert. rewrite Hno. cbn [mbind result_bind].
  replace (u16 (Z.of_nat (length es) + 1)) with N by (subst N; wrap_lia).
  destruct (filled_setHeader new BNODE_LEAF N) as (n0 & Hset & Hf0 & Hb0 & Hl0 & Hc0);
    [done|done|done|lia|unfold HEADER in *; lia|].
  rewrite Hset. cbn [mbind result_bind].
  (* the entries before idx *)
  destruct (filled_append_range n0 N [] old bt es 0 idx Hf0 Hold) as
    (n1 & Hrun1 & Hf1 & Hb1 & Hl1 & Hc1);
    [cbn; lia|cbn [length]; lia|rewrite drop_0; cbn [offs]; unfold HEADER in *; lia|].
  cbn [length] in Hrun1. change (Z.of_nat 0) with 0 in Hrun1.
  rewrite Hrun1. cbn [mbind result_bind].
  rewrite drop_0, app_nil_l in Hf1.
  (* the new entry *)
  assert (length (take idx es) = idx) as Hlt by (rewrite length_take; lia).
  destruct (filled_append n1 N (take idx es) e Hf1) as (Hrun2 & Hf2 & Hb2);
    [lia|cbn; lia|unfold HEADER in *; lia|].
  rewrite Hlt in Hrun2, Hf2, Hb2. cbn [e_ptr e_key e_val e] in Hrun2.
  rewrite Hrun2. cbn [mbind result_bind].
  set (n2 := mkBNode _ _) in *.
  (* the entries from idx on *)
  destruct (filled_append_range n2 N (take idx es ++ [e]) old bt es idx
              (length es - idx) Hf2 Hold) as (n3 & Hrun3 & Hf3 & Hb3 & Hl3 & Hc3).
  { lia. }
  { rewrite length_app, Hlt. cbn [length]. lia. }
  { rewrite offs_app. rewrite (take_ge (drop idx es)) by (rewrite length_drop; lia).
    cbn [offs]. subst n2. cbn [len]. unfold HEADER in *. lia. }
  rewrite length_app, Hlt in Hrun3. cbn [length] in Hrun3.
  replace (u16 (Z.of_nat idx + 1)) with (Z.of_nat (idx + 1)) by wrap_lia.
  replace (u16 (Z.of_nat (length es) - Z.of_nat idx))
    with (Z.of_nat (length es - idx)) by wrap_lia.
  rewrite Hrun3. exists n3. split; [done|].
  rewrite (take_ge (drop idx es)) in Hf3 by (rewrite length_drop; lia).
  rewrite <- app_assoc in Hf3. cbn [app] in Hf3.
  split; [|subst n2; cbn [len] in *; unfold cap in *; cbn [arr] in *; split; [lia|]].
  - split.
    + rewrite Hb3, Hb2, Hb1. done.
    + replace (Z.of_nat (length (take idx es ++ e :: drop idx es))) with N; [done|].
      rewrite length_app, Hlt. cbn [length]. rewrite length_drop. lia.
  - rewrite Hc3. cbn [arr]. rewrite length_appended. lia.
Qed.

Lemma leafDelete_entries new old bt es (idx : nat) :
  repr old bt es → (idx < length es)%nat →
  len new ≤ cap new → len new < 65536 →
  HEADER + 10 * (Z.of_nat (length es) - 1) + offs (take idx es ++ drop (S idx) es)
    ≤ len new →
  ∃ new', leafDelete new old (Z.of_nat idx) = Ok new' ∧
          repr new' BNODE_LEAF (take idx es ++ drop (S idx) es) ∧
          len new' = len new ∧ cap new' = cap new.
Proof.
  intros Hold Hidx Hcap Hmax Hfit.
  set (N := Z.of_nat (length es) - 1) in *.
  pose proof Hold as [Hbto Hfo].
  pose proof (filled_nkeys _ _ _ Hfo) as Hno.
  pose proof (repr_small _ _ _ Hold) as Hsmall.
  rewrite offs_app in Hfit.
  pose proof (offs_nonneg (take idx es)) as Htk0.
  pose proof (offs_nonneg (drop (S idx) es)) as Hdr0.
  unfold leafDelete. rewrite Hno. cbn [mbind result_bind].
  replace (u16 (Z.of_nat (length es) - 1)) with N by (subst N; wrap_lia).
  destruct (filled_setHeader new BNODE_LEAF N) as (n0 & Hset & Hf0 & Hb0 & Hl0 & Hc0);
    [done|done|done|lia|unfold HEADER in *; lia|].
  rewrite Hset. cbn [mbind result_bind].
  destruct (filled_append_range n0 N [] old bt es 0 idx Hf0 Hold) as
    (n1 & Hrun1 & Hf1 & Hb1 & Hl1 & Hc1);
    [cbn; lia|cbn [length]; lia|rewrite drop_0; cbn [offs]; unfold HEADER in *; lia|].
  cbn [length] in Hrun1. change (Z.of_nat 0) with 0 in Hrun1.
  rewrite Hrun1. cbn [mbind result_bind].
  rewrite drop_0, app_nil_l in Hf1.
  assert (length (take idx es) = idx) as Hlt by (rewrite length_take; lia).
  destruct (filled_append_range n1 N (take idx es) old bt es (S idx)
              (length es - S idx) Hf1 Hold) as (n2 & Hrun2 & Hf2 & Hb2 & Hl2 & Hc2).
  { lia. }
  { rewrite Hlt. lia. }
  { rewrite (take_ge (drop (S idx) es)) by (rewrite length_drop; lia).
    unfold HEADER in *. lia. }
  rewrite Hlt in Hrun2.
  replace (u16 (Z.of_nat idx + 1)) with (Z.of_nat (S idx)) by wrap_lia.
  replace (u16 (u16 (Z.of_nat (length es) - Z.of_nat idx) - 1))
    with (Z.of_nat (length es - S idx)) by wrap_lia.
  rewrite Hrun2. exists n2. split; [done|].
  rewrite (take_ge (drop (S idx) es)) in Hf2 by (rewrite length_drop; lia).
  split; [|split; lia].
  split.
  - rewrite Hb2, Hb1. done.
  - replace (Z.of_nat (length (take idx es ++ drop (S idx) es))) with N; [done|].
    rewrite length_app, Hlt, length_drop. lia.
Qed.

(** [leafDelete]: the new leaf holds the old entries without the one at
    [idx]. *)
Lemma leafDelete_repr new old bt es (idx : nat) :
  repr old bt es → (idx < length es)%nat →
  len new ≤ cap new → len new < 65536 →
  HEADER + 10 * (Z.of_nat (length es) - 1) + offs (take idx es ++ drop (S idx) es)
    ≤ len new →
  ∃ new', leafDelete new old (Z.of_nat idx) = Ok new' ∧
          repr new' BNODE_LEAF (take idx es ++ drop (S idx) es) ∧
          len new' = len new ∧ cap new' = cap new.
Proof.
  intros Hold Hidx Hcap Hmax Hfit.
  exact (leafDelete_entries new old bt es idx Hold Hidx Hcap Hmax Hfit).
Qed.

(** [nodeMerge]: the merged node holds the entries of [left] followed by
    those of [right], and its header says internal node whatever the two
    were. *)
Lemma nodeMerge_repr new left right btl btr esl esr :
  repr left btl esl → repr right btr esr →
  len new ≤ cap new → len new < 65536 →
  HEADER + 10 * Z.of_nat (length (esl ++ esr)) + offs (esl ++ esr) ≤ len new →
  ∃ new', nodeMerge new left right = Ok new' ∧
          repr new' BNODE_NODE (esl ++ esr) ∧
          len new' = len new ∧ cap new' = cap new.
Proof.
  intros Hl Hr Hcap Hmax Hfit.
  set (N := Z.of_nat (length (esl ++ esr))) in *.
  assert (N = Z.of_nat (length esl) + Z.of_nat (length esr)) as HN
    by (subst N; rewrite length_app; lia).
  pose proof Hl as [_ Hfl]. pose proof Hr as [_ Hfr].
  pose proof (filled_nkeys _ _ _ Hfl) as Hnl.
  pose proof (filled_nkeys _ _ _ Hfr) as Hnr.
  rewrite offs_app in Hfit.
  pose proof (offs_nonneg esl) as Hol. pose proof (offs_nonneg esr) as Hor.
  unfold nodeMerge. rewrite Hnl, Hnr. cbn [mbind result_bind].
  replace (u16 (Z.of_nat (length esl) + Z.of_nat (length esr))) with N by wrap_lia.
  destruct (filled_setHeader new BNODE_NODE N) as (n0 & Hset & Hf0 & Hb0 & Hl0 & Hc0);
    [done|done|done|lia|unfold HEADER in *; lia|].
  rewrite Hset. cbn [mbind result_bind].
  destruct (filled_append_range n0 N [] left btl esl 0 (length esl) Hf0 Hl) as
    (n1 & Hrun1 & Hf1 & Hb1 & Hl1 & Hc1).
  { lia. }
  { cbn [length]. lia. }
  { rewrite drop_0, firstn_all. cbn [offs]. unfold HEADER in *. lia. }
  cbn [length] in Hrun1. change (Z.of_nat 0) with 0 in Hrun1.
  rewrite Hrun1. cbn [mbind result_bind].
  rewrite drop_0, firstn_all, app_nil_l in Hf1.
  destruct (filled_append_range n1 N esl right btr esr 0 (length esr) Hf1 Hr) as
    (n2 & Hrun2 & Hf2 & Hb2 & Hl2 & Hc2).
  { lia. }
  { lia. }
  { rewrite drop_0, firstn_all. unfold HEADER in *. lia. }
  change (Z.of_nat 0) with 0 in Hrun2. rewrite Hrun2.
  rewrite drop_0, firstn_all in Hf2.
  exists n2. split; [done|]. split; [|split; lia].
  split; [|done]. rewrite Hb2, Hb1. done.
Qed.

Lemma nodeSplit2_halves left right old bt es :
  repr old bt es → 0 ≤ bt < 65536 →
  BTREE_PAGE_SIZE < HEADER + 10 * Z.of_nat (length es) + offs es →
  len left ≤ cap left → len left < 65536 →
  len right ≤ cap right → len right < 65536 →
  let rn := (length es / 2)%nat in
  let ln := (length es - rn)%nat in
  HEADER + 10 * Z.of_nat ln + offs (take ln es) ≤ len left →
  HEADER + 10 * Z.of_nat rn + offs (drop ln es) ≤ len right →
  ∃ left' right',
    nodeSplit2 left right old = Ok (left', right') ∧
    repr left' bt (take ln es) ∧ repr right' bt (drop ln es) ∧
    len left' = len left ∧ len right' = len right.
Proof.
  intros Hold Hbt Hover Hcl Hml Hcr Hmr rn ln Hfl Hfr.
  pose proof Hold as [Hbto Hfo].
  pose proof (filled_nkeys _ _ _ Hfo) as Hno.
  pose proof (repr_small _ _ _ Hold) as Hsmall.
  assert (Z.of_nat rn = Z.of_nat (length es) / 2) as Hrn.
  { subst rn. rewrite Nat2Z.inj_div. done. }
  assert (rn ≤ length es)%nat as Hrle.
  { subst rn. apply Nat.Div0.div_le_upper_bound; lia. }
  assert (Z.of_nat ln = Z.of_nat (length es) - Z.of_nat rn) as Hln by (subst ln; lia).
  assert (length (take ln es) = ln) as Hltk by (rewrite length_take; lia).
  assert (length (drop ln es) = rn) as Hldr by (rewrite length_drop; lia).
  pose proof (offs_nonneg (take ln es)) as H1. pose proof (offs_nonneg (drop ln es)) as H2.
  unfold nodeSplit2.
  rewrite (filled_nbytes _ _ _ Hfo) by done. cbn [mbind result_bind].
  replace (BTREE_PAGE_SIZE <? _) with true by zbool.
  cbn [Assert mbind result_bind]. rewrite Hno. cbn [mbind result_bind].
  rewrite <- Hrn.
  replace (u16 (Z.of_nat (length es) - Z.of_nat rn)) with (Z.of_nat ln) by wrap_lia.
  rewrite Hbto. cbn [mbind result_bind].
  destruct (filled_setHeader left bt (Z.of_nat ln)) as (l0 & Hsl & Hf0 & Hb0 & Hl0 & Hc0);
    [done|done|done|lia|unfold HEADER in *; lia|].
  rewrite Hsl. cbn [mbind result_bind].
  destruct (filled_setHeader right bt (Z.of_nat rn)) as (r0 & Hsr & Hg0 & Hd0 & Hm0 & He0);
    [done|done|done|lia|unfold HEADER in *; lia|].
  rewrite Hsr. cbn [mbind result_bind].
  destruct (filled_append_range l0 (Z.of_nat ln) [] old bt es 0 ln Hf0 Hold) as
    (l1 & Hrun1 & Hf1 & Hb1 & Hl1 & Hc1).
  { lia. }
  { cbn [length]. lia. }
  { rewrite drop_0. cbn [offs]. unfold HEADER in *. lia. }
  cbn [length] in Hrun1. change (Z.of_nat 0) with 0 in Hrun1.
  rewrite Hrun1. cbn [mbind result_bind].
  destruct (filled_append_range r0 (Z.of_nat rn) [] old bt es ln rn Hg0 Hold) as
    (r1 & Hrun2 & Hg1 & Hd1 & Hm1 & He1).
  { lia. }
  { cbn [length]. lia. }
  { rewrite (take_ge (drop ln es)) by lia. cbn [offs]. unfold HEADER in *. lia. }
  cbn [length] in Hrun2. change (Z.of_nat 0) with 0 in Hrun2.
  rewrite Hrun2. cbn [mbind result_bind].
  rewrite drop_0, app_nil_l in Hf1.
  rewrite (take_ge (drop ln es)), app_nil_l in Hg1 by lia.
  exists l1, r1. split; [done|].
  split; [split; [congruence|by rewrite Hltk]|].
  split; [split; [congruence|by rewrite Hldr]|]. lia.
Qed.

(** [nodeSplit2] splits by key count: the low half goes left, the high half
    right. It returns when the right half fits its one-page buffer; whether
    it does is not looked at by the code. *)
Lemma nodeSplit2_repr left right old bt es :
  repr old bt es → 0 ≤ bt < 65536 →
  BTREE_PAGE_SIZE < HEADER + 10 * Z.of_nat (length es) + offs es →
  len left ≤ cap left → len left < 65536 →
  len right ≤ cap right → len right < 65536 →
  let rn := (length es / 2)%nat in
  let ln := (length es - rn)%nat in
  HEADER + 10 * Z.of_nat ln + offs (take ln es) ≤ len left →
  HEADER + 10 * Z.of_nat rn + offs (drop ln es) ≤ len right →
  ∃ left' right',
    nodeSplit2 left right old = Ok (left', right') ∧
    repr left' bt (take ln es) ∧ repr right' bt (drop ln es) ∧
    len left' = len left ∧ len right' = len right.
Proof.
  intros Hold Hbt Hover Hcl Hml Hcr Hmr rn ln Hfl Hfr.
  exact (nodeSplit2_halves left right old bt es Hold Hbt Hover Hcl Hml Hcr Hmr Hfl Hfr).
Qed.

(** ** The order of [bytes.Compare] *)

Lemma bytes_Compare_values a b :
  bytes_Compare a b = -1 ∨ bytes_Compare a b = 0 ∨ bytes_Compare a b = 1.
Proof.
  revert b. induction a as [|x a IH]; intros [|y b]; cbn [bytes_Compare]; auto.
  destruct (_ <? _); [auto|]. destruct (_ <? _); [auto|]. apply IH.
Qed.

Lemma bytes_Compare_refl a : bytes_Compare a a = 0.
Proof.
  induction a as [|x a IH]; [done|]. cbn [bytes_Compare].
  by rewrite Z.ltb_irrefl.
Qed.

Lemma bytes_Compare_antisym a b : bytes_Compare b a = - bytes_Compare a b.
Proof.
  revert b. induction a as [|x a IH]; intros [|y b]; cbn [bytes_Compare]; try done.
  destruct (byte.unsigned x <? byte.unsigned y) eqn:E1;
    destruct (byte.unsigned y <? byte.unsigned x) eqn:E2; try done; try apply IH.
  apply Z.ltb_lt in E1. apply Z.ltb_lt in E2. lia.
Qed.

Lemma bytes_Compare_trans a b c :
  bytes_Compare a b ≤ 0 → bytes_Compare b c ≤ 0 → bytes_Compare a c ≤ 0.
Proof.
  revert b c. induction a as [|x a IH]; intros [|y b] [|z c];
    cbn [bytes_Compare]; try lia.
  destruct (byte.unsigned x <? byte.unsigned y) eqn:E1;
    destruct (byte.unsigned y <? byte.unsigned x) eqn:E2;
    destruct (byte.unsigned y <? byte.unsigned z) eqn:E3;
    destruct (byte.unsigned z <? byte.unsigned y) eqn:E4;
    destruct (byte.unsigned x <? byte.unsigned z) eqn:E5;
    destruct (byte.unsigned z <? byte.unsigned x) eqn:E6; try lia.
  apply IH.
Qed.

Lemma byte_unsigned_inj x y : byte.unsigned x = byte.unsigned y → x = y.
Proof.
  intros H. rewrite <- (byte.of_Z_unsigned x), <- (byte.of_Z_unsigned y). by rewrite H.
Qed.

Lemma bytes_Compare_eq a b : bytes_Compare a b = 0 ↔ a = b.
Proof.
  split; [|intros ->; apply bytes_Compare_refl].
  revert b. induction a as [|x a IH]; intros [|y b]; cbn [bytes_Compare]; try done.
  destruct (byte.unsigned x <? byte.unsigned y) eqn:E1; [done|].
  destruct (byte.unsigned y <? byte.unsigned x) eqn:E2; [done|].
  intros H. f_equal; [apply byte_unsigned_inj; lia|by apply IH].
Qed.

Lemma bytes_Equal_eq a b : bytes_Equal a b = true ↔ a = b.
Proof.
  revert b. induction a as [|x a IH]; intros [|y b]; cbn [bytes_Equal]; try done.
  rewrite andb_true_iff, IH. split.
  - intros [Hxy ->]. f_equal. by apply Byte.byte_dec_bl.
  - intros [= -> ->]. split; [|done]. by apply Byte.byte_dec_lb.
Qed.

(** ** Lookup in a node with sorted keys *)


Section Lookup.
Variables (node : BNode) (bt : Z) (es : list entry) (key : list byte).
Hypothesis Hrepr : repr node bt es.
Hypothesis Hsorted : sorted_keys es.

Lemma nodeLookupLE_loop_spec fuel (left right : Z) :
  1 ≤ left → left ≤ right + 1 → right < Z.of_nat (length es) →
  (Z.to_nat (right + 1 - left) < fuel)%nat →
  (∀ (j : nat) e, 1 ≤ Z.of_nat j < left → es !! j = Some e →
      bytes_Compare (e_key e) key ≤ 0) →
  (∀ (j : nat) e, right < Z.of_nat j → es !! j = Some e →
      0 < bytes_Compare (e_key e) key) →
  ∃ i : nat,
    nodeLookupLE_loop fuel node key left right (left - 1) = Ok (Z.of_nat i) ∧
    (i < length es)%nat ∧
    (∀ (j : nat) e, (1 ≤ j ≤ i)%nat → es !! j = Some e →
       bytes_Compare (e_key e) key ≤ 0) ∧
    (∀ (j : nat) e, (i < j)%nat → es !! j = Some e →
       0 < bytes_Compare (e_key e) key).
Proof.
  pose proof Hrepr as [_ Hf].
  destruct (filled_bounds _ _ _ Hf) as (_ & _ & Hsz & _ & Hmax).
  pose proof (offs_nonneg es) as Ho.
  revert left right. induction fuel as [|fuel IH];
    intros left right Hl Hlr Hr Hfuel Hlow Hhigh; [lia|].
  cbn [nodeLookupLE_loop]. destruct (left <=? right) eqn:E.
  2:{ exists (Z.to_nat (left - 1)). rewrite Z2Nat.id by lia.
      split; [done|]. split; [lia|]. split.
      - intros j e Hj. apply Hlow. lia.
      - intros j e Hj. apply Hhigh. lia. }
  apply Z.leb_le in E.
  set (mid := u16 (left + right) / 2).
  assert (left ≤ mid ≤ right) as Hmid.
  { unfold mid. rewrite u16_small by (unfold HEADER in *; lia).
    split; [apply Z.div_le_lower_bound|apply Z.div_le_upper_bound]; lia. }
  destruct (lookup_lt_is_Some_2 es (Z.to_nat mid)) as [em Hem]; [lia|].
  pose proof (filled_getKey _ _ _ Hf _ _ Hem) as Hk.
  rewrite Z2Nat.id in Hk by lia. rewrite Hk. cbn [mbind result_bind].
  destruct (bytes_Compare (e_key em) key <=? 0) eqn:Ec.
  - apply Z.leb_le in Ec.
    replace (u16 (mid + 1)) with (mid + 1) by (unfold HEADER in *; wrap_lia).
    destruct (IH (mid + 1) right) as (i & Hrun & Hi); [lia|lia|lia|lia| |done|].
    { intros j e Hj He.
      eapply bytes_Compare_trans; [|exact Ec].
      apply (Hsorted j (Z.to_nat mid) e em); [lia|lia|done|done]. }
    replace (mid + 1 - 1) with mid in Hrun by lia. by exists i.
  - apply Z.leb_gt in Ec.
    replace (u16 (mid - 1)) with (mid - 1) by (unfold HEADER in *; wrap_lia).
    apply IH; [lia|lia|lia|lia|done|].
    intros j e Hj He.
    destruct (Z_lt_le_dec 0 (bytes_Compare (e_key e) key)) as [|Hle]; [done|].
    exfalso.
    assert (bytes_Compare (e_key em) key ≤ 0); [|lia].
    eapply bytes_Compare_trans; [|exact Hle].
    apply (Hsorted (Z.to_nat mid) j em e); [lia|lia|done|done].
Qed.

(** [nodeLookupLE] returns the last index from 1 on whose key is at most
    [key], and 0 when there is none. *)
Lemma nodeLookupLE_spec fuel :
  es ≠ [] → (length es ≤ fuel)%nat →
  ∃ i : nat,
    nodeLookupLE fuel node key = Ok (Z.of_nat i) ∧
    (i < length es)%nat ∧
    (∀ (j : nat) e, (1 ≤ j ≤ i)%nat → es !! j = Some e →
       bytes_Compare (e_key e) key ≤ 0) ∧
    (∀ (j : nat) e, (i < j)%nat → es !! j = Some e →
       0 < bytes_Compare (e_key e) key).
Proof.
  intros Hne Hfuel. pose proof Hrepr as [_ Hf].
  pose proof (repr_small _ _ _ Hrepr) as Hsmall.
  assert (0 < length es)%nat as Hpos by (destruct es; [done|cbn; lia]).
  unfold nodeLookupLE. rewrite (filled_nkeys _ _ _ Hf). cbn [mbind result_bind].
  replace (u16 (Z.of_nat (length es) - 1)) with (Z.of_nat (length es) - 1) by wrap_lia.
  change 0 with (1 - 1) at 1.
  apply nodeLookupLE_loop_spec; [lia|lia|lia|lia| |].
  - intros j e Hj. lia.
  - intros j e Hj He. apply lookup_lt_Some in He. lia.
Qed.
End Lookup.

(** ** Reslicing *)

Lemma read_at_reslice w node n q v :
  read_at w node q = Ok v → 0 ≤ q → q + Z.of_nat w ≤ n →
  read_at w (mkBNode (arr node) n) q = Ok v.
Proof.
  unfold read_at. cbn [len arr].
  destruct (len node <? q); [done|]. destruct (len node - q <? Z.of_nat w); [done|].
  intros [= <-] Hq Hn.
  replace (n <? q) with false by zbool.
  by replace (n - q <? Z.of_nat w) with false by zbool.
Qed.

Lemma nkeys_reslice node n : nkeys (mkBNode (arr node) n) = nkeys node.
Proof. done. Qed.

Lemma btype_reslice node n : btype (mkBNode (arr node) n) = btype node.
Proof. done. Qed.

(** A node cut to a shorter slice that still covers its entries holds the
    same entries. *)
Lemma filled_reslice node N es n :
  filled node N es → HEADER + 10 * N + offs es ≤ n → n ≤ cap node → n < 65536 →
  filled (mkBNode (arr node) n) N es.
Proof.
  intros Hf Hn Hcap Hmax.
  destruct (filled_bounds _ _ _ Hf) as (HN & Hlen & Hsz & _ & _).
  pose proof (filled_nkeys _ _ _ Hf) as Hnk.
  pose proof (offs_nonneg es) as Ho.
  destruct Hf as (_ & _ & _ & _ & _ & Hp & Hoff & Hkv).
  unfold filled. cbn [len arr]. rewrite nkeys_reslice.
  split; [done|]. split; [done|]. split; [done|]. split; [done|]. split; [done|].
  split; [|split; [|done]].
  - intros i e He. destruct (Hp i e He) as [Hr Hg]. split; [done|].
    pose proof (lookup_lt_Some _ _ _ He) as Hi.
    revert Hg. unfold getPtr. rewrite nkeys_reslice, Hnk. cbn [mbind result_bind].
    replace (Z.of_nat i <? N) with true by zbool. cbn [Assert mbind result_bind].
    intros Hg. apply read_at_reslice; [done|wrap_lia|].
    change (Z.of_nat 8) with 8. unfold HEADER in *. wrap_lia.
  - intros i Hi. specialize (Hoff i Hi). revert Hoff.
    unfold getOffset. destruct (Z.of_nat i =? 0) eqn:E0; [done|].
    apply Z.eqb_neq in E0.
    change (offsetPos (mkBNode (arr node) n) (Z.of_nat i))
      with (offsetPos node (Z.of_nat i)).
    destruct (offsetPos node (Z.of_nat i)) as [p| |] eqn:Ep; [|done..].
    destruct (offsetPos_eq N ltac:(unfold HEADER in *; lia) _ _ _ Ep Hnk) as [-> _].
    cbn [mbind result_bind]. intros Hg.
    apply read_at_reslice; [done|unfold HEADER in *; lia|].
    change (Z.of_nat 2) with 2. unfold HEADER in *. lia.
Qed.

Lemma repr_reslice node bt es n :
  repr node bt es → HEADER + 10 * Z.of_nat (length es) + offs es ≤ n →
  n ≤ cap node → n < 65536 →
  repr (mkBNode (arr node) n) bt es.
Proof. intros [Hb Hf] Hn Hc Hm. split; [done|by apply filled_reslice]. Qed.

(** [nodeSplit3] on a node that fits one page: the node itself, cut to one
    page. *)
Lemma nodeSplit3_fits node bt es :
  repr node bt es →
  HEADER + 10 * Z.of_nat (length es) + offs es ≤ BTREE_PAGE_SIZE →
  BTREE_PAGE_SIZE ≤ cap node →
  nodeSplit3 node = Ok (1, (mkBNode (arr node) BTREE_PAGE_SIZE, empty_node, empty_node)) ∧
  repr (mkBNode (arr node) BTREE_PAGE_SIZE) bt es.
Proof.
  intros Hr Hsz Hcap. pose proof Hr as [_ Hf].
  split; [|apply repr_reslice; [done|done|done|unfold BTREE_PAGE_SIZE; lia]].
  unfold nodeSplit3. rewrite (filled_nbytes _ _ _ Hf) by done.
  cbn [mbind result_bind].
  replace (_ <=? BTREE_PAGE_SIZE) with true by zbool.
  unfold reslice. by replace (cap node <? BTREE_PAGE_SIZE) with false by zbool.
Qed.

(** ** Strictly increasing keys *)



Lemma strictly_sorted_sorted es : strictly_sorted es → sorted_keys es.
Proof.
  intros Hs i j ei ej _ Hij Hi Hj. destruct (decide (i = j)) as [->|Hne].
  - assert (ei = ej) as -> by congruence. by rewrite bytes_Compare_refl.
  - pose proof (Hs i j ei ej ltac:(lia) Hi Hj) as Hlt. unfold key_lt in Hlt. lia.
Qed.

Lemma key_lt_trans a b c : key_lt a b → key_lt b c → key_lt a c.
Proof.
  unfold key_lt. intros Hab Hbc.
  assert (bytes_Compare a c ≤ 0) as Hle
    by (apply (bytes_Compare_trans a b c); lia).
  destruct (Z.eq_dec (bytes_Compare a c) 0) as [E|]; [|lia].
  apply bytes_Compare_eq in E. subst c.
  rewrite (bytes_Compare_antisym a b) in Hbc. lia.
Qed.

Lemma lookup_insert_at {A} (l : list A) (n : nat) (x : A) (a : nat) :
  (n ≤ length l)%nat →
  (take n l ++ x :: drop n l) !! a =
    if decide (a < n)%nat then l !! a
    else if decide (a = n) then Some x else l !! (a - 1)%nat.
Proof.
  intros Hn. assert (length (take n l) = n) as Hl by (rewrite length_take; lia).
  destruct (decide (a < n)%nat) as [Ha|Ha].
  - rewrite lookup_app_l by lia. by rewrite lookup_take_lt.
  - rewrite lookup_app_r by lia. rewrite Hl.
    destruct (decide (a = n)) as [->|Hne].
    + by rewrite Nat.sub_diag.
    + rewrite lookup_cons_ne_0 by lia. rewrite lookup_drop. f_equal. lia.
Qed.

Lemma strictly_sorted_insert es (n : nat) e :
  strictly_sorted es → (n ≤ length es)%nat →
  (∀ (j : nat) ej, (j < n)%nat → es !! j = Some ej → key_lt (e_key ej) (e_key e)) →
  (∀ (j : nat) ej, (n ≤ j)%nat → es !! j = Some ej → key_lt (e_key e) (e_key ej)) →
  strictly_sorted (take n es ++ e :: drop n es).
Proof.
  intros Hs Hn Hlow Hhigh a b ea eb Hab.
  rewrite !lookup_insert_at by done.
  repeat case_decide; intros Ha Hb; simplify_eq; try lia.
  - by eapply Hs; [|exact Ha|exact Hb].
  - by eapply Hlow; [|exact Ha].
  - eapply Hs; [|exact Ha|exact Hb]. lia.
  - eapply Hhigh; [|exact Hb]. lia.
  - eapply Hs; [|exact Ha|exact Hb]. lia.
Qed.

(** ** A leaf under the tree engine *)

Lemma key_lt_irrefl a : ¬ key_lt a a.
Proof. unfold key_lt. rewrite bytes_Compare_refl. lia. Qed.

Lemma bytes_Equal_false a b : a ≠ b → bytes_Equal a b = false.
Proof.
  intros Hne. destruct (bytes_Equal a b) eqn:E; [|done].
  by apply bytes_Equal_eq in E.
Qed.

Lemma bytes_Equal_refl a : bytes_Equal a a = true.
Proof. by apply bytes_Equal_eq. Qed.

Section Leaf.
Context {St : Type}.
Variable Get : St → Z → result BNode.
Variable New : St → BNode → result (Z * St).
Variable Del : St → Z → result St.
Variables (node : BNode) (es : list entry).
Hypothesis Hrepr : repr node BNODE_LEAF es.
Hypothesis Hsorted : strictly_sorted es.

(** The lookup finds the entry that holds the key. *)
Lemma nodeLookupLE_present fuel (i : nat) e :
  es !! i = Some e → (length es ≤ fuel)%nat →
  nodeLookupLE fuel node (e_key e) = Ok (Z.of_nat i).
Proof.
  intros He Hfuel.
  assert (es ≠ []) as Hne by (intros ->; by rewrite lookup_nil in He).
  destruct (nodeLookupLE_spec node BNODE_LEAF es (e_key e) Hrepr
              (strictly_sorted_sorted _ Hsorted) fuel Hne Hfuel)
    as (i' & Hrun & Hi' & Hlow & Hhigh).
  rewrite Hrun. do 2 f_equal.
  destruct (Nat.lt_trichotomy i' i) as [Hlt|[->|Hgt]]; [|done|].
  - pose proof (Hhigh i e Hlt He) as H. rewrite bytes_Compare_refl in H. lia.
  - destruct (lookup_lt_is_Some_2 es i' Hi') as [e' He'].
    pose proof (Hlow i' e' ltac:(lia) He') as H1.
    pose proof (Hsorted i i' e e' Hgt He He') as H2. unfold key_lt in H2.
    rewrite (bytes_Compare_antisym (e_key e) (e_key e')) in H1. lia.
Qed.

(** Reading a key that the leaf holds. *)
Lemma treeRead_leaf_present fuel (s : St) (i : nat) e :
  es !! i = Some e → (length es ≤ fuel)%nat →
  treeRead Get fuel s node (e_key e) = Ok (e_val e, true).
Proof.
  intros He Hfuel. pose proof Hrepr as [Hbt Hf].
  pose proof (lookup_lt_Some _ _ _ He) as Hi.
  destruct fuel as [|fuel]; [lia|]. cbn [treeRead].
  rewrite (nodeLookupLE_present (S fuel) i e He Hfuel). cbn [mbind result_bind].
  rewrite Hbt. cbn [mbind result_bind]. change (BNODE_LEAF =? BNODE_LEAF) with true.
  cbn match. rewrite (filled_getKey _ _ _ Hf _ _ He). cbn [mbind result_bind].
  rewrite bytes_Equal_refl. by rewrite (filled_getVal _ _ _ Hf _ _ He).
Qed.

(** Reading a key that the leaf does not hold. *)
Lemma treeRead_leaf_absent fuel (s : St) key :
  es ≠ [] → (∀ e, e ∈ es → e_key e ≠ key) → (length es ≤ fuel)%nat →
  treeRead Get fuel s node key = Ok ([], false).
Proof.
  intros Hne Habs Hfuel. pose proof Hrepr as [Hbt Hf].
  destruct fuel as [|fuel]; [destruct es; [done|cbn in Hfuel; lia]|]. cbn [treeRead].
  destruct (nodeLookupLE_spec node BNODE_LEAF es key Hrepr
              (strictly_sorted_sorted _ Hsorted) (S fuel) Hne Hfuel)
    as (i & Hrun & Hi & _).
  rewrite Hrun. cbn [mbind result_bind].
  rewrite Hbt. cbn [mbind result_bind]. change (BNODE_LEAF =? BNODE_LEAF) with true.
  cbn match. destruct (lookup_lt_is_Some_2 es i Hi) as [e He].
  rewrite (filled_getKey _ _ _ Hf _ _ He). cbn [mbind result_bind].
  rewrite bytes_Equal_false; [done|].
  intros ->. by eapply Habs; [eapply list_elem_of_lookup_2|].
Qed.

(** Inserting a key that the leaf does not hold, above the leaf's first
    key: the new leaf holds the old entries and the new one, in order. *)
Lemma treeInsert_leaf_fresh fuel (s : St) key val e0 :
  es !! 0%nat = Some e0 → key_lt (e_key e0) key →
  (∀ e, e ∈ es → e_key e ≠ key) → (length es ≤ fuel)%nat →
  HEADER + 10 * (Z.of_nat (length es) + 1) + offs es + esize (mkEntry 0 key val)
    ≤ 2 * BTREE_PAGE_SIZE →
  ∃ new (n : nat),
    treeInsert Get New Del fuel s node key val = Ok (new, s) ∧
    (1 ≤ n ≤ length es)%nat ∧
    repr new BNODE_LEAF (take n es ++ mkEntry 0 key val :: drop n es) ∧
    strictly_sorted (take n es ++ mkEntry 0 key val :: drop n es) ∧
    cap new = 2 * BTREE_PAGE_SIZE.
Proof.
  intros H0 Hk0 Habs Hfuel Hsz. pose proof Hrepr as [Hbt Hf].
  assert (es ≠ []) as Hne by (intros ->; by rewrite lookup_nil in H0).
  destruct fuel as [|fuel]; [destruct es; [done|cbn in Hfuel; lia]|]. cbn [treeInsert].
  destruct (nodeLookupLE_spec node BNODE_LEAF es key Hrepr
              (strictly_sorted_sorted _ Hsorted) (S fuel) Hne Hfuel)
    as (i & Hrun & Hi & Hlow & Hhigh).
  rewrite Hrun. cbn [mbind result_bind].
  rewrite Hbt. cbn [mbind result_bind]. change (BNODE_LEAF =? BNODE_LEAF) with true.
  cbn match. destruct (lookup_lt_is_Some_2 es i Hi) as [e He].
  rewrite (filled_getKey _ _ _ Hf _ _ He). cbn [mbind result_bind].
  rewrite bytes_Equal_false.
  2:{ intros ->. by eapply Habs; [eapply list_elem_of_lookup_2|]. }
  pose proof (repr_small _ _ _ Hrepr) as Hsmall.
  replace (u16 (Z.of_nat i + 1)) with (Z.of_nat (S i)) by wrap_lia.
  destruct (leafInsert_repr (make (2 * BTREE_PAGE_SIZE)) node BNODE_LEAF es (S i) key val)
    as (new & Hins & Hnew & Hl & Hc); [done|lia|done|done|done|].
  rewrite Hins. cbn [mbind result_bind].
  exists new, (S i). split; [done|]. split; [lia|]. split; [done|]. split; [|done].
  apply strictly_sorted_insert; [done|lia| |]; cbn [e_key].
  - intros j ej Hj Hej. destruct j as [|j].
    + by assert (ej = e0) as -> by congruence.
    + pose proof (Hlow (S j) ej ltac:(lia) Hej) as Hle. unfold key_lt.
      destruct (Z.eq_dec (bytes_Compare (e_key ej) key) 0) as [E|]; [|lia].
      apply bytes_Compare_eq in E. exfalso.
      by eapply Habs; [eapply list_elem_of_lookup_2|].
  - intros j ej Hj Hej. pose proof (Hhigh j ej ltac:(lia) Hej) as Hgt.
    unfold key_lt. rewrite (bytes_Compare_antisym (e_key ej) key). lia.
Qed.
End Leaf.

(** ** Trees of one leaf over the test page table *)

Lemma key_lt_nil key : key ≠ [] → key_lt [] key.
Proof. destruct key; [done|]. intros _. unfold key_lt. cbn. lia. Qed.

Lemma elem_of_insert_at {A} (l : list A) n x y :
  y ∈ take n l ++ x :: drop n l ↔ y = x ∨ y ∈ l.
Proof.
  rewrite <- (take_drop n l) at 3. rewrite !elem_of_app, elem_of_cons. tauto.
Qed.

Lemma length_insert_at {A} (l : list A) n x :
  length (take n l ++ x :: drop n l) = S (length l).
Proof.
  rewrite length_app. cbn [length]. rewrite <- (take_drop n l) at 3.
  rewrite length_app. lia.
Qed.

Lemma offs_insert_at es n e :
  offs (take n es ++ e :: drop n es) = offs es + esize e.
Proof.
  rewrite offs_app. cbn [offs]. rewrite <- (take_drop n es) at 3.
  rewrite offs_app. lia.
Qed.

Lemma C_Read_leaf fuel t es (i : nat) e :
  leaf_tree t es → strictly_sorted es → es !! i = Some e →
  (length es ≤ fuel)%nat →
  C_Read fuel t (e_key e) = Ok (e_val e, true).
Proof.
  intros (Hroot & _ & (node & Hnode & Hrepr) & _) Hs He Hfuel.
  unfold C_Read, Read. replace (root t =? 0) with false by zbool.
  assert (pt_get (store t) (root t) = Ok node) as Hget
    by (unfold pt_get; by rewrite Hnode).
  rewrite Hget. cbn [mbind result_bind].
  by eapply treeRead_leaf_present.
Qed.

Lemma C_Read_leaf_absent fuel t es key :
  leaf_tree t es → strictly_sorted es → es ≠ [] →
  (∀ e, e ∈ es → e_key e ≠ key) → (length es ≤ fuel)%nat →
  C_Read fuel t key = Ok ([], false).
Proof.
  intros (Hroot & _ & (node & Hnode & Hrepr) & _) Hs Hne Habs Hfuel.
  unfold C_Read, Read. replace (root t =? 0) with false by zbool.
  assert (pt_get (store t) (root t) = Ok node) as Hget
    by (unfold pt_get; by rewrite Hnode).
  rewrite Hget. cbn [mbind result_bind].
  by eapply treeRead_leaf_absent.
Qed.

(** Allocating a page that fits. *)
Lemma pt_new_Ok c node bt es :
  repr node bt es → HEADER + 10 * Z.of_nat (length es) + offs es ≤ BTREE_PAGE_SIZE →
  pages c !! next_addr c = None →
  pt_new c node
    = Ok (next_addr c, mkPageTable (<[next_addr c := node]> (pages c)) (next_addr c + 1)).
Proof.
  intros [Hb Hf] Hsz Hfree. unfold pt_new.
  rewrite (filled_nbytes _ _ _ Hf) by done. cbn [mbind result_bind].
  replace (_ <=? BTREE_PAGE_SIZE) with true by zbool. cbn [Assert mbind result_bind].
  destruct (filled_bounds _ _ _ Hf) as (? & ? & ? & ? & ?).
  pose proof (offs_nonneg es).
  replace (len node <? 1) with false by (unfold HEADER in *; zbool).
  cbn [mbind result_bind].
  rewrite bool_decide_eq_true_2 by done. done.
Qed.

(** [Insert] of a new key into a tree of one leaf that has room for it. *)
Lemma C_Insert_leaf fuel t es key val e0 :
  leaf_tree t es → strictly_sorted es →
  es !! 0%nat = Some e0 → key_lt (e_key e0) key →
  (∀ e, e ∈ es → e_key e ≠ key) → (length es ≤ fuel)%nat →
  HEADER + 10 * (Z.of_nat (length es) + 1) + offs es + esize (mkEntry 0 key val)
    ≤ BTREE_PAGE_SIZE →
  ∃ t' (n : nat),
    C_Insert fuel t key val = Ok t' ∧ (1 ≤ n ≤ length es)%nat ∧
    leaf_tree t' (take n es ++ mkEntry 0 key val :: drop n es) ∧
    strictly_sorted (take n es ++ mkEntry 0 key val :: drop n es).
Proof.
  intros (Hroot & Hnext & (node & Hnode & Hrepr) & Hfree) Hs H0 Hk0 Habs Hfuel Hsz.
  destruct (treeInsert_leaf_fresh pt_get pt_new pt_del node es Hrepr Hs fuel (store t)
              key val e0 H0 Hk0 Habs Hfuel)
    as (new & n & Hins & Hn & Hnew & Hs' & Hcap);
    [unfold BTREE_PAGE_SIZE in *; lia|].
  set (es' := take n es ++ mkEntry 0 key val :: drop n es) in *.
  assert (HEADER + 10 * Z.of_nat (length es') + offs es' ≤ BTREE_PAGE_SIZE) as Hsz'.
  { subst es'. rewrite length_insert_at, offs_insert_at. lia. }
  destruct (nodeSplit3_fits new BNODE_LEAF es' Hnew Hsz') as [Hsplit Hrepr'];
    [unfold BTREE_PAGE_SIZE in *; lia|].
  set (new' := mkBNode (arr new) BTREE_PAGE_SIZE) in *.
  exists (mkBTree (next_addr (store t))
            (mkPageTable (<[next_addr (store t) := new']> (delete (root t) (pages (store t))))
               (next_addr (store t) + 1))), n.
  split; [|split; [done|split; [|done]]].
  - unfold C_Insert, Insert. replace (root t =? 0) with false by zbool.
    assert (pt_get (store t) (root t) = Ok node) as Hget
      by (unfold pt_get; by rewrite Hnode).
    rewrite Hget. cbn [mbind result_bind].
    rewrite Hins. cbn [mbind result_bind]. rewrite Hsplit. cbn [mbind result_bind].
    unfold pt_del. rewrite bool_decide_eq_true_2 by (by rewrite Hnode).
    cbn [Assert mbind result_bind]. change (1 <? 1) with false. cbn match.
    cbn [fst]. erewrite pt_new_Ok; [done|exact Hrepr'|done|].
    cbn [pages next_addr]. rewrite lookup_delete_None. right. apply Hfree. lia.
  - split; [cbn [root]; lia|]. cbn [root store next_addr pages].
    split; [lia|]. split.
    + exists new'. split; [by rewrite lookup_insert_eq|done].
    + intros p Hp. rewrite lookup_insert_ne by lia.
      rewrite lookup_delete_None. right. apply Hfree. lia.
Qed.

(** The first [Insert]: a leaf of the sentinel and the new entry. *)
Lemma C_Insert_first fuel key val :
  HEADER + 10 * 2 + 4 + esize (mkEntry 0 key val) ≤ BTREE_PAGE_SIZE →
  ∃ t', C_Insert fuel NewC key val = Ok t' ∧
        leaf_tree t' [sentinel; mkEntry 0 key val].
Proof.
  intros Hsz. pose proof (esize_pos (mkEntry 0 key val)) as Hpos.
  unfold C_Insert, Insert. cbn [root NewC store]. change (0 =? 0) with true. cbn match.
  destruct (filled_setHeader (make BTREE_PAGE_SIZE) BNODE_LEAF 2)
    as (n0 & Hset & Hf0 & Hb0 & Hl0 & Hc0); [done..|].
  rewrite Hset. cbn [mbind result_bind].
  assert (len n0 = BTREE_PAGE_SIZE) as Hlen0 by done.
  destruct (filled_append n0 2 [] sentinel Hf0) as (Hrun1 & Hf1 & Hb1);
    [cbn; lia|cbn; lia|rewrite Hlen0; cbn [offs]; change (esize sentinel) with 4;
     unfold HEADER, BTREE_PAGE_SIZE; lia|].
  cbn [length e_ptr e_key e_val sentinel] in Hrun1. change (Z.of_nat 0) with 0 in Hrun1.
  rewrite Hrun1. cbn [mbind result_bind]. cbn [app] in Hf1.
  set (n1 := mkBNode _ _) in *.
  destruct (filled_append n1 2 [sentinel] (mkEntry 0 key val) Hf1) as (Hrun2 & Hf2 & Hb2);
    [cbn; lia|cbn; lia|subst n1; cbn [len offs]; rewrite Hlen0;
     change (esize sentinel) with 4; unfold HEADER in *; lia|].
  cbn [length e_ptr e_key e_val] in Hrun2, Hf2, Hb2.
  change (Z.of_nat 1) with 1 in Hrun2, Hf2, Hb2.
  rewrite Hrun2. cbn [mbind result_bind]. cbn [app] in Hf2.
  set (n2 := mkBNode (appended (arr n1) 2 1 (offs [sentinel]) (mkEntry 0 key val))
               (len n1)) in *.
  assert (repr n2 BNODE_LEAF [sentinel; mkEntry 0 key val]) as Hrepr.
  { split; [|done]. rewrite Hb2. subst n1. rewrite Hb1. done. }
  erewrite pt_new_Ok; [|exact Hrepr| |].
  - cbn [mbind result_bind]. eexists. split; [done|].
    unfold leaf_tree. cbn [root store pages next_addr NewC].
    split; [done|]. split; [done|]. split.
    + exists n2. split; [by rewrite lookup_insert_eq|done].
    + intros p Hp. rewrite lookup_insert_ne by lia. apply lookup_empty.
  - cbn [length offs]. change (esize sentinel) with 4. unfold HEADER in *. lia.
  - apply lookup_empty.
Qed.

(** ** Read-after-write while the tree is one leaf *)

Lemma insert_all_leaf fuel kvs : ∀ t es,
  leaf_tree t es → strictly_sorted es → es !! 0%nat = Some sentinel →
  NoDup kvs.*1 →
  (∀ k, k ∈ kvs.*1 → k ≠ [] ∧ ∀ e, e ∈ es → e_key e ≠ k) →
  HEADER + 10 * Z.of_nat (length es + length kvs) + offs es + kv_size kvs
    ≤ BTREE_PAGE_SIZE →
  (length es + length kvs ≤ fuel)%nat →
  ∃ t' es',
    insert_all fuel t kvs = Ok t' ∧ leaf_tree t' es' ∧ strictly_sorted es' ∧
    length es' = (length es + length kvs)%nat ∧
    ∀ e, e ∈ es' ↔ e ∈ es ∨ e ∈ entry_of <$> kvs.
Proof.
  induction kvs as [|[k v] kvs IH]; intros t es Ht Hs H0 Hnd Hkeys Hsz Hfuel.
  { exists t, es. cbn [insert_all length fmap list_fmap].
    split; [done|]. split; [done|]. split; [done|]. split; [lia|].
    intros e. rewrite elem_of_nil. tauto. }
  cbn [fmap list_fmap fst] in Hnd, Hkeys. apply NoDup_cons in Hnd as [Hk Hnd].
  destruct (Hkeys k ltac:(left)) as [Hkne Hfresh].
  unfold kv_size in Hsz. cbn [fmap list_fmap offs length] in Hsz.
  fold (kv_size kvs) in Hsz. change (entry_of (k, v)) with (mkEntry 0 k v) in Hsz.
  pose proof (offs_nonneg (entry_of <$> kvs)) as Hrest. fold (kv_size kvs) in Hrest.
  pose proof (esize_pos (mkEntry 0 k v)) as Hpos.
  destruct (C_Insert_leaf fuel t es k v sentinel Ht Hs H0) as (t1 & n & Hrun & Hn & Ht1 & Hs1).
  { by apply key_lt_nil. }
  { done. }
  { cbn [length] in Hfuel. lia. }
  { lia. }
  set (es1 := take n es ++ mkEntry 0 k v :: drop n es) in *.
  destruct (IH t1 es1 Ht1 Hs1) as (t' & es' & Hrun' & Ht' & Hs' & Hlen' & Hel').
  { subst es1. rewrite lookup_app_l by (rewrite length_take; lia).
    by rewrite lookup_take_lt by lia. }
  { done. }
  { intros k' Hk'. destruct (Hkeys k' ltac:(by right)) as [Hne' Hfr']. split; [done|].
    intros e He. subst es1. apply elem_of_insert_at in He as [->|He]; [|by apply Hfr'].
    cbn [e_key]. intros ->. done. }
  { subst es1. rewrite length_insert_at, offs_insert_at. lia. }
  { subst es1. rewrite length_insert_at. cbn [length] in Hfuel. lia. }
  exists t', es'. cbn [insert_all]. rewrite Hrun. cbn [mbind result_bind].
  split; [done|]. split; [done|]. split; [done|]. split.
  { rewrite Hlen'. subst es1. rewrite length_insert_at. cbn [length]. lia. }
  intros e. rewrite Hel'. subst es1. rewrite elem_of_insert_at.
  cbn [fmap list_fmap]. rewrite elem_of_cons.
  change (entry_of (k, v)) with (mkEntry 0 k v). tauto.
Qed.

(** Read-after-write for the trees that stay one leaf: after a run of
    [Insert]s of distinct non-empty keys that together fit one page, every
    inserted key reads back its value, and any other non-empty key is
    reported as not found. *)
Lemma read_after_write_one_leaf fuel kvs :
  NoDup kvs.*1 → (∀ k, k ∈ kvs.*1 → k ≠ []) →
  HEADER + 10 * Z.of_nat (1 + length kvs) + 4 + kv_size kvs ≤ BTREE_PAGE_SIZE →
  (length kvs < fuel)%nat →
  ∃ t, insert_all fuel NewC kvs = Ok t ∧
       (∀ k v, (k, v) ∈ kvs → C_Read fuel t k = Ok (v, true)) ∧
       (∀ k, k ∉ kvs.*1 → k ≠ [] → C_Read fuel t k = Ok ([], false)).
Proof.
  intros Hnd Hne Hsz Hfuel. destruct kvs as [|[k v] kvs].
  { exists NewC. split; [done|]. split.
    - intros k v Hin. by apply elem_of_nil in Hin.
    - intros k _ _. done. }
  cbn [fmap list_fmap fst] in Hnd, Hne. apply NoDup_cons in Hnd as [Hk Hnd].
  unfold kv_size in Hsz. cbn [fmap list_fmap offs length] in Hsz.
  fold (kv_size kvs) in Hsz. change (entry_of (k, v)) with (mkEntry 0 k v) in Hsz.
  pose proof (offs_nonneg (entry_of <$> kvs)) as Hrest. fold (kv_size kvs) in Hrest.
  pose proof (esize_pos (mkEntry 0 k v)) as Hpos.
  assert (strictly_sorted [sentinel; mkEntry 0 k v]) as Hs1.
  { intros i j ei ej Hij Hi Hj.
    destruct i as [|[|i]], j as [|[|j]]; try lia; try discriminate Hj.
    injection Hi as <-. injection Hj as <-. apply key_lt_nil. apply Hne. by left. }
  destruct (C_Insert_first fuel k v) as (t1 & Hrun1 & Ht1); [lia|].
  destruct (insert_all_leaf fuel kvs t1 [sentinel; mkEntry 0 k v] Ht1 Hs1)
    as (t & es & Hrun & Ht & Hs & Hlen & Hel).
  { reflexivity. }
  { exact Hnd. }
  { intros k' Hk'. split; [apply Hne; by right|].
    intros e He. apply elem_of_cons in He as [->|He].
    { cbn. intros <-. by destruct (Hne [] ltac:(by right)). }
    apply list_elem_of_singleton in He as ->. cbn [e_key]. intros ->. exact (Hk Hk'). }
  { cbn [length offs]. change (esize sentinel) with 4. lia. }
  { cbn [length] in *. lia. }
  exists t. cbn [insert_all]. rewrite Hrun1. cbn [mbind result_bind].
  split; [done|]. cbn [length] in Hlen, Hfuel. split.
  - intros k' v' Hin.
    assert (mkEntry 0 k' v' ∈ es) as He.
    { apply Hel. apply elem_of_cons in Hin as [[= -> ->]|Hin].
      - left. right. by left.
      - right. apply list_elem_of_fmap. exists (k', v'). split; [reflexivity|exact Hin]. }
    apply list_elem_of_lookup_1 in He as [i Hi].
    apply (C_Read_leaf fuel t es i (mkEntry 0 k' v') Ht Hs Hi). lia.
  - intros k' Hnotin Hne'.
    apply (C_Read_leaf_absent fuel t es k' Ht Hs).
    + intros ->. cbn in Hlen. lia.
    + intros e He <-. apply Hel in He as [He|He].
      * apply elem_of_cons in He as [->|He]; [by destruct Hne'|].
        apply list_elem_of_singleton in He as ->. apply Hnotin. by left.
      * apply list_elem_of_fmap in He as ([k2 v2] & -> & Hin).
        apply Hnotin. right. apply list_elem_of_fmap. exists (k2, v2).
        split; [reflexivity|exact Hin].
    + lia.
Qed.

(** ** Examples of the statements on entries *)

(** A leaf built with one entry holds that entry. *)
Lemma leaf1_repr key val :
  HEADER + 10 + esize (mkEntry 0 key val) ≤ BTREE_PAGE_SIZE →
  ∃ node, leaf1 key val = Ok node ∧ repr node BNODE_LEAF [mkEntry 0 key val] ∧
          len node = BTREE_PAGE_SIZE.
Proof.
  intros Hsz. pose proof (esize_pos (mkEntry 0 key val)) as Hpos. unfold leaf1.
  destruct (filled_setHeader (make BTREE_PAGE_SIZE) BNODE_LEAF 1)
    as (n0 & Hset & Hf0 & Hb0 & Hl0 & Hc0); [done..|].
  rewrite Hset. cbn [mbind result_bind].
  assert (len n0 = BTREE_PAGE_SIZE) as Hlen0 by done.
  destruct (filled_append n0 1 [] (mkEntry 0 key val) Hf0) as (Hrun & Hf1 & Hb1);
    [cbn; lia|cbn; lia|rewrite Hlen0; cbn [offs]; unfold HEADER in *; lia|].
  cbn [length e_ptr e_key e_val] in Hrun, Hf1, Hb1.
  change (Z.of_nat 0) with 0 in Hrun, Hf1, Hb1.
  rewrite Hrun. eexists. split; [done|]. split; [|done].
  split; [by rewrite Hb1|exact Hf1].
Qed.

(** A leaf of two entries, built by [leafInsert] from a leaf of one. *)
Lemma leaf2_repr k1 v1 k2 v2 :
  HEADER + 20 + esize (mkEntry 0 k1 v1) + esize (mkEntry 0 k2 v2) ≤ 2 * BTREE_PAGE_SIZE →
  HEADER + 10 + esize (mkEntry 0 k1 v1) ≤ BTREE_PAGE_SIZE →
  ∃ l old, leaf1 k1 v1 = Ok l ∧
           leafInsert (make (2 * BTREE_PAGE_SIZE)) l 1 k2 v2 = Ok old ∧
           repr old BNODE_LEAF [mkEntry 0 k1 v1; mkEntry 0 k2 v2].
Proof.
  intros Hsz2 Hsz1.
  destruct (leaf1_repr k1 v1 Hsz1) as (l & Hl & Hrl & _).
  destruct (leafInsert_repr (make (2 * BTREE_PAGE_SIZE)) l BNODE_LEAF
              [mkEntry 0 k1 v1] 1 k2 v2 Hrl)
    as (old & Hins & Hro & _); [cbn; lia|done|done| |].
  { cbn [length offs]. change (len (make (2 * BTREE_PAGE_SIZE))) with (2 * BTREE_PAGE_SIZE).
    change (Z.of_nat 1) with 1. lia. }
  exists l, old. done.
Qed.

(** Two pairs that fit one page: both read back, and no other key is
    found. *)
Lemma read_after_write_one_leaf_witness :
  ∃ t,
    insert_all 3 NewC [(bytes_of "a", bytes_of "1"); (bytes_of "b", bytes_of "2")] = Ok t ∧
    (∀ k v, (k, v) ∈ [(bytes_of "a", bytes_of "1"); (bytes_of "b", bytes_of "2")] →
       C_Read 3 t k = Ok (v, true)) ∧
    (∀ k, k ∉ [(bytes_of "a", bytes_of "1"); (bytes_of "b", bytes_of "2")].*1 →
       k ≠ [] → C_Read 3 t k = Ok ([], false)).
Proof.
  apply (read_after_write_one_leaf 3
           [(bytes_of "a", bytes_of "1"); (bytes_of "b", bytes_of "2")]).
  - cbn [fmap list_fmap fst]. apply NoDup_cons. split; [|apply NoDup_singleton].
    rewrite list_elem_of_singleton. discriminate.
  - intros k Hk. cbn [fmap list_fmap fst] in Hk.
    apply elem_of_cons in Hk as [->|Hk]; [discriminate|].
    apply list_elem_of_singleton in Hk as ->. discriminate.
  - by vm_compute.
  - cbn [length]. lia.
Defined.

(** Two leaves of one entry each: the merged node holds both entries and
    is marked internal. *)
Lemma nodeMerge_repr_witness :
  ∃ left right merged,
    leaf1 [] [] = Ok left ∧ leaf1 (bytes_of "b") (bytes_of "2") = Ok right ∧
    nodeMerge (make BTREE_PAGE_SIZE) left right = Ok merged ∧
    repr merged BNODE_NODE [mkEntry 0 [] []; mkEntry 0 (bytes_of "b") (bytes_of "2")].
Proof.
  destruct (leaf1_repr [] []) as (l & Hl & Hrl & _); [by vm_compute|].
  destruct (leaf1_repr (bytes_of "b") (bytes_of "2")) as (r & Hr & Hrr & _);
    [by vm_compute|].
  destruct (nodeMerge_repr (make BTREE_PAGE_SIZE) l r BNODE_LEAF BNODE_LEAF
              [mkEntry 0 [] []] [mkEntry 0 (bytes_of "b") (bytes_of "2")] Hrl Hrr)
    as (m & Hm & Hrm & _); [by vm_compute..|].
  exists l, r, m. split; [exact Hl|]. split; [exact Hr|]. split; [exact Hm|exact Hrm].
Defined.

(** A leaf of two 3000-byte entries, 6033 bytes: one entry goes left, one
    right, and here the right half fits its page. *)
Lemma nodeSplit2_repr_witness :
  ∃ l old left right,
    leaf1 [] (filler 3000) = Ok l ∧
    leafInsert (make (2 * BTREE_PAGE_SIZE)) l 1 (bytes_of "b") (filler 3000) = Ok old ∧
    nodeSplit2 (make (2 * BTREE_PAGE_SIZE)) (make BTREE_PAGE_SIZE) old = Ok (left, right) ∧
    repr left BNODE_LEAF [mkEntry 0 [] (filler 3000)] ∧
    repr right BNODE_LEAF [mkEntry 0 (bytes_of "b") (filler 3000)].
Proof.
  destruct (leaf2_repr [] (filler 3000) (bytes_of "b") (filler 3000))
    as (l & old & Hl & Hins & Hro); [by vm_compute..|].
  destruct (nodeSplit2_repr (make (2 * BTREE_PAGE_SIZE)) (make BTREE_PAGE_SIZE) old
              BNODE_LEAF _ Hro)
    as (left & right & Hs & Hrl & Hrr & _); [by vm_compute..|].
  exists l, old, left, right.
  split; [exact Hl|]. split; [exact Hins|]. split; [exact Hs|]. split; [exact Hrl|exact Hrr].
Defined.

(** Deleting the second of two entries leaves the first. *)
Lemma leafDelete_repr_witness :
  ∃ l old new,
    leaf1 [] [] = Ok l ∧
    leafInsert (make (2 * BTREE_PAGE_SIZE)) l 1 (bytes_of "b") (bytes_of "2") = Ok old ∧
    leafDelete (make BTREE_PAGE_SIZE) old 1 = Ok new ∧
    repr new BNODE_LEAF [mkEntry 0 [] []].
Proof.
  destruct (leaf2_repr [] [] (bytes_of "b") (bytes_of "2"))
    as (l & old & Hl & Hins & Hro); [by vm_compute..|].
  destruct (leafDelete_repr (make BTREE_PAGE_SIZE) old BNODE_LEAF _ 1 Hro)
    as (new & Hd & Hrn & _); [cbn [length]; lia|by vm_compute..|].
  exists l, old, new.
  split; [exact Hl|]. split; [exact Hins|]. split; [exact Hd|exact Hrn].
Defined.

(** After [Insert("a", "1")], the key "b" is not found, and deleting it
    changes nothing. *)
Lemma Delete_absent_unchanged_witness :
  ∃ t, C_Insert 3 NewC (bytes_of "a") (bytes_of "1") = Ok t ∧ root t ≠ 0 ∧
       C_Read 3 t (bytes_of "b") = Ok ([], false) ∧
       C_Delete 3 t (bytes_of "b") = Ok (false, t).
Proof.
  let r := eval vm_compute in (C_Insert 3 NewC (bytes_of "a") (bytes_of "1")) in
  match r with
  | Ok ?t =>
      exists t; split; [run|]; split; [by vm_compute|]; split; [run|];
      apply (Delete_absent_unchanged pt_get pt_new pt_del 3 t (bytes_of "b") []);
      [by vm_compute|run]
  end.
Defined.

(** An update of the entry at index 0 of a one-entry leaf. *)
Lemma leafUpdate_first_entry_fatal_witness :
  ∃ old, leaf1 [] [] = Ok old ∧ nkeys old = Ok 1 ∧
    (leafUpdate (make (2 * BTREE_PAGE_SIZE)) old 0 [] (bytes_of "v") =
       Fatal (AssertionFailed "Try to append out of bound kids from older node")
     ∨ ∃ e, setHeader (make (2 * BTREE_PAGE_SIZE)) BNODE_LEAF 1 = Fatal e).
Proof.
  assert (1 ≠ 65535) as Hne by lia.
  eexists. split; [run|]. split; [run|].
  apply leafUpdate_first_entry_fatal; [run|exact Hne].
Defined.

(** * The page codec, function by function *)

(** ** Header *)

Lemma drop_overwrite_ge n p src dst :
  (p + length src ≤ n)%nat → drop n (overwrite p src dst) = drop n dst.
Proof.
  intros H. apply list_eq. intros i. rewrite !lookup_drop.
  apply lookup_overwrite_ge. lia.
Qed.

(** The header written by [setHeader] is read back by [btype] and [nkeys].
    The call needs four bytes of capacity, keeps the length, and touches
    nothing behind the header. *)
Theorem setHeader_round_trip node bt nk :
  0 ≤ bt < 65536 → 0 ≤ nk < 65536 →
  (cap node < 4 → setHeader node bt nk = Fatal SliceBounds) ∧
  (4 ≤ cap node →
     ∃ node', setHeader node bt nk = Ok node' ∧
       btype node' = Ok bt ∧ nkeys node' = Ok nk ∧
       len node' = len node ∧ drop 4 (arr node') = drop 4 (arr node)).
Proof.
  intros Hbt Hnk. split.
  - intros Hcap. unfold setHeader, cap in *. cbn [arr len].
    rewrite length_overwrite.
    destruct (Z.of_nat (length (arr node)) <? 2) eqn:E2; [done|].
    by replace (Z.of_nat (length (arr node)) <? 4) with true by zbool.
  - intros Hcap. destruct (setHeader_Ok node bt nk Hcap) as [node' Hset].
    destruct (setHeader_post _ _ _ _ Hset Hbt Hnk) as (Hb & Hn & Hl & _).
    exists node'. split; [done|]. split; [done|]. split; [done|]. split; [done|].
    revert Hset. unfold setHeader, cap. cbn [arr len]. rewrite length_overwrite.
    destruct (_ <? 2); [done|]. destruct (_ <? 4); [done|]. intros [= <-].
    cbn [arr]. rewrite !drop_overwrite_ge; [done|..];
      rewrite length_le_split; lia.
Qed.

(** ** Pointers *)

(** [setPtr] and [getPtr]: a pointer written at an index below [nkeys] is
    read back there, and the other pointers and the header stay as they
    were; at an index from [nkeys] on, both stop with their assertion. *)
Theorem setPtr_getPtr_round_trip node n idx v :
  nkeys node = Ok n → len node ≤ cap node → len node < 65536 →
  HEADER + 10 * n ≤ len node → 0 ≤ idx → 0 ≤ v < 2 ^ 64 →
  (idx < n →
     ∃ node', setPtr node idx v = Ok node' ∧ getPtr node' idx = Ok v ∧
       nkeys node' = Ok n ∧ btype node' = btype node ∧ len node' = len node ∧
       ∀ j, 0 ≤ j < n → j ≠ idx → getPtr node' j = getPtr node j) ∧
  (n ≤ idx →
     getPtr node idx = Fatal (AssertionFailed "Try to read a out of bound pointer") ∧
     setPtr node idx v = Fatal (AssertionFailed "Try to write a out of bound pointer")).
Proof.
  intros Hn Hshape Hmax Hfit Hidx Hv.
  assert (HEADER + 10 * n ≤ 65536) as room by lia.
  split.
  - intros Hlt. destruct (setPtr_Ok n node idx v) as [node' Hset]; [done|lia|done|done|].
    pose proof (setPtr_footprint n room _ _ _ _ Hset Hn Hidx) as Hag.
    assert (nkeys node' = Ok n) as Hn'.
    { rewrite <- Hn. eapply agree_nkeys; [exact Hag|unfold HEADER; lia]. }
    exists node'. split; [done|]. split.
    { by eapply (getPtr_setPtr n). }
    split; [done|]. split.
    { eapply agree_btype; [exact Hag|unfold HEADER; lia]. }
    split; [by eapply agree_len|].
    intros j Hj Hne. apply (getPtr_agree n _ _ _ _ _ room Hag Hn' Hn); lia.
  - intros Hge. unfold getPtr, setPtr. rewrite Hn. cbn [mbind result_bind].
    by replace (idx <? n) with false by zbool.
Qed.

(** ** Offsets *)

(** [setOffset] and [getOffset]: an offset written at an index in
    [[1, nkeys]] is read back there and the other offsets stay; index 0 is
    never stored (it reads 0 and a write to it does nothing); an index
    above [nkeys] stops both with the assertion of [offsetPos]. *)
Theorem setOffset_getOffset_round_trip node n idx off :
  nkeys node = Ok n → len node ≤ cap node → len node < 65536 →
  HEADER + 10 * n ≤ len node → 0 ≤ off < 65536 →
  (1 ≤ idx ≤ n →
     ∃ node', setOffset node idx off = Ok node' ∧ getOffset node' idx = Ok off ∧
       nkeys node' = Ok n ∧ btype node' = btype node ∧ len node' = len node ∧
       ∀ j, 0 ≤ j ≤ n → j ≠ idx → getOffset node' j = getOffset node j) ∧
  (getOffset node 0 = Ok 0 ∧ setOffset node 0 off = Ok node) ∧
  (n < idx →
     getOffset node idx =
       Fatal (AssertionFailed "Try to read a out of bound offset position") ∧
     setOffset node idx off =
       Fatal (AssertionFailed "Try to read a out of bound offset position")).
Proof.
  intros Hn Hshape Hmax Hfit Hoff.
  pose proof (nkeys_range _ _ Hn) as Hnr.
  assert (HEADER + 10 * n ≤ 65536) as room by lia.
  split; [|split; [done|]].
  - intros Hidx.
    destruct (setOffset_Ok n node idx off) as [node' Hset]; [done|lia|done|done|].
    pose proof (setOffset_footprint n room _ _ _ _ Hset Hn) as Hag.
    assert (nkeys node' = Ok n) as Hn'.
    { rewrite <- Hn. eapply agree_nkeys; [exact Hag|unfold HEADER; lia]. }
    exists node'. split; [done|]. split.
    { rewrite (getOffset_setOffset n room _ _ _ _ Hset Hn Hshape) by lia.
      by rewrite u16_small. }
    split; [done|]. split.
    { eapply agree_btype; [exact Hag|unfold HEADER; lia]. }
    split; [by eapply agree_len|].
    intros j Hj Hne. apply (getOffset_agree n room _ _ _ _ _ Hag Hn' Hn). lia.
  - intros Hgt. unfold getOffset, setOffset, offsetPos.
    replace (idx =? 0) with false by zbool.
    replace (1 <=? idx) with true by zbool. rewrite Hn. cbn [mbind result_bind].
    by replace (idx <=? n) with false by zbool.
Qed.

(** ** Reading a node *)

(** What the accessors return on a well-formed node: the count and the
    kind, every entry's pointer, key and value, and the encoded size,
    which is the header, ten bytes of pointer and offset per entry, and
    four bytes of lengths plus key and value per entry.  From [nkeys] on,
    the three entry accessors stop with their assertions. *)
Theorem repr_reads node bt es :
  repr node bt es →
  btype node = Ok bt ∧ nkeys node = Ok (Z.of_nat (length es)) ∧
  nbytes node = Ok (HEADER + 10 * Z.of_nat (length es) + offs es) ∧
  (∀ (i : nat) e, es !! i = Some e →
     getPtr node (Z.of_nat i) = Ok (e_ptr e) ∧
     getKey node (Z.of_nat i) = Ok (e_key e) ∧
     getVal node (Z.of_nat i) = Ok (e_val e)) ∧
  (∀ idx, Z.of_nat (length es) ≤ idx →
     getPtr node idx = Fatal (AssertionFailed "Try to read a out of bound pointer") ∧
     getKey node idx = Fatal (AssertionFailed "Try to read a out of bound key") ∧
     getVal node idx = Fatal (AssertionFailed "Try to read a out of bound val")).
Proof.
  intros [Hb Hf]. pose proof (filled_nkeys _ _ _ Hf) as Hn.
  split; [done|]. split; [done|]. split; [by apply filled_nbytes|]. split.
  - intros i e He. split; [by eapply filled_getPtr|].
    split; [by eapply filled_getKey|by eapply filled_getVal].
  - intros idx Hidx. unfold getPtr, getKey, getVal. rewrite Hn.
    cbn [mbind result_bind].
    by replace (idx <? Z.of_nat (length es)) with false by zbool.
Qed.

(** ** Appending one entry *)

(** [nodeAppendKV] at the next free index of a partly filled node, with
    room for the entry: the new entry is read back by [getPtr], [getKey]
    and [getVal], the entries before it read as before, and the next
    entry would start right behind it. *)
Theorem nodeAppendKV_reads_back node N es ptr key val :
  filled node N es → Z.of_nat (length es) < N → 0 ≤ ptr < 2 ^ 64 →
  HEADER + 10 * N + offs es + 4 + blen key + blen val ≤ len node →
  ∃ node',
    nodeAppendKV node (Z.of_nat (length es)) ptr key val = Ok node' ∧
    getPtr node' (Z.of_nat (length es)) = Ok ptr ∧
    getKey node' (Z.of_nat (length es)) = Ok key ∧
    getVal node' (Z.of_nat (length es)) = Ok val ∧
    kvPos node' (Z.of_nat (length es) + 1)
      = Ok (HEADER + 10 * N + offs es + 4 + blen key + blen val) ∧
    nkeys node' = Ok N ∧ btype node' = btype node ∧
    ∀ (i : nat) e, es !! i = Some e →
      getPtr node' (Z.of_nat i) = Ok (e_ptr e) ∧
      getKey node' (Z.of_nat i) = Ok (e_key e) ∧
      getVal node' (Z.of_nat i) = Ok (e_val e).
Proof.
  intros Hf Hidx Hptr Hfit. set (e := mkEntry ptr key val).
  destruct (filled_append node N es e Hf Hidx Hptr) as (Hrun & Hf' & Hb').
  { unfold esize. cbn [e e_key e_val]. lia. }
  eexists. split; [exact Hrun|].
  assert ((es ++ [e]) !! length es = Some e) as He.
  { rewrite lookup_app_r by lia. by rewrite Nat.sub_diag. }
  split; [exact (filled_getPtr _ _ _ Hf' _ _ He)|].
  split; [exact (filled_getKey _ _ _ Hf' _ _ He)|].
  split; [exact (filled_getVal _ _ _ Hf' _ _ He)|].
  split.
  { replace (Z.of_nat (length es) + 1) with (Z.of_nat (length (es ++ [e])))
      by (rewrite length_app; cbn [length]; lia).
    rewrite (filled_kvPos _ _ _ Hf') by done. rewrite firstn_all, offs_app.
    cbn [offs]. unfold esize. cbn [e e_key e_val]. f_equal. lia. }
  split; [exact (filled_nkeys _ _ _ Hf')|]. split; [exact Hb'|].
  intros i e' He'.
  assert ((es ++ [e]) !! i = Some e') as Hi.
  { rewrite lookup_app_l; [done|]. by eapply lookup_lt_Some. }
  split; [exact (filled_getPtr _ _ _ Hf' _ _ Hi)|].
  split; [exact (filled_getKey _ _ _ Hf' _ _ Hi)|exact (filled_getVal _ _ _ Hf' _ _ Hi)].
Qed.

(** [nodeAppendKV] never checks that the value fits.  When the key fits
    the slice and the value does not, the call still returns: the slice
    keeps its length, and the offset written for the next entry lies
    behind the end of the slice. *)
Theorem nodeAppendKV_value_overruns node N es ptr key val :
  filled node N es → Z.of_nat (length es) < N →
  HEADER + 10 * N + offs es + 4 + blen key ≤ len node →
  len node < HEADER + 10 * N + offs es + 4 + blen key + blen val →
  HEADER + 10 * N + offs es + 4 + blen key + blen val < 65536 →
  ∃ node',
    nodeAppendKV node (Z.of_nat (length es)) ptr key val = Ok node' ∧
    len node' = len node ∧
    getOffset node' (Z.of_nat (length es) + 1)
      = Ok (offs es + 4 + blen key + blen val) ∧
    len node' < HEADER + 10 * N + offs es + 4 + blen key + blen val.
Proof.
  intros Hf Hidx Hkey Hval Hmax.
  destruct (filled_bounds _ _ _ Hf) as (HN & Hlen & Hsz & Hcap & _).
  pose proof (offs_nonneg es) as Ho.
  destruct (nodeAppendKV_Ok node (Z.of_nat (length es)) ptr key val N (offs es))
    as (node' & Hrun & _ & _ & Hl & _ & Hoff).
  - exact (filled_nkeys _ _ _ Hf).
  - done.
  - lia.
  - rewrite (filled_getOffset _ _ _ (length es) Hf) by done. by rewrite firstn_all.
  - lia.
  - done.
  - done.
  - exists node'. split; [done|]. split; [done|]. split; [done|]. lia.
Qed.

(** ** Copying a range of entries *)

(** The two bound checks of [nodeAppendRange], in their order, and the
    empty range: a source range behind the old node's entries and a
    destination range behind the new node's header count each stop the
    call; a range of no entries returns the destination as it is. *)
Theorem nodeAppendRange_edges new old d s n on nn :
  nkeys old = Ok on → nkeys new = Ok nn →
  (on < u16 (s + n) →
     nodeAppendRange new old d s n =
       Fatal (AssertionFailed "Try to append out of bound kids from older node")) ∧
  (u16 (s + n) ≤ on → nn < u16 (d + n) →
     nodeAppendRange new old d s n =
       Fatal (AssertionFailed "Try to append out of bound kids to new node")) ∧
  (u16 s ≤ on → u16 d ≤ nn → nodeAppendRange new old d s 0 = Ok new).
Proof.
  intros Hon Hnn. unfold nodeAppendRange. rewrite Hon, Hnn. cbn [mbind result_bind].
  split; [|split].
  - intros H. by replace (u16 (s + n) <=? on) with false by zbool.
  - intros H1 H2. replace (u16 (s + n) <=? on) with true by zbool.
    cbn [Assert mbind result_bind].
    by replace (u16 (d + n) <=? nn) with false by zbool.
  - intros H1 H2. rewrite !Z.add_0_r.
    replace (u16 s <=? on) with true by zbool. cbn [Assert mbind result_bind].
    by replace (u16 d <=? nn) with true by zbool.
Qed.

(** [nodeAppendRange] into a partly filled node, from a well-formed one:
    the [n] entries of the source from index [s] on are read back in the
    destination from its first free index on, the entries the
    destination held read as before, and its kind and length stay. *)
Theorem nodeAppendRange_copies new N es old bt eso (s n : nat) :
  filled new N es → repr old bt eso →
  (s + n ≤ length eso)%nat → Z.of_nat (length es + n) ≤ N →
  HEADER + 10 * N + offs es + offs (take n (drop s eso)) ≤ len new →
  ∃ new',
    nodeAppendRange new old (Z.of_nat (length es)) (Z.of_nat s) (Z.of_nat n) = Ok new' ∧
    filled new' N (es ++ take n (drop s eso)) ∧
    btype new' = btype new ∧ len new' = len new ∧
    (∀ (j : nat) e, (j < n)%nat → eso !! (s + j)%nat = Some e →
       getPtr new' (Z.of_nat (length es + j)) = Ok (e_ptr e) ∧
       getKey new' (Z.of_nat (length es + j)) = Ok (e_key e) ∧
       getVal new' (Z.of_nat (length es + j)) = Ok (e_val e)) ∧
    (∀ (i : nat) e, es !! i = Some e →
       getPtr new' (Z.of_nat i) = Ok (e_ptr e) ∧
       getKey new' (Z.of_nat i) = Ok (e_key e) ∧
       getVal new' (Z.of_nat i) = Ok (e_val e)).
Proof.
  intros Hf Hold Hsn Hdn Hfit.
  destruct (filled_append_range new N es old bt eso s n Hf Hold Hsn Hdn Hfit)
    as (new' & Hrun & Hf' & Hb & Hl & _).
  exists new'. split; [done|]. split; [done|]. split; [done|]. split; [done|].
  assert (∀ (i : nat) e, (es ++ take n (drop s eso)) !! i = Some e →
            getPtr new' (Z.of_nat i) = Ok (e_ptr e) ∧
            getKey new' (Z.of_nat i) = Ok (e_key e) ∧
            getVal new' (Z.of_nat i) = Ok (e_val e)) as Hread.
  { intros i e He. split; [exact (filled_getPtr _ _ _ Hf' _ _ He)|].
    split; [exact (filled_getKey _ _ _ Hf' _ _ He)|exact (filled_getVal _ _ _ Hf' _ _ He)]. }
  split.
  - intros j e Hj He. apply Hread.
    rewrite lookup_app_r by lia. replace (length es + j - length es)%nat with j by lia.
    rewrite lookup_take_lt by done. by rewrite lookup_drop.
  - intros i e He. apply Hread. rewrite lookup_app_l; [done|]. by eapply lookup_lt_Some.
Qed.

(** ** Lookup *)

(** [nodeLookupLE] on a node whose keys from index 1 on are in order: the
    result is the last index from 1 on whose key is at most the key
    looked for, and 0 when there is none; the key at index 0 is never
    compared.  If an entry from index 1 on has the key looked for, the
    entry at the result has it. *)
Theorem nodeLookupLE_floor node bt es key fuel :
  repr node bt es → sorted_keys es → es ≠ [] → (length es ≤ fuel)%nat →
  ∃ i : nat,
    nodeLookupLE fuel node key = Ok (Z.of_nat i) ∧ (i < length es)%nat ∧
    (∀ (j : nat) e, (1 ≤ j ≤ i)%nat → es !! j = Some e →
       bytes_Compare (e_key e) key ≤ 0) ∧
    (∀ (j : nat) e, (i < j)%nat → es !! j = Some e →
       0 < bytes_Compare (e_key e) key) ∧
    (∀ (j : nat) e, (1 ≤ j)%nat → es !! j = Some e → e_key e = key →
       getKey node (Z.of_nat i) = Ok key).
Proof.
  intros Hr Hs Hne Hfuel.
  destruct (nodeLookupLE_spec node bt es key Hr Hs fuel Hne Hfuel)
    as (i & Hrun & Hi & Hlow & Hhigh).
  exists i. split; [done|]. split; [done|]. split; [done|]. split; [done|].
  intros j e Hj He Hkey.
  assert (j ≤ i)%nat as Hji.
  { destruct (decide (j ≤ i)%nat) as [|Hgt]; [done|].
    pose proof (Hhigh j e ltac:(lia) He) as H.
    rewrite Hkey, bytes_Compare_refl in H. lia. }
  destruct (lookup_lt_is_Some_2 es i Hi) as [ei Hei].
  destruct Hr as [_ Hf]. rewrite (filled_getKey _ _ _ Hf _ _ Hei). f_equal.
  apply bytes_Compare_eq.
  pose proof (Hlow i ei ltac:(lia) Hei) as H1.
  pose proof (Hs j i e ei Hj Hji He Hei) as H2. rewrite Hkey in H2.
  rewrite (bytes_Compare_antisym key (e_key ei)) in H1 |- *. lia.
Qed.

Lemma nodeLookupLE_no_key node key fuel :
  nkeys node = Ok 0 →
  nodeLookupLE (S fuel) node key =
    Fatal (AssertionFailed "Try to read a out of bound key").
Proof.
  intros Hn. unfold nodeLookupLE. rewrite Hn. cbn [mbind result_bind].
  change (u16 (0 - 1)) with 65535. cbn [nodeLookupLE_loop].
  change (1 <=? 65535) with true. cbn match.
  change (u16 (1 + 65535) / 2) with 0.
  unfold getKey. rewrite Hn. done.
Qed.

(** The small nodes: with one key the lookup answers 0 without reading
    any key; with no key at all the right bound [nkeys-1] wraps to 65535,
    the midpoint wraps to 0, and reading the key there stops the call. *)
Theorem nodeLookupLE_small_nodes node key fuel :
  (nkeys node = Ok 1 → nodeLookupLE (S fuel) node key = Ok 0) ∧
  (nkeys node = Ok 0 →
     nodeLookupLE (S fuel) node key =
       Fatal (AssertionFailed "Try to read a out of bound key")).
Proof.
  split; intros Hn.
  - unfold nodeLookupLE. rewrite Hn. done.
  - by apply nodeLookupLE_no_key.
Qed.

(** ** Leaf insertion *)

(** [leafInsert] at an index up to the old node's count, into a buffer
    with room: the new node is a leaf that holds the old entries with the
    new one at [idx], everything else in its order. *)
Theorem leafInsert_inserts new old bt es (idx : nat) key val :
  repr old bt es → (idx ≤ length es)%nat →
  len new ≤ cap new → len new < 65536 →
  HEADER + 10 * (Z.of_nat (length es) + 1) + offs es + esize (mkEntry 0 key val)
    ≤ len new →
  ∃ new', leafInsert new old (Z.of_nat idx) key val = Ok new' ∧
          repr new' BNODE_LEAF (take idx es ++ mkEntry 0 key val :: drop idx es) ∧
          getKey new' (Z.of_nat idx) = Ok key ∧ getVal new' (Z.of_nat idx) = Ok val.
Proof.
  intros Hr Hidx Hc Hm Hfit.
  destruct (leafInsert_repr new old bt es idx key val Hr Hidx Hc Hm Hfit)
    as (new' & Hrun & Hnew & _).
  exists new'. split; [done|]. split; [done|].
  assert ((take idx es ++ mkEntry 0 key val :: drop idx es) !! idx
          = Some (mkEntry 0 key val)) as He.
  { rewrite lookup_insert_at by done. rewrite decide_False by lia.
    by rewrite decide_True. }
  destruct Hnew as [_ Hf].
  split; [exact (filled_getKey _ _ _ Hf _ _ He)|exact (filled_getVal _ _ _ Hf _ _ He)].
Qed.

(** * The page table of the tests *)

(** A page handed to [new] comes back from [get] under the pointer that
    [new] returned, which was free before; the other pointers read as
    before; [new] only takes pages of at most one page of encoded size;
    and [del] of that pointer gives the old table back, where [get] of it
    stops the program. *)
Theorem pt_new_get_del c node p c' :
  pt_new c node = Ok (p, c') →
  pages c !! p = None ∧
  (∃ sz, nbytes node = Ok sz ∧ sz ≤ BTREE_PAGE_SIZE) ∧
  pt_get c' p = Ok node ∧
  (∀ q, q ≠ p → pt_get c' q = pt_get c q) ∧
  ∃ c'', pt_del c' p = Ok c'' ∧ pages c'' = pages c ∧
         pt_get c'' p = Fatal (AssertionFailed "Can't read allocated data").
Proof.
  unfold pt_new. intros H.
  apply bind_Ok in H as (sz & Hsz & H).
  apply bind_Ok in H as (? & Hle%Assert_Ok & H).
  apply bind_Ok in H as (? & _ & H).
  apply bind_Ok in H as (? & Hfree%Assert_Ok & H).
  injection H as <- <-. apply bool_decide_eq_true_1 in Hfree.
  apply Z.leb_le in Hle.
  split; [done|]. split; [by exists sz|]. split.
  { unfold pt_get. cbn [pages]. by rewrite lookup_insert_eq. }
  split.
  { intros q Hq. unfold pt_get. cbn [pages]. by rewrite lookup_insert_ne. }
  eexists. split.
  { unfold pt_del. cbn [pages next_addr].
    rewrite bool_decide_eq_true_2 by (by rewrite lookup_insert_eq). done. }
  cbn [pages]. rewrite delete_insert_id by done. split; [done|].
  unfold pt_get. cbn [pages]. by rewrite Hfree.
Qed.

(** The three assertions of the page table: [get] and [del] of a pointer
    that holds no page, and [new] of a node whose encoded size is above
    one page. *)
Theorem pt_errors c p node sz :
  (pages c !! p = None →
     pt_get c p = Fatal (AssertionFailed "Can't read allocated data") ∧
     pt_del c p =
       Fatal (AssertionFailed "try to de-allocate a pointer that is not occupied")) ∧
  (nbytes node = Ok sz → BTREE_PAGE_SIZE < sz →
     pt_new c node = Fatal (AssertionFailed "new node exceed max size")).
Proof.
  split.
  - intros Hnone. unfold pt_get, pt_del. rewrite Hnone. split; [done|].
    by rewrite bool_decide_eq_false_2 by (intros H; by apply H).
  - intros Hsz Hbig. unfold pt_new. rewrite Hsz. cbn [mbind result_bind].
    by replace (sz <=? BTREE_PAGE_SIZE) with false by zbool.
Qed.

(** * Trees of one leaf: delete *)

Lemma lookup_delete_at {A} (l : list A) (i a : nat) :
  (i < length l)%nat →
  (take i l ++ drop (S i) l) !! a = if decide (a < i)%nat then l !! a else l !! S a.
Proof.
  intros Hi. assert (length (take i l) = i) as Hl by (rewrite length_take; lia).
  case_decide.
  - rewrite lookup_app_l by lia. by rewrite lookup_take_lt.
  - rewrite lookup_app_r by lia. rewrite Hl, lookup_drop. f_equal. lia.
Qed.

Lemma offs_delete_at es (i : nat) e :
  es !! i = Some e → offs es = offs (take i es ++ drop (S i) es) + esize e.
Proof.
  intros He. rewrite <- (take_drop_middle es i e He) at 1.
  rewrite !offs_app. cbn [offs]. lia.
Qed.

Lemma length_delete_at {A} (l : list A) (i : nat) :
  (i < length l)%nat → S (length (take i l ++ drop (S i) l)) = length l.
Proof. intros Hi. rewrite length_app, length_take, length_drop. lia. Qed.

Lemma strictly_sorted_delete es (i : nat) :
  strictly_sorted es → (i < length es)%nat →
  strictly_sorted (take i es ++ drop (S i) es).
Proof.
  intros Hs Hi a b ea eb Hab. rewrite !lookup_delete_at by done.
  repeat case_decide; intros Ha Hb; try lia.
  - by eapply Hs; [|exact Ha|exact Hb].
  - eapply Hs; [|exact Ha|exact Hb]. lia.
  - eapply Hs; [|exact Ha|exact Hb]. lia.
Qed.

(** In a strictly sorted list the keys tell the entries apart. *)
Lemma strictly_sorted_key_inj es (i j : nat) ei ej :
  strictly_sorted es → es !! i = Some ei → es !! j = Some ej →
  e_key ei = e_key ej → i = j.
Proof.
  intros Hs Hi Hj Hk. destruct (Nat.lt_trichotomy i j) as [H|[H|H]]; [|done|].
  - pose proof (Hs i j ei ej H Hi Hj) as Hlt. rewrite Hk in Hlt.
    by apply key_lt_irrefl in Hlt.
  - pose proof (Hs j i ej ei H Hj Hi) as Hlt. rewrite Hk in Hlt.
    by apply key_lt_irrefl in Hlt.
Qed.

Lemma elem_of_delete_at es (i : nat) e y :
  strictly_sorted es → es !! i = Some e →
  y ∈ take i es ++ drop (S i) es ↔ y ∈ es ∧ e_key y ≠ e_key e.
Proof.
  intros Hs He. pose proof (lookup_lt_Some _ _ _ He) as Hi.
  rewrite !list_elem_of_lookup. split.
  - intros [a Ha]. rewrite lookup_delete_at in Ha by done. case_decide.
    + split; [by exists a|]. intros Hk.
      pose proof (strictly_sorted_key_inj es a i y e Hs Ha He Hk). lia.
    + split; [by exists (S a)|]. intros Hk.
      pose proof (strictly_sorted_key_inj es (S a) i y e Hs Ha He Hk). lia.
  - intros [[a Ha] Hk].
    assert (a ≠ i) as Hne by (intros ->; congruence).
    destruct (decide (a < i)%nat) as [Hlt|Hge].
    + exists a. rewrite lookup_delete_at by done. by rewrite decide_True.
    + exists (a - 1)%nat. rewrite lookup_delete_at by done.
      rewrite decide_False by lia. by replace (S (a - 1)) with a by lia.
Qed.

(** [Delete] of a key that a tree of one leaf holds. *)
Lemma C_Delete_leaf fuel t es (i : nat) e :
  leaf_tree t es → strictly_sorted es → es !! i = Some e →
  (length es ≤ fuel)%nat →
  HEADER + 10 * (Z.of_nat (length es) - 1) + offs (take i es ++ drop (S i) es)
    ≤ BTREE_PAGE_SIZE →
  ∃ t', C_Delete fuel t (e_key e) = Ok (true, t') ∧
        leaf_tree t' (take i es ++ drop (S i) es).
Proof.
  intros (Hroot & Hnext & (node & Hnode & Hrepr) & Hfree) Hs He Hfuel Hsz.
  pose proof (lookup_lt_Some _ _ _ He) as Hi.
  pose proof Hrepr as [Hbt Hf].
  set (es' := take i es ++ drop (S i) es) in *.
  destruct (leafDelete_entries (make BTREE_PAGE_SIZE) node BNODE_LEAF es i Hrepr Hi)
    as (new & Hdel & Hnew & Hl & Hc); [done|done|done|].
  assert (len new = BTREE_PAGE_SIZE) as Hlen by done.
  assert (HEADER + 10 * Z.of_nat (length es') + offs es' ≤ BTREE_PAGE_SIZE) as Hsz'.
  { pose proof (length_delete_at es i Hi). fold es' in H. lia. }
  exists (mkBTree (next_addr (store t))
            (mkPageTable (<[next_addr (store t) := new]> (delete (root t) (pages (store t))))
               (next_addr (store t) + 1))).
  split.
  - unfold C_Delete, Delete.
    assert (pt_get (store t) (root t) = Ok node) as Hget
      by (unfold pt_get; by rewrite Hnode).
    rewrite Hget. cbn [mbind result_bind].
    destruct fuel as [|fuel]; [lia|]. cbn [treeDelete].
    rewrite (nodeLookupLE_present node es Hrepr Hs (S fuel) i e He Hfuel).
    cbn [mbind result_bind]. rewrite Hbt. cbn [mbind result_bind].
    change (BNODE_LEAF =? BNODE_LEAF) with true. cbn match.
    rewrite (filled_getKey _ _ _ Hf _ _ He). cbn [mbind result_bind].
    rewrite bytes_Equal_refl. rewrite Hdel. cbn [mbind result_bind].
    rewrite Hlen. change (BTREE_PAGE_SIZE =? 0) with false. cbn match.
    unfold pt_del. rewrite bool_decide_eq_true_2 by (by rewrite Hnode).
    cbn [Assert mbind result_bind].
    destruct Hnew as [Hbn Hfn]. rewrite Hbn. cbn [mbind result_bind].
    change (BNODE_LEAF =? BNODE_NODE) with false. cbn [mbind result_bind andb].
    erewrite pt_new_Ok; [done|exact (conj Hbn Hfn)|done|].
    cbn [pages next_addr]. rewrite lookup_delete_None. right. apply Hfree. lia.
  - split; [cbn [root]; lia|]. cbn [root store next_addr pages].
    split; [lia|]. split.
    + exists new. split; [by rewrite lookup_insert_eq|done].
    + intros p Hp. rewrite lookup_insert_ne by lia.
      rewrite lookup_delete_None. right. apply Hfree. lia.
Qed.

(** [Delete] of a key that a tree of one leaf does not hold. *)
Lemma C_Delete_leaf_absent fuel t es key :
  leaf_tree t es → strictly_sorted es → es ≠ [] →
  (∀ e, e ∈ es → e_key e ≠ key) → (length es ≤ fuel)%nat →
  C_Delete fuel t key = Ok (false, t).
Proof.
  intros Ht Hs Hne Habs Hfuel.
  pose proof (C_Read_leaf_absent fuel t es key Ht Hs Hne Habs Hfuel) as Hread.
  destruct Ht as (Hroot & _).
  unfold C_Read, Read in Hread. unfold C_Delete, Delete.
  apply Z.eqb_neq in Hroot. rewrite Hroot in Hread.
  apply bind_Ok in Hread as (node & Hnode & Hread).
  rewrite Hnode. cbn [mbind result_bind].
  rewrite (treeDelete_absent pt_get pt_new pt_del _ _ _ _ _ Hread).
  cbn [mbind result_bind]. change (len empty_node =? 0) with true. cbn match.
  by destruct t.
Qed.

(** Delete in a tree of one leaf: a key the leaf holds is removed,
    [Delete] returns true, the key is then reported as not found, and
    every other key of the leaf still reads its value. *)
Theorem delete_then_read_one_leaf fuel t es (i : nat) e :
  leaf_tree t es → strictly_sorted es → es !! i = Some e →
  (2 ≤ length es ≤ fuel)%nat →
  HEADER + 10 * Z.of_nat (length es) + offs es ≤ BTREE_PAGE_SIZE →
  ∃ t', C_Delete fuel t (e_key e) = Ok (true, t') ∧
        C_Read fuel t' (e_key e) = Ok ([], false) ∧
        ∀ e', e' ∈ es → e_key e' ≠ e_key e →
          C_Read fuel t' (e_key e') = Ok (e_val e', true).
Proof.
  intros Ht Hs He Hlen Hsz.
  pose proof (lookup_lt_Some _ _ _ He) as Hi.
  pose proof (offs_delete_at es i e He) as Hoffs.
  pose proof (esize_pos e) as Hpos.
  pose proof (length_delete_at es i Hi) as Hl.
  destruct (C_Delete_leaf fuel t es i e Ht Hs He) as (t' & Hdel & Ht'); [lia|lia|].
  pose proof (strictly_sorted_delete es i Hs Hi) as Hs'.
  exists t'. split; [done|]. split.
  - apply (C_Read_leaf_absent fuel t' _ (e_key e) Ht' Hs').
    + intros Hnil. rewrite Hnil in Hl. cbn in Hl. lia.
    + intros y Hy. by apply (elem_of_delete_at es i e y Hs He) in Hy as [_ Hk].
    + lia.
  - intros e' Hin Hk.
    assert (e' ∈ take i es ++ drop (S i) es) as Hin'
      by (by apply (elem_of_delete_at es i e e' Hs He)).
    apply list_elem_of_lookup_1 in Hin' as [a Ha].
    apply (C_Read_leaf fuel t' _ a e' Ht' Hs' Ha). lia.
Qed.

(** Deleting the only entry of the root leaf leaves a leaf with no key,
    and from then on every [Read], [Insert] and [Delete] stops the
    program: the lookup in the empty leaf reads a key that is not
    there. *)
Theorem delete_last_entry_bricks_tree fuel t e :
  leaf_tree t [e] → (1 ≤ fuel)%nat →
  ∃ t', C_Delete fuel t (e_key e) = Ok (true, t') ∧ leaf_tree t' [] ∧
    ∀ key val,
      C_Read fuel t' key = Fatal (AssertionFailed "Try to read a out of bound key") ∧
      C_Insert fuel t' key val = Fatal (AssertionFailed "Try to read a out of bound key") ∧
      C_Delete fuel t' key = Fatal (AssertionFailed "Try to read a out of bound key").
Proof.
  intros Ht Hfuel.
  assert (strictly_sorted [e]) as Hs.
  { intros a b ea eb Hab Ha Hb. apply lookup_lt_Some in Hb. cbn in Hb. lia. }
  destruct (C_Delete_leaf fuel t [e] 0 e Ht Hs) as (t' & Hdel & Ht');
    [done|cbn [length]; lia|by vm_compute|].
  cbn [take drop app] in Ht'.
  exists t'. split; [done|]. split; [done|].
  destruct Ht' as (Hroot & _ & (node & Hnode & [Hbt Hf]) & _).
  pose proof (filled_nkeys _ _ _ Hf) as Hn. cbn [length] in Hn.
  change (Z.of_nat 0) with 0 in Hn.
  assert (pt_get (store t') (root t') = Ok node) as Hget
    by (unfold pt_get; by rewrite Hnode).
  apply Z.eqb_neq in Hroot. destruct fuel as [|fuel]; [lia|].
  intros key val. split; [|split].
  - unfold C_Read, Read. rewrite Hroot, Hget. cbn [mbind result_bind treeRead].
    by rewrite (nodeLookupLE_no_key node key fuel Hn).
  - unfold C_Insert, Insert. rewrite Hroot, Hget. cbn [mbind result_bind treeInsert].
    by rewrite (nodeLookupLE_no_key node key fuel Hn).
  - unfold C_Delete, Delete. rewrite Hget. cbn [mbind result_bind treeDelete].
    by rewrite (nodeLookupLE_no_key node key fuel Hn).
Qed.

(** * The test wrapper and its reference map *)

Lemma adds_size_nonneg ops : 0 ≤ adds_size ops.
Proof.
  induction ops as [|[k v|k] ops IH]; cbn [adds_size]; unfold blen; lia.
Qed.

Lemma bytes_of_inj a b : bytes_of a = bytes_of b → a = b.
Proof.
  unfold bytes_of. intros H.
  rewrite <- (string_of_list_byte_of_string a), <- (string_of_list_byte_of_string b).
  by rewrite H.
Qed.

Lemma bytes_of_nonempty k : k ≠ EmptyString → bytes_of k ≠ [].
Proof. intros Hk H. apply Hk. by apply bytes_of_inj. Qed.

Lemma agrees_Read fuel c es k :
  agrees c es → k ≠ EmptyString → (length es ≤ fuel)%nat →
  c_Read fuel c k =
    Ok (default EmptyString (Ref c !! k), bool_decide (is_Some (Ref c !! k))).
Proof.
  intros (Ht & Hs & H0 & Hne & Hel) Hk Hfuel. unfold c_Read.
  destruct (Ref c !! k) as [v|] eqn:Hr.
  - assert (mkEntry 0 (bytes_of k) (bytes_of v) ∈ es) as Hin.
    { apply Hel. right. by exists k, v. }
    apply list_elem_of_lookup_1 in Hin as [i Hi].
    pose proof (C_Read_leaf fuel (tree c) es i _ Ht Hs Hi Hfuel) as Hread.
    cbn [e_key e_val] in Hread. rewrite Hread.
    cbn [mbind result_bind default]. unfold bytes_of.
    rewrite string_of_list_byte_of_string.
    by rewrite bool_decide_eq_true_2.
  - rewrite (C_Read_leaf_absent fuel (tree c) es (bytes_of k) Ht Hs).
    + cbn [mbind result_bind default]. by rewrite bool_decide_eq_false_2 by (by intros [? ?]).
    + intros ->. by rewrite lookup_nil in H0.
    + intros e He Hkey. apply Hel in He as [->|(k' & v' & Hr' & ->)].
      * cbn [e_key sentinel] in Hkey. by apply (bytes_of_nonempty k Hk).
      * cbn [e_key] in Hkey. apply bytes_of_inj in Hkey as ->. congruence.
    + done.
Qed.

Lemma agrees_Add fuel c es k v :
  agrees c es → k ≠ EmptyString → Ref c !! k = None → (length es ≤ fuel)%nat →
  HEADER + 10 * Z.of_nat (length es) + offs es
    + (10 + 4 + blen (bytes_of k) + blen (bytes_of v)) ≤ BTREE_PAGE_SIZE →
  ∃ c' es', c_Add fuel c k v = Ok c' ∧ agrees c' es' ∧
            Ref c' = <[k := v]> (Ref c) ∧ length es' = S (length es) ∧
            offs es' = offs es + 4 + blen (bytes_of k) + blen (bytes_of v).
Proof.
  intros (Ht & Hs & H0 & Hne & Hel) Hk Hnone Hfuel Hsz.
  set (e := mkEntry 0 (bytes_of k) (bytes_of v)).
  destruct (C_Insert_leaf fuel (tree c) es (bytes_of k) (bytes_of v) sentinel Ht Hs H0)
    as (t' & n & Hrun & Hn & Ht' & Hs').
  { apply key_lt_nil. by apply bytes_of_nonempty. }
  { intros y Hy Hkey. apply Hel in Hy as [->|(k' & v' & Hr' & ->)].
    - cbn [e_key sentinel] in Hkey. by apply (bytes_of_nonempty k Hk).
    - cbn [e_key] in Hkey. apply bytes_of_inj in Hkey as ->. congruence. }
  { done. }
  { unfold esize. cbn [e_key e_val]. lia. }
  exists (mkC t' (<[k := v]> (Ref c))), (take n es ++ e :: drop n es).
  split; [unfold c_Add; by rewrite Hrun|].
  split; [|split; [done|split; [apply length_insert_at|]]].
  2:{ rewrite offs_insert_at. unfold esize. cbn [e e_key e_val]. lia. }
  split; [done|]. split; [done|]. cbn [tree Ref]. split.
  { rewrite lookup_app_l by (rewrite length_take; lia). by rewrite lookup_take_lt by lia. }
  split.
  { intros k' v' Hr. destruct (decide (k' = k)) as [->|Hkk]; [done|].
    rewrite lookup_insert_ne in Hr by done. by eapply Hne. }
  intros y. rewrite elem_of_insert_at, Hel. split.
  - intros [->|[->|(k' & v' & Hr & ->)]].
    + right. exists k, v. by rewrite lookup_insert_eq.
    + by left.
    + right. exists k', v'. split; [|done].
      rewrite lookup_insert_ne; [done|]. intros <-. congruence.
  - intros [->|(k' & v' & Hr & ->)]; [right; by left|].
    destruct (decide (k' = k)) as [->|Hkk].
    + rewrite lookup_insert_eq in Hr. injection Hr as <-. by left.
    + rewrite lookup_insert_ne in Hr by done. right. right. by exists k', v'.
Qed.

Lemma agrees_Del fuel c es k :
  agrees c es → k ≠ EmptyString → (length es ≤ fuel)%nat →
  HEADER + 10 * Z.of_nat (length es) + offs es ≤ BTREE_PAGE_SIZE →
  ∃ c' es', c_Del fuel c k = Ok c' ∧ agrees c' es' ∧
            Ref c' = delete k (Ref c) ∧ (length es' ≤ length es)%nat ∧
            offs es' ≤ offs es.
Proof.
  intros (Ht & Hs & H0 & Hne & Hel) Hk Hfuel Hsz.
  destruct (Ref c !! k) as [v|] eqn:Hr.
  - set (e := mkEntry 0 (bytes_of k) (bytes_of v)).
    assert (e ∈ es) as Hin by (apply Hel; right; by exists k, v).
    apply list_elem_of_lookup_1 in Hin as [i Hi].
    pose proof (lookup_lt_Some _ _ _ Hi) as Hlt.
    pose proof (offs_delete_at es i e Hi) as Hoffs.
    pose proof (esize_pos e) as Hpos.
    pose proof (length_delete_at es i Hlt) as Hl.
    destruct (C_Delete_leaf fuel (tree c) es i e Ht Hs Hi Hfuel) as (t' & Hrun & Ht'); [lia|].
    exists (mkC t' (delete k (Ref c))), (take i es ++ drop (S i) es).
    split; [unfold c_Del; cbn [e_key e] in Hrun; by rewrite Hrun|].
    split; [|split; [done|split; lia]].
    split; [done|]. split; [by apply strictly_sorted_delete|]. cbn [tree Ref]. split.
    { assert (i ≠ 0%nat) as Hi0.
      { intros ->. rewrite H0 in Hi. injection Hi as Hse.
        apply (bytes_of_nonempty k Hk). by rewrite <- Hse. }
      rewrite lookup_delete_at by done. by rewrite decide_True by lia. }
    split.
    { intros k' v' Hr'. apply lookup_delete_Some in Hr' as [_ Hr']. by eapply Hne. }
    intros y. rewrite (elem_of_delete_at es i e y Hs Hi), Hel. cbn [e_key e]. split.
    + intros [[->|(k' & v' & Hr' & ->)] Hkey]; [by left|].
      right. exists k', v'. split; [|done]. apply lookup_delete_Some.
      split; [|done]. intros <-. by apply Hkey.
    + intros [->|(k' & v' & Hr' & ->)].
      * split; [by left|]. cbn [e_key sentinel]. intros H.
        by apply (bytes_of_nonempty k Hk).
      * apply lookup_delete_Some in Hr' as [Hkk Hr'].
        split; [right; by exists k', v'|]. cbn [e_key]. intros H.
        apply bytes_of_inj in H. congruence.
  - exists (mkC (tree c) (delete k (Ref c))), es.
    split.
    { unfold c_Del. rewrite (C_Delete_leaf_absent fuel (tree c) es (bytes_of k) Ht Hs).
      - done.
      - intros ->. by rewrite lookup_nil in H0.
      - intros y Hy Hkey. apply Hel in Hy as [->|(k' & v' & Hr' & ->)].
        + cbn [e_key sentinel] in Hkey. by apply (bytes_of_nonempty k Hk).
        + cbn [e_key] in Hkey. apply bytes_of_inj in Hkey as ->. congruence.
      - done. }
    split; [|split; [done|split; lia]].
    cbn [tree Ref]. rewrite delete_id by done. done.
Qed.

Lemma agrees_run fuel ops : ∀ c es,
  agrees c es → fresh_adds (Ref c) ops →
  HEADER + 10 * Z.of_nat (length es) + offs es + adds_size ops ≤ BTREE_PAGE_SIZE →
  (length es + length ops ≤ fuel)%nat →
  ∃ c' es', c_run fuel c ops = Ok c' ∧ agrees c' es' ∧ (length es' ≤ fuel)%nat.
Proof.
  induction ops as [|o ops IH]; intros c es Hag Hfresh Hsz Hfuel.
  { exists c, es. cbn [length] in Hfuel. split; [done|]. split; [done|]. lia. }
  pose proof (adds_size_nonneg ops) as Hpos. cbn [length] in Hfuel.
  destruct o as [k v|k]; cbn [fresh_adds adds_size] in Hfresh, Hsz.
  - destruct Hfresh as (Hk & Hnone & Hfresh).
    destruct (agrees_Add fuel c es k v Hag Hk Hnone) as (c1 & es1 & Hrun & Hag1 & HR & Hl & Ho);
      [lia|unfold blen in *; lia|].
    destruct (IH c1 es1 Hag1) as (c' & es' & Hrun' & Hag' & Hfuel');
      [by rewrite HR|lia|lia|].
    exists c', es'. cbn [c_run c_step]. rewrite Hrun. by cbn [mbind result_bind].
  - destruct Hfresh as (Hk & Hfresh).
    destruct (agrees_Del fuel c es k Hag Hk) as (c1 & es1 & Hrun & Hag1 & HR & Hl & Ho);
      [lia|lia|].
    destruct (IH c1 es1 Hag1) as (c' & es' & Hrun' & Hag' & Hfuel');
      [by rewrite HR|lia|lia|].
    exists c', es'. cbn [c_run c_step]. rewrite Hrun. by cbn [mbind result_bind].
Qed.

(** The wrapper against its reference map, while the tree is one leaf: a
    run that starts with an [Add], in which every [Add] brings a new
    non-empty key and no [Del] names the empty key, and whose added
    entries fit one page together, returns, and afterwards [Read] of every
    non-empty key gives what the reference map holds for it: the value
    and true, or the empty string and false. *)
Theorem wrapper_agrees_with_Ref fuel key val ops :
  fresh_adds ∅ (OpAdd key val :: ops) →
  HEADER + 10 + 4 + adds_size (OpAdd key val :: ops) ≤ BTREE_PAGE_SIZE →
  (length ops + 2 ≤ fuel)%nat →
  ∃ c, c_run fuel c_new (OpAdd key val :: ops) = Ok c ∧
       ∀ k, k ≠ EmptyString →
         c_Read fuel c k =
           Ok (default EmptyString (Ref c !! k), bool_decide (is_Some (Ref c !! k))).
Proof.
  intros (Hk & _ & Hfresh) Hsz Hfuel. cbn [adds_size] in Hsz.
  pose proof (adds_size_nonneg ops) as Hpos.
  destruct (C_Insert_first fuel (bytes_of key) (bytes_of val)) as (t1 & Hrun1 & Ht1).
  { unfold esize, blen in *. cbn [e_key e_val]. lia. }
  set (e := mkEntry 0 (bytes_of key) (bytes_of val)) in *.
  assert (agrees (mkC t1 (<[key := val]> ∅)) [sentinel; e]) as Hag.
  { split; [done|]. split.
    { intros i j ei ej Hij Hi Hj.
      destruct i as [|[|i]], j as [|[|j]]; try lia; try discriminate Hj.
      injection Hi as <-. injection Hj as <-. apply key_lt_nil.
      by apply bytes_of_nonempty. }
    split; [done|]. cbn [Ref]. split.
    { intros k v Hr. apply lookup_insert_Some in Hr as [[<- _]|[_ Hr]]; [done|].
      by rewrite lookup_empty in Hr. }
    intros y. rewrite elem_of_cons, list_elem_of_singleton. split.
    - intros [-> | ->]; [by left|]. right. exists key, val.
      split; [apply lookup_insert_eq|reflexivity].
    - intros [->|(k & v & Hr & ->)]; [by left|]. right.
      apply lookup_insert_Some in Hr as [[<- <-]|[_ Hr]]; [done|].
      by rewrite lookup_empty in Hr. }
  destruct (agrees_run fuel ops _ _ Hag) as (c & es & Hrun & Hagc & Hfuelc).
  { done. }
  { cbn [length offs]. change (esize sentinel) with 4. unfold esize, blen in *.
    cbn [e e_key e_val]. lia. }
  { cbn [length]. lia. }
  exists c. split.
  - cbn [c_run c_step]. unfold c_Add, c_new. cbn [tree Ref].
    rewrite Hrun1. cbn [mbind result_bind]. exact Hrun.
  - intros k Hkne. by apply (agrees_Read fuel c es).
Qed.

(** * Trees of any height *)

(** ** Lists of entries *)

Lemma esize_ge e : 4 ≤ esize e.
Proof. unfold esize. pose proof (blen_nonneg (e_key e)). pose proof (blen_nonneg (e_val e)). lia. Qed.

Lemma offs_ge es : 4 * Z.of_nat (length es) ≤ offs es.
Proof.
  induction es as [|e es IH]; cbn [offs length]; [lia|].
  pose proof (esize_ge e). lia.
Qed.

Lemma offs_small es : Forall small es → 10 * Z.of_nat (length es) + offs es ≤ 128 * Z.of_nat (length es).
Proof.
  induction 1 as [|e es He _ IH]; cbn [offs length]; [lia|].
  unfold small in He. lia.
Qed.

Lemma node_size_app l1 l2 : node_size (l1 ++ l2) = node_size l1 + node_size l2 - HEADER.
Proof. unfold node_size. rewrite length_app, offs_app. lia. Qed.

Lemma node_size_cons e l : node_size (e :: l) = node_size l + 10 + esize e.
Proof. unfold node_size. cbn [length offs]. lia. Qed.

Lemma node_size_ge es : HEADER + 14 * Z.of_nat (length es) ≤ node_size es.
Proof. unfold node_size. pose proof (offs_ge es). lia. Qed.

Lemma node_size_count es lim : node_size es ≤ lim → lim ≤ 2 * BTREE_PAGE_SIZE → (length es < 600)%nat.
Proof. intros H Hl. pose proof (node_size_ge es). unfold HEADER, BTREE_PAGE_SIZE in *. lia. Qed.

(** The halves that [nodeSplit2] makes of a node of small entries that is
    over one page by at most one entry: both fit one page. *)
Lemma split_halves_fit es :
  Forall small es →
  BTREE_PAGE_SIZE < node_size es ≤ BTREE_PAGE_SIZE + 128 →
  let rn := (length es / 2)%nat in
  let ln := (length es - rn)%nat in
  node_size (take ln es) ≤ BTREE_PAGE_SIZE ∧ node_size (drop ln es) ≤ BTREE_PAGE_SIZE ∧
  (0 < ln < length es)%nat.
Proof.
  intros Hsm [Hlo Hhi] rn ln.
  pose proof (offs_small es Hsm) as Hup.
  pose proof (Nat.div_mod_eq (length es) 2) as Hdiv.
  pose proof (Nat.mod_upper_bound (length es) 2 ltac:(lia)) as Hmod.
  assert (32 ≤ length es)%nat as Hn.
  { unfold node_size, HEADER, BTREE_PAGE_SIZE in *. lia. }
  assert (16 ≤ rn ∧ 16 ≤ ln ∧ ln + rn = length es)%nat as (Hrn & Hln & Hsum).
  { subst rn ln. lia. }
  pose proof (node_size_ge (take ln es)) as Hl1.
  pose proof (node_size_ge (drop ln es)) as Hl2.
  pose proof (node_size_app (take ln es) (drop ln es)) as Happ.
  rewrite take_drop in Happ.
  rewrite length_take in Hl1. rewrite length_drop in Hl2.
  unfold HEADER, BTREE_PAGE_SIZE in *. lia.
Qed.

Lemma first_key_app l1 l2 k : first_key l1 = Some k → first_key (l1 ++ l2) = Some k.
Proof. by destruct l1. Qed.

Lemma first_key_nonempty l k : first_key l = Some k → l ≠ [].
Proof. by destruct l. Qed.

Lemma first_key_elem l k : first_key l = Some k → ∃ e, l !! 0%nat = Some e ∧ e_key e = k.
Proof. destruct l as [|e l]; [done|]. intros [= <-]. by exists e. Qed.

Lemma strictly_sorted_app l1 l2 :
  strictly_sorted (l1 ++ l2) ↔
  strictly_sorted l1 ∧ strictly_sorted l2 ∧
  ∀ a b, a ∈ l1 → b ∈ l2 → key_lt (e_key a) (e_key b).
Proof.
  split.
  - intros Hs. split; [|split].
    + intros i j ei ej Hij Hi Hj. apply (Hs i j); [done|..].
      * rewrite lookup_app_l; [done|]. by eapply lookup_lt_Some.
      * rewrite lookup_app_l; [done|]. by eapply lookup_lt_Some.
    + intros i j ei ej Hij Hi Hj.
      apply (Hs (length l1 + i)%nat (length l1 + j)%nat); [lia|..].
      * rewrite lookup_app_r by lia. by replace (length l1 + i - length l1)%nat with i by lia.
      * rewrite lookup_app_r by lia. by replace (length l1 + j - length l1)%nat with j by lia.
    + intros a b [i Hi]%list_elem_of_lookup_1 [j Hj]%list_elem_of_lookup_1.
      pose proof (lookup_lt_Some _ _ _ Hi) as Hlt.
      apply (Hs i (length l1 + j)%nat); [lia|..].
      * by rewrite lookup_app_l.
      * rewrite lookup_app_r by lia. by replace (length l1 + j - length l1)%nat with j by lia.
  - intros (H1 & H2 & H12) i j ei ej Hij Hi Hj.
    destruct (decide (i < length l1)%nat) as [Hil|Hil];
      destruct (decide (j < length l1)%nat) as [Hjl|Hjl].
    + rewrite lookup_app_l in Hi, Hj by done. exact (H1 i j ei ej Hij Hi Hj).
    + rewrite lookup_app_l in Hi by done. rewrite lookup_app_r in Hj by lia.
      apply H12; by eapply list_elem_of_lookup_2.
    + lia.
    + rewrite lookup_app_r in Hi, Hj by lia. eapply H2; [|exact Hi|exact Hj]. lia.
Qed.

Lemma strictly_sorted_first l k e :
  strictly_sorted l → first_key l = Some k → e ∈ l →
  e_key e = k ∨ key_lt k (e_key e).
Proof.
  intros Hs Hk [i Hi]%list_elem_of_lookup_1.
  destruct (first_key_elem _ _ Hk) as (e0 & H0 & <-).
  destruct i as [|i]; [left; rewrite H0 in Hi; by injection Hi as <-|].
  right. apply (Hs 0%nat (S i)); [lia|done..].
Qed.

Lemma key_lt_le_trans a b c :
  key_lt a b → bytes_Compare b c ≤ 0 → key_lt a c.
Proof.
  unfold key_lt. intros H1 H2.
  destruct (Z.eq_dec (bytes_Compare b c) 0) as [E|E].
  - apply bytes_Compare_eq in E as <-. done.
  - apply (key_lt_trans a b c); [done|]. unfold key_lt. lia.
Qed.

(** ** The kids of a node *)

Section Kids.
Variable T : BNode → list entry → gmap Z BNode → Prop.

Lemma kids_at_nil_inv es m : kids_at T [] es m → es = [] ∧ m = ∅.
Proof. by inversion 1. Qed.

Lemma kids_at_first ks es m k :
  kids_at T ks es m → first_key ks = Some k → first_key es = Some k.
Proof.
  destruct 1 as [|k' ks kid part es m1 m2 _ Hfk]; [done|].
  intros [= <-]. by apply first_key_app.
Qed.

Lemma kids_at_nonempty ks es m : kids_at T ks es m → ks ≠ [] → es ≠ [].
Proof.
  destruct 1 as [|k' ks kid part es m1 m2 _ Hfk]; [done|].
  intros _ Hnil. apply app_eq_nil in Hnil as [-> _]. done.
Qed.

Lemma kids_at_app ks1 es1 m1 ks2 es2 m2 :
  kids_at T ks1 es1 m1 → kids_at T ks2 es2 m2 → m1 ##ₘ m2 →
  kids_at T (ks1 ++ ks2) (es1 ++ es2) (m1 ∪ m2).
Proof.
  induction 1 as [|k ks kid part es ma mb Hv Hfk HT Hks IH Ha Hb Hab]; intros H2 Hd.
  { by rewrite (left_id_L ∅ (∪)). }
  apply map_disjoint_insert_l in Hd as [Hp Hd].
  apply map_disjoint_union_l in Hd as [Hda Hdb].
  cbn [app]. rewrite <- (assoc_L (++)), <- insert_union_l, <- (assoc_L (∪)).
  constructor; try done.
  - by apply IH.
  - apply lookup_union_None. done.
  - apply map_disjoint_union_r. done.
Qed.

Lemma kids_at_split ks1 : ∀ ks2 es m,
  kids_at T (ks1 ++ ks2) es m →
  ∃ es1 es2 m1 m2, es = es1 ++ es2 ∧ m = m1 ∪ m2 ∧ m1 ##ₘ m2 ∧
                   kids_at T ks1 es1 m1 ∧ kids_at T ks2 es2 m2.
Proof.
  induction ks1 as [|k ks1 IH]; intros ks2 es m H.
  { exists [], es, ∅, m. rewrite (left_id_L ∅ (∪)).
    split; [done|]. split; [done|]. split; [apply map_disjoint_empty_l|].
    split; [constructor|done]. }
  cbn [app] in H. inversion H as [|k' ks' kid part es' ma mb Hv Hfk HT Hks Ha Hb Hab]; subst.
  destruct (IH _ _ _ Hks) as (es1 & es2 & m1 & m2 & -> & -> & Hd & H1 & H2).
  apply lookup_union_None in Hb as [Hb1 Hb2].
  apply map_disjoint_union_r in Hab as [Hab1 Hab2].
  exists (part ++ es1), es2, (<[e_ptr k := kid]> (ma ∪ m1)), m2.
  split; [by rewrite (assoc_L (++))|]. split.
  { by rewrite <- insert_union_l, (assoc_L (∪)). }
  split.
  { apply map_disjoint_insert_l. split; [done|]. by apply map_disjoint_union_l. }
  split; [|done]. by constructor.
Qed.

(** The kid at one index, with what lies left and right of it. *)
Lemma kids_at_lookup ks es m (i : nat) k :
  kids_at T ks es m → ks !! i = Some k →
  ∃ pre part post mpre mk mpost kid,
    es = pre ++ part ++ post ∧
    kids_at T (take i ks) pre mpre ∧ kids_at T (drop (S i) ks) post mpost ∧
    T kid part mk ∧ e_val k = [] ∧ first_key part = Some (e_key k) ∧
    m = mpre ∪ (<[e_ptr k := kid]> (mk ∪ mpost)) ∧
    mk !! e_ptr k = None ∧ mpost !! e_ptr k = None ∧ mpre !! e_ptr k = None ∧
    mk ##ₘ mpost ∧ mpre ##ₘ mk ∧ mpre ##ₘ mpost.
Proof.
  intros H Hi. rewrite <- (take_drop_middle ks i k Hi) in H.
  destruct (kids_at_split _ _ _ _ H) as (pre & rest & mpre & mrest & -> & -> & Hd & Hpre & Hrest).
  inversion Hrest as [|k' ks' kid part post mk mpost Hv Hfk HT Hks Ha Hb Hab]; subst.
  apply map_disjoint_insert_r in Hd as [Hp Hd].
  apply map_disjoint_union_r in Hd as [Hd1 Hd2].
  exists pre, part, post, mpre, mk, mpost, kid. done.
Qed.

Lemma kids_at_keys ks es m k :
  kids_at T ks es m → k ∈ ks → ∃ e, e ∈ es ∧ e_key e = e_key k.
Proof.
  induction 1 as [|k' ks kid part es ma mb Hv Hfk HT Hks IH Ha Hb Hab].
  { by intros ?%elem_of_nil. }
  intros [->|Hin]%elem_of_cons.
  - destruct (first_key_elem _ _ Hfk) as (e & He & Hk).
    exists e. split; [|done]. apply elem_of_app. left. by eapply list_elem_of_lookup_2.
  - destruct (IH Hin) as (e & He & Hk). exists e. split; [|done].
    apply elem_of_app. by right.
Qed.

(** The keys of the kids are in order when the keys of the leaves are. *)
Lemma kids_at_sorted ks es m :
  kids_at T ks es m → strictly_sorted es → strictly_sorted ks.
Proof.
  induction 1 as [|k ks kid part es ma mb Hv Hfk HT Hks IH Ha Hb Hab]; intros Hs.
  { intros i j ei ej _ Hi. by rewrite lookup_nil in Hi. }
  apply strictly_sorted_app in Hs as (Hs1 & Hs2 & H12).
  change (k :: ks) with ([k] ++ ks). apply strictly_sorted_app.
  split; [|split; [by apply IH|]].
  - intros i j ei ej Hij Hi Hj. destruct i, j; try lia; done.
  - intros a b ->%list_elem_of_singleton Hb'.
    destruct (kids_at_keys _ _ _ _ Hks Hb') as (e & He & <-).
    destruct (first_key_elem _ _ Hfk) as (e0 & He0 & <-).
    apply H12; [by eapply list_elem_of_lookup_2|done].
Qed.

Lemma kids_at_small ks es m :
  kids_at T ks es m → Forall small es → Forall small ks.
Proof.
  induction 1 as [|k ks kid part es ma mb Hv Hfk HT Hks IH Ha Hb Hab]; intros Hsm.
  { constructor. }
  apply Forall_app in Hsm as [Hsm1 Hsm2]. constructor; [|by apply IH].
  destruct (first_key_elem _ _ Hfk) as (e0 & He0 & Hk).
  pose proof (proj1 (Forall_lookup _ _) Hsm1 _ _ He0) as H0.
  unfold small, esize in *. rewrite Hv, <- Hk.
  pose proof (blen_nonneg (e_val e0)). change (blen []) with 0. lia.
Qed.

End Kids.

(** ** Which kid a key belongs to *)

Lemma key_lt_flip a b : 0 < bytes_Compare a b → key_lt b a.
Proof. unfold key_lt. rewrite (bytes_Compare_antisym a b). lia. Qed.

(** The index that [nodeLookupLE] gives in an internal node splits the
    entries below into those of the kids left of it, which are under the
    key, those of the kid, and those of the kids right of it, which are
    above the key. *)
Lemma descend T node ks es m key fuel :
  repr node BNODE_NODE ks → kids_at T ks es m → strictly_sorted es → es ≠ [] →
  (length ks ≤ fuel)%nat →
  ∃ (i : nat) k pre part post mpre mk mpost kid,
    nodeLookupLE fuel node key = Ok (Z.of_nat i) ∧ ks !! i = Some k ∧
    getPtr node (Z.of_nat i) = Ok (e_ptr k) ∧
    es = pre ++ part ++ post ∧
    kids_at T (take i ks) pre mpre ∧ kids_at T (drop (S i) ks) post mpost ∧
    T kid part mk ∧ e_val k = [] ∧ first_key part = Some (e_key k) ∧
    m = mpre ∪ (<[e_ptr k := kid]> (mk ∪ mpost)) ∧
    mk !! e_ptr k = None ∧ mpost !! e_ptr k = None ∧ mpre !! e_ptr k = None ∧
    mk ##ₘ mpost ∧ mpre ##ₘ mk ∧ mpre ##ₘ mpost ∧
    (∀ e, e ∈ pre → key_lt (e_key e) key) ∧
    (∀ e, e ∈ post → key_lt key (e_key e)) ∧
    (pre = [] ∨ bytes_Compare (e_key k) key ≤ 0).
Proof.
  intros Hrepr Hkids Hs Hne Hfuel. pose proof Hrepr as [_ Hf].
  assert (ks ≠ []) as Hkne.
  { intros ->. by apply kids_at_nil_inv in Hkids as [-> _]. }
  pose proof (strictly_sorted_sorted _ (kids_at_sorted _ _ _ _ Hkids Hs)) as Hsk.
  destruct (nodeLookupLE_spec node BNODE_NODE ks key Hrepr Hsk fuel Hkne Hfuel)
    as (i & Hrun & Hi & Hlow & Hhigh).
  destruct (lookup_lt_is_Some_2 ks i Hi) as [k Hk].
  destruct (kids_at_lookup _ _ _ _ _ _ Hkids Hk)
    as (pre & part & post & mpre & mk & mpost & kid & -> & Hpre & Hpost & HT & Hv & Hfk
        & -> & Hmk & Hmpost & Hmpre & Hd1 & Hd2 & Hd3).
  apply strictly_sorted_app in Hs as (Hspre & Hs & H12).
  apply strictly_sorted_app in Hs as (Hspart & Hspost & H23).
  destruct (first_key_elem _ _ Hfk) as (e0 & He0 & Hk0).
  exists i, k, pre, part, post, mpre, mk, mpost, kid.
  repeat (split; [done|]).
  split; [exact (filled_getPtr _ _ _ Hf _ _ Hk)|].
  repeat (split; [done|]).
  assert (pre = [] ∨ bytes_Compare (e_key k) key ≤ 0) as Hcase.
  { destruct i as [|i].
    - left. rewrite take_0 in Hpre. by apply kids_at_nil_inv in Hpre as [-> _].
    - right. apply (Hlow (S i) k); [lia|done]. }
  split; [|split; [|done]].
  - intros e He. destruct Hcase as [->|Hle]; [by apply elem_of_nil in He|].
    apply (key_lt_le_trans _ (e_key k)); [|done]. rewrite <- Hk0.
    apply H12; [done|]. apply elem_of_app. left. by eapply list_elem_of_lookup_2.
  - intros e He.
    destruct (drop (S i) ks) as [|k1 rest] eqn:Hdrop.
    { apply kids_at_nil_inv in Hpost as [-> _]. by apply elem_of_nil in He. }
    assert (ks !! S i = Some k1) as Hk1.
    { rewrite <- (Nat.add_0_r (S i)), <- lookup_drop, Hdrop. done. }
    pose proof (kids_at_first _ _ _ _ (e_key k1) Hpost eq_refl) as Hf1.
    pose proof (key_lt_flip _ _ (Hhigh (S i) k1 ltac:(lia) Hk1)) as Hlt.
    destruct (strictly_sorted_first _ _ _ Hspost Hf1 He) as [->|Hgt]; [done|].
    by eapply key_lt_trans.
Qed.

(** ** Reading *)

Lemma pt_get_owned (s : PageTable) (m : gmap Z BNode) p node :
  m ⊆ pages s → m !! p = Some node → pt_get s p = Ok node.
Proof.
  intros Hsub Hp. unfold pt_get. by rewrite (lookup_weaken _ _ _ _ Hp Hsub).
Qed.

Lemma treeRead_tree h : ∀ lim node es m (s : PageTable) fuel,
  tree_at h lim node es m → lim ≤ 2 * BTREE_PAGE_SIZE → m ⊆ pages s →
  strictly_sorted es → es ≠ [] → (h + 600 ≤ fuel)%nat →
  (∀ e, e ∈ es → treeRead pt_get fuel s node (e_key e) = Ok (e_val e, true)) ∧
  (∀ key, (∀ e, e ∈ es → e_key e ≠ key) →
     treeRead pt_get fuel s node key = Ok ([], false)).
Proof.
  induction h as [|h IH]; intros lim node es m s fuel Ht Hlim Hsub Hs Hne Hfuel.
  { destruct Ht as (Hrepr & Hsz & _).
    pose proof (node_size_count _ _ Hsz Hlim) as Hcount. split.
    - intros e [i Hi]%list_elem_of_lookup_1.
      apply (treeRead_leaf_present pt_get node es Hrepr Hs fuel s i e Hi). lia.
    - intros key Habs.
      apply (treeRead_leaf_absent pt_get node es Hrepr Hs fuel s key Hne Habs). lia. }
  destruct Ht as (ks & Hrepr & Hsz & Hkids).
  pose proof (node_size_count _ _ Hsz Hlim) as Hcount.
  destruct fuel as [|fuel]; [lia|].
  assert (∀ key, ∃ part kid mk,
            (∀ e, e ∈ es → e_key e = key → e ∈ part) ∧
            (∀ e, e ∈ part → e ∈ es) ∧ part ≠ [] ∧ strictly_sorted part ∧
            tree_at h BTREE_PAGE_SIZE kid part mk ∧ mk ⊆ pages s ∧
            treeRead pt_get (S fuel) s node key = treeRead pt_get fuel s kid key)
    as Hstep.
  { intros key.
    destruct (descend _ node ks es m key (S fuel) Hrepr Hkids Hs Hne ltac:(lia))
      as (i & k & pre & part & post & mpre & mk & mpost & kid & Hrun & Hk & Hptr & Hes
          & _ & _ & HT & _ & Hfk & Hm & Hmk & Hmpost & Hmpre & Hd1 & Hd2 & Hd3
          & Hlo & Hhi & _).
    exists part, kid, mk.
    assert (m !! e_ptr k = Some kid) as Hp.
    { rewrite Hm. rewrite lookup_union_r by done. apply lookup_insert_eq. }
    assert (mk ⊆ m) as Hmksub.
    { rewrite Hm. etrans; [|apply map_union_subseteq_r].
      - etrans; [apply (map_union_subseteq_l mk mpost)|].
        apply insert_subseteq. by apply lookup_union_None.
      - apply map_disjoint_insert_r. split; [done|]. by apply map_disjoint_union_r. }
    subst es. apply strictly_sorted_app in Hs as (_ & Hs & _).
    apply strictly_sorted_app in Hs as (Hspart & _ & _).
    split; [|split; [|split; [|split; [|split; [|split]]]]].
    - intros e He Hkey. apply elem_of_app in He as [He|He].
      { specialize (Hlo e He). rewrite Hkey in Hlo. by apply key_lt_irrefl in Hlo. }
      apply elem_of_app in He as [He|He]; [done|].
      specialize (Hhi e He). rewrite Hkey in Hhi. by apply key_lt_irrefl in Hhi.
    - intros e He. apply elem_of_app. right. apply elem_of_app. by left.
    - by eapply first_key_nonempty.
    - done.
    - done.
    - by etrans.
    - cbn [treeRead]. rewrite Hrun. cbn [mbind result_bind].
      destruct Hrepr as [Hbt _]. rewrite Hbt. cbn [mbind result_bind].
      change (BNODE_NODE =? BNODE_LEAF) with false.
      change (BNODE_NODE =? BNODE_NODE) with true. cbn match.
      rewrite Hptr. cbn [mbind result_bind].
      by rewrite (pt_get_owned s m _ kid Hsub Hp). }
  split.
  - intros e He.
    destruct (Hstep (e_key e)) as (part & kid & mk & Hin & _ & Hpne & Hsp & Hkid & Hmk & ->).
    destruct (IH BTREE_PAGE_SIZE kid part mk s fuel Hkid) as [Hpres _];
      [unfold BTREE_PAGE_SIZE; lia|done|done|done|lia|].
    apply Hpres. by apply Hin.
  - intros key Habs.
    destruct (Hstep key) as (part & kid & mk & _ & Hin & Hpne & Hsp & Hkid & Hmk & ->).
    destruct (IH BTREE_PAGE_SIZE kid part mk s fuel Hkid) as [_ Hmiss];
      [unfold BTREE_PAGE_SIZE; lia|done|done|done|lia|].
    apply Hmiss. intros e He. apply Habs. by apply Hin.
Qed.

(** ** Splitting a node that is over one page by one small entry *)

Lemma nodeSplit3_two node bt es :
  repr node bt es → 0 ≤ bt < 65536 → Forall small es →
  BTREE_PAGE_SIZE < node_size es ≤ BTREE_PAGE_SIZE + 128 →
  let ln := (length es - length es / 2)%nat in
  ∃ left right,
    nodeSplit3 node = Ok (2, (left, right, empty_node)) ∧
    repr left bt (take ln es) ∧ repr right bt (drop ln es) ∧
    node_size (take ln es) ≤ BTREE_PAGE_SIZE ∧
    node_size (drop ln es) ≤ BTREE_PAGE_SIZE ∧ (0 < ln < length es)%nat.
Proof.
  intros Hrepr Hbt Hsm Hsz ln. pose proof Hrepr as [_ Hf].
  destruct (split_halves_fit es Hsm Hsz) as (Hl & Hr & Hln). fold ln in Hl, Hr, Hln.
  assert (length (drop ln es) = (length es / 2)%nat) as Hrn.
  { rewrite length_drop. subst ln.
    pose proof (Nat.div_mod_eq (length es) 2).
    pose proof (Nat.mod_upper_bound (length es) 2 ltac:(lia)). lia. }
  assert (length (take ln es) = ln) as Hlen by (rewrite length_take; lia).
  destruct (nodeSplit2_halves (make (2 * BTREE_PAGE_SIZE)) (make BTREE_PAGE_SIZE)
              node bt es Hrepr Hbt)
    as (left & right & Hrun & Hrl & Hrr & Hll & Hlr).
  { unfold node_size in Hsz. lia. }
  { done. } { done. } { done. } { done. }
  { fold ln. unfold node_size in Hl. rewrite Hlen in Hl.
    change (len (make (2 * BTREE_PAGE_SIZE))) with (2 * BTREE_PAGE_SIZE).
    unfold BTREE_PAGE_SIZE in *. lia. }
  { fold ln. unfold node_size in Hr. rewrite Hrn in Hr. exact Hr. }
  fold ln in Hrl, Hrr.
  exists (mkBNode (arr left) BTREE_PAGE_SIZE), right.
  pose proof Hrl as [_ Hfl].
  destruct (filled_bounds _ _ _ Hfl) as (_ & _ & _ & Hcapl & _).
  change (len (make (2 * BTREE_PAGE_SIZE))) with (2 * BTREE_PAGE_SIZE) in Hll.
  split; [|split; [|done]].
  - unfold nodeSplit3. rewrite (filled_nbytes _ _ _ Hf eq_refl). cbn [mbind result_bind].
    fold (node_size es).
    replace (node_size es <=? BTREE_PAGE_SIZE) with false by zbool.
    rewrite Hrun. cbn [mbind result_bind].
    rewrite (filled_nbytes _ _ _ Hfl eq_refl). cbn [mbind result_bind].
    fold (node_size (take ln es)).
    replace (node_size (take ln es) <=? BTREE_PAGE_SIZE) with true by zbool.
    unfold reslice.
    replace (cap left <? BTREE_PAGE_SIZE) with false
      by (unfold BTREE_PAGE_SIZE in *; zbool).
    done.
  - apply repr_reslice; [done|exact Hl| |done].
    unfold BTREE_PAGE_SIZE in *. lia.
Qed.

(** ** Putting kids into a node *)

Lemma length_kid_entries kids : ∀ a, length (kid_entries a kids) = length kids.
Proof. induction kids as [|[kid k] kids IH]; intros a; cbn; [done|]. by rewrite IH. Qed.

Lemma kid_pages_free kids : ∀ a pg p,
  a + Z.of_nat (length kids) ≤ p → kid_pages a kids pg !! p = pg !! p.
Proof.
  induction kids as [|[kid k] kids IH]; intros a pg p Hp; cbn [kid_pages]; [done|].
  cbn [length] in Hp. rewrite IH by lia. apply lookup_insert_ne. lia.
Qed.

Lemma kid_pages_below kids : ∀ a pg p,
  p < a → kid_pages a kids pg !! p = pg !! p.
Proof.
  induction kids as [|[kid k] kids IH]; intros a pg p Hp; cbn [kid_pages]; [done|].
  rewrite IH by lia. apply lookup_insert_ne. lia.
Qed.

Lemma append_kids_spec kids : ∀ (s : PageTable) new N cur idx i,
  Forall storable kids →
  filled new N cur → Z.of_nat (length cur) = idx + i → 0 ≤ idx → 0 ≤ i →
  Z.of_nat (length cur + length kids) ≤ N →
  HEADER + 10 * N + offs cur + offs (kid_entries (next_addr s) kids) ≤ len new →
  (∀ p, next_addr s ≤ p → pages s !! p = None) → 0 ≤ next_addr s →
  next_addr s + Z.of_nat (length kids) ≤ 2 ^ 64 →
  ∃ new',
    append_kids pt_new s new idx kids.*1 i =
      Ok (new', mkPageTable (kid_pages (next_addr s) kids (pages s))
                  (next_addr s + Z.of_nat (length kids))) ∧
    filled new' N (cur ++ kid_entries (next_addr s) kids) ∧
    btype new' = btype new ∧ len new' = len new ∧ cap new' = cap new.
Proof.
  induction kids as [|[kid k] kids IH];
    intros s new N cur idx i Hst Hf Hpos Hidx Hi HN Hfit Hfree Ha Hmax.
  { exists new. cbn [fmap list_fmap append_kids kid_pages kid_entries length].
    rewrite Z.add_0_r, app_nil_r. destruct s. done. }
  apply Forall_cons in Hst as [(bt & own & Hrk & Hfk & Hszk) Hst].
  cbn [fst snd] in Hrk, Hfk. cbn [length] in HN, Hmax.
  cbn [kid_entries offs] in Hfit.
  set (a := next_addr s) in *. set (e := mkEntry a k []) in *.
  destruct (filled_bounds _ _ _ Hf) as (HN0 & _ & Hsz & Hcap & Hlen).
  pose proof (offs_nonneg cur) as Hoc.
  pose proof (offs_nonneg (kid_entries (a + 1) kids)) as Hok.
  pose proof (esize_ge e) as Hes.
  cbn [fmap list_fmap fst append_kids].
  change (pt_new s kid) with (pt_new s kid).
  rewrite (pt_new_Ok s kid bt own Hrk Hszk) by (apply Hfree; lia).
  cbn [mbind result_bind]. fold a.
  destruct (first_key_elem _ _ Hfk) as (e0 & He0 & Hk0).
  destruct Hrk as [_ Hfkid].
  pose proof (filled_getKey _ _ _ Hfkid 0%nat e0 He0) as Hkey.
  change (Z.of_nat 0) with 0 in Hkey. rewrite Hkey, Hk0. cbn [mbind result_bind].
  replace (u16 (idx + u16 i)) with (Z.of_nat (length cur))
    by (unfold HEADER in *; wrap_lia).
  destruct (filled_append new N cur e Hf) as (Hrun & Hf' & Hb');
    [lia|cbn [e e_ptr]; lia|lia|].
  cbn [e e_ptr e_key e_val] in Hrun. rewrite Hrun. cbn [mbind result_bind].
  set (new1 := mkBNode (appended (arr new) N (Z.of_nat (length cur)) (offs cur) e)
                 (len new)) in *.
  set (s1 := mkPageTable (<[a := kid]> (pages s)) (a + 1)).
  destruct (IH s1 new1 N (cur ++ [e]) idx (i + 1) Hst Hf') as (new' & Hrun' & Hf'' & Hb'' & Hl'' & Hc'').
  { rewrite length_app. cbn [length]. lia. }
  { done. } { lia. }
  { rewrite length_app. cbn [length]. lia. }
  { rewrite offs_app. cbn [offs s1 next_addr new1 len]. lia. }
  { intros p Hp. cbn [s1 next_addr pages] in *. rewrite lookup_insert_ne by lia.
    apply Hfree. lia. }
  { cbn [s1 next_addr]. lia. }
  { cbn [s1 next_addr]. lia. }
  exists new'. cbn [s1 next_addr pages] in Hrun', Hf''.
  split.
  { rewrite Hrun'. cbn [kid_pages length].
    by replace (a + Z.of_nat (S (length kids))) with (a + 1 + Z.of_nat (length kids)) by lia. }
  split.
  { cbn [kid_entries]. by rewrite <- (assoc_L (++)) in Hf''. }
  split; [by rewrite Hb''|]. split; [by rewrite Hl''|].
  rewrite Hc''. unfold cap. cbn [new1 arr]. by rewrite length_appended.
Qed.

(** [nodeReplaceKidN]: the kid at [idx] gives way to the new kids, which
    get the next free pages. *)
Lemma nodeReplaceKidN_spec (s : PageTable) old ks (idx : nat) kids :
  repr old BNODE_NODE ks → (idx < length ks)%nat → kids ≠ [] →
  Forall storable kids →
  node_size (take idx ks ++ kid_entries (next_addr s) kids ++ drop (S idx) ks)
    ≤ 2 * BTREE_PAGE_SIZE →
  (∀ p, next_addr s ≤ p → pages s !! p = None) → 0 ≤ next_addr s →
  next_addr s + Z.of_nat (length kids) ≤ 2 ^ 64 →
  ∃ new',
    nodeReplaceKidN pt_new s (make (2 * BTREE_PAGE_SIZE)) old (Z.of_nat idx) kids.*1 =
      Ok (new', mkPageTable (kid_pages (next_addr s) kids (pages s))
                  (next_addr s + Z.of_nat (length kids))) ∧
    repr new' BNODE_NODE
      (take idx ks ++ kid_entries (next_addr s) kids ++ drop (S idx) ks) ∧
    cap new' = 2 * BTREE_PAGE_SIZE.
Proof.
  intros Hold Hidx Hkne Hst Hsz Hfree Ha Hmax.
  pose proof Hold as [_ Hfo].
  pose proof (filled_nkeys _ _ _ Hfo) as Hno.
  pose proof (repr_small _ _ _ Hold) as Hsmall.
  set (kes := kid_entries (next_addr s) kids) in *.
  assert (length kes = length kids) as Hlk by apply length_kid_entries.
  assert (0 < length kids)%nat as Hkpos by (destruct kids; [done|cbn; lia]).
  assert (length (take idx ks) = idx) as Hlt by (rewrite length_take; lia).
  assert (length (drop (S idx) ks) = (length ks - S idx)%nat) as Hld by apply length_drop.
  set (N := Z.of_nat (length ks) + Z.of_nat (length kids) - 1).
  assert (Z.of_nat (length (take idx ks ++ kes ++ drop (S idx) ks)) = N) as HlenN.
  { rewrite !length_app, Hlt, Hlk, Hld. subst N. lia. }
  pose proof (offs_nonneg (take idx ks)) as Ho1.
  pose proof (offs_nonneg kes) as Ho2.
  pose proof (offs_nonneg (drop (S idx) ks)) as Ho3.
  unfold node_size in Hsz. rewrite HlenN, !offs_app in Hsz.
  unfold nodeReplaceKidN. rewrite Hno. cbn [mbind result_bind].
  rewrite length_fmap.
  replace (u16 (u16 (Z.of_nat (length ks) + u16 (Z.of_nat (length kids))) - 1)) with N
    by (subst N; unfold HEADER, BTREE_PAGE_SIZE in *; wrap_lia).
  destruct (filled_setHeader (make (2 * BTREE_PAGE_SIZE)) BNODE_NODE N)
    as (n0 & Hset & Hf0 & Hb0 & Hl0 & Hc0);
    [done|done|done|lia|
     change (len (make (2 * BTREE_PAGE_SIZE))) with (2 * BTREE_PAGE_SIZE);
     unfold HEADER, BTREE_PAGE_SIZE in *; lia|].
  rewrite Hset. cbn [mbind result_bind].
  change (len (make (2 * BTREE_PAGE_SIZE))) with (2 * BTREE_PAGE_SIZE) in Hl0.
  change (cap (make (2 * BTREE_PAGE_SIZE))) with (2 * BTREE_PAGE_SIZE) in Hc0.
  destruct (filled_append_range n0 N [] old BNODE_NODE ks 0 idx Hf0 Hold)
    as (n1 & Hrun1 & Hf1 & Hb1 & Hl1 & Hc1).
  { lia. } { cbn [length]. lia. }
  { rewrite drop_0. cbn [offs]. rewrite Hl0. unfold HEADER, BTREE_PAGE_SIZE in *. lia. }
  cbn [length app] in Hrun1, Hf1. rewrite drop_0 in Hf1.
  change (Z.of_nat 0) with 0 in Hrun1. rewrite Hrun1. cbn [mbind result_bind].
  destruct (append_kids_spec kids s n1 N (take idx ks) (Z.of_nat idx) 0 Hst Hf1)
    as (n2 & Hrun2 & Hf2 & Hb2 & Hl2 & Hc2).
  { lia. } { lia. } { lia. } { lia. }
  { fold kes. rewrite Hl1, Hl0. unfold HEADER, BTREE_PAGE_SIZE in *. lia. }
  { done. } { done. } { done. }
  rewrite Hrun2. cbn [mbind result_bind].
  fold kes in Hf2.
  replace (u16 (Z.of_nat idx + u16 (Z.of_nat (length kids))))
    with (Z.of_nat (length (take idx ks ++ kes)))
    by (rewrite length_app, Hlt, Hlk; unfold HEADER, BTREE_PAGE_SIZE in *; wrap_lia).
  replace (u16 (Z.of_nat idx + 1)) with (Z.of_nat (S idx))
    by (unfold HEADER, BTREE_PAGE_SIZE in *; wrap_lia).
  replace (u16 (Z.of_nat (length ks) - Z.of_nat (S idx)))
    with (Z.of_nat (length ks - S idx))
    by (unfold HEADER, BTREE_PAGE_SIZE in *; wrap_lia).
  destruct (filled_append_range n2 N (take idx ks ++ kes) old BNODE_NODE ks
              (S idx) (length ks - S idx) Hf2 Hold)
    as (n3 & Hrun3 & Hf3 & Hb3 & Hl3 & Hc3).
  { lia. }
  { rewrite length_app, Hlt, Hlk. lia. }
  { rewrite (take_ge (drop (S idx) ks)) by lia. rewrite offs_app, Hl2, Hl1, Hl0.
    unfold HEADER, BTREE_PAGE_SIZE in *. lia. }
  rewrite (take_ge (drop (S idx) ks)) in Hf3 by lia.
  rewrite Hrun3. cbn [mbind result_bind].
  exists n3. split; [done|]. split.
  - split; [by rewrite Hb3, Hb2, Hb1|].
    rewrite <- (assoc_L (++)) in Hf3. by rewrite HlenN.
  - by rewrite Hc3, Hc2, Hc1.
Qed.

(** ** The root of a tree *)

Lemma tree_at_below h lim node es m :
  tree_at h lim node es m ↔
  ∃ bt own, repr node bt own ∧ node_size own ≤ lim ∧ below h bt own es m.
Proof.
  destruct h as [|h]; cbn [tree_at below]; split.
  - intros (Hr & Hsz & ->). by exists BNODE_LEAF, es.
  - intros (bt & own & Hr & Hsz & -> & -> & ->). done.
  - intros (ks & Hr & Hsz & Hk). by exists BNODE_NODE, ks.
  - intros (bt & own & Hr & Hsz & -> & Hk). by exists own.
Qed.

Lemma below_bt h bt own es m : below h bt own es m → 0 ≤ bt < 65536.
Proof. destruct h; intros [-> _]; done. Qed.

Lemma below_first_key h bt own es m :
  below h bt own es m → first_key own = first_key es.
Proof.
  destruct h as [|h]; cbn [below].
  - by intros (_ & -> & _).
  - intros [_ Hk]. destruct own as [|k own].
    + by apply kids_at_nil_inv in Hk as [-> _].
    + symmetry. by eapply kids_at_first.
Qed.

Lemma below_small h bt own es m :
  below h bt own es m → Forall small es → Forall small own.
Proof.
  destruct h as [|h]; cbn [below].
  - by intros (_ & -> & _).
  - intros [_ Hk]. by eapply kids_at_small.
Qed.

Lemma below_split h bt own es m (ln : nat) :
  below h bt own es m →
  ∃ es1 es2 m1 m2, es = es1 ++ es2 ∧ m = m1 ∪ m2 ∧ m1 ##ₘ m2 ∧
    below h bt (take ln own) es1 m1 ∧ below h bt (drop ln own) es2 m2.
Proof.
  destruct h as [|h]; cbn [below].
  - intros (-> & <- & ->). exists (take ln own), (drop ln own), ∅, ∅.
    rewrite take_drop, (left_id_L ∅ (∪)).
    split; [done|]. split; [done|]. split; [apply map_disjoint_empty_l|done].
  - intros [-> Hk]. rewrite <- (take_drop ln own) in Hk.
    destruct (kids_at_split _ _ _ _ _ Hk) as (es1 & es2 & m1 & m2 & ? & ? & ? & ? & ?).
    by exists es1, es2, m1, m2.
Qed.

Lemma tree_at_storable h node es m k :
  tree_at h BTREE_PAGE_SIZE node es m → first_key es = Some k → storable (node, k).
Proof.
  intros (bt & own & Hr & Hsz & Hb)%tree_at_below Hk.
  exists bt, own. cbn [fst snd]. split; [done|]. split; [|done].
  by rewrite (below_first_key _ _ _ _ _ Hb).
Qed.

(** ** The pages of a tree among the pages of the table *)

Lemma owned_below (m : gmap Z BNode) (pg : gmap Z BNode) (a p : Z) :
  m ⊆ pg → (∀ q, a ≤ q → pg !! q = None) → is_Some (m !! p) → p < a.
Proof.
  intros Hsub Hfree [x Hx]. destruct (Z_lt_le_dec p a) as [|Hle]; [done|].
  pose proof (lookup_weaken _ _ _ _ Hx Hsub) as Hp.
  rewrite (Hfree p Hle) in Hp. done.
Qed.

Lemma kid_pages_sub kids a (m pg : gmap Z BNode) :
  m ⊆ pg → (∀ q, a ≤ q → pg !! q = None) → m ⊆ kid_pages a kids pg.
Proof.
  intros Hsub Hfree. apply map_subseteq_spec. intros p x Hp.
  rewrite kid_pages_below; [by eapply lookup_weaken|].
  eapply owned_below; [exact Hsub|exact Hfree|by eexists].
Qed.

Lemma disjoint_fresh (m1 m2 : gmap Z BNode) :
  (∀ p, is_Some (m1 !! p) → m2 !! p = None) → m1 ##ₘ m2.
Proof.
  intros H. apply map_disjoint_alt. intros p.
  destruct (m1 !! p) eqn:E; [right|by left]. apply H. by rewrite E.
Qed.

(** What [nodeSplit3] gives for the node that an insertion returns: one or
    two nodes that can be stored, with the entries of the kids and the
    pages below split between them. *)
Lemma split_kids h knode part m (pg : gmap Z BNode) (a : Z) k1 :
  tree_at h (BTREE_PAGE_SIZE + 128) knode part m → first_key part = Some k1 →
  Forall small part → BTREE_PAGE_SIZE ≤ cap knode →
  m ⊆ pg → (∀ p, a ≤ p → pg !! p = None) →
  ∃ nsplit split kds mnew,
    nodeSplit3 knode = Ok (nsplit, split) ∧ split_prefix nsplit split = kds.*1 ∧
    nsplit = Z.of_nat (length kds) ∧ (1 ≤ length kds ≤ 2)%nat ∧
    Forall storable kds ∧
    kids_at (tree_at h BTREE_PAGE_SIZE) (kid_entries a kds) part mnew ∧
    mnew ⊆ kid_pages a kds pg ∧
    (∀ p, is_Some (mnew !! p) →
       is_Some (m !! p) ∨ a ≤ p < a + Z.of_nat (length kds)) ∧
    10 * Z.of_nat (length kds) + offs (kid_entries a kds) ≤ 14 + blen k1 + 128 ∧
    (length kds = 1%nat →
       ∃ n1, kds = [(n1, k1)] ∧ tree_at h BTREE_PAGE_SIZE n1 part m).
Proof.
  intros Ht Hk1 Hsm Hcap Hsub Hfree.
  pose proof Ht as (bt & own & Hr & Hsz & Hb)%tree_at_below.
  pose proof (below_bt _ _ _ _ _ Hb) as Hbt.
  pose proof (below_small _ _ _ _ _ Hb Hsm) as Hsmo.
  pose proof (below_first_key _ _ _ _ _ Hb) as Hfo.
  pose proof (blen_nonneg k1) as Hk1pos.
  assert (∀ p, is_Some (m !! p) → p < a) as Hma.
  { intros p Hp. by eapply owned_below. }
  destruct (Z_le_gt_dec (node_size own) BTREE_PAGE_SIZE) as [Hfit|Hover].
  - destruct (nodeSplit3_fits knode bt own Hr Hfit Hcap) as [Hrun Hr1].
    set (n1 := mkBNode (arr knode) BTREE_PAGE_SIZE) in *.
    assert (tree_at h BTREE_PAGE_SIZE n1 part m) as Ht1.
    { apply tree_at_below. by exists bt, own. }
    assert (m !! a = None) as Hna.
    { apply (lookup_weaken_None _ pg); [apply Hfree; lia|done]. }
    exists 1, (n1, empty_node, empty_node), [(n1, k1)], (<[a := n1]> (m ∪ ∅)).
    split; [done|]. split; [done|]. split; [done|]. split; [cbn; lia|].
    split; [constructor; [by eapply tree_at_storable|constructor]|].
    split.
    { cbn [kid_entries]. rewrite <- (app_nil_r part) at 1.
      constructor; try done; [constructor|apply map_disjoint_empty_r]. }
    split.
    { cbn [kid_pages]. rewrite (right_id_L ∅ (∪)). by apply insert_mono. }
    split.
    { intros p [->|Hp]%lookup_insert_is_Some'; [right; cbn [length]; lia|].
      left. by rewrite (right_id_L ∅ (∪)) in Hp. }
    split; [|intros _; by exists n1].
    cbn [length kid_entries offs]. unfold esize. cbn [e_key e_val].
    change (blen []) with 0. lia.
  - destruct (nodeSplit3_two knode bt own Hr Hbt Hsmo ltac:(lia))
      as (left & right & Hrun & Hrl & Hrr & Hszl & Hszr & Hln).
    set (ln := (length own - length own / 2)%nat) in *.
    destruct (below_split _ _ _ _ _ ln Hb)
      as (es1 & es2 & m1 & m2 & -> & -> & Hd & Hb1 & Hb2).
    pose proof (below_first_key _ _ _ _ _ Hb1) as Hf1.
    pose proof (below_first_key _ _ _ _ _ Hb2) as Hf2.
    assert (first_key (take ln own) = Some k1) as Hk1'.
    { rewrite <- Hk1, <- Hfo. destruct own as [|o own]; [cbn in Hln; lia|].
      destruct ln; [lia|done]. }
    destruct (first_key (drop ln own)) as [k2|] eqn:Hk2.
    2:{ destruct (drop ln own) eqn:Hdr; [|done].
        apply (f_equal length) in Hdr. rewrite length_drop in Hdr. cbn in Hdr. lia. }
    rewrite Hk1' in Hf1. symmetry in Hf1, Hf2.
    assert (tree_at h BTREE_PAGE_SIZE left es1 m1) as Htl.
    { apply tree_at_below. by exists bt, (take ln own). }
    assert (tree_at h BTREE_PAGE_SIZE right es2 m2) as Htr.
    { apply tree_at_below. by exists bt, (drop ln own). }
    assert (10 + 4 + blen k2 ≤ 128) as Hsmall2.
    { destruct (first_key_elem _ _ Hf2) as (e2 & He2 & <-).
      apply Forall_app in Hsm as [_ Hsm2].
      pose proof (proj1 (Forall_lookup _ _) Hsm2 _ _ He2) as H2.
      unfold small, esize in H2. pose proof (blen_nonneg (e_val e2)). lia. }
    assert (m1 !! a = None ∧ m2 !! a = None ∧ m1 !! (a + 1) = None ∧ m2 !! (a + 1) = None)
      as (Hna1 & Hna2 & Hnb1 & Hnb2).
    { assert (∀ q, a ≤ q → m1 !! q = None ∧ m2 !! q = None) as Hq.
      { intros q Hq. apply lookup_union_None.
        apply (lookup_weaken_None _ pg); [by apply Hfree|done]. }
      destruct (Hq a ltac:(lia)), (Hq (a + 1) ltac:(lia)). done. }
    exists 2, (left, right, empty_node), [(left, k1); (right, k2)],
      (<[a := left]> (m1 ∪ <[a + 1 := right]> (m2 ∪ ∅))).
    split; [done|]. split; [done|]. split; [done|]. split; [cbn; lia|].
    split.
    { constructor; [by eapply tree_at_storable|].
      constructor; [by eapply tree_at_storable|constructor]. }
    rewrite (right_id_L ∅ (∪)).
    split.
    { cbn [kid_entries]. constructor; try done.
      - rewrite <- (app_nil_r es2), <- (right_id_L ∅ (∪) m2).
        constructor; try done; [constructor|apply map_disjoint_empty_r].
      - cbn [e_ptr]. apply lookup_insert_None. split; [done|lia].
      - apply map_disjoint_insert_r. done. }
    split.
    { cbn [kid_pages]. apply map_subseteq_spec. intros p x Hp.
      apply lookup_insert_Some in Hp as [[<- <-]|[Hne Hp]].
      { rewrite lookup_insert_ne by lia. apply lookup_insert_eq. }
      apply lookup_union_Some_raw in Hp as [Hp|[_ Hp]].
      { assert (p < a) by (apply Hma; rewrite lookup_union_is_Some; left; by eexists).
        rewrite !lookup_insert_ne by lia.
        apply (lookup_weaken _ _ _ _ Hp). etrans; [|exact Hsub].
        apply map_union_subseteq_l. }
      apply lookup_insert_Some in Hp as [[<- <-]|[Hne' Hp]]; [apply lookup_insert_eq|].
      rewrite !lookup_insert_ne by done.
      apply (lookup_weaken _ _ _ _ Hp). etrans; [|exact Hsub].
      by apply map_union_subseteq_r. }
    split.
    { intros p [->|Hp]%lookup_insert_is_Some'; [right; cbn [length]; lia|].
      apply lookup_union_is_Some in Hp as [Hp|Hp].
      { left. apply lookup_union_is_Some. by left. }
      apply lookup_insert_is_Some' in Hp as [<-|Hp]; [right; cbn [length]; lia|].
      left. apply lookup_union_is_Some. by right. }
    split; [|intros Hone; cbn in Hone; lia].
    cbn [length kid_entries offs]. unfold esize. cbn [e_key e_val].
    change (blen []) with 0. lia.
Qed.

Lemma family_maps (mpre mk mpost : gmap Z BNode) p kid :
  mk !! p = None → mpost !! p = None → mpre !! p = None →
  mk ##ₘ mpost → mpre ##ₘ mk → mpre ##ₘ mpost →
  let m := mpre ∪ (<[p := kid]> (mk ∪ mpost)) in
  m !! p = Some kid ∧ mk ⊆ m ∧ mpre ⊆ m ∧ mpost ⊆ m ∧
  (∀ q, m !! q = None ↔
     mpre !! q = None ∧ p ≠ q ∧ mk !! q = None ∧ mpost !! q = None).
Proof.
  intros Hmk Hmpost Hmpre Hd1 Hd2 Hd3 m.
  assert (mpre ##ₘ <[p := kid]> (mk ∪ mpost)) as Hd.
  { apply map_disjoint_insert_r. split; [done|]. by apply map_disjoint_union_r. }
  assert ((mk ∪ mpost) !! p = None) as Hn by (by apply lookup_union_None).
  split; [|split; [|split; [|split]]].
  - subst m. rewrite lookup_union_r by done. apply lookup_insert_eq.
  - subst m. etrans; [|by apply map_union_subseteq_r].
    etrans; [apply (map_union_subseteq_l mk mpost)|]. by apply insert_subseteq.
  - apply map_union_subseteq_l.
  - subst m. etrans; [|by apply map_union_subseteq_r].
    etrans; [by apply (map_union_subseteq_r mk mpost)|]. by apply insert_subseteq.
  - intros q. subst m. rewrite lookup_union_None, lookup_insert_None, lookup_union_None.
    tauto.
Qed.

(** ** Insertion below a node *)

Lemma first_key_insert l1 l2 e k :
  l1 ≠ [] → first_key (l1 ++ l2) = Some k → first_key (l1 ++ e :: l2) = Some k.
Proof. by destruct l1. Qed.

Lemma treeInsert_tree h : ∀ node es m (s : PageTable) fuel key val k0,
  tree_at h BTREE_PAGE_SIZE node es m → m ⊆ pages s →
  strictly_sorted es → Forall small es →
  first_key es = Some k0 → key_lt k0 key → (∀ e, e ∈ es → e_key e ≠ key) →
  small (mkEntry 0 key val) → (h + 600 ≤ fuel)%nat →
  0 < next_addr s → (∀ p, next_addr s ≤ p → pages s !! p = None) →
  next_addr s + 2 * Z.of_nat h ≤ 2 ^ 64 →
  ∃ new s' m' l1 l2,
    treeInsert pt_get pt_new pt_del fuel s node key val = Ok (new, s') ∧
    tree_at h (BTREE_PAGE_SIZE + 128) new (l1 ++ mkEntry 0 key val :: l2) m' ∧
    es = l1 ++ l2 ∧ l1 ≠ [] ∧ strictly_sorted (l1 ++ mkEntry 0 key val :: l2) ∧
    cap new = 2 * BTREE_PAGE_SIZE ∧
    m' ⊆ pages s' ∧
    (∀ p, is_Some (m' !! p) → is_Some (m !! p) ∨ next_addr s ≤ p) ∧
    (∀ p, m !! p = None → p < next_addr s → pages s' !! p = pages s !! p) ∧
    next_addr s ≤ next_addr s' ≤ next_addr s + 2 * Z.of_nat h ∧
    (∀ p, next_addr s' ≤ p → pages s' !! p = None).
Proof.
  induction h as [|h IH];
    intros node es m s fuel key val k0 Ht Hsub Hs Hsm Hk0 Hlt Habs Hsme Hfuel Ha Hfree Hmax.
  { destruct Ht as (Hrepr & Hsz & ->).
    destruct (first_key_elem _ _ Hk0) as (e0 & He0 & <-).
    pose proof (node_size_count es _ Hsz ltac:(unfold BTREE_PAGE_SIZE; lia)) as Hcount.
    destruct (treeInsert_leaf_fresh pt_get pt_new pt_del node es Hrepr Hs fuel s
                key val e0 He0 Hlt Habs)
      as (new & n & Hrun & Hn & Hrn & Hsn & Hcap).
    { lia. }
    { unfold node_size, small in *. unfold HEADER, BTREE_PAGE_SIZE in *. lia. }
    exists new, s, ∅, (take n es), (drop n es).
    split; [done|]. split.
    { split; [done|]. split; [|done].
      rewrite node_size_app, node_size_cons. fold (node_size (drop n es)).
      pose proof (node_size_app (take n es) (drop n es)) as Happ.
      rewrite take_drop in Happ. unfold small in Hsme. lia. }
    split; [by rewrite take_drop|]. split.
    { intros Hnil. apply (f_equal length) in Hnil. rewrite length_take in Hnil.
      cbn in Hnil. lia. }
    split; [done|]. split; [done|]. split; [apply map_empty_subseteq|].
    split; [intros p [x Hx]; by rewrite lookup_empty in Hx|].
    split; [done|]. split; [lia|done]. }
  destruct Ht as (ks & Hrepr & Hsz & Hkids).
  pose proof (node_size_count ks _ Hsz ltac:(unfold BTREE_PAGE_SIZE; lia)) as Hcount.
  pose proof (first_key_nonempty _ _ Hk0) as Hne.
  destruct fuel as [|fuel]; [lia|].
  destruct (descend _ node ks es m key (S fuel) Hrepr Hkids Hs Hne ltac:(lia))
    as (i & k & pre & part & post & mpre & mk & mpost & kid & Hrun & Hk & Hptr & Hes
        & Hkpre & Hkpost & HT & Hv & Hfk & Hm & Hmk & Hmpost & Hmpre & Hd1 & Hd2 & Hd3
        & Hlo & Hhi & Hcase).
  destruct (family_maps mpre mk mpost (e_ptr k) kid Hmk Hmpost Hmpre Hd1 Hd2 Hd3)
    as (Hmkid & Hmksub & Hmpresub & Hmpostsub & Hnone).
  rewrite <- Hm in Hmkid, Hmksub, Hmpresub, Hmpostsub, Hnone.
  set (kptr := e_ptr k) in *. set (e := mkEntry 0 key val) in *.
  pose proof Hs as Hs0. rewrite Hes in Hs0.
  apply strictly_sorted_app in Hs0 as (Hspre & Hs0 & H12).
  apply strictly_sorted_app in Hs0 as (Hspart & Hspost & H23).
  pose proof Hsm as Hsm0. rewrite Hes in Hsm0.
  apply Forall_app in Hsm0 as [Hsmpre Hsm0]. apply Forall_app in Hsm0 as [Hsmpart Hsmpost].
  assert (∀ x, x ∈ part → x ∈ es) as Hpartin.
  { intros x Hx. rewrite Hes. apply elem_of_app. right. apply elem_of_app. by left. }
  assert (kptr < next_addr s) as Hkptr.
  { eapply (owned_below m); [exact Hsub|exact Hfree|by eexists]. }
  assert (key_lt (e_key k) key) as Hklt.
  { destruct Hcase as [->|Hle].
    - rewrite Hes in Hk0. cbn [app] in Hk0.
      rewrite (first_key_app _ _ _ Hfk) in Hk0. by injection Hk0 as ->.
    - destruct (first_key_elem _ _ Hfk) as (e0 & He0 & Hke0).
      assert (e_key e0 ≠ key) as Hneq
        by (apply Habs, Hpartin; by eapply list_elem_of_lookup_2).
      unfold key_lt. destruct (Z.eq_dec (bytes_Compare (e_key k) key) 0) as [E|E]; [|lia].
      apply bytes_Compare_eq in E. congruence. }
  destruct (IH kid part mk s fuel key val (e_key k) HT) as
    (knode & s1 & mk' & l1 & l2 & Hrun1 & Ht1 & Hpart & Hl1 & Hs1 & Hcap1 & Hsub1
     & Hnew1 & Hframe1 & Haddr1 & Hfree1).
  { by etrans. } { done. } { done. } { done. } { done. }
  { intros x Hx. by apply Habs, Hpartin. }
  { done. } { lia. } { done. } { done. } { lia. }
  fold e in Ht1, Hs1.
  set (part' := l1 ++ e :: l2) in *.
  assert (first_key part' = Some (e_key k)) as Hfk'.
  { apply first_key_insert; [done|]. by rewrite <- Hpart. }
  assert (Forall small part') as Hsmpart'.
  { rewrite Hpart in Hsmpart. apply Forall_app in Hsmpart as [? ?].
    apply Forall_app. split; [done|]. by constructor. }
  assert (mk' !! kptr = None) as Hmk'.
  { destruct (mk' !! kptr) eqn:E; [|done].
    destruct (Hnew1 kptr ltac:(by rewrite E)) as [[? Hx]|Hx]; [congruence|lia]. }
  assert (pages s1 !! kptr = Some kid) as Hs1kptr.
  { rewrite (Hframe1 kptr Hmk Hkptr). by eapply lookup_weaken. }
  set (pg := delete kptr (pages s1)).
  set (a := next_addr s1) in *.
  assert (∀ p, a ≤ p → pg !! p = None) as Hfreepg.
  { intros p Hp. apply lookup_delete_None. right. by apply Hfree1. }
  assert (mk' ⊆ pg) as Hsubpg.
  { apply map_subseteq_spec. intros p x Hx. apply lookup_delete_Some. split.
    - intros <-. congruence.
    - by eapply lookup_weaken. }
  assert (∀ mf : gmap Z BNode, mf ⊆ m → mf ##ₘ mk → mf !! kptr = None → mf ⊆ pg) as Hframe.
  { intros mf Hmf Hdf Hnf. apply map_subseteq_spec. intros p x Hx.
    apply lookup_delete_Some. split; [intros <-; congruence|].
    rewrite Hframe1.
    - eapply lookup_weaken; [exact Hx|]. by etrans.
    - by eapply map_disjoint_Some_l.
    - eapply (owned_below mf (pages s)); [by etrans|exact Hfree|by eexists]. }
  destruct (split_kids h knode part' mk' pg a (e_key k) Ht1 Hfk' Hsmpart')
    as (nsplit & split & kds & mnew & Hsplit & Hprefix & Hnsplit & Hlen & Hstor & Hknew
        & Hnewsub & Hnewdom & Hnewsz & _).
  { rewrite Hcap1. unfold BTREE_PAGE_SIZE. lia. } { done. } { done. }
  set (kes := kid_entries a kds) in *.
  set (s2 := mkPageTable pg a).
  assert (length (take i ks) = i) as Hlti
    by (rewrite length_take; apply lookup_lt_Some in Hk; lia).
  pose proof (lookup_lt_Some _ _ _ Hk) as Hilt.
  assert (node_size (take i ks ++ kes ++ drop (S i) ks) ≤ BTREE_PAGE_SIZE + 128) as Hsz'.
  { pose proof (take_drop_middle ks i k Hk) as Hmid.
    pose proof (f_equal node_size Hmid) as Hns.
    rewrite node_size_app, node_size_cons in Hns.
    rewrite !node_size_app. unfold node_size at 2.
    assert (length kes = length kds) as -> by apply length_kid_entries.
    unfold esize in Hns. rewrite Hv in Hns. change (blen []) with 0 in Hns.
    unfold HEADER in *. lia. }
  destruct (nodeReplaceKidN_spec s2 node ks i kds Hrepr Hilt)
    as (new' & Hrun3 & Hrepr' & Hcap').
  { intros ->. cbn in Hlen. lia. }
  { done. }
  { cbn [s2 next_addr]. fold kes. unfold BTREE_PAGE_SIZE in *. lia. }
  { done. } { cbn [s2 next_addr]. lia. } { cbn [s2 next_addr]. lia. }
  cbn [s2 next_addr pages] in Hrun3, Hrepr'. fold kes in Hrepr'.
  set (s3 := mkPageTable (kid_pages a kds pg) (a + Z.of_nat (length kds))) in *.
  assert (∀ mf : gmap Z BNode, mf ⊆ m → mf ##ₘ mk →
            ∀ p, is_Some (mnew !! p) → mf !! p = None) as Hfresh.
  { intros mf Hmf Hdf p Hp. destruct (mf !! p) eqn:E; [|done]. exfalso.
    assert (p < next_addr s) as Hpa.
    { eapply (owned_below mf (pages s)); [by etrans|exact Hfree|by eexists]. }
    destruct (Hnewdom p Hp) as [Hin|Hin]; [|lia].
    destruct (Hnew1 p Hin) as [[y Hy]|Hge]; [|lia].
    pose proof (map_disjoint_Some_l _ _ _ _ Hdf E) as Hn. congruence. }
  exists new', s3, (mpre ∪ (mnew ∪ mpost)), (pre ++ l1), (l2 ++ post).
  assert ((pre ++ l1) ++ e :: l2 ++ post = pre ++ part' ++ post) as Hshape.
  { subst part'. by rewrite <- !(assoc_L (++)). }
  rewrite Hshape.
  split.
  { cbn [treeInsert]. rewrite Hrun. cbn [mbind result_bind].
    destruct Hrepr as [Hbt _]. rewrite Hbt. cbn [mbind result_bind].
    change (BNODE_NODE =? BNODE_LEAF) with false.
    change (BNODE_NODE =? BNODE_NODE) with true. cbn match.
    unfold nodeInsert. rewrite Hptr. cbn [mbind result_bind]. fold kptr.
    rewrite (pt_get_owned s m kptr kid Hsub Hmkid). cbn [mbind result_bind].
    rewrite Hrun1. cbn [mbind result_bind]. rewrite Hsplit. cbn [mbind result_bind].
    unfold pt_del at 1. rewrite bool_decide_eq_true_2 by (by rewrite Hs1kptr).
    cbn [Assert mbind result_bind]. fold pg. fold a. fold s2.
    rewrite Hprefix. exact Hrun3. }
  split.
  { exists (take i ks ++ kes ++ drop (S i) ks). split; [done|]. split; [done|].
    apply kids_at_app; [done| |].
    - apply kids_at_app; [done|done|].
      apply map_disjoint_sym, disjoint_fresh. intros p Hx.
      destruct (mnew !! p) eqn:E; [|done].
      rewrite (Hfresh mpost Hmpostsub (map_disjoint_sym _ _ Hd1) p) in Hx by (by rewrite E).
      by destruct Hx.
    - apply map_disjoint_union_r. split; [|done].
      apply disjoint_fresh. intros p Hx.
      destruct (mnew !! p) eqn:E; [|done].
      rewrite (Hfresh mpre Hmpresub Hd2 p) in Hx by (by rewrite E).
      by destruct Hx. }
  split; [rewrite Hes, Hpart; by rewrite <- !(assoc_L (++))|].
  split; [intros Hnil; apply app_eq_nil in Hnil as [_ Hnil]; by apply Hl1|].
  split.
  { apply strictly_sorted_app. split; [done|]. split.
    - apply strictly_sorted_app. split; [done|]. split; [done|].
      intros x y Hx Hy. subst part'.
      apply elem_of_app in Hx as [Hx|[->|Hx]%elem_of_cons].
      + apply H23; [|done]. rewrite Hpart. apply elem_of_app. by left.
      + by apply Hhi.
      + apply H23; [|done]. rewrite Hpart. apply elem_of_app. by right.
    - intros x y Hx Hy. apply elem_of_app in Hy as [Hy|Hy].
      + subst part'. apply elem_of_app in Hy as [Hy|[->|Hy]%elem_of_cons].
        * apply H12; [done|]. apply elem_of_app. left. rewrite Hpart.
          apply elem_of_app. by left.
        * by apply Hlo.
        * apply H12; [done|]. apply elem_of_app. left. rewrite Hpart.
          apply elem_of_app. by right.
      + apply H12; [done|]. apply elem_of_app. by right. }
  split; [done|].
  split.
  { cbn [s3 pages]. apply map_union_least; [|apply map_union_least].
    - apply kid_pages_sub; [|done]. by apply Hframe.
    - done.
    - apply kid_pages_sub; [|done]. apply Hframe; [done|by apply map_disjoint_sym|done]. }
  split.
  { intros p Hx. apply lookup_union_is_Some in Hx as [Hx|Hx].
    { left. destruct Hx as [x Hx]. exists x. by eapply lookup_weaken. }
    apply lookup_union_is_Some in Hx as [Hx|Hx].
    - destruct (Hnewdom p Hx) as [Hin|Hin]; [|right; lia].
      destruct (Hnew1 p Hin) as [[y Hy]|Hge]; [|by right].
      left. exists y. by eapply lookup_weaken.
    - left. destruct Hx as [x Hx]. exists x. by eapply lookup_weaken. }
  split.
  { intros p Hpn Hpa. apply Hnone in Hpn as (_ & Hpk & Hpmk & _).
    cbn [s3 pages]. rewrite kid_pages_below by lia.
    unfold pg. rewrite lookup_delete_ne by done. by apply Hframe1. }
  split; [cbn [s3 next_addr]; lia|].
  intros p Hx. cbn [s3 next_addr pages] in *. rewrite kid_pages_free by done.
  apply Hfreepg. lia.
Qed.

(** ** [Insert] on a tree of any height *)

Lemma C_Insert_tree fuel t h es key val k0 :
  btree_at t h es → strictly_sorted es → Forall small es →
  first_key es = Some k0 → key_lt k0 key → (∀ e, e ∈ es → e_key e ≠ key) →
  small (mkEntry 0 key val) → (h + 600 ≤ fuel)%nat →
  next_addr (store t) + 2 * Z.of_nat h + 3 ≤ 2 ^ 64 →
  ∃ t' h' l1 l2,
    C_Insert fuel t key val = Ok t' ∧
    btree_at t' h' (l1 ++ mkEntry 0 key val :: l2) ∧
    es = l1 ++ l2 ∧ l1 ≠ [] ∧ strictly_sorted (l1 ++ mkEntry 0 key val :: l2) ∧
    (h' = h ∨ h' = S h) ∧
    next_addr (store t') ≤ next_addr (store t) + 2 * Z.of_nat h + 3.
Proof.
  intros (Hroot & Ha & Hfree & node & m & Hnode & Hmroot & Ht & Hsub)
    Hs Hsm Hk0 Hlt Habs Hsme Hfuel Hmax.
  set (s := store t) in *. set (r := root t) in *.
  assert (r < next_addr s) as Hr.
  { destruct (Z_lt_le_dec r (next_addr s)) as [|Hle]; [done|].
    rewrite (Hfree r Hle) in Hnode. done. }
  destruct (treeInsert_tree h node es m s fuel key val k0 Ht Hsub Hs Hsm Hk0 Hlt Habs
              Hsme Hfuel Ha Hfree ltac:(lia))
    as (new & s1 & m' & l1 & l2 & Hrun1 & Ht1 & Hes & Hl1 & Hs1 & Hcap1 & Hsub1
        & Hnew1 & Hframe1 & Haddr1 & Hfree1).
  set (e := mkEntry 0 key val) in *. set (es' := l1 ++ e :: l2) in *.
  assert (first_key es' = Some k0) as Hfk'.
  { apply first_key_insert; [done|]. by rewrite <- Hes. }
  assert (Forall small es') as Hsm'.
  { rewrite Hes in Hsm. apply Forall_app in Hsm as [? ?].
    apply Forall_app. split; [done|]. by constructor. }
  assert (m' !! r = None) as Hm'r.
  { destruct (m' !! r) eqn:E; [|done].
    destruct (Hnew1 r ltac:(by rewrite E)) as [[? Hx]|Hx]; [congruence|lia]. }
  assert (pages s1 !! r = Some node) as Hs1r by (by rewrite (Hframe1 r Hmroot Hr)).
  set (pg := delete r (pages s1)). set (a := next_addr s1) in *.
  assert (∀ p, a ≤ p → pg !! p = None) as Hfreepg.
  { intros p Hp. apply lookup_delete_None. right. by apply Hfree1. }
  assert (m' ⊆ pg) as Hsubpg.
  { apply map_subseteq_spec. intros p x Hx. apply lookup_delete_Some. split.
    - intros <-. congruence.
    - by eapply lookup_weaken. }
  destruct (split_kids h new es' m' pg a k0 Ht1 Hfk' Hsm')
    as (nsplit & split & kds & mnew & Hsplit & Hprefix & Hnsplit & Hlen & Hstor & Hknew
        & Hnewsub & Hnewdom & Hnewsz & Hone).
  { rewrite Hcap1. unfold BTREE_PAGE_SIZE. lia. } { done. } { done. }
  set (s2 := mkPageTable pg a).
  assert (C_Insert fuel t key val =
            (if 1 <? nsplit then
               rt ← setHeader (make BTREE_PAGE_SIZE) BNODE_NODE nsplit;
               '(rt, s) ← append_kids pt_new s2 rt 0 (split_prefix nsplit split) 0;
               '(p, s) ← pt_new s rt;
               Ok (mkBTree p s)
             else
               '(p, s) ← pt_new s2 (split.1.1);
               Ok (mkBTree p s))) as Hstart.
  { assert (pt_get s r = Ok node) as Hget by (unfold pt_get; by rewrite Hnode).
    unfold C_Insert, Insert. change (store t) with s. change (root t) with r.
    replace (r =? 0) with false by zbool.
    rewrite Hget. cbn [mbind result_bind].
    rewrite Hrun1. cbn [mbind result_bind]. rewrite Hsplit. cbn [mbind result_bind].
    unfold pt_del at 1. rewrite bool_decide_eq_true_2 by (by rewrite Hs1r).
    cbn [Assert mbind result_bind]. done. }
  rewrite Hstart. clear Hstart.
  assert (0 < a) as Hapos by lia.
  destruct (decide (length kds = 1%nat)) as [Hl|Hl].
  - destruct (Hone Hl) as (n1 & -> & Htn1).
    apply Forall_cons in Hstor as [(bt & own & Hrn & _ & Hszn) _]. cbn [fst] in Hrn.
    rewrite Hnsplit. cbn [length]. change (1 <? Z.of_nat 1) with false. cbn match.
    assert (split.1.1 = n1) as ->.
    { rewrite Hnsplit in Hprefix. destruct split as [[x y] z].
      cbn in Hprefix. by injection Hprefix as ->. }
    rewrite (pt_new_Ok s2 n1 bt own Hrn Hszn)
      by (apply Hfreepg; unfold s2; cbn [next_addr]; lia).
    cbn [mbind result_bind s2 next_addr pages].
    exists (mkBTree a (mkPageTable (<[a := n1]> pg) (a + 1))), h, l1, l2.
    split; [done|]. split.
    { unfold btree_at. cbn [root store next_addr pages].
      split; [lia|]. split; [lia|]. split.
      { intros p Hp. rewrite lookup_insert_ne by lia. apply Hfreepg. lia. }
      exists n1, m'. split; [apply lookup_insert_eq|].
      assert (pg !! a = None) as Hpga by (apply Hfreepg; lia).
      split; [by apply (lookup_weaken_None _ pg)|]. split; [done|].
      etrans; [exact Hsubpg|]. by apply insert_subseteq. }
    split; [done|]. split; [done|]. split; [done|]. split; [by left|].
    cbn [store next_addr]. lia.
  - assert (length kds = 2%nat) as Hl2 by lia.
    rewrite Hnsplit, Hl2. change (1 <? Z.of_nat 2) with true. cbn match.
    change (Z.of_nat 2) with 2 in *.
    set (kes := kid_entries a kds) in *.
    assert (length kes = 2%nat) as Hlk by (unfold kes; by rewrite length_kid_entries).
    assert (blen k0 ≤ 114) as Hk0small.
    { destruct (first_key_elem _ _ Hfk') as (e0 & He0 & <-).
      pose proof (proj1 (Forall_lookup _ _) Hsm' _ _ He0) as H0.
      unfold small, esize in H0. pose proof (blen_nonneg (e_val e0)). lia. }
    pose proof (offs_nonneg kes) as Hokes.
    assert (node_size kes ≤ BTREE_PAGE_SIZE) as Hszk.
    { unfold node_size. rewrite Hlk. rewrite Hl2 in Hnewsz.
      unfold HEADER, BTREE_PAGE_SIZE. lia. }
    destruct (filled_setHeader (make BTREE_PAGE_SIZE) BNODE_NODE 2)
      as (n0 & Hset & Hf0 & Hb0 & Hl0 & Hc0); [done..|].
    rewrite Hset. cbn [mbind result_bind]. rewrite Hnsplit, Hl2 in Hprefix.
    change (Z.of_nat 2) with 2 in Hprefix. rewrite Hprefix.
    change (len (make BTREE_PAGE_SIZE)) with BTREE_PAGE_SIZE in Hl0.
    destruct (append_kids_spec kds s2 n0 2 [] 0 0 Hstor Hf0)
      as (n2 & Hrun2 & Hf2 & Hb2 & Hl2' & Hc2).
    { done. } { lia. } { lia. } { cbn [length]. lia. }
    { cbn [offs s2 next_addr]. fold kes. rewrite Hl0.
      unfold node_size in Hszk. rewrite Hlk in Hszk. lia. }
    { done. } { cbn [s2 next_addr]. lia. } { cbn [s2 next_addr]. lia. }
    cbn [s2 next_addr pages app] in Hrun2, Hf2. fold kes in Hf2.
    rewrite Hl2 in Hrun2. change (Z.of_nat 2) with 2 in Hrun2.
    rewrite Hrun2. cbn [mbind result_bind].
    assert (repr n2 BNODE_NODE kes) as Hrn2.
    { split; [by rewrite Hb2|]. by rewrite Hlk. }
    set (s3 := mkPageTable (kid_pages a kds pg) (a + 2)) in *.
    assert (kid_pages a kds pg !! (a + 2) = None) as Hfree3.
    { rewrite kid_pages_free by lia. apply Hfreepg. lia. }
    rewrite (pt_new_Ok s3 n2 BNODE_NODE kes Hrn2 Hszk) by exact Hfree3.
    cbn [mbind result_bind s3 next_addr pages].
    exists (mkBTree (a + 2) (mkPageTable (<[a + 2 := n2]> (kid_pages a kds pg)) (a + 2 + 1))),
      (S h), l1, l2.
    split; [done|]. split.
    { unfold btree_at. cbn [root store next_addr pages].
      split; [lia|]. split; [lia|]. split.
      { intros p Hp. rewrite lookup_insert_ne by lia. rewrite kid_pages_free by lia.
        apply Hfreepg. lia. }
      exists n2, mnew. split; [apply lookup_insert_eq|]. split.
      { destruct (mnew !! (a + 2)) eqn:E; [|done]. exfalso.
        destruct (Hnewdom (a + 2) ltac:(by rewrite E)) as [Hin|Hin]; [|lia].
        pose proof (owned_below m' pg a (a + 2) Hsubpg Hfreepg Hin). lia. }
      split; [by exists kes|].
      etrans; [exact Hnewsub|]. by apply insert_subseteq. }
    split; [done|]. split; [done|]. split; [done|]. split; [by right|].
    cbn [store next_addr]. lia.
Qed.

(** ** [Read] on a tree of any height *)

Lemma C_Read_tree fuel t h es :
  btree_at t h es → strictly_sorted es → es ≠ [] → (h + 600 ≤ fuel)%nat →
  (∀ e, e ∈ es → C_Read fuel t (e_key e) = Ok (e_val e, true)) ∧
  (∀ key, (∀ e, e ∈ es → e_key e ≠ key) → C_Read fuel t key = Ok ([], false)).
Proof.
  intros (Hroot & Ha & Hfree & node & m & Hnode & Hmroot & Ht & Hsub) Hs Hne Hfuel.
  assert (pt_get (store t) (root t) = Ok node) as Hget
    by (unfold pt_get; by rewrite Hnode).
  destruct (treeRead_tree h BTREE_PAGE_SIZE node es m (store t) fuel Ht
              ltac:(unfold BTREE_PAGE_SIZE; lia) Hsub Hs Hne Hfuel) as [Hpres Hmiss].
  split.
  - intros e He. unfold C_Read, Read. replace (root t =? 0) with false by zbool.
    rewrite Hget. cbn [mbind result_bind]. by apply Hpres.
  - intros key Habs. unfold C_Read, Read. replace (root t =? 0) with false by zbool.
    rewrite Hget. cbn [mbind result_bind]. by apply Hmiss.
Qed.

(** ** A run of insertions *)

Lemma insert_all_tree fuel (H : nat) kvs : ∀ t h es,
  btree_at t h es → strictly_sorted es → Forall small es → first_key es = Some [] →
  NoDup kvs.*1 →
  (∀ k, k ∈ kvs.*1 → k ≠ [] ∧ ∀ e, e ∈ es → e_key e ≠ k) →
  Forall small (entry_of <$> kvs) →
  (h + length kvs ≤ H)%nat → (H + 600 ≤ fuel)%nat →
  next_addr (store t) + Z.of_nat (length kvs) * (2 * Z.of_nat H + 3) ≤ 2 ^ 64 →
  ∃ t' h' es',
    insert_all fuel t kvs = Ok t' ∧ btree_at t' h' es' ∧ strictly_sorted es' ∧
    (h' ≤ H)%nat ∧ es' ≠ [] ∧
    ∀ e, e ∈ es' ↔ e ∈ es ∨ e ∈ entry_of <$> kvs.
Proof.
  induction kvs as [|[k v] kvs IH];
    intros t h es Ht Hs Hsm Hfk Hnd Hkeys Hsmk HH Hfuel Hmax.
  { exists t, h, es. cbn [insert_all length fmap list_fmap] in *.
    split; [done|]. split; [done|]. split; [done|]. split; [lia|].
    split; [by eapply first_key_nonempty|].
    intros e. rewrite elem_of_nil. tauto. }
  cbn [fmap list_fmap fst length] in Hnd, Hkeys, Hsmk, HH, Hmax.
  apply NoDup_cons in Hnd as [Hk Hnd].
  apply Forall_cons in Hsmk as [Hsme Hsmk].
  change (entry_of (k, v)) with (mkEntry 0 k v) in Hsme.
  destruct (Hkeys k ltac:(left)) as [Hkne Hfresh].
  rewrite Nat2Z.inj_succ, Z.mul_succ_l in Hmax.
  assert (0 ≤ Z.of_nat (length kvs) * (2 * Z.of_nat H + 3)) as Hprod
    by (apply Z.mul_nonneg_nonneg; lia).
  destruct (C_Insert_tree fuel t h es k v [] Ht Hs Hsm Hfk)
    as (t1 & h1 & l1 & l2 & Hrun & Ht1 & Hes & Hl1 & Hs1 & Hh1 & Haddr1).
  { by apply key_lt_nil. } { done. } { done. } { lia. } { lia. }
  set (e := mkEntry 0 k v) in *. set (es1 := l1 ++ e :: l2) in *.
  assert (∀ x, x ∈ es1 ↔ x = e ∨ x ∈ es) as Hel1.
  { intros x. subst es1. rewrite Hes, !elem_of_app, elem_of_cons. tauto. }
  destruct (IH t1 h1 es1 Ht1 Hs1) as (t' & h' & es' & Hrun' & Ht' & Hs' & Hh' & Hne' & Hel').
  { rewrite Hes in Hsm. apply Forall_app in Hsm as [? ?].
    apply Forall_app. split; [done|]. by constructor. }
  { apply first_key_insert; [done|]. by rewrite <- Hes. }
  { done. }
  { intros k' Hk'. destruct (Hkeys k' ltac:(by right)) as [Hne'' Hfr']. split; [done|].
    intros x [->|Hx]%Hel1; [|by apply Hfr'].
    cbn [e e_key]. intros ->. done. }
  { done. } { lia. } { done. } { lia. }
  exists t', h', es'. cbn [insert_all]. rewrite Hrun. cbn [mbind result_bind].
  split; [done|]. split; [done|]. split; [done|]. split; [done|]. split; [done|].
  intros x. rewrite Hel', Hel1. cbn [fmap list_fmap]. rewrite elem_of_cons.
  change (entry_of (k, v)) with e. tauto.
Qed.

(** The first insertion takes the first page. *)
Lemma C_Insert_first_addr fuel key val t :
  C_Insert fuel NewC key val = Ok t → next_addr (store t) = 2.
Proof.
  unfold C_Insert, Insert. cbn [root store NewC]. change (0 =? 0) with true. cbn match.
  intros H.
  apply bind_Ok in H as (rt0 & _ & H).
  apply bind_Ok in H as (rt1 & _ & H).
  apply bind_Ok in H as (rt2 & _ & H).
  apply bind_Ok in H as ([p s] & Hnew & H). injection H as <-.
  unfold pt_new in Hnew.
  apply bind_Ok in Hnew as (sz & _ & Hnew).
  apply bind_Ok in Hnew as (? & _ & Hnew).
  apply bind_Ok in Hnew as (? & _ & Hnew).
  apply bind_Ok in Hnew as (? & _ & Hnew).
  injection Hnew as <- <-. done.
Qed.

Lemma leaf_tree_btree_at t es :
  leaf_tree t es → node_size es ≤ BTREE_PAGE_SIZE → btree_at t 0 es.
Proof.
  intros (Hroot & Ha & (node & Hnode & Hrepr) & Hfree) Hsz.
  split; [done|]. split; [done|]. split; [done|].
  exists node, ∅. split; [done|]. split; [done|]. split; [done|].
  apply map_empty_subseteq.
Qed.

(** ** Read-after-write for small entries *)

(** Read-after-write without a bound on the size of the tree: pairs with
    pairwise distinct, non-empty keys, each pair of at most 114 bytes of
    key and value together, are inserted in order into the empty tree over
    the test page table; every insertion returns, through all the splits
    of leaves and internal nodes and all the new root levels that the run
    brings, and afterwards [Read] gives every inserted pair its value and
    finds no other non-empty key. *)
Theorem read_after_write_small_entries fuel kvs :
  NoDup kvs.*1 → (∀ k, k ∈ kvs.*1 → k ≠ []) →
  (∀ k v, (k, v) ∈ kvs → blen k + blen v ≤ 114) →
  (length kvs + 600 ≤ fuel)%nat → Z.of_nat (length kvs) < 2 ^ 31 →
  ∃ t, insert_all fuel NewC kvs = Ok t ∧
    (∀ k v, (k, v) ∈ kvs → C_Read fuel t k = Ok (v, true)) ∧
    (∀ k, k ∉ kvs.*1 → k ≠ [] → C_Read fuel t k = Ok ([], false)).
Proof.
  intros Hnd Hkne Hsmall Hfuel Hcount.
  destruct kvs as [|[k v] kvs].
  { exists NewC. split; [done|]. split; [by intros k v ?%elem_of_nil|done]. }
  cbn [fmap list_fmap fst length] in Hnd, Hkne. cbn [length] in Hfuel, Hcount.
  apply NoDup_cons in Hnd as [Hk Hnd].
  set (e := mkEntry 0 k v).
  pose proof (Hsmall k v ltac:(left)) as Hsme.
  pose proof (blen_nonneg k) as Hbk. pose proof (blen_nonneg v) as Hbv.
  assert (small e) as Hse by (unfold small, esize; cbn [e e_key e_val]; lia).
  destruct (C_Insert_first fuel k v) as (t1 & Hrun1 & Ht1).
  { unfold esize. cbn [e_key e_val]. unfold HEADER, BTREE_PAGE_SIZE. lia. }
  fold e in Ht1.
  pose proof (C_Insert_first_addr _ _ _ _ Hrun1) as Haddr1.
  assert (btree_at t1 0 [sentinel; e]) as Hb1.
  { apply leaf_tree_btree_at; [done|]. unfold node_size. cbn [length offs].
    change (esize sentinel) with 4. unfold small in Hse.
    unfold HEADER, BTREE_PAGE_SIZE. lia. }
  assert (strictly_sorted [sentinel; e]) as Hs1.
  { intros i j ei ej Hij Hi Hj.
    destruct i as [|[|i]], j as [|[|j]]; try lia; try discriminate Hj.
    injection Hi as <-. injection Hj as <-. apply key_lt_nil. apply Hkne. by left. }
  destruct (insert_all_tree fuel (length kvs) kvs t1 0%nat [sentinel; e] Hb1 Hs1)
    as (t & h & es & Hrun & Ht & Hs & Hh & Hne & Hel).
  { constructor; [unfold small; change (esize sentinel) with 4; lia|].
    constructor; [done|constructor]. }
  { done. }
  { done. }
  { intros k' Hk'. split; [apply Hkne; by right|].
    intros x [-> | ->%list_elem_of_singleton]%elem_of_cons.
    - cbn [e_key sentinel]. intros <-. apply (Hkne []); [by right|reflexivity].
    - cbn [e e_key]. intros Heq. apply Hk. rewrite Heq. exact Hk'. }
  { apply Forall_fmap, Forall_forall. intros [k' v'] Hin. unfold small, esize.
    cbn [entry_of fst snd e_key e_val compose].
    pose proof (Hsmall k' v' ltac:(by right)). lia. }
  { lia. } { lia. }
  { rewrite Haddr1. nia. }
  exists t. split.
  { cbn [insert_all]. rewrite Hrun1. cbn [mbind result_bind]. exact Hrun. }
  clear Hrun1 Hrun Haddr1.
  destruct (C_Read_tree fuel t h es Ht Hs Hne ltac:(lia)) as [Hpres Hmiss].
  split.
  - intros k' v' Hin.
    apply (Hpres (mkEntry 0 k' v')). apply Hel.
    apply elem_of_cons in Hin as [[= -> ->]|Hin].
    + left. apply elem_of_cons. right. by apply list_elem_of_singleton.
    + right. apply list_elem_of_fmap. by exists (k', v').
  - intros k' Hnin Hk'. apply Hmiss. intros x [Hx|Hx]%Hel.
    + apply elem_of_cons in Hx as [-> | ->%list_elem_of_singleton].
      * cbn [e_key sentinel]. congruence.
      * cbn [e e_key]. intros ->. apply Hnin. cbn [fmap list_fmap fst]. by left.
    + apply list_elem_of_fmap in Hx as ([k'' v''] & -> & Hin).
      cbn [entry_of e_key fst]. intros ->. apply Hnin.
      cbn [fmap list_fmap fst]. right. apply list_elem_of_fmap. by exists (k', v'').
Qed.

(** ** The statements on trees of any height *)

(** [nodeSplit3] on a well-formed node of small entries that is at most
    one small entry over one page.  If it fits one page the result is the
    node itself, cut to one page.  If not, the result is two nodes, split
    by key count: the left one holds the first [n - n/2] entries, the
    right one the last [n/2], both of the kind of the input, both
    non-empty, and both fit one page. *)
Theorem nodeSplit3_small_entries node bt es :
  repr node bt es → 0 ≤ bt < 65536 → Forall small es →
  BTREE_PAGE_SIZE ≤ cap node → node_size es ≤ BTREE_PAGE_SIZE + 128 →
  let ln := (length es - length es / 2)%nat in
  (node_size es ≤ BTREE_PAGE_SIZE →
     ∃ n1, nodeSplit3 node = Ok (1, (n1, empty_node, empty_node)) ∧
           repr n1 bt es ∧ len n1 = BTREE_PAGE_SIZE) ∧
  (BTREE_PAGE_SIZE < node_size es →
     ∃ left right,
       nodeSplit3 node = Ok (2, (left, right, empty_node)) ∧
       repr left bt (take ln es) ∧ repr right bt (drop ln es) ∧
       node_size (take ln es) ≤ BTREE_PAGE_SIZE ∧
       node_size (drop ln es) ≤ BTREE_PAGE_SIZE ∧ (0 < ln < length es)%nat).
Proof.
  intros Hr Hbt Hsm Hcap Hsz ln. split.
  - intros Hfit. destruct (nodeSplit3_fits node bt es Hr Hfit Hcap) as [Hrun Hr1].
    eexists. split; [exact Hrun|]. split; [exact Hr1|done].
  - intros Hover. apply (nodeSplit3_two node bt es Hr Hbt Hsm). lia.
Qed.

(** [nodeReplaceKidN] into a fresh buffer of two pages: the entry at
    [idx] of the old internal node gives way to one entry per new kid,
    which carries the page number that [new] gave the kid, the kid's
    first key and no value; the entries left and right of it are copied
    in their order; and the kids are in the page table under the page
    numbers from [next_addr] on.  The kids are well-formed nodes of at
    most one page, and the new node has to fit the buffer. *)
Theorem nodeReplaceKidN_replaces (s : PageTable) old ks (idx : nat) kids :
  repr old BNODE_NODE ks → (idx < length ks)%nat → kids ≠ [] →
  Forall storable kids →
  node_size (take idx ks ++ kid_entries (next_addr s) kids ++ drop (S idx) ks)
    ≤ 2 * BTREE_PAGE_SIZE →
  (∀ p, next_addr s ≤ p → pages s !! p = None) → 0 ≤ next_addr s →
  next_addr s + Z.of_nat (length kids) ≤ 2 ^ 64 →
  ∃ new',
    nodeReplaceKidN pt_new s (make (2 * BTREE_PAGE_SIZE)) old (Z.of_nat idx) kids.*1 =
      Ok (new', mkPageTable (kid_pages (next_addr s) kids (pages s))
                  (next_addr s + Z.of_nat (length kids))) ∧
    repr new' BNODE_NODE
      (take idx ks ++ kid_entries (next_addr s) kids ++ drop (S idx) ks) ∧
    ∀ (j : nat) kid k, kids !! j = Some (kid, k) →
      kid_pages (next_addr s) kids (pages s) !! (next_addr s + Z.of_nat j) = Some kid.
Proof.
  intros Hold Hidx Hkne Hst Hsz Hfree Ha Hmax.
  destruct (nodeReplaceKidN_spec s old ks idx kids Hold Hidx Hkne Hst Hsz Hfree Ha Hmax)
    as (new' & Hrun & Hr & _).
  exists new'. split; [done|]. split; [done|].
  clear. generalize (next_addr s) as a. generalize (pages s) as pg.
  induction kids as [|[kid0 k0] kids IH]; intros pg a j kid k Hj; [done|].
  cbn [kid_pages]. destruct j as [|j].
  - injection Hj as -> ->. rewrite kid_pages_below by lia.
    rewrite Z.add_0_r. apply lookup_insert_eq.
  - cbn in Hj. rewrite <- (IH (<[a := kid0]> pg) (a + 1) j kid k Hj). f_equal. lia.
Qed.

(** [Read] on a well-formed tree of any height with strictly ordered
    keys: a key that an entry of a leaf holds is found with its value,
    every other key is not found. *)
Theorem Read_on_tree fuel t h es :
  btree_at t h es → strictly_sorted es → es ≠ [] → (h + 600 ≤ fuel)%nat →
  (∀ e, e ∈ es → C_Read fuel t (e_key e) = Ok (e_val e, true)) ∧
  (∀ key, (∀ e, e ∈ es → e_key e ≠ key) → C_Read fuel t key = Ok ([], false)).
Proof. apply C_Read_tree. Qed.

(** [Insert] of a new key into a well-formed tree of any height, all of
    whose entries are small and whose first key is below the new key:
    the call returns a well-formed tree of the same height or one level
    higher, whose leaves hold the old entries and the new one in key
    order; [Read] then finds the new key with its value and the old keys
    with theirs, and no other key. *)
Theorem Insert_on_tree fuel t h es key val k0 :
  btree_at t h es → strictly_sorted es → Forall small es →
  first_key es = Some k0 → key_lt k0 key → (∀ e, e ∈ es → e_key e ≠ key) →
  small (mkEntry 0 key val) → (S h + 600 ≤ fuel)%nat →
  next_addr (store t) + 2 * Z.of_nat h + 3 ≤ 2 ^ 64 →
  ∃ t' h' es',
    C_Insert fuel t key val = Ok t' ∧ btree_at t' h' es' ∧ (h' = h ∨ h' = S h) ∧
    strictly_sorted es' ∧ (∀ x, x ∈ es' ↔ x = mkEntry 0 key val ∨ x ∈ es) ∧
    C_Read fuel t' key = Ok (val, true) ∧
    (∀ e, e ∈ es → C_Read fuel t' (e_key e) = Ok (e_val e, true)) ∧
    (∀ k, k ≠ key → (∀ e, e ∈ es → e_key e ≠ k) → C_Read fuel t' k = Ok ([], false)).
Proof.
  intros Ht Hs Hsm Hfk Hlt Habs Hsme Hfuel Hmax.
  destruct (C_Insert_tree fuel t h es key val k0 Ht Hs Hsm Hfk Hlt Habs Hsme
              ltac:(lia) Hmax)
    as (t' & h' & l1 & l2 & Hrun & Ht' & Hes & Hl1 & Hs' & Hh' & _).
  set (e := mkEntry 0 key val) in *. set (es' := l1 ++ e :: l2) in *.
  assert (∀ x, x ∈ es' ↔ x = e ∨ x ∈ es) as Hel.
  { intros x. subst es'. rewrite Hes, !elem_of_app, elem_of_cons. tauto. }
  assert (es' ≠ []) as Hne by (subst es'; by destruct l1).
  destruct (C_Read_tree fuel t' h' es' Ht' Hs' Hne ltac:(lia)) as [Hpres Hmiss].
  exists t', h', es'. split; [done|]. split; [done|]. split; [done|].
  split; [done|]. split; [done|]. split; [|split].
  - apply (Hpres e). apply Hel. by left.
  - intros x Hx. apply Hpres. apply Hel. by right.
  - intros k Hk Hkabs. apply Hmiss. intros x [->|Hx]%Hel; [by cbn|by apply Hkabs].
Qed.

(** ** Leaves with given entries *)

(** Every list of entries without pointers that fits two pages is the
    content of some leaf: [leafInsert] builds it entry by entry. *)
Lemma leaf_exists es :
  Forall (λ e, e_ptr e = 0) es → node_size es ≤ 2 * BTREE_PAGE_SIZE →
  ∃ node, repr node BNODE_LEAF es ∧ cap node = 2 * BTREE_PAGE_SIZE.
Proof.
  induction es as [|e es IH] using rev_ind; intros Hp Hsz.
  { destruct (filled_setHeader (make (2 * BTREE_PAGE_SIZE)) BNODE_LEAF 0)
      as (n0 & _ & Hf0 & Hb0 & _ & Hc0); [done..|].
    exists n0. done. }
  apply Forall_app in Hp as [Hp He]. apply Forall_cons in He as [He _].
  rewrite node_size_app, node_size_cons in Hsz.
  pose proof (esize_ge e) as Hes. unfold node_size at 2 in Hsz. cbn [length offs] in Hsz.
  destruct (IH Hp) as (old & Hold & _); [unfold HEADER in *; lia|].
  destruct (leafInsert_repr (make (2 * BTREE_PAGE_SIZE)) old BNODE_LEAF es (length es)
              (e_key e) (e_val e) Hold)
    as (new & _ & Hnew & _ & Hcap); [lia|done|done| |].
  { change (len (make (2 * BTREE_PAGE_SIZE))) with (2 * BTREE_PAGE_SIZE).
    unfold node_size in Hsz. unfold esize in *. cbn [e_key e_val].
    unfold HEADER in *. lia. }
  exists new. split; [|done].
  rewrite firstn_all, drop_all in Hnew. destruct e as [p k v]. cbn in He. by subst p.
Qed.

(** ** Examples of the statements on the codec, the page table and the wrapper *)

(** A header written into eight zero bytes. *)
Lemma setHeader_round_trip_witness :
  (cap (make 8) < 4 → setHeader (make 8) 2 3 = Fatal SliceBounds) ∧
  (4 ≤ cap (make 8) →
     ∃ node', setHeader (make 8) 2 3 = Ok node' ∧
       btype node' = Ok 2 ∧ nkeys node' = Ok 3 ∧
       len node' = len (make 8) ∧ drop 4 (arr node') = drop 4 (arr (make 8))).
Proof. apply (setHeader_round_trip (make 8) 2 3); lia. Defined.

(** A node of three keys in 64 bytes: the pointer at index 1. *)
Lemma setPtr_getPtr_round_trip_witness :
  ∃ node, setHeader (make 64) 1 3 = Ok node ∧
    (1 < 3 →
       ∃ node', setPtr node 1 7 = Ok node' ∧ getPtr node' 1 = Ok 7 ∧
         nkeys node' = Ok 3 ∧ btype node' = btype node ∧ len node' = len node ∧
         ∀ j, 0 ≤ j < 3 → j ≠ 1 → getPtr node' j = getPtr node j) ∧
    (3 ≤ 1 →
       getPtr node 1 = Fatal (AssertionFailed "Try to read a out of bound pointer") ∧
       setPtr node 1 7 = Fatal (AssertionFailed "Try to write a out of bound pointer")).
Proof.
  eexists. split; [run|].
  apply (setPtr_getPtr_round_trip _ 3 1 7); [run|by vm_compute..].
Defined.

(** The same node: the offset at index 2. *)
Lemma setOffset_getOffset_round_trip_witness :
  ∃ node, setHeader (make 64) 1 3 = Ok node ∧
    (1 ≤ 2 ≤ 3 →
       ∃ node', setOffset node 2 9 = Ok node' ∧ getOffset node' 2 = Ok 9 ∧
         nkeys node' = Ok 3 ∧ btype node' = btype node ∧ len node' = len node ∧
         ∀ j, 0 ≤ j ≤ 3 → j ≠ 2 → getOffset node' j = getOffset node j) ∧
    (getOffset node 0 = Ok 0 ∧ setOffset node 0 9 = Ok node) ∧
    (3 < 2 →
       getOffset node 2 =
         Fatal (AssertionFailed "Try to read a out of bound offset position") ∧
       setOffset node 2 9 =
         Fatal (AssertionFailed "Try to read a out of bound offset position")).
Proof.
  eexists. split; [run|].
  apply (setOffset_getOffset_round_trip _ 3 2 9); [run|by vm_compute..].
Defined.

(** The leaf that holds the one pair ("a", "1"). *)
Lemma repr_reads_witness :
  ∃ node, leaf1 (bytes_of "a") (bytes_of "1") = Ok node ∧
    btype node = Ok BNODE_LEAF ∧ nkeys node = Ok 1 ∧
    nbytes node = Ok (HEADER + 10 * 1 + 6) ∧
    (∀ (i : nat) e, [mkEntry 0 (bytes_of "a") (bytes_of "1")] !! i = Some e →
       getPtr node (Z.of_nat i) = Ok (e_ptr e) ∧
       getKey node (Z.of_nat i) = Ok (e_key e) ∧
       getVal node (Z.of_nat i) = Ok (e_val e)) ∧
    (∀ idx, 1 ≤ idx →
       getPtr node idx = Fatal (AssertionFailed "Try to read a out of bound pointer") ∧
       getKey node idx = Fatal (AssertionFailed "Try to read a out of bound key") ∧
       getVal node idx = Fatal (AssertionFailed "Try to read a out of bound val")).
Proof.
  destruct (leaf1_repr (bytes_of "a") (bytes_of "1")) as (l & Hl & Hrl & _);
    [by vm_compute|].
  exists l. split; [exact Hl|].
  exact (repr_reads l BNODE_LEAF [mkEntry 0 (bytes_of "a") (bytes_of "1")] Hrl).
Defined.

(** The first entry of a fresh page with room for two. *)
Lemma nodeAppendKV_reads_back_witness :
  ∃ node node',
    setHeader (make BTREE_PAGE_SIZE) BNODE_LEAF 2 = Ok node ∧
    nodeAppendKV node 0 5 (bytes_of "a") (bytes_of "1") = Ok node' ∧
    getPtr node' 0 = Ok 5 ∧ getKey node' 0 = Ok (bytes_of "a") ∧
    getVal node' 0 = Ok (bytes_of "1").
Proof.
  destruct (filled_setHeader (make BTREE_PAGE_SIZE) BNODE_LEAF 2)
    as (n0 & Hset & Hf0 & _ & Hl0 & _); [by vm_compute..|].
  assert (len n0 = BTREE_PAGE_SIZE) as Hlen by exact Hl0.
  destruct (nodeAppendKV_reads_back n0 2 [] 5 (bytes_of "a") (bytes_of "1") Hf0)
    as (n1 & Hrun & Hp & Hk & Hv & _);
    [by vm_compute|by vm_compute|rewrite Hlen; by vm_compute|].
  exists n0, n1. split; [exact Hset|]. split; [exact Hrun|].
  split; [exact Hp|]. split; [exact Hk|exact Hv].
Defined.

(** A page of twenty bytes with one key: a value of ten bytes runs over
    its end. *)
Lemma nodeAppendKV_value_overruns_witness :
  ∃ node node',
    setHeader (make 20) BNODE_LEAF 1 = Ok node ∧
    nodeAppendKV node 0 0 (bytes_of "a") (filler 10) = Ok node' ∧
    len node' = 20 ∧ getOffset node' 1 = Ok 15 ∧ len node' < HEADER + 10 + 15.
Proof.
  destruct (filled_setHeader (make 20) BNODE_LEAF 1)
    as (n0 & Hset & Hf0 & _ & Hl0 & _); [by vm_compute..|].
  assert (len n0 = 20) as Hlen by exact Hl0.
  destruct (nodeAppendKV_value_overruns n0 1 [] 0 (bytes_of "a") (filler 10) Hf0)
    as (n1 & Hrun & Hl1 & Ho & Hover);
    [by vm_compute|rewrite Hlen; by vm_compute|rewrite Hlen; by vm_compute
    |by vm_compute|].
  exists n0, n1. split; [exact Hset|]. split; [exact Hrun|].
  split; [by rewrite Hl1|]. split; [exact Ho|exact Hover].
Defined.

(** Two nodes of one key each: a range of two keys is refused, and an
    empty range changes nothing. *)
Lemma nodeAppendRange_edges_witness :
  ∃ node, setHeader (make 64) BNODE_LEAF 1 = Ok node ∧
    (1 < u16 (0 + 2) →
       nodeAppendRange node node 0 0 2 =
         Fatal (AssertionFailed "Try to append out of bound kids from older node")) ∧
    (u16 (0 + 2) ≤ 1 → 1 < u16 (0 + 2) →
       nodeAppendRange node node 0 0 2 =
         Fatal (AssertionFailed "Try to append out of bound kids to new node")) ∧
    (u16 0 ≤ 1 → u16 0 ≤ 1 → nodeAppendRange node node 0 0 0 = Ok node).
Proof.
  eexists. split; [run|].
  apply (nodeAppendRange_edges _ _ 0 0 2 1 1); run.
Defined.

(** One entry copied from a leaf into a fresh page. *)
Lemma nodeAppendRange_copies_witness :
  ∃ old new new',
    leaf1 (bytes_of "a") (bytes_of "1") = Ok old ∧
    setHeader (make BTREE_PAGE_SIZE) BNODE_LEAF 1 = Ok new ∧
    nodeAppendRange new old 0 0 1 = Ok new' ∧
    filled new' 1 [mkEntry 0 (bytes_of "a") (bytes_of "1")] ∧
    getKey new' 0 = Ok (bytes_of "a") ∧ getVal new' 0 = Ok (bytes_of "1").
Proof.
  destruct (leaf1_repr (bytes_of "a") (bytes_of "1")) as (l & Hl & Hrl & _);
    [by vm_compute|].
  destruct (filled_setHeader (make BTREE_PAGE_SIZE) BNODE_LEAF 1)
    as (n0 & Hset & Hf0 & _ & Hl0 & _); [by vm_compute..|].
  assert (len n0 = BTREE_PAGE_SIZE) as Hlen by exact Hl0.
  destruct (nodeAppendRange_copies n0 1 [] l BNODE_LEAF
              [mkEntry 0 (bytes_of "a") (bytes_of "1")] 0 1 Hf0 Hrl)
    as (n1 & Hrun & Hf1 & _ & _ & Hread & _);
    [by vm_compute|by vm_compute|rewrite Hlen; by vm_compute|].
  destruct (Hread 0%nat (mkEntry 0 (bytes_of "a") (bytes_of "1")))
    as (_ & Hk & Hv); [lia|reflexivity|].
  exists l, n0, n1. split; [exact Hl|]. split; [exact Hset|].
  split; [exact Hrun|]. split; [exact Hf1|]. split; [exact Hk|exact Hv].
Defined.

(** A leaf with the keys "a" and "b", looked up at "b". *)
Lemma nodeLookupLE_floor_witness :
  ∃ l node (i : nat),
    leaf1 (bytes_of "a") (bytes_of "1") = Ok l ∧
    leafInsert (make (2 * BTREE_PAGE_SIZE)) l 1 (bytes_of "b") (bytes_of "2") = Ok node ∧
    nodeLookupLE 2 node (bytes_of "b") = Ok (Z.of_nat i) ∧ (i < 2)%nat ∧
    getKey node (Z.of_nat i) = Ok (bytes_of "b").
Proof.
  destruct (leaf2_repr (bytes_of "a") (bytes_of "1") (bytes_of "b") (bytes_of "2"))
    as (l & old & Hl & Hins & Hro); [by vm_compute..|].
  destruct (nodeLookupLE_floor old BNODE_LEAF
              [mkEntry 0 (bytes_of "a") (bytes_of "1");
               mkEntry 0 (bytes_of "b") (bytes_of "2")] (bytes_of "b") 2 Hro)
    as (i & Hrun & Hi & _ & _ & Hkey).
  - intros a b ea eb Ha Hab Hea Heb.
    destruct a as [|[|a]]; [lia| |discriminate Hea].
    destruct b as [|[|b]]; [lia| |discriminate Heb].
    injection Hea as <-. injection Heb as <-. by vm_compute.
  - discriminate.
  - cbn [length]. lia.
  - exists l, old, i. split; [exact Hl|]. split; [exact Hins|].
    split; [exact Hrun|]. split; [exact Hi|].
    apply (Hkey 1%nat (mkEntry 0 (bytes_of "b") (bytes_of "2"))); [lia|reflexivity..].
Defined.

(** A node of one key and a node of none. *)
Lemma nodeLookupLE_small_nodes_witness :
  ∃ one none,
    setHeader (make 64) BNODE_LEAF 1 = Ok one ∧
    setHeader (make 64) BNODE_LEAF 0 = Ok none ∧
    nodeLookupLE 1 one (bytes_of "a") = Ok 0 ∧
    nodeLookupLE 1 none (bytes_of "a") =
      Fatal (AssertionFailed "Try to read a out of bound key").
Proof.
  eexists _, _. split; [run|]. split; [run|]. split.
  - apply (nodeLookupLE_small_nodes _ (bytes_of "a") 0). run.
  - apply (nodeLookupLE_small_nodes _ (bytes_of "a") 0). run.
Defined.

(** The pair ("b", "2") put behind the one entry of a leaf. *)
Lemma leafInsert_inserts_witness :
  ∃ old new,
    leaf1 (bytes_of "a") (bytes_of "1") = Ok old ∧
    leafInsert (make (2 * BTREE_PAGE_SIZE)) old 1 (bytes_of "b") (bytes_of "2") = Ok new ∧
    repr new BNODE_LEAF
      [mkEntry 0 (bytes_of "a") (bytes_of "1"); mkEntry 0 (bytes_of "b") (bytes_of "2")] ∧
    getKey new 1 = Ok (bytes_of "b") ∧ getVal new 1 = Ok (bytes_of "2").
Proof.
  destruct (leaf1_repr (bytes_of "a") (bytes_of "1")) as (l & Hl & Hrl & _);
    [by vm_compute|].
  destruct (leafInsert_inserts (make (2 * BTREE_PAGE_SIZE)) l BNODE_LEAF
              [mkEntry 0 (bytes_of "a") (bytes_of "1")] 1
              (bytes_of "b") (bytes_of "2") Hrl)
    as (new & Hrun & Hr & Hk & Hv); [cbn [length]; lia|by vm_compute..|].
  exists l, new. split; [exact Hl|]. split; [exact Hrun|].
  split; [exact Hr|]. split; [exact Hk|exact Hv].
Defined.

(** The first page that the empty table hands out. *)
Lemma pt_new_get_del_witness :
  ∃ node p c',
    leaf1 (bytes_of "a") (bytes_of "1") = Ok node ∧
    pt_new (store NewC) node = Ok (p, c') ∧
    pt_get c' p = Ok node ∧
    ∃ c'', pt_del c' p = Ok c'' ∧ pages c'' = pages (store NewC) ∧
           pt_get c'' p = Fatal (AssertionFailed "Can't read allocated data").
Proof.
  destruct (leaf1_repr (bytes_of "a") (bytes_of "1")) as (l & Hl & Hrl & _);
    [by vm_compute|].
  pose proof (pt_new_Ok (store NewC) l BNODE_LEAF _ Hrl) as Hnew.
  specialize (Hnew ltac:(by vm_compute) ltac:(reflexivity)).
  destruct (pt_new_get_del (store NewC) l _ _ Hnew) as (_ & _ & Hget & _ & Hdel).
  eexists l, _, _. split; [exact Hl|]. split; [exact Hnew|].
  split; [exact Hget|exact Hdel].
Defined.

(** The empty table, and a leaf whose one value is longer than a page. *)
Lemma pt_errors_witness :
  ∃ node,
    leaf1 [] (filler 5000) = Ok node ∧
    pt_get (store NewC) 7 = Fatal (AssertionFailed "Can't read allocated data") ∧
    pt_del (store NewC) 7 =
      Fatal (AssertionFailed "try to de-allocate a pointer that is not occupied") ∧
    pt_new (store NewC) node = Fatal (AssertionFailed "new node exceed max size").
Proof.
  let r := eval vm_compute in (leaf1 [] (filler 5000)) in
  match r with
  | Ok ?n =>
      exists n; split; [run|];
      destruct (pt_errors (store NewC) 7 n 5018) as [Hmiss Hbig];
      destruct (Hmiss ltac:(reflexivity)) as [Hg Hd];
      split; [exact Hg|]; split; [exact Hd|];
      apply Hbig; [run|by vm_compute]
  end.
Defined.

(** Insert "a", then delete it: "a" is gone and the sentinel still reads. *)
Lemma delete_then_read_one_leaf_witness :
  ∃ t t',
    C_Insert 3 NewC (bytes_of "a") (bytes_of "1") = Ok t ∧
    C_Delete 3 t (bytes_of "a") = Ok (true, t') ∧
    C_Read 3 t' (bytes_of "a") = Ok ([], false) ∧
    C_Read 3 t' [] = Ok ([], true).
Proof.
  destruct (C_Insert_first 3 (bytes_of "a") (bytes_of "1")) as (t & Hrun & Ht);
    [by vm_compute|].
  assert (strictly_sorted [sentinel; mkEntry 0 (bytes_of "a") (bytes_of "1")]) as Hs.
  { intros i j ei ej Hij Hi Hj.
    destruct i as [|[|i]]; [|destruct j as [|[|j]]; [lia|lia|discriminate Hj]
                            |discriminate Hi].
    destruct j as [|[|j]]; [lia| |discriminate Hj].
    injection Hi as <-. injection Hj as <-. by vm_compute. }
  destruct (delete_then_read_one_leaf 3 t _ 1 (mkEntry 0 (bytes_of "a") (bytes_of "1"))
              Ht Hs)
    as (t' & Hdel & Hgone & Hrest);
    [reflexivity|cbn [length]; lia|by vm_compute|].
  exists t, t'. split; [exact Hrun|]. split; [exact Hdel|]. split; [exact Hgone|].
  apply (Hrest sentinel); [apply elem_of_cons; left; reflexivity|discriminate].
Defined.

(** Insert "a", delete it, delete the sentinel: no call returns any
    more. *)
Lemma delete_last_entry_bricks_tree_witness :
  ∃ t1 t2 t3,
    C_Insert 3 NewC (bytes_of "a") (bytes_of "1") = Ok t1 ∧
    C_Delete 3 t1 (bytes_of "a") = Ok (true, t2) ∧
    C_Delete 3 t2 [] = Ok (true, t3) ∧
    ∀ key val,
      C_Read 3 t3 key = Fatal (AssertionFailed "Try to read a out of bound key") ∧
      C_Insert 3 t3 key val = Fatal (AssertionFailed "Try to read a out of bound key") ∧
      C_Delete 3 t3 key = Fatal (AssertionFailed "Try to read a out of bound key").
Proof.
  destruct (C_Insert_first 3 (bytes_of "a") (bytes_of "1")) as (t1 & Hrun & Ht1);
    [by vm_compute|].
  assert (strictly_sorted [sentinel; mkEntry 0 (bytes_of "a") (bytes_of "1")]) as Hs.
  { intros i j ei ej Hij Hi Hj.
    destruct i as [|[|i]]; [|destruct j as [|[|j]]; [lia|lia|discriminate Hj]
                            |discriminate Hi].
    destruct j as [|[|j]]; [lia| |discriminate Hj].
    injection Hi as <-. injection Hj as <-. by vm_compute. }
  destruct (C_Delete_leaf 3 t1 _ 1 (mkEntry 0 (bytes_of "a") (bytes_of "1")) Ht1 Hs)
    as (t2 & Hdel & Ht2); [reflexivity|cbn [length]; lia|by vm_compute|].
  change (leaf_tree t2 [sentinel]) in Ht2.
  destruct (delete_last_entry_bricks_tree 3 t2 sentinel Ht2) as (t3 & Hdel2 & _ & Hall);
    [lia|].
  exists t1, t2, t3. split; [exact Hrun|]. split; [exact Hdel|].
  split; [exact Hdel2|exact Hall].
Defined.

(** The run Add("a", "1"), Add("b", "2"), Del("a"). *)
Lemma wrapper_agrees_with_Ref_witness :
  ∃ c, c_run 5 c_new [OpAdd "a" "1"; OpAdd "b" "2"; OpDel "a"] = Ok c ∧
       ∀ k, k ≠ EmptyString →
         c_Read 5 c k =
           Ok (default EmptyString (Ref c !! k), bool_decide (is_Some (Ref c !! k))).
Proof.
  apply (wrapper_agrees_with_Ref 5 "a" "1" [OpAdd "b" "2"; OpDel "a"]).
  - cbn [fresh_adds]. split; [discriminate|]. split; [reflexivity|].
    split; [discriminate|]. split; [by vm_compute|]. split; [discriminate|exact I].
  - by vm_compute.
  - cbn [length]. lia.
Defined.

(** ** Examples of the statements on trees of any height *)

(** A leaf of 32 entries of 128 bytes each, 4100 bytes: [nodeSplit3]
    gives two leaves of 16 entries. *)
Lemma nodeSplit3_small_entries_witness :
  ∃ node left right,
    repr node BNODE_LEAF (replicate 32 (mkEntry 0 (filler 14) (filler 100))) ∧
    nodeSplit3 node = Ok (2, (left, right, empty_node)) ∧
    repr left BNODE_LEAF (replicate 16 (mkEntry 0 (filler 14) (filler 100))) ∧
    repr right BNODE_LEAF (replicate 16 (mkEntry 0 (filler 14) (filler 100))).
Proof.
  destruct (leaf_exists (replicate 32 (mkEntry 0 (filler 14) (filler 100))))
    as (node & Hr & Hcap).
  { apply Forall_replicate. reflexivity. }
  { by vm_compute. }
  destruct (nodeSplit3_small_entries node BNODE_LEAF _ Hr) as [_ Hsplit].
  { by vm_compute. }
  { apply Forall_replicate. by vm_compute. }
  { rewrite Hcap. by vm_compute. }
  { by vm_compute. }
  destruct (Hsplit ltac:(by vm_compute)) as (left & right & Hrun & Hrl & Hrr & _).
  exists node, left, right.
  split; [exact Hr|]. split; [exact Hrun|]. split; [exact Hrl|exact Hrr].
Defined.

(** An internal node with one kid, whose entry gives way to a leaf that
    holds ("a", "1"): the leaf gets page 2. *)
Lemma nodeReplaceKidN_replaces_witness :
  ∃ old kid new',
    repr old BNODE_NODE [mkEntry 1 [] []] ∧
    leaf1 (bytes_of "a") (bytes_of "1") = Ok kid ∧
    nodeReplaceKidN pt_new (mkPageTable ∅ 2) (make (2 * BTREE_PAGE_SIZE)) old 0 [kid] =
      Ok (new', mkPageTable (<[2 := kid]> ∅) 3) ∧
    repr new' BNODE_NODE [mkEntry 2 (bytes_of "a") []].
Proof.
  destruct (filled_setHeader (make BTREE_PAGE_SIZE) BNODE_NODE 1)
    as (n0 & _ & Hf0 & Hb0 & Hl0 & _); [by vm_compute..|].
  assert (len n0 = BTREE_PAGE_SIZE) as Hlen by exact Hl0.
  destruct (filled_append n0 1 [] (mkEntry 1 [] []) Hf0) as (_ & Hf1 & Hb1);
    [by vm_compute|by vm_compute|rewrite Hlen; by vm_compute|].
  assert (repr (mkBNode (appended (arr n0) 1 (Z.of_nat (length (@nil entry))) (offs [])
                           (mkEntry 1 [] [])) (len n0))
               BNODE_NODE [mkEntry 1 [] []]) as Hold.
  { split; [by rewrite Hb1|exact Hf1]. }
  destruct (leaf1_repr (bytes_of "a") (bytes_of "1")) as (l & Hl & Hrl & _);
    [by vm_compute|].
  destruct (nodeReplaceKidN_replaces (mkPageTable ∅ 2) _ _ 0 [(l, bytes_of "a")] Hold)
    as (new' & Hrun & Hr & _).
  { cbn [length]. lia. }
  { discriminate. }
  { constructor; [|constructor].
    exists BNODE_LEAF, [mkEntry 0 (bytes_of "a") (bytes_of "1")].
    split; [exact Hrl|]. split; [reflexivity|by vm_compute]. }
  { by vm_compute. }
  { intros p _. apply lookup_empty. }
  { by vm_compute. }
  { by vm_compute. }
  eexists _, l, new'. split; [exact Hold|]. split; [exact Hl|].
  split; [exact Hrun|exact Hr].
Defined.

Lemma sorted_two k v :
  k ≠ [] → strictly_sorted [sentinel; mkEntry 0 k v].
Proof.
  intros Hk i j ei ej Hij Hi Hj.
  destruct i as [|[|i]]; [|destruct j as [|[|j]]; [lia|lia|discriminate Hj]
                          |discriminate Hi].
  destruct j as [|[|j]]; [lia| |discriminate Hj].
  injection Hi as <-. injection Hj as <-. by apply key_lt_nil.
Qed.

(** The tree after [Insert("a", "1")]: the sentinel and "a" are found,
    nothing else. *)
Lemma Read_on_tree_witness :
  ∃ t, C_Insert 600 NewC (bytes_of "a") (bytes_of "1") = Ok t ∧
    (∀ e, e ∈ [sentinel; mkEntry 0 (bytes_of "a") (bytes_of "1")] →
       C_Read 600 t (e_key e) = Ok (e_val e, true)) ∧
    (∀ key, (∀ e, e ∈ [sentinel; mkEntry 0 (bytes_of "a") (bytes_of "1")] →
               e_key e ≠ key) →
       C_Read 600 t key = Ok ([], false)).
Proof.
  assert (strictly_sorted [sentinel; mkEntry 0 (bytes_of "a") (bytes_of "1")]) as Hs
    by (apply sorted_two; discriminate).
  assert (node_size [sentinel; mkEntry 0 (bytes_of "a") (bytes_of "1")]
            ≤ BTREE_PAGE_SIZE) as Hsz by (by vm_compute).
  destruct (C_Insert_first 600 (bytes_of "a") (bytes_of "1")) as (t & Hrun & Ht);
    [by vm_compute|].
  exists t. split; [exact Hrun|].
  apply (Read_on_tree 600 t 0 _ (leaf_tree_btree_at _ _ Ht Hsz) Hs).
  - discriminate.
  - lia.
Defined.

(** [Insert("b", "2")] into the tree that holds "a": both keys are
    found afterwards. *)
Lemma Insert_on_tree_witness :
  ∃ t t',
    C_Insert 601 NewC (bytes_of "a") (bytes_of "1") = Ok t ∧
    C_Insert 601 t (bytes_of "b") (bytes_of "2") = Ok t' ∧
    C_Read 601 t' (bytes_of "b") = Ok (bytes_of "2", true) ∧
    C_Read 601 t' (bytes_of "a") = Ok (bytes_of "1", true).
Proof.
  assert (strictly_sorted [sentinel; mkEntry 0 (bytes_of "a") (bytes_of "1")]) as Hs
    by (apply sorted_two; discriminate).
  assert (node_size [sentinel; mkEntry 0 (bytes_of "a") (bytes_of "1")]
            ≤ BTREE_PAGE_SIZE) as Hsz by (by vm_compute).
  assert (Forall small [sentinel; mkEntry 0 (bytes_of "a") (bytes_of "1")]) as Hsm.
  { constructor; [by vm_compute|]. constructor; [by vm_compute|constructor]. }
  assert (key_lt [] (bytes_of "b")) as Hlt by (by vm_compute).
  assert (∀ e, e ∈ [sentinel; mkEntry 0 (bytes_of "a") (bytes_of "1")] →
               e_key e ≠ bytes_of "b") as Habs.
  { intros e [-> | ->%list_elem_of_singleton]%elem_of_cons; discriminate. }
  assert (small (mkEntry 0 (bytes_of "b") (bytes_of "2"))) as Hsmb by (by vm_compute).
  destruct (C_Insert_first 601 (bytes_of "a") (bytes_of "1")) as (t & Hrun & Ht);
    [by vm_compute|].
  assert (next_addr (store t) + 2 * Z.of_nat 0 + 3 ≤ 2 ^ 64) as Hmax.
  { rewrite (C_Insert_first_addr _ _ _ _ Hrun). vm_compute. intros H. discriminate H. }
  destruct (Insert_on_tree 601 t 0 _ (bytes_of "b") (bytes_of "2") []
              (leaf_tree_btree_at _ _ Ht Hsz) Hs Hsm eq_refl Hlt Habs Hsmb
              ltac:(lia) Hmax)
    as (t' & h' & es' & Hrun' & _ & _ & _ & _ & Hb & Hold & _).
  exists t, t'. split; [exact Hrun|]. split; [exact Hrun'|]. split; [exact Hb|].
  apply (Hold (mkEntry 0 (bytes_of "a") (bytes_of "1"))).
  apply elem_of_cons. right. apply list_elem_of_singleton. reflexivity.
Defined.

(** Forty pairs with keys of 1 to 40 bytes and values of 70 bytes: the
    entries take 4198 bytes with the sentinel, more than one page, so the
    root leaf is split on the way. *)
Lemma read_after_write_small_entries_witness :
  ∃ t,
    insert_all 640 NewC
      ((λ i : nat, (replicate (S i) Byte.x61, filler 70)) <$> seq 0 40) = Ok t ∧
    (∀ k v, (k, v) ∈ (λ i : nat, (replicate (S i) Byte.x61, filler 70)) <$> seq 0 40 →
       C_Read 640 t k = Ok (v, true)) ∧
    (∀ k, k ∉ ((λ i : nat, (replicate (S i) Byte.x61, filler 70)) <$> seq 0 40).*1 →
       k ≠ [] → C_Read 640 t k = Ok ([], false)).
Proof.
  apply (read_after_write_small_entries 640).
  - rewrite <- list_fmap_compose. apply NoDup_fmap_2; [|apply NoDup_seq].
    intros i j Hij. unfold compose in Hij. cbn [fst] in Hij.
    apply (f_equal length) in Hij. rewrite !length_replicate in Hij.
    injection Hij as Hij. exact Hij.
  - intros k Hk. rewrite <- list_fmap_compose in Hk.
    apply list_elem_of_fmap in Hk as (i & -> & _). discriminate.
  - intros k v Hin. apply list_elem_of_fmap in Hin as (i & Heq & Hi).
    injection Heq as -> ->. apply elem_of_seq in Hi.
    unfold blen, filler. cbn [length]. rewrite !length_replicate. lia.
  - rewrite length_fmap, length_seq. lia.
  - rewrite length_fmap, length_seq. by vm_compute.
Defined.
